(** * A cooperative round-robin scheduler for AVR: model and properties

    The development embeds [scheduler.h] / [scheduler.c] (debug build,
    [SCHEDULER_DEBUG] defined) as pure functions over an explicit scheduler
    state.  C integers are integers of [Z] with their wrap-around written
    out, the array of task control blocks is a list indexed with [!!], and
    every operation that the C standard leaves undefined (an access outside
    the array, a remainder by zero) or that ends in an empty loop stops the
    computation with a [fault]. *)

From Stdlib Require Import ZArith Lia Bool.
From stdpp Require Import base tactics option list.

Local Open Scope Z_scope.

(** ** Machine integers *)

Definition uint8 (z : Z) : Z := z mod 256.
Definition uint16 (z : Z) : Z := z mod 65536.
Definition uint32 (z : Z) : Z := z mod 4294967296.

(** ** Compile-time configuration ([scheduler.h]) *)

Definition MAX_TASKS : Z := 8.
Definition TASK_STACK_SIZE : Z := 128.

(** Bit positions of the timer registers ([avr/io.h]). *)
Definition WGM01 : Z := 1.
Definition CS01 : Z := 1.
Definition CS00 : Z := 0.
Definition OCIE0A : Z := 1.

(** ** Faults: what ends a computation without a result *)

Inductive fault : Type :=
| OutOfBounds      (* access outside [tasks] or outside a task stack *)
| DivisionByZero   (* [x % 0] *)
| HaltForever      (* [while(1);] *)
| OutOfFuel.       (* the model's loop bound was reached *)

Inductive res (A : Type) : Type :=
| Done (a : A)
| Stop (f : fault).

Arguments Done {A} a.
Arguments Stop {A} f.

Definition bind {A B : Type} (m : res A) (k : A -> res B) : res B :=
  match m with
  | Done a => k a
  | Stop f => Stop f
  end.

Notation "'let!' x ':=' m 'in' k" := (bind m (fun x => k))
  (at level 10, x pattern, m at level 100, k at level 200).

(** ** Data model *)

Inductive task_state_t : Type :=
| TASK_READY
| TASK_RUNNING
| TASK_BLOCKED
| TASK_SUSPENDED.

(** A task control block.  [stack_pointer] is [None] for the null pointer
    and [Some k] for [&stack[k]].  [stack] holds the bytes the scheduler
    itself stores there; what the running code pushes on the stack it
    executes on is not part of the model. *)
Record task_t : Type := mk_task {
  stack_pointer : option Z;
  stack : list Z;
  state : task_state_t;
  task_id : Z;
  delay_ticks : Z;
  runtime_ticks : Z;
  times_scheduled : Z
}.

Record scheduler_debug_t : Type := mk_debug {
  total_ticks : Z;
  context_switches : Z;
  voluntary_yields : Z
}.

(** The I/O registers the scheduler writes. *)
Record avr_io : Type := mk_io {
  TCCR0A : Z;
  TCCR0B : Z;
  OCR0A : Z;
  TIMSK0 : Z;
  SREG : Z
}.

(** The file-scope variables of [scheduler.c]. *)
Record sched : Type := mk_sched {
  tasks : list task_t;
  task_count : Z;
  current_task : Z;
  scheduler_running : Z;
  debug_stats : scheduler_debug_t;
  io : avr_io
}.

Definition is_running (st : task_state_t) : bool :=
  match st with TASK_RUNNING => true | _ => false end.

Definition is_blocked (st : task_state_t) : bool :=
  match st with TASK_BLOCKED => true | _ => false end.

Definition is_suspended (st : task_state_t) : bool :=
  match st with TASK_SUSPENDED => true | _ => false end.

(** The dispatcher's test [state == TASK_READY || state == TASK_RUNNING]. *)
Definition is_eligible (st : task_state_t) : bool :=
  match st with TASK_READY | TASK_RUNNING => true | _ => false end.

(** *** Field updates *)

Definition set_state (st : task_state_t) (t : task_t) : task_t :=
  mk_task (stack_pointer t) (stack t) st (task_id t) (delay_ticks t)
          (runtime_ticks t) (times_scheduled t).

Definition set_task_id (i : Z) (t : task_t) : task_t :=
  mk_task (stack_pointer t) (stack t) (state t) i (delay_ticks t)
          (runtime_ticks t) (times_scheduled t).

Definition set_delay_ticks (d : Z) (t : task_t) : task_t :=
  mk_task (stack_pointer t) (stack t) (state t) (task_id t) d
          (runtime_ticks t) (times_scheduled t).

Definition set_runtime_ticks (r : Z) (t : task_t) : task_t :=
  mk_task (stack_pointer t) (stack t) (state t) (task_id t) (delay_ticks t)
          r (times_scheduled t).

Definition set_times_scheduled (n : Z) (t : task_t) : task_t :=
  mk_task (stack_pointer t) (stack t) (state t) (task_id t) (delay_ticks t)
          (runtime_ticks t) n.

Definition set_stack (sp : option Z) (stk : list Z) (t : task_t) : task_t :=
  mk_task sp stk (state t) (task_id t) (delay_ticks t)
          (runtime_ticks t) (times_scheduled t).

Definition with_tasks (ts : list task_t) (s : sched) : sched :=
  mk_sched ts (task_count s) (current_task s) (scheduler_running s)
           (debug_stats s) (io s).

Definition with_task_count (n : Z) (s : sched) : sched :=
  mk_sched (tasks s) n (current_task s) (scheduler_running s)
           (debug_stats s) (io s).

Definition with_current_task (c : Z) (s : sched) : sched :=
  mk_sched (tasks s) (task_count s) c (scheduler_running s)
           (debug_stats s) (io s).

Definition with_scheduler_running (r : Z) (s : sched) : sched :=
  mk_sched (tasks s) (task_count s) (current_task s) r
           (debug_stats s) (io s).

Definition with_debug_stats (d : scheduler_debug_t) (s : sched) : sched :=
  mk_sched (tasks s) (task_count s) (current_task s) (scheduler_running s)
           d (io s).

Definition with_io (h : avr_io) (s : sched) : sched :=
  mk_sched (tasks s) (task_count s) (current_task s) (scheduler_running s)
           (debug_stats s) h.

Definition with_SREG (v : Z) (h : avr_io) : avr_io :=
  mk_io (TCCR0A h) (TCCR0B h) (OCR0A h) (TIMSK0 h) v.

(** *** Array access: [tasks[i]] *)

Definition tcb (ts : list task_t) (i : Z) : res task_t :=
  if 0 <=? i then
    match ts !! Z.to_nat i with
    | Some t => Done t
    | None => Stop OutOfBounds
    end
  else Stop OutOfBounds.

(** [tasks[i].field = ...], written as an update of the whole block. *)
Definition tcb_update (ts : list task_t) (i : Z) (f : task_t -> task_t)
  : res (list task_t) :=
  let! t := tcb ts i in
  Done (<[Z.to_nat i := f t]> ts).

(** The all-zero task control block left by [memset]. *)
Definition zero_task : task_t :=
  mk_task None (replicate (Z.to_nat TASK_STACK_SIZE) 0) TASK_READY 0 0 0 0.

(** ** Operations ([scheduler.c]) *)

(** [cli()] and [sei()] clear and set the I bit (bit 7) of [SREG]. *)
Definition cli (h : avr_io) : avr_io := with_SREG (Z.land (SREG h) 127) h.
Definition sei (h : avr_io) : avr_io := with_SREG (Z.lor (SREG h) 128) h.

Definition scheduler_init (s : sched) : sched :=
  mk_sched (replicate (Z.to_nat MAX_TASKS) zero_task) 0 0 0
           (mk_debug 0 0 0)
           (mk_io (Z.shiftl 1 WGM01)
                  (Z.lor (Z.shiftl 1 CS01) (Z.shiftl 1 CS00))
                  249
                  (Z.shiftl 1 OCIE0A)
                  (SREG (io s))).

(** [*stack_top-- = v] on a stack region [stk], the pointer being the index
    [top] into it. *)
Definition push (v : Z) (m : list Z * Z) : res (list Z * Z) :=
  let '(stk, top) := m in
  if (0 <=? top) && (top <? Z.of_nat (length stk))
  then Done (<[Z.to_nat top := v]> stk, top - 1)
  else Stop OutOfBounds.

Fixpoint push_zeros (n : nat) (m : list Z * Z) : res (list Z * Z) :=
  match n with
  | O => Done m
  | S n' => let! m' := push 0 m in push_zeros n' m'
  end.

Section Firmware.

(** The code address of the exit handler [task_exit], fixed at link time. *)
Variable task_exit_addr : Z.

Definition init_stack (stk : list Z) (stack_top : Z) (task_function : Z)
  : res (list Z * Z) :=
  let func_addr := uint16 task_function in
  let! m := push (Z.land (uint16 task_exit_addr) 255) (stk, stack_top) in
  let! m := push (Z.land (Z.shiftr (uint16 task_exit_addr) 8) 255) m in
  let! m := push (Z.land func_addr 255) m in
  let! m := push (Z.land (Z.shiftr func_addr 8) 255) m in
  let! m := push 0 m in
  let! m := push 128 m in
  push_zeros 31 m.

(** [scheduler_add_task]: the returned pair is the [int8_t] result and the
    new state.  A task function is its code address, [0] being [NULL]. *)
Definition scheduler_add_task (task_function : Z) (s : sched)
  : res (Z * sched) :=
  if (MAX_TASKS <=? task_count s) || (task_function =? 0) then Done (-1, s)
  else
    let id := task_count s in
    let! ts := tcb_update (tasks s) id (set_task_id id) in
    let! ts := tcb_update ts id (set_state TASK_READY) in
    let! ts := tcb_update ts id (set_delay_ticks 0) in
    let! t := tcb ts id in
    let! (stk, sp) := init_stack (stack t) (TASK_STACK_SIZE - 1)
                                  task_function in
    let! ts := tcb_update ts id (set_stack (Some sp) stk) in
    Done (id, with_task_count (uint8 (task_count s + 1)) (with_tasks ts s)).

End Firmware.

(** [scheduler_start] never returns to its caller.  The definition covers
    its C statements, up to the load of the saved stack pointer: [Done s']
    holds the variables as these statements leave them, [SREG] being the
    value [sei()] wrote, and [Stop HaltForever] is the [while(1);] taken
    when no task is registered.  The restore sequence that follows writes
    [SREG] once more before the first task begins to execute; it is
    [restore_context] below, and [scheduler_start_context] is the function
    up to the first instruction of the task. *)
Definition scheduler_start (s : sched) : res sched :=
  if task_count s =? 0 then Stop HaltForever
  else
    let s := with_current_task 0 s in
    let! ts := tcb_update (tasks s) (current_task s) (set_state TASK_RUNNING) in
    let s := with_tasks ts s in
    let s := with_scheduler_running 1 s in
    let s := with_io (sei (io s)) s in
    let! _ := tcb (tasks s) (current_task s) in
    Done s.

(** One iteration of the delay loop of the tick handler. *)
Definition isr_delay_step (ts : list task_t) (i : Z) : res (list task_t) :=
  let! t := tcb ts i in
  if 0 <? delay_ticks t then
    let! ts := tcb_update ts i
                 (fun t => set_delay_ticks (uint16 (delay_ticks t - 1)) t) in
    let! t := tcb ts i in
    if (delay_ticks t =? 0) && is_blocked (state t)
    then tcb_update ts i (set_state TASK_READY)
    else Done ts
  else Done ts.

(** [for (i = 0; i < task_count; i++) body], over the indices in order. *)
Fixpoint for_tasks (idx : list Z) (ts : list task_t) : res (list task_t) :=
  match idx with
  | [] => Done ts
  | i :: rest => let! ts' := isr_delay_step ts i in for_tasks rest ts'
  end.

Definition bump_total_ticks (d : scheduler_debug_t) : scheduler_debug_t :=
  mk_debug (uint32 (total_ticks d + 1)) (context_switches d)
           (voluntary_yields d).

Definition bump_context_switches (d : scheduler_debug_t) : scheduler_debug_t :=
  mk_debug (total_ticks d) (uint32 (context_switches d + 1))
           (voluntary_yields d).

Definition bump_voluntary_yields (d : scheduler_debug_t) : scheduler_debug_t :=
  mk_debug (total_ticks d) (context_switches d)
           (uint32 (voluntary_yields d + 1)).

(** The tick handler, [ISR(TIMER0_COMPA_vect)]. *)
Definition TIMER0_COMPA_vect (s : sched) : res sched :=
  if (scheduler_running s =? 0) || (task_count s =? 0) then Done s
  else
    let s := with_debug_stats (bump_total_ticks (debug_stats s)) s in
    let! cur := tcb (tasks s) (current_task s) in
    let! ts :=
      if is_running (state cur)
      then tcb_update (tasks s) (current_task s)
             (fun t => set_runtime_ticks (uint32 (runtime_ticks t + 1)) t)
      else Done (tasks s) in
    let! ts := for_tasks (seqZ 0 (task_count s)) ts in
    Done (with_tasks ts s).

Definition scheduler_suspend_task (id : Z) (s : sched) : res sched :=
  if id <? task_count s then
    let! ts := tcb_update (tasks s) id (set_state TASK_SUSPENDED) in
    Done (with_tasks ts s)
  else Done s.

Definition scheduler_resume_task (id : Z) (s : sched) : res sched :=
  if id <? task_count s then
    let! t := tcb (tasks s) id in
    if is_suspended (state t) then
      let! ts := tcb_update (tasks s) id (set_state TASK_READY) in
      Done (with_tasks ts s)
    else Done s
  else Done s.

(** The [do ... while] scan of [scheduler_yield].  The result is the final
    [next_task] and [tasks_checked]; the latter counts the probes made. *)
Fixpoint yield_scan (fuel : nat) (s : sched) (next_task tasks_checked : Z)
  : res (Z * Z) :=
  match fuel with
  | O => Stop OutOfFuel
  | S fuel' =>
    if task_count s =? 0 then Stop DivisionByZero
    else
      let next_task := uint8 ((next_task + 1) mod task_count s) in
      let tasks_checked := uint8 (tasks_checked + 1) in
      let! t := tcb (tasks s) next_task in
      if is_eligible (state t) then Done (next_task, tasks_checked)
      else if tasks_checked <? task_count s
           then yield_scan fuel' s next_task tasks_checked
           else Done (next_task, tasks_checked)
  end.

(** [tasks_checked] is a [uint8_t]: it takes at most 256 values. *)
Definition SCAN_FUEL : nat := 256.

Definition scheduler_yield (s : sched) : res sched :=
  let s := with_debug_stats (bump_voluntary_yields (debug_stats s)) s in
  let! (next_task, _) := yield_scan SCAN_FUEL s (current_task s) 0 in
  if next_task =? current_task s then Done s
  else
    let! nt := tcb (tasks s) next_task in
    if is_blocked (state nt) then Done s
    else
      let s := with_debug_stats (bump_context_switches (debug_stats s)) s in
      let! ts := tcb_update (tasks s) next_task
                   (fun t => set_times_scheduled
                               (uint32 (times_scheduled t + 1)) t) in
      let! cur := tcb ts (current_task s) in
      let! ts :=
        if is_running (state cur)
        then tcb_update ts (current_task s) (set_state TASK_READY)
        else Done ts in
      let s := with_current_task next_task s in
      let! ts := tcb_update ts (current_task s) (set_state TASK_RUNNING) in
      Done (with_tasks ts s).

Definition task_delay (ticks : Z) (s : sched) : res sched :=
  if ticks =? 0 then Done s
  else
    let sreg := SREG (io s) in
    let s := with_io (cli (io s)) s in
    let! ts := tcb_update (tasks s) (current_task s) (set_delay_ticks ticks) in
    let! ts := tcb_update ts (current_task s) (set_state TASK_BLOCKED) in
    let s := with_tasks ts s in
    let s := with_io (with_SREG sreg (io s)) s in
    scheduler_yield s.

(** The exit handler: the store to [state], then [while(1) scheduler_yield();].
    The loop has no exit, so the handler never returns; what it does is
    seen in the states it goes through.  [task_exit_mark] is the store,
    [task_exit_loop n] the first [n] iterations of the loop and
    [task_exit n] the handler up to the end of its [n]-th iteration:
    [Done s'] is the state at that point, [Stop f] a fault in the store or
    in one of the calls of [scheduler_yield]. *)
Definition task_exit_mark (s : sched) : res sched :=
  let! ts := tcb_update (tasks s) (current_task s) (set_state TASK_BLOCKED) in
  Done (with_tasks ts s).



Definition scheduler_get_current_task (s : sched) : Z := current_task s.

Definition scheduler_get_task_count (s : sched) : Z := task_count s.

Definition scheduler_get_debug_stats (s : sched) : scheduler_debug_t :=
  debug_stats s.

(** [scheduler_get_task_stats]: an output pointer is [None] when null and
    [Some v] when it points to a cell holding [v]; the result is the
    [int8_t] return value and the two cells after the call. *)
Definition scheduler_get_task_stats (task_id : Z)
    (runtime_out scheduled_out : option Z) (s : sched)
  : res (Z * option Z * option Z) :=
  if task_count s <=? task_id then Done (-1, runtime_out, scheduled_out)
  else
    let! runtime_out :=
      match runtime_out with
      | Some _ => let! t := tcb (tasks s) task_id in
                  Done (Some (runtime_ticks t))
      | None => Done None
      end in
    let! scheduled_out :=
      match scheduled_out with
      | Some _ => let! t := tcb (tasks s) task_id in
                  Done (Some (times_scheduled t))
      | None => Done None
      end in
    Done (0, runtime_out, scheduled_out).

Definition reset_task_stats (t : task_t) : task_t :=
  set_times_scheduled 0 (set_runtime_ticks 0 t).

Fixpoint reset_tasks (idx : list Z) (ts : list task_t) : res (list task_t) :=
  match idx with
  | [] => Done ts
  | i :: rest =>
    let! ts := tcb_update ts i (set_runtime_ticks 0) in
    let! ts := tcb_update ts i (set_times_scheduled 0) in
    reset_tasks rest ts
  end.

Definition scheduler_reset_debug_stats (s : sched) : res sched :=
  let sreg := SREG (io s) in
  let s := with_io (cli (io s)) s in
  let s := with_debug_stats (mk_debug 0 0 0) s in
  let! ts := reset_tasks (seqZ 0 (task_count s)) (tasks s) in
  let s := with_tasks ts s in
  Done (with_io (with_SREG sreg (io s)) s).

(** ** Derived notions used in the statements *)

(** Well-formed states: the array has [MAX_TASKS] blocks, the count is
    within capacity and [current_task] names a registered task (or is [0]
    while nothing is registered). *)
Definition wf (s : sched) : Prop :=
  length (tasks s) = Z.to_nat MAX_TASKS /\
  0 <= task_count s <= MAX_TASKS /\
  0 <= current_task s /\
  (current_task s < task_count s \/ current_task s = 0).

(** Every task control block owns a stack of [TASK_STACK_SIZE] bytes. *)
Definition stacks_ok (s : sched) : Prop :=
  forall (i : nat) (t : task_t),
    tasks s !! i = Some t -> length (stack t) = Z.to_nat TASK_STACK_SIZE.

(** Every registered task is as [scheduler_add_task] leaves it. *)
Definition fresh_tasks (s : sched) : Prop :=
  forall i : Z, 0 <= i < task_count s ->
    exists t, tasks s !! Z.to_nat i = Some t /\
              state t = TASK_READY /\ delay_ticks t = 0 /\ task_id t = i.

(** States in which the dispatcher may be called: a task is registered and
    the indices are within the array. *)
Definition dispatchable (s : sched) : Prop :=
  1 <= task_count s <= 255 /\
  task_count s <= Z.of_nat (length (tasks s)) /\
  0 <= current_task s < task_count s.

(** The dispatcher's eligibility test on slot [i]. *)
Definition eligible_at (s : sched) (i : Z) : bool :=
  match tcb (tasks s) i with
  | Done t => is_eligible (state t)
  | Stop _ => false
  end.

Definition Eligible (s : sched) (i : Z) : Prop := eligible_at s i = true.

Global Instance Eligible_dec s i : Decision (Eligible s i).
Proof. unfold Eligible. apply _. Defined.

(** The state of slot [i], when there is one. *)
Definition state_at (s : sched) (i : Z) : option task_state_t :=
  state <$> tasks s !! Z.to_nat i.

Definition delay_at (s : sched) (i : Z) : option Z :=
  delay_ticks <$> tasks s !! Z.to_nat i.

(** Ids in round-robin order after [c]: [c+1, ..., n-1, 0, ..., c]. *)
Definition ring (n c : Z) : list Z :=
  seqZ (c + 1) (n - c - 1) ++ seqZ 0 (c + 1).

(** The eligible tasks in round-robin order after the current one. *)
Definition ready_ring (s : sched) : list Z :=
  filter (Eligible s) (ring (task_count s) (current_task s)).

(** The number of registered tasks that are Ready or Running. *)
Definition ready_count (s : sched) : nat :=
  length (filter (Eligible s) (seqZ 0 (task_count s))).

(** The successive values of [next_task] in the scan. *)
Fixpoint probes (n next : Z) (k : nat) : list Z :=
  match k with
  | O => []
  | S k' => let x := (next + 1) mod n in x :: probes n x k'
  end.

(** First element of [l] that passes the test, else the last element. *)
Fixpoint scan_list (elig : Z -> bool) (l : list Z) (d : Z) : Z :=
  match l with
  | [] => d
  | x :: l' => if elig x then x else scan_list elig l' x
  end.

Definition next_task_of (s : sched) : Z :=
  default (current_task s) (head (ready_ring s)).

(** What an effective switch from [c] to [n] does to slot [i]. *)
Definition switch_tcb (c n : Z) (i : nat) (t : task_t) : task_t :=
  if decide (i = Z.to_nat n) then
    set_state TASK_RUNNING
      (set_times_scheduled (uint32 (times_scheduled t + 1)) t)
  else if decide (i = Z.to_nat c) then
    (if is_running (state t) then set_state TASK_READY t else t)
  else t.

Definition yielded (s : sched) : sched :=
  with_debug_stats (bump_voluntary_yields (debug_stats s)) s.

Definition switched (s : sched) (n : Z) : sched :=
  mk_sched (imap (switch_tcb (current_task s) n) (tasks s))
           (task_count s) n (scheduler_running s)
           (bump_context_switches (bump_voluntary_yields (debug_stats s)))
           (io s).

(** The state with [f] applied to the block in slot [k]. *)
Definition update_slot (k : Z) (f : task_t -> task_t) (s : sched) : sched :=
  with_tasks
    (imap (fun j t => if decide (j = Z.to_nat k) then f t else t) (tasks s)) s.

(** What [scheduler_resume_task] and [task_delay] store in a block. *)
Definition resume_tcb (t : task_t) : task_t :=
  if is_suspended (state t) then set_state TASK_READY t else t.

Definition block_tcb (ticks : Z) (t : task_t) : task_t :=
  set_state TASK_BLOCKED (set_delay_ticks ticks t).

(** No task is Running: the situation before [scheduler_start]. *)
Definition none_running (s : sched) : Prop :=
  forall (i : nat) (t : task_t),
    tasks s !! i = Some t -> state t <> TASK_RUNNING.


(** What the delay loop of the tick handler does to one block. *)
Definition delay_step_tcb (t : task_t) : task_t :=
  if 0 <? delay_ticks t then
    let t1 := set_delay_ticks (uint16 (delay_ticks t - 1)) t in
    if (delay_ticks t1 =? 0) && is_blocked (state t1)
    then set_state TASK_READY t1
    else t1
  else t.

(** What a tick of the running scheduler does to slot [j]. *)
Definition tick_tcb (s : sched) (j : nat) (t : task_t) : task_t :=
  let t1 :=
    if decide (j = Z.to_nat (current_task s)) then
      (if is_running (state t)
       then set_runtime_ticks (uint32 (runtime_ticks t + 1)) t
       else t)
    else t in
  if decide (Z.of_nat j < task_count s) then delay_step_tcb t1 else t1.

Definition ticked (s : sched) : sched :=
  if (scheduler_running s =? 0) || (task_count s =? 0) then s
  else mk_sched (imap (tick_tcb s) (tasks s))
                (task_count s) (current_task s) (scheduler_running s)
                (bump_total_ticks (debug_stats s)) (io s).

(** The ids that become current in [k] consecutive yields, and the state
    they lead to. *)
Fixpoint yield_trace (k : nat) (s : sched) : res (list Z * sched) :=
  match k with
  | O => Done ([], s)
  | S k' =>
    let! s1 := scheduler_yield s in
    let! (l, s2) := yield_trace k' s1 in
    Done (current_task s1 :: l, s2)
  end.

(** A yield in [s] hands the processor to [i]. *)
Definition selected (s : sched) (i : Z) : Prop :=
  exists s', scheduler_yield s = Done s' /\
             current_task s' = i /\ current_task s <> i.

Definition count_running (s : sched) : nat :=
  length (filter (fun t => is_running (state t) = true) (tasks s)).

(** Only the current task can be Running. *)
Definition only_current_running (s : sched) : Prop :=
  forall (i : nat) (t : task_t),
    tasks s !! i = Some t -> state t = TASK_RUNNING ->
    i = Z.to_nat (current_task s).

(** ** Events and reachable states *)

Inductive event : Type :=
| EInit
| EAdd (task_function : Z)
| EStart
| ESuspend (id : Z)
| EResume (id : Z)
| EYield
| EDelay (ticks : Z)
| ETick
| EExit.

(** What the application does before [scheduler_start]. *)
Definition setup_event (e : event) : Prop :=
  match e with
  | EInit | EAdd _ | ESuspend _ | EResume _ | ETick => True
  | _ => False
  end.

(** What task code and the timer do once the scheduler runs. *)
Definition task_event (e : event) : Prop :=
  match e with
  | EAdd _ | ESuspend _ | EResume _ | EYield | EDelay _ | ETick | EExit => True
  | _ => False
  end.

(** The tick handler and the dispatcher only. *)
Definition kernel_event (e : event) : Prop :=
  match e with
  | EYield | ETick => True
  | _ => False
  end.

(** Arguments within the range of their C types. *)
Definition well_typed (e : event) : Prop :=
  match e with
  | EAdd f => 0 <= f < 65536
  | ESuspend id | EResume id => 0 <= id < 256
  | EDelay ticks => 0 <= ticks < 65536
  | _ => True
  end.

Definition is_tick (e : event) : bool :=
  match e with ETick => true | _ => false end.

Definition ticks_in (evs : list event) : nat :=
  length (List.filter is_tick evs).

Section Runs.

Variable task_exit_addr : Z.

Definition step (e : event) (s : sched) : res sched :=
  match e with
  | EInit => Done (scheduler_init s)
  | EAdd f => let! (_, s') := scheduler_add_task task_exit_addr f s in Done s'
  | EStart => scheduler_start s
  | ESuspend id => scheduler_suspend_task id s
  | EResume id => scheduler_resume_task id s
  | EYield => scheduler_yield s
  | EDelay ticks => task_delay ticks s
  | ETick => TIMER0_COMPA_vect s
  | EExit => task_exit_mark s
  end.

Fixpoint run (evs : list event) (s : sched) : res sched :=
  match evs with
  | [] => Done s
  | e :: rest => let! s' := step e s in run rest s'
  end.

(** Consecutive registrations: the ids returned and the final state. *)
Fixpoint add_all (fs : list Z) (s : sched) : res (list Z * sched) :=
  match fs with
  | [] => Done ([], s)
  | f :: rest =>
    let! (id, s1) := scheduler_add_task task_exit_addr f s in
    let! (ids, s2) := add_all rest s1 in
    Done (id :: ids, s2)
  end.

Inductive configured : sched -> Prop :=
| configured_init s : configured (scheduler_init s)
| configured_step e s s' :
    configured s -> setup_event e -> step e s = Done s' -> configured s'.

Inductive started : sched -> Prop :=
| started_start s s' :
    configured s -> scheduler_start s = Done s' -> started s'
| started_step e s s' :
    started s -> task_event e -> step e s = Done s' -> started s'.

Definition reachable (s : sched) : Prop := configured s \/ started s.



End Runs.

(** ** Concrete configurations *)

(** The variables of [scheduler.c] as the C runtime zeroes them. *)
Definition power_on : sched :=
  mk_sched (replicate (Z.to_nat MAX_TASKS) zero_task) 0 0 0
           (mk_debug 0 0 0) (mk_io 0 0 0 0 0).

(** The state after a sequence of events from power-on, with the exit
    handler placed at address [0x0100]. *)
Definition after (evs : list event) : sched :=
  match run 256 evs power_on with
  | Done s => s
  | Stop _ => power_on
  end.

(** One task registered and started, which then suspends itself. *)
Definition self_suspended : sched :=
  after [EInit; EAdd 512; EStart; ESuspend 0].

(** Two tasks registered and started. *)
Definition two_tasks : sched := after [EInit; EAdd 512; EAdd 768; EStart].

(** Three tasks registered and started, the second one suspended. *)
Definition three_tasks : sched :=
  after [EInit; EAdd 512; EAdd 768; EAdd 1024; EStart; ESuspend 1].

(** ** The initial context of a task and the entry into the first one *)

(** [*stack_top-- = v] for each [v] of a list in turn. *)
Fixpoint push_list (vs : list Z) (m : list Z * Z) : res (list Z * Z) :=
  match vs with
  | [] => Done m
  | v :: rest => let! m' := push v m in push_list rest m'
  end.

(** The 37 bytes [init_stack] writes, by ascending address: 31 register
    bytes, the status byte, the byte for [r0], then the entry address and
    the address of the exit handler, each high byte first. *)
Definition context_image (exit_addr task_function : Z) : list Z :=
  replicate 31 0 ++
  [128; 0;
   Z.land (Z.shiftr (uint16 task_function) 8) 255;
   Z.land (uint16 task_function) 255;
   Z.land (Z.shiftr (uint16 exit_addr) 8) 255;
   Z.land (uint16 exit_addr) 255].

(** What [scheduler_add_task] stores in the block it claims. *)
Definition add_tcb (exit_addr task_function id : Z) (t : task_t) : task_t :=
  set_stack (Some (TASK_STACK_SIZE - 38))
            (take 91 (stack t) ++ context_image exit_addr task_function)
            (set_delay_ticks 0 (set_state TASK_READY (set_task_id id t))).

Definition added (exit_addr task_function : Z) (s : sched) : sched :=
  with_task_count (task_count s + 1)
    (update_slot (task_count s)
                 (add_tcb exit_addr task_function (task_count s)) s).

(** A registered block as [scheduler_add_task] builds it on zeroed memory. *)
Definition holds_context (exit_addr task_function : Z) (t : task_t) : Prop :=
  stack_pointer t = Some (TASK_STACK_SIZE - 38) /\
  stack t = replicate 91 0 ++ context_image exit_addr task_function.

(** The registry: block [j] of a registered task carries its own index and
    the context of some entry point; the other blocks are still zero. *)
Definition registry_ok (exit_addr : Z) (s : sched) : Prop :=
  forall (j : nat) (t : task_t),
    tasks s !! j = Some t ->
    if decide (Z.of_nat j < task_count s)
    then task_id t = Z.of_nat j /\
         exists f, f <> 0 /\ holds_context exit_addr f t
    else t = zero_task.

(** *** The processor during the restore sequence of [scheduler_start]

    The registers [r0]..[r31], the stack pointer as an index into the stack
    of the task being entered, the status register and the program
    counter. *)
Record avr_cpu : Type := mk_cpu {
  cpu_r : list Z;
  cpu_SP : Z;
  cpu_SREG : Z;
  cpu_PC : Z
}.

Inductive avr_instr : Type :=
| POP (r : nat)
| OUT_SREG (r : nat)
| RET.

Definition load (mem : list Z) (a : Z) : res Z :=
  if 0 <=? a then
    match mem !! Z.to_nat a with
    | Some v => Done v
    | None => Stop OutOfBounds
    end
  else Stop OutOfBounds.

(** [pop] increments the stack pointer and loads from it; [ret] pops the
    program counter, high byte first. *)
Definition exec (mem : list Z) (i : avr_instr) (c : avr_cpu) : res avr_cpu :=
  match i with
  | POP r =>
      let! v := load mem (cpu_SP c + 1) in
      Done (mk_cpu (<[r := v]> (cpu_r c)) (cpu_SP c + 1) (cpu_SREG c)
                   (cpu_PC c))
  | OUT_SREG r =>
      match cpu_r c !! r with
      | Some v => Done (mk_cpu (cpu_r c) (cpu_SP c) v (cpu_PC c))
      | None => Stop OutOfBounds
      end
  | RET =>
      let! h := load mem (cpu_SP c + 1) in
      let! l := load mem (cpu_SP c + 2) in
      Done (mk_cpu (cpu_r c) (cpu_SP c + 2) (cpu_SREG c) (h * 256 + l))
  end.

Fixpoint exec_all (mem : list Z) (prog : list avr_instr) (c : avr_cpu)
  : res avr_cpu :=
  match prog with
  | [] => Done c
  | i :: rest => let! c' := exec mem i c in exec_all mem rest c'
  end.

(** The second [asm] block of [scheduler_start]. *)
Definition restore_context : list avr_instr :=
  [POP 31; POP 30; POP 29; POP 28; POP 27; POP 26; POP 25; POP 24;
   POP 23; POP 22; POP 21; POP 20; POP 19; POP 18; POP 17; POP 16;
   POP 15; POP 14; POP 13; POP 12; POP 11; POP 10; POP 9; POP 8;
   POP 7; POP 6; POP 5; POP 4; POP 3; POP 2;
   POP 1; OUT_SREG 1; POP 1; POP 0; RET].

(** [scheduler_start] up to the first instruction of the first task: the
    stores of [scheduler_start], the stack pointer loaded from the block of
    the current task, then the restore sequence.  [c0] is the processor on
    entry. *)
Definition scheduler_start_context (c0 : avr_cpu) (s : sched)
  : res (sched * avr_cpu) :=
  let! s' := scheduler_start s in
  let! t := tcb (tasks s') (current_task s') in
  match stack_pointer t with
  | None => Stop OutOfBounds
  | Some sp =>
      let! c := exec_all (stack t) restore_context
                         (mk_cpu (cpu_r c0) sp (SREG (io s')) (cpu_PC c0)) in
      Done (s', c)
  end.

(** ** Statistics *)

(** The sum of the [times_scheduled] counters. *)
Definition total_scheduled (ts : list task_t) : Z :=
  foldr (fun t acc => times_scheduled t + acc) 0 ts.

(** The global switch counter agrees with the per-task counters. *)
Definition stats_consistent (s : sched) : Prop :=
  context_switches (debug_stats s) = uint32 (total_scheduled (tasks s)).

(** ** The operations as state functions

    What each event does to a state in which it is defined. *)

Definition yield_fun (s : sched) : sched :=
  if next_task_of s =? current_task s then yielded s
  else switched s (next_task_of s).

Definition start_fun (s : sched) : sched :=
  with_io (sei (io s))
    (with_scheduler_running 1
       (update_slot 0 (set_state TASK_RUNNING) (with_current_task 0 s))).

Definition step_fun (exit_addr : Z) (e : event) (s : sched) : sched :=
  match e with
  | EInit => scheduler_init s
  | EAdd f =>
      if (MAX_TASKS <=? task_count s) || (f =? 0) then s
      else added exit_addr f s
  | EStart => start_fun s
  | ESuspend id =>
      if id <? task_count s
      then update_slot id (set_state TASK_SUSPENDED) s else s
  | EResume id =>
      if id <? task_count s then update_slot id resume_tcb s else s
  | EYield => yield_fun s
  | EDelay ticks =>
      if ticks =? 0 then s
      else yield_fun (update_slot (current_task s) (block_tcb ticks) s)
  | ETick => ticked s
  | EExit => update_slot (current_task s) (set_state TASK_BLOCKED) s
  end.

(** What [scheduler_reset_debug_stats] leaves. *)
Definition reset_fun (s : sched) : sched :=
  mk_sched
    (imap (fun j t => if decide (Z.of_nat j < task_count s)
                      then reset_task_stats t else t) (tasks s))
    (task_count s) (current_task s) (scheduler_running s)
    (mk_debug 0 0 0) (io s).

(** ** The stepper driver of the stepper example *)

(** Bit positions of the coil pins in [PORTB]. *)
Definition STEP_A_PLUS : Z := 0.
Definition STEP_A_MINUS : Z := 1.
Definition STEP_B_PLUS : Z := 2.
Definition STEP_B_MINUS : Z := 3.

Inductive step_mode_t : Type :=
| STEP_MODE_FULL
| STEP_MODE_HALF.

(** [(ap << STEP_A_PLUS) | (am << STEP_A_MINUS) | (bp << STEP_B_PLUS) |
    (bm << STEP_B_MINUS)]. *)
Definition coils (ap am bp bm : Z) : Z :=
  Z.lor (Z.lor (Z.lor (Z.shiftl ap STEP_A_PLUS) (Z.shiftl am STEP_A_MINUS))
               (Z.shiftl bp STEP_B_PLUS))
        (Z.shiftl bm STEP_B_MINUS).

Definition full_step_sequence : list Z :=
  [coils 1 0 0 0; coils 0 0 1 0; coils 0 1 0 0; coils 0 0 0 1].

Definition half_step_sequence : list Z :=
  [coils 1 0 0 0; coils 1 0 1 0; coils 0 0 1 0; coils 0 1 1 0;
   coils 0 1 0 0; coils 0 1 0 1; coils 0 0 0 1; coils 1 0 0 1].

(** The variables of the driver and the port it writes. *)
Record stepper : Type := mk_stepper {
  step_position : Z;
  current_mode : step_mode_t;
  PORTB : Z
}.

Definition with_step_position (p : Z) (st : stepper) : stepper :=
  mk_stepper p (current_mode st) (PORTB st).

(** [PORTB &= ~mask; PORTB |= pattern;] on the 8-bit port. *)
Definition stepper_set_coils (pattern : Z) (st : stepper) : stepper :=
  let cleared := uint8 (Z.land (PORTB st) (Z.lnot (coils 1 1 1 1))) in
  mk_stepper (step_position st) (current_mode st)
             (uint8 (Z.lor cleared pattern)).

Definition stepper_step_forward (st : stepper) : res stepper :=
  match current_mode st with
  | STEP_MODE_FULL =>
      let st := with_step_position (uint8 ((step_position st + 1) mod 4)) st in
      let! pattern := load full_step_sequence (step_position st) in
      Done (stepper_set_coils pattern st)
  | STEP_MODE_HALF =>
      let st := with_step_position (uint8 ((step_position st + 1) mod 8)) st in
      let! pattern := load half_step_sequence (step_position st) in
      Done (stepper_set_coils pattern st)
  end.

Definition stepper_step_backward (st : stepper) : res stepper :=
  match current_mode st with
  | STEP_MODE_FULL =>
      let st := with_step_position
                  (if step_position st =? 0 then 3
                   else uint8 (step_position st - 1)) st in
      let! pattern := load full_step_sequence (step_position st) in
      Done (stepper_set_coils pattern st)
  | STEP_MODE_HALF =>
      let st := with_step_position
                  (if step_position st =? 0 then 7
                   else uint8 (step_position st - 1)) st in
      let! pattern := load half_step_sequence (step_position st) in
      Done (stepper_set_coils pattern st)
  end.

(** [n] iterations of [step(); task_delay(speed_ms);], on the driver and the
    scheduler together. *)
Fixpoint stepper_steps (n : nat) (step : stepper -> res stepper)
    (speed_ms : Z) (m : stepper * sched) : res (stepper * sched) :=
  match n with
  | O => Done m
  | S n' =>
      let! st := step (fst m) in
      let! s := task_delay speed_ms (snd m) in
      stepper_steps n' step speed_ms (st, s)
  end.

(** [stepper_move]: the loop counter runs from [0] up to [steps], or down
    to it. *)
Definition stepper_move (steps speed_ms : Z) (m : stepper * sched)
  : res (stepper * sched) :=
  if 0 <? steps then
    stepper_steps (Z.to_nat steps) stepper_step_forward speed_ms m
  else if steps <? 0 then
    stepper_steps (Z.to_nat (- steps)) stepper_step_backward speed_ms m
  else Done m.

(** The table and the cycle length of a mode. *)
Definition step_sequence (mode : step_mode_t) : list Z :=
  match mode with
  | STEP_MODE_FULL => full_step_sequence
  | STEP_MODE_HALF => half_step_sequence
  end.

Definition steps_per_cycle (mode : step_mode_t) : Z :=
  match mode with STEP_MODE_FULL => 4 | STEP_MODE_HALF => 8 end.

(** The driver between two steps: the port is a byte and its coil bits show
    the pattern of [step_position]. *)
Definition stepper_ok (st : stepper) : Prop :=
  0 <= PORTB st < 256 /\
  load (step_sequence (current_mode st)) (step_position st)
    = Done (PORTB st mod 16).

(** ** The servo driver of the servo example ([servo_example.c]) *)

Definition SERVO_MIN : Z := 2000.
Definition SERVO_MID : Z := 3000.
Definition SERVO_MAX : Z := 4000.
Definition SERVO_PERIOD : Z := 40000.

Record servo_io : Type := mk_servo {
  servo1_position : Z;
  servo2_position : Z;
  OCR1A : Z;
  OCR1B : Z
}.

(** The pulse width for an angle: the clamp, then
    [SERVO_MIN + ((uint32_t)angle * (SERVO_MAX - SERVO_MIN)) / 180] stored in
    a [uint16_t]. *)
Definition servo_pulse (angle : Z) : Z :=
  let angle := if 180 <? angle then 180 else angle in
  uint16 (uint32 (SERVO_MIN +
                  uint32 (uint32 angle * (SERVO_MAX - SERVO_MIN)) / 180)).

Definition set_servo1 (angle : Z) (h : servo_io) : servo_io :=
  let p := servo_pulse angle in
  mk_servo p (servo2_position h) p (OCR1B h).

Definition set_servo2 (angle : Z) (h : servo_io) : servo_io :=
  let p := servo_pulse angle in
  mk_servo (servo1_position h) p (OCR1A h) p.

(** The update of the sweep loops: [angle += direction * step] on a
    [uint8_t], then the reversal at the end points. *)
Definition sweep_update (step : Z) (m : Z * Z) : Z * Z :=
  let '(angle, direction) := m in
  let angle := uint8 (angle + direction * step) in
  if 180 <=? angle then (180, -1)
  else if angle <=? 0 then (0, 1)
  else (angle, direction).

(** One round of [servo1_sweep_task]: position the servo, update the angle,
    delay. *)
Definition servo1_sweep_round (m : servo_io * (Z * Z) * sched)
  : res (servo_io * (Z * Z) * sched) :=
  let '(h, ad, s) := m in
  let h := set_servo1 (fst ad) h in
  let ad := sweep_update 2 ad in
  let! s := task_delay 20 s in
  Done (h, ad, s).

(** ** The statistics reporter of the debug example ([debug_example.c]) *)

(** The sum of the [runtime_ticks] counters. *)
Definition total_runtime (ts : list task_t) : Z :=
  foldr (fun t acc => runtime_ticks t + acc) 0 ts.

(** [(uint16_t)((runtime * 100UL) / stats->total_ticks)], computed by the
    reporter when [total_ticks > 0]. *)
Definition cpu_percent (runtime total : Z) : res Z :=
  if total =? 0 then Stop DivisionByZero
  else Done (uint16 (uint32 (runtime * 100) / total)).

(** The ticks are counted and the run-time counters are within them. *)
Definition runtime_within (n : Z) (s : sched) : Prop :=
  total_ticks (debug_stats s) = n /\
  total_runtime (tasks s) <= n /\
  forall (j : nat) (t : task_t), tasks s !! j = Some t -> 0 <= runtime_ticks t.

(** ** The motor driver of the PWM example *)

Module Pwm.

Definition MOTOR_A_DIR_PIN : Z := 0.
Definition MOTOR_FORWARD : Z := 1.
Definition MOTOR_BACKWARD : Z := 0.
Definition PWM_MAX : Z := 255.

(** The ports and compare registers the example writes. *)
Record motor_io : Type := mk_motor {
  PORTB : Z;
  PORTD : Z;
  OCR1A : Z;
  OCR1B : Z
}.

Definition set_motor_a (speed direction : Z) (h : motor_io) : motor_io :=
  let portb :=
    if direction =? MOTOR_FORWARD
    then uint8 (Z.lor (PORTB h) (Z.shiftl 1 MOTOR_A_DIR_PIN))
    else uint8 (Z.land (PORTB h) (Z.lnot (Z.shiftl 1 MOTOR_A_DIR_PIN))) in
  mk_motor portb (PORTD h) speed (OCR1B h).

(** [for (...; speed < PWM_MAX; speed += 5) { set_motor_a(speed, direction);
    task_delay(50); }] from a given [speed]; the result carries the value of
    [speed] on exit. *)
Fixpoint ramp_up (fuel : nat) (speed direction : Z) (m : motor_io * sched)
  : res (Z * (motor_io * sched)) :=
  match fuel with
  | O => Stop OutOfFuel
  | S fuel' =>
      if speed <? PWM_MAX then
        let h := set_motor_a speed direction (fst m) in
        let! s := task_delay 50 (snd m) in
        ramp_up fuel' (uint8 (speed + 5)) direction (h, s)
      else Done (speed, m)
  end.

(** [for (...; speed > 0; speed -= 5) { set_motor_a(speed, direction);
    task_delay(50); }]. *)
Fixpoint ramp_down (fuel : nat) (speed direction : Z) (m : motor_io * sched)
  : res (Z * (motor_io * sched)) :=
  match fuel with
  | O => Stop OutOfFuel
  | S fuel' =>
      if 0 <? speed then
        let h := set_motor_a speed direction (fst m) in
        let! s := task_delay 50 (snd m) in
        ramp_down fuel' (uint8 (speed - 5)) direction (h, s)
      else Done (speed, m)
  end.

(** [speed] is a [uint8_t] changed by a constant: a loop that has not ended
    after 256 rounds never ends. *)
Definition RAMP_FUEL : nat := 256.

(** One round of the [while (1)] loop of [motor_a_ramp_task]; the result
    carries the new [direction]. *)
Definition motor_a_ramp_round (direction : Z) (m : motor_io * sched)
  : res (Z * (motor_io * sched)) :=
  let! (_, m) := ramp_up RAMP_FUEL 0 direction m in
  let! s := task_delay 1000 (snd m) in
  let! (_, m) := ramp_down RAMP_FUEL PWM_MAX direction (fst m, s) in
  let h := set_motor_a 0 direction (fst m) in
  let! s := task_delay 500 (snd m) in
  Done (if direction =? 0 then 1 else 0, (h, s)).

End Pwm.

(** ** Further configurations *)

(** Two tasks registered and started, the first of which then suspends
    itself. *)
Definition suspended_current : sched :=
  after [EInit; EAdd 512; EAdd 768; EStart; ESuspend 0].

(** One task registered and suspended before the start. *)
Definition suspended_before_start : sched :=
  after [EInit; EAdd 512; ESuspend 0].


(** ** Events with the reset of the statistics *)

(** What task code and the timer do once the scheduler runs,
    [scheduler_reset_debug_stats] included. *)
Inductive stats_event : Type :=
| SEvent (e : event)
| SReset.

Definition stats_task_event (c : stats_event) : Prop :=
  match c with
  | SEvent e => task_event e
  | SReset => True
  end.

Definition stats_step (exit_addr : Z) (c : stats_event) (s : sched)
  : res sched :=
  match c with
  | SEvent e => step exit_addr e s
  | SReset => scheduler_reset_debug_stats s
  end.

Fixpoint stats_run (exit_addr : Z) (cs : list stats_event) (s : sched)
  : res sched :=
  match cs with
  | [] => Done s
  | c :: rest => let! s' := stats_step exit_addr c s in
                 stats_run exit_addr rest s'
  end.

(** The ticks counted when [cs] follows [n] counted ticks: a reset starts
    the count again. *)
Fixpoint ticks_counted (n : nat) (cs : list stats_event) : nat :=
  match cs with
  | [] => n
  | SEvent ETick :: rest => ticks_counted (S n) rest
  | SEvent _ :: rest => ticks_counted n rest
  | SReset :: rest => ticks_counted 0 rest
  end.

(** The ticks since the start or the last reset. *)
Definition ticks_since_reset (cs : list stats_event) : nat :=
  ticks_counted 0 cs.

(** The run-time counter of every block beyond [task_count] is zero. *)
Definition unregistered_idle (s : sched) : Prop :=
  forall (j : nat) (t : task_t),
    tasks s !! j = Some t -> task_count s <= Z.of_nat j -> runtime_ticks t = 0.

(** * Proofs *)

(** ** The fault monad and array access *)

Lemma bind_Done {A B} (m : res A) (k : A -> res B) (b : B) :
  bind m k = Done b -> exists a, m = Done a /\ k a = Done b.
Proof. destruct m as [a|f]; simpl; [eauto | discriminate]. Qed.

Lemma bind_ret {A B} (a : A) (k : A -> res B) : bind (Done a) k = k a.
Proof. reflexivity. Qed.

Lemma tcb_Done ts i t :
  0 <= i -> ts !! Z.to_nat i = Some t -> tcb ts i = Done t.
Proof.
  intros Hi Hl. unfold tcb.
  destruct (Z.leb_spec 0 i); [|lia]. by rewrite Hl.
Qed.

Lemma tcb_inv ts i t :
  tcb ts i = Done t -> 0 <= i /\ ts !! Z.to_nat i = Some t.
Proof.
  unfold tcb. destruct (Z.leb_spec 0 i); [|discriminate].
  destruct (ts !! Z.to_nat i) eqn:E; [|discriminate].
  intros [= ->]. auto.
Qed.

Lemma tcb_in_bounds ts i :
  0 <= i < Z.of_nat (length ts) -> exists t, tcb ts i = Done t.
Proof.
  intros Hi. destruct (lookup_lt_is_Some_2 ts (Z.to_nat i)) as [t Ht]; [lia|].
  exists t. apply tcb_Done; [lia | done].
Qed.

Lemma tcb_update_Done ts i f t :
  0 <= i -> ts !! Z.to_nat i = Some t ->
  tcb_update ts i f = Done (<[Z.to_nat i := f t]> ts).
Proof. intros Hi Hl. unfold tcb_update. by rewrite (tcb_Done _ _ t). Qed.

Lemma tcb_update_inv ts i f ts' :
  tcb_update ts i f = Done ts' ->
  exists t, 0 <= i /\ ts !! Z.to_nat i = Some t /\
            ts' = <[Z.to_nat i := f t]> ts.
Proof.
  unfold tcb_update. intros H. apply bind_Done in H as (t & Ht & [= <-]).
  apply tcb_inv in Ht as [? ?]. eauto.
Qed.

(** An update of slot [i] seen from any slot [j]. *)
Lemma tcb_update_lookup ts i f ts' (j : nat) :
  tcb_update ts i f = Done ts' ->
  ts' !! j = (fun t => if decide (j = Z.to_nat i) then f t else t) <$> ts !! j.
Proof.
  intros H. apply tcb_update_inv in H as (t & Hi & Ht & ->).
  destruct (decide (j = Z.to_nat i)) as [->|Hne].
  - rewrite list_lookup_insert_eq by (by eapply lookup_lt_Some).
    by rewrite Ht.
  - rewrite list_lookup_insert_ne by done.
    by destruct (ts !! j).
Qed.

Lemma tcb_update_length ts i f ts' :
  tcb_update ts i f = Done ts' -> length ts' = length ts.
Proof.
  intros H. apply tcb_update_inv in H as (t & _ & _ & ->).
  apply length_insert.
Qed.

Lemma tcb_update_in_bounds ts i f :
  0 <= i < Z.of_nat (length ts) -> exists ts', tcb_update ts i f = Done ts'.
Proof.
  intros Hi. destruct (lookup_lt_is_Some_2 ts (Z.to_nat i)) as [t Ht]; [lia|].
  eexists. by apply tcb_update_Done; [lia|].
Qed.

Lemma uint8_small z : 0 <= z < 256 -> uint8 z = z.
Proof. intros. unfold uint8. by apply Z.mod_small. Qed.

Lemma uint16_small z : 0 <= z < 65536 -> uint16 z = z.
Proof. intros. unfold uint16. by apply Z.mod_small. Qed.

Lemma uint32_small z : 0 <= z < 4294967296 -> uint32 z = z.
Proof. intros. unfold uint32. by apply Z.mod_small. Qed.

(** ** The round-robin scan *)

Lemma probes_seq n x (k : nat) :
  0 <= x -> x + Z.of_nat k < n ->
  probes n x k = seqZ (x + 1) (Z.of_nat k).
Proof.
  revert x. induction k as [|k IH]; intros x Hx Hk; [done|].
  cbn [probes]. rewrite seqZ_cons by lia.
  rewrite Z.mod_small by lia. f_equal.
  rewrite IH by lia. f_equal; lia.
Qed.

Lemma probes_app n x (a b : nat) :
  0 <= x -> x + Z.of_nat a < n ->
  probes n x (a + b) = seqZ (x + 1) (Z.of_nat a) ++ probes n (x + Z.of_nat a) b.
Proof.
  revert x. induction a as [|a IH]; intros x Hx Ha.
  - simpl. by rewrite Z.add_0_r.
  - cbn [Nat.add probes]. rewrite seqZ_cons by lia.
    rewrite Z.mod_small by lia. simpl. f_equal.
    rewrite IH by lia. f_equal; [f_equal; lia | f_equal; lia].
Qed.

Lemma probes_ring n c :
  0 <= c < n -> probes n c (Z.to_nat n) = ring n c.
Proof.
  intros Hc. unfold ring.
  replace (Z.to_nat n) with (Z.to_nat (n - c - 1) + S (Z.to_nat c))%nat by lia.
  rewrite probes_app by lia.
  rewrite Z2Nat.id by lia. f_equal.
  cbn [probes].
  replace (c + (n - c - 1) + 1) with n by lia.
  rewrite Z.mod_same by lia.
  rewrite (seqZ_cons 0) by lia. f_equal.
  rewrite probes_seq by lia. f_equal; lia.
Qed.

Lemma scan_list_snoc elig l c d :
  scan_list elig (l ++ [c]) d =
  default c (head (filter (fun i => elig i = true) (l ++ [c]))).
Proof.
  revert d. induction l as [|x l IH]; intros d; simpl.
  - rewrite filter_cons, filter_nil.
    destruct (elig c) eqn:E; by case_decide.
  - rewrite filter_cons. destruct (elig x) eqn:E; case_decide; try done;
      apply IH.
Qed.

Lemma eligible_at_lookup s i t :
  0 <= i -> tasks s !! Z.to_nat i = Some t ->
  eligible_at s i = is_eligible (state t).
Proof. intros Hi Hl. unfold eligible_at. by rewrite (tcb_Done _ _ t). Qed.

(** The scan started with [k+1] probes left returns the first eligible of
    the coming probes, or the last one probed. *)
Lemma yield_scan_probes s (k : nat) :
  forall (fuel : nat) (next chk : Z),
    1 <= task_count s <= 255 ->
    task_count s <= Z.of_nat (length (tasks s)) ->
    0 <= chk -> chk + Z.of_nat (S k) = task_count s ->
    (S k <= fuel)%nat ->
    exists p,
      yield_scan fuel s next chk =
        Done (scan_list (eligible_at s) (probes (task_count s) next (S k)) next, p)
      /\ chk < p <= task_count s.
Proof.
  induction k as [|k IH]; intros fuel next chk Hn Hlen Hchk Hk Hfuel;
    (destruct fuel as [|fuel]; [lia|]);
    cbn [yield_scan probes scan_list];
    (destruct (Z.eqb_spec (task_count s) 0); [lia|]);
    set (x := (next + 1) mod task_count s);
    assert (Hx : 0 <= x < task_count s) by (apply Z.mod_pos_bound; lia);
    rewrite (uint8_small x), (uint8_small (chk + 1)) by lia;
    (destruct (tcb_in_bounds (tasks s) x) as [t Ht]; [lia|]);
    rewrite Ht; simpl;
    unfold eligible_at at 1; rewrite Ht;
    (destruct (is_eligible (state t)) eqn:E; [exists (chk + 1); split; [done|lia]|]).
  - destruct (Z.ltb_spec (chk + 1) (task_count s)); [lia|].
    exists (chk + 1). split; [done|lia].
  - destruct (Z.ltb_spec (chk + 1) (task_count s)); [|lia].
    destruct (IH fuel x (chk + 1)) as (p & Hp & Hb); try lia.
    exists p. split; [|lia]. rewrite Hp. done.
Qed.

Lemma ring_snoc n c :
  0 <= c < n -> ring n c = (seqZ (c + 1) (n - c - 1) ++ seqZ 0 c) ++ [c].
Proof.
  intros Hc. unfold ring. rewrite <- app_assoc. f_equal.
  replace (c + 1) with (Z.of_nat (S (Z.to_nat c))) by lia.
  rewrite seqZ_S. f_equal; [f_equal; lia | f_equal; lia].
Qed.

Lemma yield_scan_next s :
  1 <= task_count s <= 255 ->
  task_count s <= Z.of_nat (length (tasks s)) ->
  0 <= current_task s < task_count s ->
  exists p,
    yield_scan SCAN_FUEL s (current_task s) 0 = Done (next_task_of s, p)
    /\ 1 <= p <= task_count s.
Proof.
  intros Hn Hlen Hc.
  destruct (yield_scan_probes s (Z.to_nat (task_count s) - 1) SCAN_FUEL
              (current_task s) 0) as (p & Hp & Hb); try lia.
  { unfold SCAN_FUEL. lia. }
  exists p. split; [|lia]. rewrite Hp. do 2 f_equal.
  replace (S (Z.to_nat (task_count s) - 1)) with (Z.to_nat (task_count s))
    by lia.
  rewrite probes_ring by lia.
  unfold next_task_of, ready_ring.
  rewrite ring_snoc by lia. apply scan_list_snoc.
Qed.

Lemma wf_dispatchable s : wf s -> 1 <= task_count s -> dispatchable s.
Proof.
  unfold wf, dispatchable, MAX_TASKS. intros (Hl & Hn & Hc & Hcur) H1.
  rewrite Hl. lia.
Qed.

Lemma ring_elem n c x : 0 <= c < n -> x ∈ ring n c <-> 0 <= x < n.
Proof.
  intros Hc. unfold ring. rewrite elem_of_app, !elem_of_seqZ. lia.
Qed.

Lemma next_task_of_cases s :
  dispatchable s ->
  next_task_of s = current_task s \/
  (0 <= next_task_of s < task_count s /\
   eligible_at s (next_task_of s) = true /\
   exists l, ready_ring s = next_task_of s :: l).
Proof.
  intros (Hn & Hlen & Hc). unfold next_task_of.
  destruct (ready_ring s) as [|x l] eqn:E; simpl; [by left|right].
  assert (Hx : x ∈ ready_ring s) by (rewrite E; left).
  unfold ready_ring in Hx. apply list_elem_of_filter in Hx as [He Hr].
  apply ring_elem in Hr; [|lia]. split; [lia|]. split; [done|eauto].
Qed.

Lemma scheduler_yield_eq s :
  dispatchable s ->
  scheduler_yield s =
    Done (if next_task_of s =? current_task s then yielded s
          else switched s (next_task_of s)).
Proof.
  intros Hd. pose proof Hd as (Hn & Hlen & Hc).
  unfold scheduler_yield. fold (yielded s).
  destruct (yield_scan_next (yielded s)) as (p & Hp & _); [done..|].
  rewrite Hp. cbn [bind].
  change (next_task_of (yielded s)) with (next_task_of s).
  change (current_task (yielded s)) with (current_task s).
  destruct (Z.eqb_spec (next_task_of s) (current_task s)) as [|Hne]; [done|].
  destruct (next_task_of_cases s Hd) as [|(Hx & He & _)]; [done|].
  set (x := next_task_of s) in *.
  destruct (tcb_in_bounds (tasks s) x) as [t Ht]; [lia|].
  change (tasks (yielded s)) with (tasks s). rewrite Ht. cbn [bind].
  unfold eligible_at in He. rewrite Ht in He.
  replace (is_blocked (state t)) with false by (by destruct (state t)).
  cbn [tasks with_debug_stats with_current_task current_task yielded].
  destruct (tcb_update_in_bounds (tasks s) x
              (fun t => set_times_scheduled (uint32 (times_scheduled t + 1)) t))
    as [ts1 H1]; [lia|].
  rewrite H1. cbn [bind].
  pose proof (tcb_update_length _ _ _ _ H1) as L1.
  destruct (tcb_in_bounds ts1 (current_task s)) as [cur Hcur]; [lia|].
  rewrite Hcur. cbn [bind].
  assert (exists ts2,
    (if is_running (state cur)
     then tcb_update ts1 (current_task s) (set_state TASK_READY)
     else Done ts1) = Done ts2 /\
    forall j : nat, ts2 !! j =
      (fun t => if decide (j = Z.to_nat (current_task s))
                then (if is_running (state t) then set_state TASK_READY t else t)
                else t) <$> ts1 !! j) as (ts2 & H2 & L2).
  { apply tcb_inv in Hcur as [_ Hcur].
    destruct (is_running (state cur)) eqn:Er.
    - destruct (tcb_update_in_bounds ts1 (current_task s)
                  (set_state TASK_READY)) as [ts2 H2]; [lia|].
      exists ts2. split; [done|]. intros j.
      rewrite (tcb_update_lookup _ _ _ _ j H2).
      destruct (decide (j = Z.to_nat (current_task s))) as [->|]; [|done].
      rewrite Hcur. simpl. by rewrite Er.
    - exists ts1. split; [done|]. intros j.
      destruct (decide (j = Z.to_nat (current_task s))) as [->|].
      + rewrite Hcur. simpl. by rewrite Er.
      + by destruct (ts1 !! j). }
  rewrite H2. cbn [bind].
  assert (length ts2 = length ts1) as Len2.
  { destruct (is_running (state cur)).
    - by eapply tcb_update_length.
    - by injection H2 as <-. }
  destruct (tcb_update_in_bounds ts2 x (set_state TASK_RUNNING))
    as [ts3 H3]; [lia|].
  rewrite H3. cbn [bind]. unfold switched, with_tasks. simpl.
  do 2 f_equal. apply list_eq. intros j.
  rewrite (tcb_update_lookup _ _ _ _ j H3), L2,
          (tcb_update_lookup _ _ _ _ j H1), list_lookup_imap.
  destruct (tasks s !! j) as [tj|]; [|done]. simpl. f_equal.
  unfold switch_tcb. fold x.
  destruct (decide (j = Z.to_nat x)) as [->|];
    destruct (decide (_ = Z.to_nat (current_task s))) as [E|]; try done.
  lia.
Qed.

(** ** What a yield leaves behind *)

Lemma switched_lookup s n (j : nat) :
  tasks (switched s n) !! j = switch_tcb (current_task s) n j <$> tasks s !! j.
Proof. unfold switched. simpl. apply list_lookup_imap. Qed.

Lemma eligible_at_switched s n :
  0 <= n -> eligible_at s n = true ->
  forall i, eligible_at (switched s n) i = eligible_at s i.
Proof.
  intros Hn He i. unfold eligible_at, tcb in *.
  destruct (Z.leb_spec 0 i) as [Hi|]; [|done].
  destruct (Z.leb_spec 0 n); [|lia].
  rewrite switched_lookup.
  destruct (tasks s !! Z.to_nat i) as [t|] eqn:Et; [|done]. simpl.
  unfold switch_tcb.
  destruct (decide (Z.to_nat i = Z.to_nat n)) as [E|].
  - rewrite <- E, Et in He. simpl. by rewrite He.
  - destruct (decide _); [|done].
    destruct (state t) eqn:Es; simpl; by rewrite ?Es.
Qed.

Lemma scheduler_yield_frame s s' :
  dispatchable s -> scheduler_yield s = Done s' ->
  task_count s' = task_count s /\
  current_task s' = next_task_of s /\
  scheduler_running s' = scheduler_running s /\
  io s' = io s /\
  length (tasks s') = length (tasks s) /\
  (forall i, eligible_at s' i = eligible_at s i).
Proof.
  intros Hd. rewrite scheduler_yield_eq by done.
  destruct (Z.eqb_spec (next_task_of s) (current_task s)) as [E|Hne];
    intros [= <-].
  - rewrite E. done.
  - destruct (next_task_of_cases s Hd) as [|(Hx & He & _)]; [done|].
    repeat split; try done.
    + unfold switched. simpl. apply length_imap.
    + apply eligible_at_switched; [lia|done].
Qed.

Lemma scheduler_yield_dispatchable s s' :
  dispatchable s -> scheduler_yield s = Done s' -> dispatchable s'.
Proof.
  intros Hd Hy. pose proof Hd as (Hn & Hlen & Hc).
  destruct (scheduler_yield_frame s s' Hd Hy) as (En & Ec & _ & _ & El & _).
  unfold dispatchable. rewrite En, Ec, El. repeat split; try lia.
  all: destruct (next_task_of_cases s Hd) as [->|(Hx & _)]; lia.
Qed.

(** ** Rotating the ring *)

Lemma seqZ_split m n k :
  0 <= k <= n -> seqZ m n = seqZ m k ++ seqZ (m + k) (n - k).
Proof.
  intros Hk. replace n with (k + (n - k)) at 1 by lia.
  apply seqZ_app; lia.
Qed.

Lemma ring_rotate n c x :
  0 <= c < n -> 0 <= x < n ->
  exists A B, ring n c = A ++ x :: B /\ ring n x = B ++ A ++ [x] /\ x ∉ A.
Proof.
  intros Hc Hx. destruct (Z_le_gt_dec x c) as [Hle|Hgt].
  - exists (seqZ (c + 1) (n - c - 1) ++ seqZ 0 x), (seqZ (x + 1) (c - x)).
    split; [|split].
    + unfold ring. rewrite <- app_assoc. f_equal.
      rewrite (seqZ_split 0 (c + 1) x) by lia. f_equal.
      rewrite seqZ_cons by lia. f_equal. f_equal; lia.
    + unfold ring.
      rewrite (seqZ_split (x + 1) (n - x - 1) (c - x)) by lia.
      rewrite <- !app_assoc. f_equal.
      replace (x + 1 + (c - x)) with (c + 1) by lia.
      replace (n - x - 1 - (c - x)) with (n - c - 1) by lia. f_equal.
      replace (x + 1) with (Z.of_nat (S (Z.to_nat x))) by lia.
      rewrite seqZ_S. f_equal; [f_equal; lia | f_equal; lia].
    + rewrite elem_of_app, !elem_of_seqZ. lia.
  - exists (seqZ (c + 1) (x - c - 1)),
           (seqZ (x + 1) (n - x - 1) ++ seqZ 0 (c + 1)).
    split; [|split].
    + unfold ring.
      rewrite (seqZ_split (c + 1) (n - c - 1) (x - c - 1)) by lia.
      rewrite <- app_assoc. f_equal.
      rewrite seqZ_cons by lia. simpl. f_equal; [lia|].
      f_equal. f_equal; lia.
    + unfold ring. rewrite <- app_assoc. f_equal.
      rewrite (seqZ_split 0 (x + 1) (c + 1)) by lia. f_equal.
      replace (x + 1 - (c + 1)) with (Z.of_nat (S (Z.to_nat (x - c - 1)))) by lia.
      rewrite seqZ_S. f_equal; [f_equal; lia | f_equal; lia].
    + rewrite elem_of_seqZ. lia.
Qed.

Lemma filter_head_split {A} (P : A -> Prop) `{!forall x, Decision (P x)}
    (l1 l2 l : list A) (x : A) :
  filter P (l1 ++ x :: l2) = x :: l -> x ∉ l1 ->
  filter P l1 = [] /\ P x /\ l = filter P l2.
Proof.
  intros Hf Hx. rewrite filter_app, filter_cons in Hf.
  destruct (filter P l1) as [|a l1'] eqn:E.
  - split; [done|]. simpl in Hf. case_decide as HP.
    + injection Hf as <-. done.
    + assert (x ∈ filter P l2) as Hin by (rewrite Hf; left).
      apply list_elem_of_filter in Hin as [? _]. done.
  - simpl in Hf. injection Hf as -> _.
    assert (x ∈ filter P l1) as Hin by (rewrite E; left).
    apply list_elem_of_filter in Hin as [_ ?]. done.
Qed.

Lemma ready_ring_yield s s' x l :
  dispatchable s -> scheduler_yield s = Done s' ->
  ready_ring s = x :: l ->
  current_task s' = x /\ ready_ring s' = l ++ [x].
Proof.
  intros Hd Hy Hr. pose proof Hd as (Hn & Hlen & Hc).
  destruct (scheduler_yield_frame s s' Hd Hy) as (En & Ec & _ & _ & _ & Ee).
  assert (next_task_of s = x) as Hx by (unfold next_task_of; by rewrite Hr).
  split; [congruence|].
  assert (0 <= x < task_count s) as Hxn.
  { assert (x ∈ ready_ring s) as Hin by (rewrite Hr; left).
    apply list_elem_of_filter in Hin as [_ Hin].
    by apply ring_elem in Hin. }
  destruct (ring_rotate (task_count s) (current_task s) x)
    as (A & B & HA & HB & HxA); [done..|].
  unfold ready_ring in *. rewrite Ec, En, Hx, HB.
  rewrite HA in Hr. apply filter_head_split in Hr as (FA & Px & ->); [|done].
  rewrite (list_filter_iff (Eligible s') (Eligible s)).
  2:{ intros i. unfold Eligible. by rewrite Ee. }
  rewrite !filter_app, FA. simpl.
  rewrite filter_cons, filter_nil. by case_decide.
Qed.

Lemma yield_trace_ring (l1 : list Z) :
  forall (s : sched) (l2 : list Z),
    dispatchable s -> ready_ring s = l1 ++ l2 ->
    exists s',
      yield_trace (length l1) s = Done (l1, s') /\
      ready_ring s' = l2 ++ l1 /\
      dispatchable s' /\
      task_count s' = task_count s /\
      (forall i, eligible_at s' i = eligible_at s i).
Proof.
  induction l1 as [|x l1 IH]; intros s l2 Hd Hr.
  - exists s. simpl. rewrite app_nil_r. done.
  - pose proof (scheduler_yield_eq s Hd) as Hy.
    set (s1 := if next_task_of s =? current_task s then yielded s
               else switched s (next_task_of s)) in Hy.
    destruct (ready_ring_yield s s1 x (l1 ++ l2) Hd Hy Hr) as [Ec Hr1].
    destruct (scheduler_yield_frame s s1 Hd Hy) as (En & _ & _ & _ & _ & Ee).
    pose proof (scheduler_yield_dispatchable s s1 Hd Hy) as Hd1.
    rewrite <- app_assoc in Hr1.
    destruct (IH s1 (l2 ++ [x]) Hd1 Hr1) as (s' & Ht & Hr' & Hd' & En' & Ee').
    exists s'. cbn [length yield_trace]. rewrite Hy. cbn [bind].
    rewrite Ht. cbn [bind]. rewrite Ec.
    split; [done|]. split; [by rewrite Hr', <- app_assoc|].
    split; [done|]. split; [congruence|].
    intros i. by rewrite Ee', Ee.
Qed.

Lemma ring_Permutation n c : 0 <= c < n -> ring n c ≡ₚ seqZ 0 n.
Proof.
  intros Hc. unfold ring. rewrite (seqZ_split 0 n (c + 1)) by lia.
  rewrite Permutation_app_comm. simpl.
  replace (n - (c + 1)) with (n - c - 1) by lia. done.
Qed.

Lemma ready_ring_length s :
  0 <= current_task s < task_count s -> length (ready_ring s) = ready_count s.
Proof.
  intros Hc. unfold ready_ring, ready_count.
  by rewrite ring_Permutation.
Qed.

(** ** Round-robin order *)

Lemma ready_ring_elem s i :
  0 <= current_task s < task_count s ->
  i ∈ ready_ring s <-> 0 <= i < task_count s /\ eligible_at s i = true.
Proof.
  intros Hc. unfold ready_ring.
  rewrite list_elem_of_filter, ring_elem by done.
  unfold Eligible. tauto.
Qed.

Lemma ready_ring_NoDup s : NoDup (ready_ring s).
Proof.
  unfold ready_ring, ring. apply NoDup_filter, NoDup_app.
  split; [apply NoDup_seqZ|]. split; [|apply NoDup_seqZ].
  intros x. rewrite !elem_of_seqZ. lia.
Qed.

(** C2: with [k] tasks Ready or Running and nothing but yields, [k]
    consecutive yields make current, one after the other, exactly the [k]
    eligible tasks: those with an id above the caller's in ascending order,
    then those from id [0] up to the caller; each task once.  The next [k]
    yields repeat the same cycle. *)
Theorem yield_round_robin (s : sched) (k : nat) :
  dispatchable s -> k = ready_count s ->
  exists s1 s2,
    yield_trace k s = Done (ready_ring s, s1) /\
    yield_trace k s1 = Done (ready_ring s, s2) /\
    ready_ring s =
      filter (Eligible s)
             (seqZ (current_task s + 1) (task_count s - current_task s - 1)) ++
      filter (Eligible s) (seqZ 0 (current_task s + 1)) /\
    length (ready_ring s) = k /\
    NoDup (ready_ring s) /\
    (forall i, i ∈ ready_ring s <->
               0 <= i < task_count s /\ eligible_at s i = true).
Proof.
  intros Hd ->. pose proof Hd as (Hn & Hlen & Hc).
  pose proof (ready_ring_length s Hc) as Hk.
  destruct (yield_trace_ring (ready_ring s) s [] Hd)
    as (s1 & H1 & R1 & Hd1 & _); [by rewrite app_nil_r|].
  simpl in R1.
  destruct (yield_trace_ring (ready_ring s) s1 [] Hd1)
    as (s2 & H2 & _); [by rewrite app_nil_r|].
  exists s1, s2. rewrite <- Hk.
  split; [done|]. split; [done|].
  split; [apply filter_app|]. split; [done|].
  split; [apply ready_ring_NoDup|].
  intros i. by apply ready_ring_elem.
Qed.

Lemma yield_round_robin_witness :
  dispatchable three_tasks /\ 2%nat = ready_count three_tasks /\
  exists s1 s2,
    yield_trace 2 three_tasks = Done ([2; 0], s1) /\
    yield_trace 2 s1 = Done ([2; 0], s2).
Proof.
  assert (Hd : dispatchable three_tasks).
  { unfold dispatchable. vm_compute. intuition congruence. }
  assert (Hk : 2%nat = ready_count three_tasks) by (vm_compute; reflexivity).
  split; [exact Hd|]. split; [exact Hk|].
  destruct (yield_round_robin three_tasks 2 Hd Hk)
    as (s1 & s2 & H1 & H2 & _).
  exists s1, s2. split; [exact H1 | exact H2].
Defined.

(** ** Yield: totality, counters, well-formedness *)

Lemma scheduler_yield_wf s s' :
  wf s -> 1 <= task_count s -> scheduler_yield s = Done s' -> wf s'.
Proof.
  intros Hw H1 Hy. pose proof (wf_dispatchable s Hw H1) as Hd.
  destruct (scheduler_yield_frame s s' Hd Hy) as (En & Ec & _ & _ & El & _).
  destruct Hw as (Hl & Hn & Hc & Hcur).
  unfold wf. rewrite En, Ec, El.
  destruct (next_task_of_cases s Hd) as [->|(Hx & _)]; repeat split; lia.
Qed.

Lemma scheduler_yield_voluntary s s' :
  scheduler_yield s = Done s' ->
  voluntary_yields (debug_stats s') =
    uint32 (voluntary_yields (debug_stats s) + 1).
Proof.
  unfold scheduler_yield. intros H.
  apply bind_Done in H as ([n p] & _ & H).
  destruct (n =? _); [by injection H as <-|].
  apply bind_Done in H as (nt & _ & H).
  destruct (is_blocked _); [by injection H as <-|].
  apply bind_Done in H as (ts1 & _ & H).
  apply bind_Done in H as (cur & _ & H).
  apply bind_Done in H as (ts2 & _ & H).
  apply bind_Done in H as (ts3 & _ & H).
  by injection H as <-.
Qed.

Lemma scheduler_yield_no_task s :
  task_count s = 0 ->
  yield_scan SCAN_FUEL s (current_task s) 0 = Stop DivisionByZero /\
  scheduler_yield s = Stop DivisionByZero.
Proof.
  intros H0.
  assert (Hs : forall s0, task_count s0 = 0 ->
            yield_scan SCAN_FUEL s0 (current_task s0) 0 = Stop DivisionByZero).
  { intros s0 E. change SCAN_FUEL with (S 255). cbn [yield_scan].
    by rewrite E. }
  split; [by apply Hs|].
  unfold scheduler_yield. fold (yielded s).
  by rewrite (Hs (yielded s)).
Qed.





(** C8: [task_delay(0)] returns at once with the scheduler state exactly as
    it was: no task state, no delay counter, no statistic (so not
    [voluntary_yields]) and no register has changed, and [scheduler_yield]
    has not been entered, so that the call is defined even where a yield
    would not be. *)
Theorem task_delay_zero (s : sched) :
  task_delay 0 s = Done s /\
  (task_count s = 0 -> scheduler_yield s = Stop DivisionByZero).
Proof.
  split; [reflexivity|]. intros H0. by apply scheduler_yield_no_task.
Qed.

Lemma task_delay_zero_witness :
  task_delay 0 power_on = Done power_on /\
  task_count power_on = 0 /\
  scheduler_yield power_on = Stop DivisionByZero.
Proof.
  destruct (task_delay_zero power_on) as [Hd Hy].
  split; [exact Hd|]. split; [reflexivity|]. apply Hy. reflexivity.
Defined.

(** C9: when at least one task is registered the remainder by
    [task_count] is defined, the scan ends after at most [task_count]
    probes on a registered id, and the yield returns; with no task
    registered the first probe divides by zero, nothing in
    [scheduler_yield] prevents it. *)
Theorem yield_scan_precondition (s : sched) :
  (wf s -> 1 <= task_count s ->
   exists next probes s',
     yield_scan SCAN_FUEL s (current_task s) 0 = Done (next, probes) /\
     1 <= probes <= task_count s /\
     0 <= next < task_count s /\
     scheduler_yield s = Done s') /\
  (task_count s = 0 ->
   yield_scan SCAN_FUEL s (current_task s) 0 = Stop DivisionByZero /\
   scheduler_yield s = Stop DivisionByZero).
Proof.
  split.
  - intros Hw H1. pose proof (wf_dispatchable s Hw H1) as Hd.
    pose proof Hd as (Hn & Hlen & Hc).
    destruct (yield_scan_next s) as (p & Hp & Hb); [done..|].
    eexists _, p, _. split; [exact Hp|]. split; [done|].
    split; [|by apply scheduler_yield_eq].
    destruct (next_task_of_cases s Hd) as [->|(Hx & _)]; lia.
  - intros H0. by apply scheduler_yield_no_task.
Qed.

Lemma yield_scan_precondition_witness :
  (wf three_tasks /\ 1 <= task_count three_tasks /\
   exists next probes s',
     yield_scan SCAN_FUEL three_tasks (current_task three_tasks) 0
       = Done (next, probes) /\
     1 <= probes <= task_count three_tasks /\
     0 <= next < task_count three_tasks /\
     scheduler_yield three_tasks = Done s') /\
  (task_count power_on = 0 /\
   scheduler_yield power_on = Stop DivisionByZero).
Proof.
  assert (Hw : wf three_tasks).
  { unfold wf. vm_compute. intuition congruence. }
  assert (H1 : 1 <= task_count three_tasks) by (vm_compute; congruence).
  split.
  - split; [exact Hw|]. split; [exact H1|].
    destruct (yield_scan_precondition three_tasks) as [Hok _].
    exact (Hok Hw H1).
  - split; [reflexivity|].
    destruct (yield_scan_precondition power_on) as [_ Hz].
    destruct (Hz eq_refl) as [_ Hy]. exact Hy.
Defined.

(** C10: [scheduler_get_task_stats] returns [-1] when [id >= task_count],
    leaving both output cells as they were, and [0] for a registered id,
    in which case each non-null output cell receives the task's counter and
    a null pointer is not written through; so [-1] is returned exactly for
    the ids that are not registered. *)
Theorem get_task_stats_spec (s : sched) (id : Z)
    (runtime_out scheduled_out : option Z) :
  wf s -> 0 <= id ->
  (task_count s <= id ->
   scheduler_get_task_stats id runtime_out scheduled_out s =
     Done (-1, runtime_out, scheduled_out)) /\
  (id < task_count s ->
   exists t, tasks s !! Z.to_nat id = Some t /\
     scheduler_get_task_stats id runtime_out scheduled_out s =
       Done (0, (fun _ => runtime_ticks t) <$> runtime_out,
                (fun _ => times_scheduled t) <$> scheduled_out)) /\
  (forall ret r' s', 
     scheduler_get_task_stats id runtime_out scheduled_out s =
       Done (ret, r', s') ->
     (ret = -1 <-> task_count s <= id)).
Proof.
  intros (Hl & Hn & _) Hid. unfold MAX_TASKS in *.
  assert (Hhi : task_count s <= id ->
    scheduler_get_task_stats id runtime_out scheduled_out s =
      Done (-1, runtime_out, scheduled_out)).
  { intros Hge. unfold scheduler_get_task_stats.
    by destruct (Z.leb_spec (task_count s) id); [|lia]. }
  assert (Hlo : id < task_count s ->
    exists t, tasks s !! Z.to_nat id = Some t /\
     scheduler_get_task_stats id runtime_out scheduled_out s =
       Done (0, (fun _ => runtime_ticks t) <$> runtime_out,
                (fun _ => times_scheduled t) <$> scheduled_out)).
  { intros Hlt. unfold scheduler_get_task_stats.
    destruct (Z.leb_spec (task_count s) id); [lia|].
    destruct (tcb_in_bounds (tasks s) id) as [t Ht]; [lia|].
    exists t. split; [by apply tcb_inv in Ht as [_ ?]|].
    destruct runtime_out, scheduled_out; simpl; rewrite ?Ht; done. }
  split; [done|]. split; [done|].
  intros ret r' s' H.
  destruct (Z_le_gt_dec (task_count s) id) as [Hge|Hlt].
  - rewrite (Hhi Hge) in H. injection H as <- _ _. done.
  - destruct Hlo as (t & _ & Ht); [lia|]. rewrite Ht in H.
    injection H as <- _ _. lia.
Qed.

Lemma get_task_stats_spec_witness :
  wf three_tasks /\ 0 <= 7 /\ task_count three_tasks <= 7 /\ 2 < task_count three_tasks /\
  scheduler_get_task_stats 7 (Some 41) None three_tasks = Done (-1, Some 41, None) /\
  scheduler_get_task_stats 2 (Some 41) None three_tasks = Done (0, Some 0, None).
Proof.
  assert (Hw : wf three_tasks).
  { unfold wf. vm_compute. intuition congruence. }
  assert (H7 : task_count three_tasks <= 7) by (vm_compute; congruence).
  assert (H2 : 2 < task_count three_tasks) by (vm_compute; reflexivity).
  split; [exact Hw|]. split; [lia|]. split; [exact H7|]. split; [exact H2|].
  split.
  - destruct (get_task_stats_spec three_tasks 7 (Some 41) None Hw)
      as (Hhi & _); [lia|]. exact (Hhi H7).
  - vm_compute. reflexivity.
Defined.

(** ** Registration *)

Lemma push_Done v stk top :
  0 <= top < Z.of_nat (length stk) ->
  exists stk', push v (stk, top) = Done (stk', top - 1) /\
               length stk' = length stk.
Proof.
  intros H. unfold push.
  destruct (Z.leb_spec 0 top); [|lia].
  destruct (Z.ltb_spec top (Z.of_nat (length stk))); [|lia].
  eexists. split; [reflexivity|]. apply length_insert.
Qed.

Lemma push_zeros_Done (n : nat) :
  forall stk top,
    Z.of_nat n <= top + 1 <= Z.of_nat (length stk) ->
    exists stk', push_zeros n (stk, top) = Done (stk', top - Z.of_nat n) /\
                 length stk' = length stk.
Proof.
  induction n as [|n IH]; intros stk top H.
  - exists stk. simpl. by rewrite Z.sub_0_r.
  - cbn [push_zeros].
    destruct (push_Done 0 stk top) as (stk1 & H1 & L1); [lia|].
    rewrite H1, bind_ret.
    destruct (IH stk1 (top - 1)) as (stk' & Hp & Hl); [lia|].
    exists stk'. rewrite Hp, Hl, L1.
    split; [do 2 f_equal; lia | done].
Qed.

Lemma init_stack_Done exit_addr stk top f :
  36 <= top < Z.of_nat (length stk) ->
  exists stk', init_stack exit_addr stk top f = Done (stk', top - 37) /\
               length stk' = length stk.
Proof.
  intros H. unfold init_stack.
  destruct (push_Done (Z.land (uint16 exit_addr) 255) stk top)
    as (k1 & E1 & L1); [lia|].
  rewrite E1, bind_ret.
  destruct (push_Done (Z.land (Z.shiftr (uint16 exit_addr) 8) 255) k1 (top - 1))
    as (k2 & E2 & L2); [lia|].
  rewrite E2, bind_ret.
  destruct (push_Done (Z.land (uint16 f) 255) k2 (top - 1 - 1))
    as (k3 & E3 & L3); [lia|].
  rewrite E3, bind_ret.
  destruct (push_Done (Z.land (Z.shiftr (uint16 f) 8) 255) k3 (top - 1 - 1 - 1))
    as (k4 & E4 & L4); [lia|].
  rewrite E4, bind_ret.
  destruct (push_Done 0 k4 (top - 1 - 1 - 1 - 1)) as (k5 & E5 & L5); [lia|].
  rewrite E5, bind_ret.
  destruct (push_Done 128 k5 (top - 1 - 1 - 1 - 1 - 1))
    as (k6 & E6 & L6); [lia|].
  rewrite E6, bind_ret.
  destruct (push_zeros_Done 31 k6 (top - 1 - 1 - 1 - 1 - 1 - 1))
    as (k7 & E7 & L7); [lia|].
  exists k7. rewrite E7. split; [do 2 f_equal; lia | congruence].
Qed.

Lemma scheduler_add_task_full exit_addr f s :
  MAX_TASKS <= task_count s -> scheduler_add_task exit_addr f s = Done (-1, s).
Proof.
  intros H. unfold scheduler_add_task.
  by destruct (Z.leb_spec MAX_TASKS (task_count s)); [|lia].
Qed.

Lemma scheduler_add_task_null exit_addr s :
  scheduler_add_task exit_addr 0 s = Done (-1, s).
Proof. unfold scheduler_add_task. by rewrite orb_true_r. Qed.

(** What a successful registration does to slot [j]. *)
Lemma scheduler_add_task_ok exit_addr f s :
  wf s -> stacks_ok s -> task_count s < MAX_TASKS -> f <> 0 ->
  exists s' tnew,
    scheduler_add_task exit_addr f s = Done (task_count s, s') /\
    task_count s' = task_count s + 1 /\
    current_task s' = current_task s /\
    scheduler_running s' = scheduler_running s /\
    debug_stats s' = debug_stats s /\
    io s' = io s /\
    length (tasks s') = length (tasks s) /\
    tasks s' !! Z.to_nat (task_count s) = Some tnew /\
    state tnew = TASK_READY /\ delay_ticks tnew = 0 /\
    task_id tnew = task_count s /\
    stack_pointer tnew = Some (TASK_STACK_SIZE - 38) /\
    length (stack tnew) = Z.to_nat TASK_STACK_SIZE /\
    (forall j : nat, j <> Z.to_nat (task_count s) ->
                     tasks s' !! j = tasks s !! j).
Proof.
  intros (Hl & Hn & Hc & Hcur) Hst Hlt Hf.
  unfold scheduler_add_task. unfold MAX_TASKS in *.
  destruct (Z.leb_spec 8 (task_count s)); [lia|].
  destruct (Z.eqb_spec f 0); [lia|]. cbv beta iota delta [orb].
  set (id := task_count s) in *.
  destruct (lookup_lt_is_Some_2 (tasks s) (Z.to_nat id)) as [t0 Ht0]; [lia|].
  assert (Hin : (Z.to_nat id < length (tasks s))%nat) by lia.
  rewrite (tcb_update_Done _ _ _ t0), bind_ret by (done || lia).
  rewrite (tcb_update_Done _ _ _ (set_task_id id t0)), bind_ret
    by (lia || by rewrite list_lookup_insert_eq).
  rewrite list_insert_insert_eq.
  rewrite (tcb_update_Done _ _ _ (set_state TASK_READY (set_task_id id t0))),
    bind_ret by (lia || by rewrite list_lookup_insert_eq).
  rewrite list_insert_insert_eq.
  rewrite (tcb_Done _ _
    (set_delay_ticks 0 (set_state TASK_READY (set_task_id id t0)))), bind_ret
    by (lia || by rewrite list_lookup_insert_eq).
  change (stack (set_delay_ticks 0 (set_state TASK_READY (set_task_id id t0))))
    with (stack t0).
  destruct (init_stack_Done exit_addr (stack t0) (TASK_STACK_SIZE - 1) f)
    as (stk' & Hi & Hlen).
  { rewrite (Hst _ _ Ht0). unfold TASK_STACK_SIZE. lia. }
  rewrite Hi, bind_ret.
  rewrite (tcb_update_Done _ _ _
    (set_delay_ticks 0 (set_state TASK_READY (set_task_id id t0)))), bind_ret
    by (lia || by rewrite list_lookup_insert_eq).
  rewrite list_insert_insert_eq.
  eexists _, _. split; [reflexivity|].
  cbn [task_count current_task scheduler_running debug_stats io tasks
       with_task_count with_tasks].
  rewrite length_insert, list_lookup_insert_eq by done.
  split; [apply uint8_small; lia|].
  repeat (split; [try done|]).
  - simpl. rewrite Hlen. by eapply Hst.
  - intros j Hj. by rewrite list_lookup_insert_ne.
Qed.

Lemma scheduler_add_task_inv exit_addr f s :
  wf s -> stacks_ok s -> fresh_tasks s ->
  task_count s < MAX_TASKS -> f <> 0 ->
  exists s',
    scheduler_add_task exit_addr f s = Done (task_count s, s') /\
    task_count s' = task_count s + 1 /\
    wf s' /\ stacks_ok s' /\ fresh_tasks s'.
Proof.
  intros Hw Hst Hfr Hlt Hf.
  destruct (scheduler_add_task_ok exit_addr f s Hw Hst Hlt Hf)
    as (s' & tn & Ha & En & Ec & _ & _ & _ & El & Hnew & Hs & Hd & Hi & _ & Hk
        & Hoth).
  destruct Hw as (Hl & Hn & Hc & Hcur).
  exists s'. split; [done|]. split; [done|]. split; [|split].
  - unfold wf. rewrite En, Ec, El. repeat split; lia.
  - intros j t Hj. destruct (decide (j = Z.to_nat (task_count s))) as [->|Hne].
    + congruence.
    + rewrite Hoth in Hj by done. by eapply Hst.
  - intros i Hi'. rewrite En in Hi'.
    destruct (decide (i = task_count s)) as [->|Hne].
    + exists tn. done.
    + rewrite Hoth by lia. apply Hfr. lia.
Qed.

Lemma add_all_from exit_addr (fs : list Z) :
  forall s,
    wf s -> stacks_ok s -> fresh_tasks s -> Forall (fun f => f <> 0) fs ->
    exists s',
      add_all exit_addr fs s =
        Done (seqZ (task_count s)
                   (Z.min (Z.of_nat (length fs)) (MAX_TASKS - task_count s)) ++
              replicate (Z.to_nat (Z.of_nat (length fs)
                                   - (MAX_TASKS - task_count s))) (-1),
              s') /\
      task_count s' = Z.min (task_count s + Z.of_nat (length fs)) MAX_TASKS /\
      fresh_tasks s'.
Proof.
  induction fs as [|f fs IH]; intros s Hw Hst Hfr Hfs.
  - exists s. pose proof Hw as (_ & Hn & _). cbn [add_all length].
    rewrite seqZ_nil by lia.
    replace (Z.to_nat (Z.of_nat 0 - (MAX_TASKS - task_count s))) with 0%nat
      by lia.
    split; [done|]. split; [lia|done].
  - apply Forall_cons in Hfs as [Hf Hfs]. cbn [add_all length].
    pose proof Hw as (_ & Hn & _).
    destruct (Z_lt_ge_dec (task_count s) MAX_TASKS) as [Hlt|Hge].
    + destruct (scheduler_add_task_inv exit_addr f s Hw Hst Hfr Hlt Hf)
        as (s1 & Ha & En & Hw1 & Hst1 & Hfr1).
      destruct (IH s1 Hw1 Hst1 Hfr1 Hfs) as (s' & Hall & En' & Hfr').
      exists s'. rewrite Ha, bind_ret, Hall, bind_ret.
      split; [|split; [lia|done]].
      rewrite (seqZ_cons (task_count s)) by lia.
      rewrite En.
      replace (Z.succ (task_count s)) with (task_count s + 1) by lia.
      replace (Z.pred (Z.of_nat (S (length fs)) `min`
                       (MAX_TASKS - task_count s)))
        with (Z.of_nat (length fs) `min` (MAX_TASKS - (task_count s + 1)))
        by lia.
      replace (Z.to_nat (Z.of_nat (S (length fs)) - (MAX_TASKS - task_count s)))
        with (Z.to_nat (Z.of_nat (length fs) - (MAX_TASKS - (task_count s + 1))))
        by lia.
      done.
    + destruct (IH s Hw Hst Hfr Hfs) as (s' & Hall & En' & Hfr').
      exists s'. rewrite scheduler_add_task_full, bind_ret, Hall, bind_ret
        by lia.
      split; [|split; [lia|done]].
      rewrite !seqZ_nil by lia. simpl.
      replace (Z.to_nat (Z.of_nat (S (length fs)) - (MAX_TASKS - task_count s)))
        with (S (Z.to_nat (Z.of_nat (length fs) - (MAX_TASKS - task_count s))))
        by lia.
      done.
Qed.

Lemma power_on_wf : wf power_on.
Proof. unfold wf. vm_compute. intuition congruence. Qed.

Lemma power_on_stacks_ok : stacks_ok power_on.
Proof.
  intros i t Hi. apply lookup_replicate in Hi as [-> _].
  apply length_replicate.
Qed.

Lemma scheduler_init_wf s : wf (scheduler_init s).
Proof. apply power_on_wf. Qed.

Lemma scheduler_init_stacks_ok s : stacks_ok (scheduler_init s).
Proof. apply power_on_stacks_ok. Qed.

(** C3: from an empty registry, registering non-null entries one after the
    other returns the ids [0, 1, 2, ...] for the first [MAX_TASKS] calls and
    the failure value [-1] for every further one; the count reported is the
    number of tasks registered and every one of them is Ready with
    [delay_ticks = 0] and its slot index as id.  A call with the registry
    full and a call with a null entry (the spec's CapacityExceeded and
    InvalidEntry, both reported as [-1]) return [-1] and leave the whole
    state, so also the count, as it was.  A successful call returns the old
    count, leaves the new task Ready with [delay_ticks = 0] and increments
    the count. *)
Theorem add_task_contract (exit_addr : Z) (s : sched) (fs : list Z) :
  wf s -> stacks_ok s -> task_count s = 0 ->
  Forall (fun f => f <> 0) fs ->
  (exists s',
     add_all exit_addr fs s =
       Done (seqZ 0 (Z.min (Z.of_nat (length fs)) MAX_TASKS) ++
             replicate (Z.to_nat (Z.of_nat (length fs) - MAX_TASKS)) (-1),
             s') /\
     scheduler_get_task_count s' = Z.min (Z.of_nat (length fs)) MAX_TASKS /\
     fresh_tasks s') /\
  (forall s0 f,
     task_count s0 = MAX_TASKS ->
     scheduler_add_task exit_addr f s0 = Done (-1, s0)) /\
  (forall s0, scheduler_add_task exit_addr 0 s0 = Done (-1, s0)) /\
  (forall s0 f,
     wf s0 -> stacks_ok s0 -> task_count s0 < MAX_TASKS -> f <> 0 ->
     exists s1 t,
       scheduler_add_task exit_addr f s0 = Done (task_count s0, s1) /\
       scheduler_get_task_count s1 = scheduler_get_task_count s0 + 1 /\
       tasks s1 !! Z.to_nat (task_count s0) = Some t /\
       state t = TASK_READY /\ delay_ticks t = 0).
Proof.
  intros Hw Hst H0 Hfs. split; [|split; [|split]].
  - destruct (add_all_from exit_addr fs s Hw Hst) as (s' & Ha & En & Hfr);
      [|done|].
    { intros i Hi. lia. }
    exists s'. rewrite H0 in Ha, En. rewrite Z.sub_0_r in Ha.
    split; [done|]. split; [|done].
    unfold scheduler_get_task_count. rewrite En. f_equal.
  - intros s0 f Hc. apply scheduler_add_task_full. lia.
  - intros s0. apply scheduler_add_task_null.
  - intros s0 f Hw0 Hst0 Hlt Hf.
    destruct (scheduler_add_task_ok exit_addr f s0 Hw0 Hst0 Hlt Hf)
      as (s1 & t & Ha & En & _ & _ & _ & _ & _ & Hnew & Hs & Hd & _).
    exists s1, t. done.
Qed.

Lemma add_task_contract_witness :
  wf power_on /\ stacks_ok power_on /\ task_count power_on = 0 /\
  Forall (fun f => f <> 0) [512; 768; 1024] /\
  exists s',
    add_all 256 [512; 768; 1024] power_on = Done ([0; 1; 2], s') /\
    scheduler_get_task_count s' = 3.
Proof.
  assert (Hfs : Forall (fun f => f <> 0) [512; 768; 1024]).
  { repeat constructor; discriminate. }
  split; [exact power_on_wf|]. split; [exact power_on_stacks_ok|].
  split; [reflexivity|]. split; [exact Hfs|].
  destruct (add_task_contract 256 power_on [512; 768; 1024]
              power_on_wf power_on_stacks_ok eq_refl Hfs)
    as ((s' & Ha & Hc & _) & _).
  exists s'. split; [exact Ha | exact Hc].
Defined.

(** ** The tick handler *)

Lemma isr_delay_step_eq ts i t :
  0 <= i -> ts !! Z.to_nat i = Some t ->
  isr_delay_step ts i = Done (<[Z.to_nat i := delay_step_tcb t]> ts).
Proof.
  intros Hi Ht. unfold isr_delay_step, delay_step_tcb.
  assert (Hin : (Z.to_nat i < length ts)%nat) by (by eapply lookup_lt_Some).
  rewrite (tcb_Done _ _ t), bind_ret by done.
  destruct (0 <? delay_ticks t).
  - rewrite (tcb_update_Done _ _ _ t), bind_ret by done.
    rewrite (tcb_Done _ _ (set_delay_ticks (uint16 (delay_ticks t - 1)) t)),
      bind_ret by (done || by rewrite list_lookup_insert_eq).
    cbv zeta.
    destruct (_ && _).
    + rewrite (tcb_update_Done _ _ _
                 (set_delay_ticks (uint16 (delay_ticks t - 1)) t))
        by (done || by rewrite list_lookup_insert_eq).
      by rewrite list_insert_insert_eq.
    + done.
  - by rewrite list_insert_id.
Qed.

Lemma for_tasks_lookup (n : nat) :
  forall (a : Z) (ts : list task_t),
    0 <= a -> a + Z.of_nat n <= Z.of_nat (length ts) ->
    exists ts',
      for_tasks (seqZ a (Z.of_nat n)) ts = Done ts' /\
      length ts' = length ts /\
      forall j : nat,
        ts' !! j =
          (fun t => if decide (a <= Z.of_nat j < a + Z.of_nat n)
                    then delay_step_tcb t else t) <$> ts !! j.
Proof.
  induction n as [|n IH]; intros a ts Ha Hlen.
  - exists ts. split; [done|]. split; [done|]. intros j.
    destruct (ts !! j); simpl; [|done]. by case_decide; [lia|].
  - rewrite seqZ_cons by lia. cbn [for_tasks].
    destruct (lookup_lt_is_Some_2 ts (Z.to_nat a)) as [t Ht]; [lia|].
    rewrite (isr_delay_step_eq _ _ t), bind_ret by done.
    destruct (IH (Z.succ a) (<[Z.to_nat a := delay_step_tcb t]> ts))
      as (ts' & Hf & Hl & Hj); [lia|rewrite length_insert; lia|].
    exists ts'. replace (Z.pred (Z.of_nat (S n))) with (Z.of_nat n) by lia.
    split; [done|]. split; [by rewrite Hl, length_insert|].
    intros j. rewrite Hj.
    destruct (decide (j = Z.to_nat a)) as [->|Hne].
    + rewrite list_lookup_insert_eq, Ht by (by eapply lookup_lt_Some).
      simpl. f_equal. repeat case_decide; (done || lia).
    + rewrite list_lookup_insert_ne by done.
      destruct (ts !! j); simpl; [|done]. f_equal.
      repeat case_decide; (done || lia).
Qed.

Lemma TIMER0_COMPA_vect_eq s :
  wf s -> TIMER0_COMPA_vect s = Done (ticked s).
Proof.
  intros (Hl & Hn & Hc & Hcur). unfold MAX_TASKS in *.
  unfold TIMER0_COMPA_vect, ticked.
  destruct (_ || _); [done|].
  cbn [tasks current_task task_count with_debug_stats].
  destruct (tcb_in_bounds (tasks s) (current_task s)) as [cur Hcur']; [lia|].
  rewrite Hcur', bind_ret.
  assert (exists ts1,
    (if is_running (state cur)
     then tcb_update (tasks s) (current_task s)
            (fun t => set_runtime_ticks (uint32 (runtime_ticks t + 1)) t)
     else Done (tasks s)) = Done ts1 /\
    length ts1 = length (tasks s) /\
    forall j : nat, ts1 !! j =
      (fun t => if decide (j = Z.to_nat (current_task s)) then
                  (if is_running (state t)
                   then set_runtime_ticks (uint32 (runtime_ticks t + 1)) t
                   else t)
                else t) <$> tasks s !! j) as (ts1 & H1 & L1 & P1).
  { apply tcb_inv in Hcur' as [_ Hcur'].
    destruct (is_running (state cur)) eqn:Er.
    - destruct (tcb_update_in_bounds (tasks s) (current_task s)
        (fun t => set_runtime_ticks (uint32 (runtime_ticks t + 1)) t))
        as [ts1 H1]; [lia|].
      exists ts1. split; [done|].
      split; [by eapply tcb_update_length|]. intros j.
      rewrite (tcb_update_lookup _ _ _ _ j H1).
      destruct (decide (j = Z.to_nat (current_task s))) as [->|]; [|done].
      rewrite Hcur'. simpl. by rewrite Er.
    - exists (tasks s). split; [done|]. split; [done|]. intros j.
      destruct (decide (j = Z.to_nat (current_task s))) as [->|].
      + rewrite Hcur'. simpl. by rewrite Er.
      + by destruct (tasks s !! j). }
  rewrite H1, bind_ret.
  destruct (for_tasks_lookup (Z.to_nat (task_count s)) 0 ts1)
    as (ts2 & H2 & L2 & P2); [lia|lia|].
  rewrite Z2Nat.id in H2, P2 by lia.
  rewrite H2, bind_ret. unfold with_tasks. simpl. do 2 f_equal.
  apply list_eq. intros j. rewrite P2, P1, list_lookup_imap.
  destruct (tasks s !! j) as [t|]; [|done]. simpl. f_equal.
  unfold tick_tcb.
  destruct (decide (0 <= Z.of_nat j < 0 + task_count s));
    destruct (decide (Z.of_nat j < task_count s)); (done || lia).
Qed.

Lemma ticked_lookup s (j : nat) :
  scheduler_running s <> 0 -> task_count s <> 0 ->
  tasks (ticked s) !! j = tick_tcb s j <$> tasks s !! j.
Proof.
  intros Hr Hn. unfold ticked.
  destruct (Z.eqb_spec (scheduler_running s) 0); [done|].
  destruct (Z.eqb_spec (task_count s) 0); [done|].
  simpl. apply list_lookup_imap.
Qed.

Lemma ticked_frame s :
  task_count (ticked s) = task_count s /\
  current_task (ticked s) = current_task s /\
  scheduler_running (ticked s) = scheduler_running s /\
  length (tasks (ticked s)) = length (tasks s) /\
  io (ticked s) = io s.
Proof.
  unfold ticked. destruct (_ || _); [done|]. simpl.
  by rewrite length_imap.
Qed.

Lemma ticked_wf s : wf s -> wf (ticked s).
Proof.
  unfold wf. destruct (ticked_frame s) as (-> & -> & _ & -> & _). done.
Qed.

(** ** Tasks the dispatcher passes over *)

(** A yield leaves a task that is neither Ready nor Running exactly as it
    is, and does not make it current. *)
Lemma scheduler_yield_ineligible s s' i t :
  dispatchable s -> scheduler_yield s = Done s' ->
  0 <= i -> tasks s !! Z.to_nat i = Some t ->
  is_eligible (state t) = false ->
  tasks s' !! Z.to_nat i = Some t /\
  (current_task s' = i -> current_task s = i).
Proof.
  intros Hd Hy Hi Ht He. rewrite scheduler_yield_eq in Hy by done.
  destruct (Z.eqb_spec (next_task_of s) (current_task s)) as [E|Hne];
    injection Hy as <-; [done|].
  destruct (next_task_of_cases s Hd) as [|(Hx & Hel & _)]; [done|].
  assert (Hni : next_task_of s <> i).
  { intros E. rewrite E, (eligible_at_lookup s i t) in Hel by done.
    congruence. }
  split; [|done].
  rewrite switched_lookup, Ht. simpl. f_equal. unfold switch_tcb.
  destruct (decide _); [lia|]. destruct (decide _); [|done].
  by destruct (state t).
Qed.

Lemma not_selected_ineligible s i t :
  dispatchable s -> 0 <= i -> tasks s !! Z.to_nat i = Some t ->
  is_eligible (state t) = false -> ~ selected s i.
Proof.
  intros Hd Hi Ht He (s' & Hy & Hc & Hne).
  destruct (scheduler_yield_ineligible s s' i t Hd Hy Hi Ht He) as [_ H].
  auto.
Qed.

(** ** Delay *)

Lemma task_delay_unfold ticks s t :
  ticks <> 0 -> 0 <= current_task s ->
  tasks s !! Z.to_nat (current_task s) = Some t ->
  exists sb,
    task_delay ticks s = scheduler_yield sb /\
    tasks sb = <[Z.to_nat (current_task s) :=
                   set_state TASK_BLOCKED (set_delay_ticks ticks t)]> (tasks s) /\
    task_count sb = task_count s /\
    current_task sb = current_task s /\
    scheduler_running sb = scheduler_running s /\
    debug_stats sb = debug_stats s /\
    io sb = io s.
Proof.
  intros Hn Hc Ht. unfold task_delay.
  destruct (Z.eqb_spec ticks 0); [done|].
  assert (Hin : (Z.to_nat (current_task s) < length (tasks s))%nat)
    by (by eapply lookup_lt_Some).
  cbn [tasks current_task with_io].
  rewrite (tcb_update_Done _ _ _ t), bind_ret by done.
  rewrite (tcb_update_Done _ _ _ (set_delay_ticks ticks t)), bind_ret
    by (done || by rewrite list_lookup_insert_eq).
  rewrite list_insert_insert_eq.
  eexists. split; [reflexivity|].
  destruct s as [ts0 n0 c0 r0 d0 h0]. destruct h0. done.
Qed.

Lemma wf_insert s ts :
  wf s -> length ts = length (tasks s) -> wf (with_tasks ts s).
Proof. unfold wf. simpl. by intros ? ->. Qed.

Lemma task_delay_blocks s ticks :
  wf s -> 1 <= task_count s -> ticks <> 0 ->
  exists s' t,
    task_delay ticks s = Done s' /\
    tasks s' !! Z.to_nat (current_task s) = Some t /\
    state t = TASK_BLOCKED /\ delay_ticks t = ticks /\
    wf s' /\ task_count s' = task_count s /\
    scheduler_running s' = scheduler_running s.
Proof.
  intros Hw H1 Hn. pose proof (wf_dispatchable s Hw H1) as (Hn' & Hlen & Hc).
  destruct (lookup_lt_is_Some_2 (tasks s) (Z.to_nat (current_task s)))
    as [t Ht]; [lia|].
  destruct (task_delay_unfold ticks s t) as (sb & Hd & Ets & En & Ec & Er & _);
    [done|lia|done|].
  assert (Hwb : wf sb).
  { destruct Hw as (Hl & ? & ? & ?). unfold wf.
    rewrite Ets, En, Ec, length_insert. done. }
  assert (Hdb : dispatchable sb) by (apply wf_dispatchable; [done|lia]).
  pose proof (scheduler_yield_eq sb Hdb) as Hy.
  set (s' := if next_task_of sb =? current_task sb then yielded sb
             else switched sb (next_task_of sb)) in Hy.
  destruct (scheduler_yield_ineligible sb s' (current_task s)
              (set_state TASK_BLOCKED (set_delay_ticks ticks t)))
    as [Hl' _]; [done|done|lia| |done|].
  { rewrite Ets. apply list_lookup_insert_eq. lia. }
  destruct (scheduler_yield_frame sb s' Hdb Hy) as (En' & _ & Er' & _).
  exists s', (set_state TASK_BLOCKED (set_delay_ticks ticks t)).
  rewrite Hd. split; [done|]. split; [done|]. split; [done|]. split; [done|].
  split; [eapply scheduler_yield_wf; [done| |done]; lia|].
  split; congruence.
Qed.

(** ** Runs of the tick handler and the dispatcher *)

Lemma ticked_ineligible s i t :
  0 <= i -> tasks s !! Z.to_nat i = Some t ->
  is_eligible (state t) = false ->
  tasks (ticked s) !! Z.to_nat i =
    Some (if (scheduler_running s =? 0) || (task_count s =? 0) then t
          else if decide (i < task_count s) then delay_step_tcb t else t).
Proof.
  intros Hi Ht He. unfold ticked.
  destruct (_ || _); [done|]. simpl.
  rewrite list_lookup_imap, Ht. simpl. f_equal. unfold tick_tcb.
  assert (Hr : is_running (state t) = false) by (by destruct (state t)).
  rewrite Hr. destruct (decide (_ = _)); repeat case_decide; (done || lia).
Qed.

Lemma kernel_step exit_addr e s :
  kernel_event e -> wf s -> 1 <= task_count s ->
  exists s',
    step exit_addr e s = Done s' /\ wf s' /\
    task_count s' = task_count s /\
    scheduler_running s' = scheduler_running s.
Proof.
  intros He Hw H1. destruct e; try done; cbn [step].
  - pose proof (wf_dispatchable s Hw H1) as Hd.
    pose proof (scheduler_yield_eq s Hd) as Hy. eexists. split; [exact Hy|].
    destruct (scheduler_yield_frame _ _ Hd Hy) as (En & _ & Er & _).
    split; [by eapply scheduler_yield_wf|done].
  - exists (ticked s). split; [by apply TIMER0_COMPA_vect_eq|].
    split; [by apply ticked_wf|]. by destruct (ticked_frame s) as (? & _ & ? & _).
Qed.

(** The tick handler and the dispatcher leave a Blocked task whose counter
    is zero exactly as it is. *)
Lemma kernel_step_parked exit_addr e s s' i t :
  kernel_event e -> wf s -> 1 <= task_count s ->
  step exit_addr e s = Done s' ->
  0 <= i -> tasks s !! Z.to_nat i = Some t ->
  state t = TASK_BLOCKED -> delay_ticks t = 0 ->
  tasks s' !! Z.to_nat i = Some t.
Proof.
  intros He Hw H1 Hs Hi Ht Hst Hd. destruct e; try done; cbn [step] in Hs.
  - eapply scheduler_yield_ineligible; [by apply wf_dispatchable|done..|].
    by rewrite Hst.
  - rewrite TIMER0_COMPA_vect_eq in Hs by done. injection Hs as <-.
    rewrite (ticked_ineligible s i t) by (done || by rewrite Hst).
    f_equal. destruct (_ || _); [done|]. case_decide; [|done].
    unfold delay_step_tcb. by rewrite Hd.
Qed.

Lemma kernel_step_suspended exit_addr e s s' i t :
  kernel_event e -> wf s -> 1 <= task_count s ->
  step exit_addr e s = Done s' ->
  0 <= i -> tasks s !! Z.to_nat i = Some t ->
  state t = TASK_SUSPENDED ->
  (exists t', tasks s' !! Z.to_nat i = Some t' /\ state t' = TASK_SUSPENDED) /\
  (current_task s' = i -> current_task s = i).
Proof.
  intros He Hw H1 Hs Hi Ht Hst. destruct e; try done; cbn [step] in Hs.
  - destruct (scheduler_yield_ineligible s s' i t) as [Hl Hc];
      [by apply wf_dispatchable|done..|by rewrite Hst|].
    split; [by exists t|done].
  - rewrite TIMER0_COMPA_vect_eq in Hs by done. injection Hs as <-.
    rewrite (ticked_ineligible s i t) by (done || by rewrite Hst).
    split; [|by destruct (ticked_frame s) as (_ & -> & _)].
    eexists. split; [reflexivity|].
    destruct (_ || _); [done|]. case_decide; [|done].
    unfold delay_step_tcb. destruct (0 <? _); [|done]. cbv zeta.
    replace (is_blocked _) with false by (simpl; by rewrite Hst).
    by rewrite andb_false_r.
Qed.

Lemma kernel_step_delayed exit_addr e s s' i t :
  kernel_event e -> wf s -> 1 <= task_count s -> scheduler_running s <> 0 ->
  step exit_addr e s = Done s' ->
  0 <= i < task_count s -> tasks s !! Z.to_nat i = Some t ->
  state t = TASK_BLOCKED -> 0 < delay_ticks t < 65536 ->
  exists t', tasks s' !! Z.to_nat i = Some t' /\
    delay_ticks t' = delay_ticks t - (if is_tick e then 1 else 0) /\
    state t' = (if is_tick e && (delay_ticks t =? 1)
                then TASK_READY else TASK_BLOCKED).
Proof.
  intros He Hw H1 Hr Hs Hi Ht Hst Hd. destruct e; try done; cbn [step] in Hs.
  - destruct (scheduler_yield_ineligible s s' i t) as [Hl Hc];
      [by apply wf_dispatchable|done|lia|done|by rewrite Hst|].
    exists t. simpl. split; [done|]. split; [lia|done].
  - rewrite TIMER0_COMPA_vect_eq in Hs by done. injection Hs as <-.
    rewrite (ticked_ineligible s i t) by (done || lia || by rewrite Hst).
    destruct (Z.eqb_spec (scheduler_running s) 0); [done|].
    destruct (Z.eqb_spec (task_count s) 0); [lia|]. cbn [orb].
    destruct (decide (i < task_count s)); [|lia].
    eexists. split; [reflexivity|]. unfold delay_step_tcb.
    destruct (Z.ltb_spec 0 (delay_ticks t)); [|lia]. cbv zeta.
    cbn [delay_ticks set_delay_ticks state is_tick andb].
    rewrite uint16_small by lia. rewrite Hst. cbn [is_blocked].
    rewrite andb_true_r.
    destruct (Z.eqb_spec (delay_ticks t - 1) 0);
      destruct (Z.eqb_spec (delay_ticks t) 1); try lia; done.
Qed.

Lemma ticks_in_cons e evs :
  ticks_in (e :: evs) = ((if is_tick e then 1 else 0) + ticks_in evs)%nat.
Proof. unfold ticks_in. simpl. by destruct (is_tick e). Qed.

Lemma kernel_run_delayed exit_addr (evs : list event) :
  forall s t,
    Forall kernel_event evs ->
    wf s -> 1 <= task_count s -> scheduler_running s <> 0 ->
    forall i, 0 <= i < task_count s -> tasks s !! Z.to_nat i = Some t ->
    state t = TASK_BLOCKED ->
    Z.of_nat (ticks_in evs) < delay_ticks t < 65536 ->
    exists s' t',
      run exit_addr evs s = Done s' /\ wf s' /\
      task_count s' = task_count s /\
      scheduler_running s' = scheduler_running s /\
      tasks s' !! Z.to_nat i = Some t' /\
      state t' = TASK_BLOCKED /\
      delay_ticks t' = delay_ticks t - Z.of_nat (ticks_in evs).
Proof.
  induction evs as [|e evs IH]; intros s t Hev Hw H1 Hr i Hi Ht Hst Hd.
  - exists s, t. unfold ticks_in. simpl.
    do 6 (split; [done|]). lia.
  - apply Forall_cons in Hev as [He Hev]. rewrite ticks_in_cons in *.
    destruct (kernel_step exit_addr e s He Hw H1) as (s1 & Hs & Hw1 & En & Er).
    destruct (kernel_step_delayed exit_addr e s s1 i t)
      as (t1 & Ht1 & Hd1 & Hs1); try done; [destruct (is_tick e); lia|].
    assert (Hst1 : state t1 = TASK_BLOCKED).
    { rewrite Hs1. destruct (is_tick e); [|done].
      destruct (Z.eqb_spec (delay_ticks t) 1); [lia|done]. }
    destruct (IH s1 t1 Hev Hw1) with (i := i)
      as (s' & t' & Hrun & Hw' & En' & Er' & Ht' & Hst' & Hd');
      try done; try lia; [destruct (is_tick e); lia|].
    exists s', t'. cbn [run]. rewrite Hs, bind_ret.
    split; [done|]. split; [done|]. split; [lia|]. split; [congruence|].
    split; [done|]. split; [done|].
    rewrite Hd', Hd1. destruct (is_tick e); lia.
Qed.

Lemma kernel_run_parked exit_addr (evs : list event) :
  forall s,
    Forall kernel_event evs -> wf s -> 1 <= task_count s ->
    forall i t, 0 <= i -> tasks s !! Z.to_nat i = Some t ->
    state t = TASK_BLOCKED -> delay_ticks t = 0 ->
    exists s',
      run exit_addr evs s = Done s' /\ wf s' /\
      task_count s' = task_count s /\
      tasks s' !! Z.to_nat i = Some t.
Proof.
  induction evs as [|e evs IH]; intros s Hev Hw H1 i t Hi Ht Hst Hd.
  - by exists s.
  - apply Forall_cons in Hev as [He Hev].
    destruct (kernel_step exit_addr e s He Hw H1) as (s1 & Hs & Hw1 & En & Er).
    pose proof (kernel_step_parked exit_addr e s s1 i t He Hw H1 Hs Hi Ht Hst Hd)
      as Ht1.
    destruct (IH s1 Hev Hw1) with (i := i) (t := t)
      as (s' & Hrun & Hw' & En' & Ht'); try done; try lia.
    exists s'. cbn [run]. rewrite Hs, bind_ret.
    split; [done|]. split; [done|]. split; [lia|done].
Qed.

Lemma kernel_run_suspended exit_addr (evs : list event) :
  forall s,
    Forall kernel_event evs -> wf s -> 1 <= task_count s ->
    forall i t, 0 <= i -> tasks s !! Z.to_nat i = Some t ->
    state t = TASK_SUSPENDED ->
    exists s' t',
      run exit_addr evs s = Done s' /\ wf s' /\
      task_count s' = task_count s /\
      tasks s' !! Z.to_nat i = Some t' /\ state t' = TASK_SUSPENDED /\
      (current_task s' = i -> current_task s = i).
Proof.
  induction evs as [|e evs IH]; intros s Hev Hw H1 i t Hi Ht Hst.
  - by exists s, t.
  - apply Forall_cons in Hev as [He Hev].
    destruct (kernel_step exit_addr e s He Hw H1) as (s1 & Hs & Hw1 & En & Er).
    destruct (kernel_step_suspended exit_addr e s s1 i t He Hw H1 Hs Hi Ht Hst)
      as ((t1 & Ht1 & Hst1) & Hc1).
    destruct (IH s1 Hev Hw1) with (i := i) (t := t1)
      as (s' & t' & Hrun & Hw' & En' & Ht' & Hst' & Hc'); try done; try lia.
    exists s', t'. cbn [run]. rewrite Hs, bind_ret.
    split; [done|]. split; [done|]. split; [lia|]. split; [done|].
    split; [done|]. auto.
Qed.

Lemma state_at_lookup s i t :
  tasks s !! Z.to_nat i = Some t -> state_at s i = Some (state t).
Proof. unfold state_at. by intros ->. Qed.

Lemma delay_at_lookup s i t :
  tasks s !! Z.to_nat i = Some t -> delay_at s i = Some (delay_ticks t).
Proof. unfold delay_at. by intros ->. Qed.

(** C4: for [0 < n] (a [uint16_t]), [task_delay(n)] called by the current
    task of a running scheduler returns with that task Blocked and its
    counter at [n].  Whatever the dispatcher does in between, as long as
    fewer than [n] ticks have been handled the task is still Blocked, its
    counter is [n] minus the number of ticks, it fails the dispatcher's
    eligibility test and no yield selects it; and the tick handled after
    exactly [n - 1] ticks, the [n]-th, brings the counter to zero and the
    task to Ready, where it passes the eligibility test. *)
Theorem delay_expires_on_nth_tick (exit_addr : Z) (s : sched) (n : Z) :
  wf s -> 1 <= task_count s -> scheduler_running s <> 0 ->
  0 < n < 65536 ->
  exists s1,
    task_delay n s = Done s1 /\
    state_at s1 (current_task s) = Some TASK_BLOCKED /\
    delay_at s1 (current_task s) = Some n /\
    forall evs : list event,
      Forall kernel_event evs -> Z.of_nat (ticks_in evs) < n ->
      exists s2,
        run exit_addr evs s1 = Done s2 /\
        state_at s2 (current_task s) = Some TASK_BLOCKED /\
        delay_at s2 (current_task s) = Some (n - Z.of_nat (ticks_in evs)) /\
        eligible_at s2 (current_task s) = false /\
        ~ selected s2 (current_task s) /\
        (Z.of_nat (ticks_in evs) = n - 1 ->
         exists s3,
           TIMER0_COMPA_vect s2 = Done s3 /\
           state_at s3 (current_task s) = Some TASK_READY /\
           delay_at s3 (current_task s) = Some 0 /\
           eligible_at s3 (current_task s) = true).
Proof.
  intros Hw H1 Hr Hn.
  pose proof (wf_dispatchable s Hw H1) as (_ & _ & Hc).
  set (c := current_task s) in *.
  destruct (task_delay_blocks s n Hw H1) as (s1 & t & Hd & Ht & Hst & Hdl & Hw1
    & En1 & Er1); [lia|].
  exists s1. split; [done|].
  split; [by rewrite (state_at_lookup _ _ t), Hst|].
  split; [by rewrite (delay_at_lookup _ _ t), Hdl|].
  intros evs Hev Hk.
  destruct (kernel_run_delayed exit_addr evs s1 t Hev Hw1) with (i := c)
    as (s2 & t2 & Hrun & Hw2 & En2 & Er2 & Ht2 & Hst2 & Hdl2);
    try done; try lia.
  exists s2. split; [done|].
  split; [by rewrite (state_at_lookup _ _ t2), Hst2|].
  split; [rewrite (delay_at_lookup _ _ t2) by done; f_equal; lia|].
  split; [by rewrite (eligible_at_lookup _ _ t2), Hst2 by (done || lia)|].
  split.
  { eapply not_selected_ineligible; [apply wf_dispatchable| | |]; try done;
      try lia. by rewrite Hst2. }
  intros Hlast.
  destruct (kernel_step exit_addr ETick s2 I Hw2) as (s3 & Hs3 & _); [lia|].
  destruct (kernel_step_delayed exit_addr ETick s2 s3 c t2)
    as (t3 & Ht3 & Hdl3 & Hst3); try done; try lia.
  exists s3. split; [done|]. cbn [is_tick andb] in *.
  replace (delay_ticks t2 =? 1) with true in Hst3 by (symmetry; apply Z.eqb_eq; lia).
  split; [by rewrite (state_at_lookup _ _ t3), Hst3|].
  split; [rewrite (delay_at_lookup _ _ t3) by done; f_equal; lia|].
  by rewrite (eligible_at_lookup _ _ t3), Hst3 by (done || lia).
Qed.

Lemma two_tasks_wf : wf two_tasks.
Proof. unfold wf. vm_compute. intuition congruence. Qed.

Lemma delay_expires_on_nth_tick_witness :
  wf two_tasks /\ 1 <= task_count two_tasks /\
  scheduler_running two_tasks <> 0 /\ 0 < 3 < 65536 /\
  exists s1,
    task_delay 3 two_tasks = Done s1 /\
    state_at s1 (current_task two_tasks) = Some TASK_BLOCKED /\
    delay_at s1 (current_task two_tasks) = Some 3.
Proof.
  assert (H1 : 1 <= task_count two_tasks) by (vm_compute; congruence).
  assert (Hr : scheduler_running two_tasks <> 0) by (vm_compute; congruence).
  assert (Hn : 0 < 3 < 65536) by lia.
  split; [exact two_tasks_wf|]. split; [exact H1|]. split; [exact Hr|].
  split; [exact Hn|].
  destruct (delay_expires_on_nth_tick 256 two_tasks 3 two_tasks_wf H1 Hr Hn)
    as (s1 & Hd & Hs & Hdl & _).
  exists s1. split; [exact Hd|]. split; [exact Hs | exact Hdl].
Defined.

(** ** The exit handler *)

Lemma task_exit_mark_eq s :
  wf s -> 1 <= task_count s ->
  exists t,
    tasks s !! Z.to_nat (current_task s) = Some t /\
    task_exit_mark s =
      Done (with_tasks (<[Z.to_nat (current_task s) :=
                            set_state TASK_BLOCKED t]> (tasks s)) s).
Proof.
  intros Hw H1. pose proof (wf_dispatchable s Hw H1) as (_ & Hlen & Hc).
  destruct (lookup_lt_is_Some_2 (tasks s) (Z.to_nat (current_task s)))
    as [t Ht]; [lia|].
  exists t. split; [done|]. unfold task_exit_mark.
  by rewrite (tcb_update_Done _ _ _ t), bind_ret by (done || lia).
Qed.

(** After the exit handler has stored Blocked in a task with a zero delay
    counter, ticks and yields leave the task as it is. *)
Lemma task_exit_parks (exit_addr : Z) (s : sched) :
  wf s -> 1 <= task_count s ->
  delay_at s (current_task s) = Some 0 ->
  exists s1,
    task_exit_mark s = Done s1 /\
    state_at s1 (current_task s) = Some TASK_BLOCKED /\
    forall evs : list event,
      Forall kernel_event evs ->
      exists s2,
        run exit_addr evs s1 = Done s2 /\
        state_at s2 (current_task s) = Some TASK_BLOCKED /\
        delay_at s2 (current_task s) = Some 0 /\
        eligible_at s2 (current_task s) = false /\
        ~ selected s2 (current_task s).
Proof.
  intros Hw H1 Hdl.
  pose proof (wf_dispatchable s Hw H1) as (_ & _ & Hc).
  destruct (task_exit_mark_eq s Hw H1) as (t & Ht & Hm).
  set (c := current_task s) in *.
  set (s1 := with_tasks (<[Z.to_nat c := set_state TASK_BLOCKED t]> (tasks s)) s)
    in *.
  assert (Hw1 : wf s1) by (apply wf_insert; [done|apply length_insert]).
  assert (Ht1 : tasks s1 !! Z.to_nat c = Some (set_state TASK_BLOCKED t)).
  { apply list_lookup_insert_eq. by eapply lookup_lt_Some. }
  assert (Hd0 : delay_ticks t = 0).
  { rewrite (delay_at_lookup _ _ t) in Hdl by done. by injection Hdl. }
  exists s1. split; [done|].
  split; [by rewrite (state_at_lookup _ _ _ Ht1)|].
  intros evs Hev.
  destruct (kernel_run_parked exit_addr evs s1 Hev Hw1) with
    (i := c) (t := set_state TASK_BLOCKED t) as (s2 & Hrun & Hw2 & En2 & Ht2);
    try done; try lia.
  exists s2. split; [done|].
  split; [by rewrite (state_at_lookup _ _ _ Ht2)|].
  split; [rewrite (delay_at_lookup _ _ _ Ht2); simpl; by rewrite Hd0|].
  split; [by rewrite (eligible_at_lookup s2 c _ (proj1 Hc) Ht2)|].
  eapply not_selected_ineligible; [apply wf_dispatchable| | |]; try done;
    try lia. change (task_count s1) with (task_count s) in En2. lia.
Qed.


(** ** Single-slot updates *)

Lemma tcb_update_slot ts k f :
  0 <= k < Z.of_nat (length ts) ->
  tcb_update ts k f =
    Done (imap (fun j t => if decide (j = Z.to_nat k) then f t else t) ts).
Proof.
  intros Hk. destruct (tcb_update_in_bounds ts k f Hk) as [ts' H].
  rewrite H. f_equal. apply list_eq. intros j.
  by rewrite (tcb_update_lookup _ _ _ _ j H), list_lookup_imap.
Qed.

Lemma update_slot_lookup k f s (j : nat) :
  tasks (update_slot k f s) !! j =
    (fun t => if decide (j = Z.to_nat k) then f t else t) <$> tasks s !! j.
Proof. unfold update_slot. simpl. apply list_lookup_imap. Qed.

Lemma update_slot_wf k f s : wf s -> wf (update_slot k f s).
Proof. unfold wf, update_slot. simpl. by rewrite length_imap. Qed.

Lemma update_slot_stacks_ok k f s :
  (forall t, stack (f t) = stack t) ->
  stacks_ok s -> stacks_ok (update_slot k f s).
Proof.
  intros Hf Hst j t'. rewrite update_slot_lookup.
  destruct (tasks s !! j) as [t|] eqn:Et; [|done]. simpl. intros [= <-].
  case_decide; [rewrite Hf|]; by eapply Hst.
Qed.

Lemma update_slot_only_current_running k f s :
  (forall t, state (f t) = TASK_RUNNING -> state t = TASK_RUNNING) ->
  only_current_running s -> only_current_running (update_slot k f s).
Proof.
  intros Hf Ho j t'. rewrite update_slot_lookup.
  destruct (tasks s !! j) as [t|] eqn:Et; [|done]. simpl. intros [= <-] Hr.
  apply (Ho j t Et). case_decide; auto.
Qed.

Lemma update_slot_none_running k f s :
  (forall t, state (f t) = TASK_RUNNING -> state t = TASK_RUNNING) ->
  none_running s -> none_running (update_slot k f s).
Proof.
  intros Hf Ho j t'. rewrite update_slot_lookup.
  destruct (tasks s !! j) as [t|] eqn:Et; [|done]. simpl. intros [= <-] Hr.
  apply (Ho j t Et). case_decide; auto.
Qed.

Lemma with_tasks_id s : with_tasks (tasks s) s = s.
Proof. by destruct s. Qed.

(** ** Suspend, resume, exit and delay as slot updates *)

Lemma scheduler_suspend_task_eq id s :
  0 <= id -> task_count s <= Z.of_nat (length (tasks s)) ->
  scheduler_suspend_task id s =
    Done (if id <? task_count s
          then update_slot id (set_state TASK_SUSPENDED) s else s).
Proof.
  intros Hid Hlen. unfold scheduler_suspend_task.
  destruct (Z.ltb_spec id (task_count s)); [|done].
  by rewrite tcb_update_slot, bind_ret by lia.
Qed.

Lemma scheduler_resume_task_eq id s :
  0 <= id -> task_count s <= Z.of_nat (length (tasks s)) ->
  scheduler_resume_task id s =
    Done (if id <? task_count s then update_slot id resume_tcb s else s).
Proof.
  intros Hid Hlen. unfold scheduler_resume_task.
  destruct (Z.ltb_spec id (task_count s)); [|done].
  destruct (lookup_lt_is_Some_2 (tasks s) (Z.to_nat id)) as [t Ht]; [lia|].
  rewrite (tcb_Done _ _ t), bind_ret by done.
  destruct (is_suspended (state t)) eqn:Es.
  - rewrite tcb_update_slot, bind_ret by lia. do 2 f_equal.
    unfold update_slot. f_equal. apply list_eq. intros j.
    rewrite !list_lookup_imap.
    destruct (tasks s !! j) as [tj|] eqn:Ej; [|done]. simpl. f_equal.
    case_decide; [|done]. subst j. unfold resume_tcb.
    replace tj with t by congruence. by rewrite Es.
  - f_equal. rewrite <- (with_tasks_id s) at 1. unfold update_slot. f_equal.
    apply list_eq. intros j. rewrite list_lookup_imap.
    destruct (tasks s !! j) as [tj|] eqn:Ej; [|done]. simpl. f_equal.
    case_decide; [|done]. subst j. unfold resume_tcb.
    replace tj with t by congruence. by rewrite Es.
Qed.

Lemma task_exit_mark_slot s :
  0 <= current_task s < Z.of_nat (length (tasks s)) ->
  task_exit_mark s =
    Done (update_slot (current_task s) (set_state TASK_BLOCKED) s).
Proof.
  intros Hc. unfold task_exit_mark.
  by rewrite tcb_update_slot, bind_ret by lia.
Qed.

Lemma task_delay_slot ticks s :
  ticks <> 0 -> 0 <= current_task s < Z.of_nat (length (tasks s)) ->
  task_delay ticks s =
    scheduler_yield (update_slot (current_task s) (block_tcb ticks) s).
Proof.
  intros Hn Hc.
  destruct (lookup_lt_is_Some_2 (tasks s) (Z.to_nat (current_task s)))
    as [t Ht]; [lia|].
  destruct (task_delay_unfold ticks s t Hn) as (sb & -> & Ets & En & Ec & Er
    & Ed & Eio); [lia|done|].
  f_equal. destruct sb as [ts n c r d h]. simpl in *. subst.
  unfold update_slot, with_tasks. f_equal.
  apply list_eq. intros j. rewrite list_lookup_imap.
  destruct (decide (j = Z.to_nat (current_task s))) as [->|Hne].
  - rewrite list_lookup_insert_eq, Ht by (by eapply lookup_lt_Some). done.
  - rewrite list_lookup_insert_ne by done. by destruct (tasks s !! j).
Qed.

(** ** Invariants of the operations *)

Lemma stacks_ok_imap (F : nat -> task_t -> task_t) s s' :
  tasks s' = imap F (tasks s) ->
  (forall j t, stack (F j t) = stack t) ->
  stacks_ok s -> stacks_ok s'.
Proof.
  intros E HF Hst j t'. rewrite E, list_lookup_imap.
  destruct (tasks s !! j) as [t|] eqn:Et; [|done]. simpl. intros [= <-].
  rewrite HF. by eapply Hst.
Qed.

Lemma switch_tcb_stack c n j t : stack (switch_tcb c n j t) = stack t.
Proof.
  unfold switch_tcb. repeat case_decide; try done.
  by destruct (is_running (state t)).
Qed.

Lemma delay_step_tcb_stack t : stack (delay_step_tcb t) = stack t.
Proof.
  unfold delay_step_tcb. destruct (0 <? _); [|done]. cbv zeta.
  by destruct (_ && _).
Qed.

Lemma tick_tcb_stack s j t : stack (tick_tcb s j t) = stack t.
Proof.
  unfold tick_tcb. cbv zeta.
  repeat case_decide; rewrite ?delay_step_tcb_stack; try done;
    by destruct (is_running (state t)).
Qed.

Lemma delay_step_tcb_running t :
  state (delay_step_tcb t) = TASK_RUNNING -> state t = TASK_RUNNING.
Proof.
  unfold delay_step_tcb. destruct (0 <? _); [|done]. cbv zeta.
  by destruct (_ && _).
Qed.

Lemma tick_tcb_running s j t :
  state (tick_tcb s j t) = TASK_RUNNING -> state t = TASK_RUNNING.
Proof.
  unfold tick_tcb. cbv zeta. intros H.
  repeat case_decide; try apply delay_step_tcb_running in H;
    by destruct (is_running (state t)).
Qed.

Lemma scheduler_yield_stacks_ok s s' :
  dispatchable s -> scheduler_yield s = Done s' ->
  stacks_ok s -> stacks_ok s'.
Proof.
  intros Hd. rewrite scheduler_yield_eq by done.
  destruct (_ =? _); intros [= <-]; [done|].
  apply (stacks_ok_imap (switch_tcb (current_task s) (next_task_of s)));
    [done|]. intros. apply switch_tcb_stack.
Qed.

Lemma scheduler_yield_only_current_running s s' :
  dispatchable s -> scheduler_yield s = Done s' ->
  only_current_running s -> only_current_running s'.
Proof.
  intros Hd. rewrite scheduler_yield_eq by done.
  destruct (Z.eqb_spec (next_task_of s) (current_task s)) as [|Hne];
    intros [= <-] Ho; [done|].
  intros j t'. rewrite switched_lookup.
  destruct (tasks s !! j) as [t|] eqn:Et; [|done]. simpl. intros [= <-].
  unfold switch_tcb.
  destruct (decide (j = Z.to_nat (next_task_of s))) as [|Hn]; [done|].
  destruct (decide (j = Z.to_nat (current_task s))) as [->|Hc].
  - destruct (state t) eqn:Es; simpl; rewrite ?Es; done.
  - intros Hr. by apply (Ho j t Et) in Hr.
Qed.

Lemma ticked_stacks_ok s : stacks_ok s -> stacks_ok (ticked s).
Proof.
  unfold ticked. destruct (_ || _); [done|].
  apply (stacks_ok_imap (tick_tcb s)); [done|]. intros. apply tick_tcb_stack.
Qed.

Lemma ticked_only_current_running s :
  only_current_running s -> only_current_running (ticked s).
Proof.
  unfold ticked. destruct (_ || _); [done|]. intros Ho j t'. simpl.
  rewrite list_lookup_imap.
  destruct (tasks s !! j) as [t|] eqn:Et; [|done]. simpl. intros [= <-] Hr.
  apply (Ho j t Et). by eapply tick_tcb_running.
Qed.

Lemma tcb_negative ts i : i < 0 -> tcb ts i = Stop OutOfBounds.
Proof. intros H. unfold tcb. by destruct (Z.leb_spec 0 i); [lia|]. Qed.

Lemma tcb_update_negative ts i f : i < 0 -> tcb_update ts i f = Stop OutOfBounds.
Proof. intros H. unfold tcb_update. by rewrite tcb_negative. Qed.

Lemma scheduler_suspend_task_inv id s s' :
  wf s -> scheduler_suspend_task id s = Done s' ->
  s' = (if id <? task_count s
        then update_slot id (set_state TASK_SUSPENDED) s else s).
Proof.
  intros (Hl & Hn & _) H. unfold MAX_TASKS in *.
  destruct (Z_lt_ge_dec id 0) as [Hneg|Hpos].
  - unfold scheduler_suspend_task in H.
    destruct (Z.ltb_spec id (task_count s)); [|lia].
    by rewrite tcb_update_negative in H.
  - rewrite scheduler_suspend_task_eq in H by lia. by injection H.
Qed.

Lemma scheduler_resume_task_inv id s s' :
  wf s -> scheduler_resume_task id s = Done s' ->
  s' = (if id <? task_count s then update_slot id resume_tcb s else s).
Proof.
  intros (Hl & Hn & _) H. unfold MAX_TASKS in *.
  destruct (Z_lt_ge_dec id 0) as [Hneg|Hpos].
  - unfold scheduler_resume_task in H.
    destruct (Z.ltb_spec id (task_count s)); [|lia].
    by rewrite tcb_negative in H.
  - rewrite scheduler_resume_task_eq in H by lia. by injection H.
Qed.

Lemma resume_tcb_running t :
  state (resume_tcb t) = TASK_RUNNING -> state t = TASK_RUNNING.
Proof. unfold resume_tcb. by destruct (is_suspended (state t)). Qed.

Lemma resume_tcb_stack t : stack (resume_tcb t) = stack t.
Proof. unfold resume_tcb. by destruct (is_suspended (state t)). Qed.

(** A registration either fails and changes nothing or fills the first
    free slot. *)
Lemma scheduler_add_task_cases exit_addr f s r s' :
  wf s -> stacks_ok s ->
  scheduler_add_task exit_addr f s = Done (r, s') ->
  (r = -1 /\ s' = s) \/
  (r = task_count s /\ task_count s < MAX_TASKS /\
   task_count s' = task_count s + 1 /\
   current_task s' = current_task s /\
   scheduler_running s' = scheduler_running s /\
   length (tasks s') = length (tasks s) /\
   (exists tn, tasks s' !! Z.to_nat (task_count s) = Some tn /\
               state tn = TASK_READY /\
               length (stack tn) = Z.to_nat TASK_STACK_SIZE) /\
   (forall j : nat, j <> Z.to_nat (task_count s) ->
                    tasks s' !! j = tasks s !! j)).
Proof.
  intros Hw Hst H.
  destruct (Z_lt_ge_dec (task_count s) MAX_TASKS) as [Hlt|Hge].
  - destruct (Z.eq_dec f 0) as [->|Hf].
    + rewrite scheduler_add_task_null in H. injection H as <- <-. by left.
    + destruct (scheduler_add_task_ok exit_addr f s Hw Hst Hlt Hf)
        as (s1 & tn & Ha & En & Ec & Er & _ & _ & El & Hnew & Hs & _ & _ & _
            & Hk & Hoth).
      rewrite Ha in H. injection H as <- <-. right.
      repeat (split; [done|]). split; [|done]. by exists tn.
  - rewrite scheduler_add_task_full in H by lia. injection H as <- <-.
    by left.
Qed.

Lemma scheduler_add_task_preserves exit_addr f s r s' :
  wf s -> stacks_ok s ->
  scheduler_add_task exit_addr f s = Done (r, s') ->
  wf s' /\ stacks_ok s' /\ task_count s <= task_count s' /\
  current_task s' = current_task s /\
  scheduler_running s' = scheduler_running s /\
  (only_current_running s -> only_current_running s') /\
  (none_running s -> none_running s') /\
  (forall i, 0 <= i < task_count s ->
             tasks s' !! Z.to_nat i = tasks s !! Z.to_nat i).
Proof.
  intros Hw Hst H.
  destruct (scheduler_add_task_cases exit_addr f s r s' Hw Hst H)
    as [[_ ->]|(_ & Hlt & En & Ec & Er & El & (tn & Hnew & Hs & Hk) & Hoth)].
  { repeat (split; [done || lia|]). done. }
  pose proof Hw as (Hl & Hn & Hc & Hcur).
  split; [unfold wf; rewrite En, Ec, El; repeat split; lia|].
  split.
  { intros j t Hj. destruct (decide (j = Z.to_nat (task_count s))) as [->|Hne].
    - congruence.
    - rewrite Hoth in Hj by done. by eapply Hst. }
  split; [lia|]. split; [done|]. split; [done|].
  split; [|split].
  - intros Ho j t Hj Hr. rewrite Ec.
    destruct (decide (j = Z.to_nat (task_count s))) as [->|Hne].
    + congruence.
    + rewrite Hoth in Hj by done. by eapply Ho.
  - intros Ho j t Hj Hr.
    destruct (decide (j = Z.to_nat (task_count s))) as [->|Hne].
    + congruence.
    + rewrite Hoth in Hj by done. by eapply Ho.
  - intros i Hi. apply Hoth. lia.
Qed.

(** ** Invariants of reachable states *)

Lemma task_step_invariant exit_addr e s s' :
  task_event e -> step exit_addr e s = Done s' ->
  wf s -> stacks_ok s -> 1 <= task_count s ->
  wf s' /\ stacks_ok s' /\ task_count s <= task_count s' /\
  (only_current_running s -> only_current_running s') /\
  scheduler_running s' = scheduler_running s.
Proof.
  intros He Hs Hw Hst H1.
  pose proof (wf_dispatchable s Hw H1) as Hd.
  destruct e; try done; cbn [step] in Hs.
  - apply bind_Done in Hs as ([r s1] & Ha & [= <-]).
    destruct (scheduler_add_task_preserves exit_addr _ s r s1 Hw Hst Ha)
      as (? & ? & ? & ? & ? & Ho' & _).
    split; [done|]. split; [done|]. split; [lia|]. split; [auto|done].
  - apply scheduler_suspend_task_inv in Hs as ->; [|done].
    destruct (_ <? _); [|done].
    split; [by apply update_slot_wf|].
    split; [by apply update_slot_stacks_ok|]. split; [done|].
    split; [by apply update_slot_only_current_running|done].
  - apply scheduler_resume_task_inv in Hs as ->; [|done].
    destruct (_ <? _); [|done].
    split; [by apply update_slot_wf|].
    split; [apply update_slot_stacks_ok; [apply resume_tcb_stack|done]|].
    split; [done|].
    split; [|done]. intros Ho.
    apply update_slot_only_current_running; [apply resume_tcb_running|done].
  - destruct (scheduler_yield_frame s s' Hd Hs) as (En & _ & Er & _).
    split; [by eapply scheduler_yield_wf|].
    split; [by eapply scheduler_yield_stacks_ok|]. split; [lia|].
    split; [by apply scheduler_yield_only_current_running|done].
  - destruct (Z.eq_dec ticks 0) as [->|Hn].
    { injection Hs as <-.
      split; [done|]. split; [done|]. split; [lia|]. split; [auto|done]. }
    destruct Hd as (_ & Hlen & Hc).
    rewrite task_delay_slot in Hs by (done || lia).
    set (sb := update_slot (current_task s) (block_tcb ticks) s) in *.
    assert (Hwb : wf sb) by (by apply update_slot_wf).
    assert (Hdb : dispatchable sb) by (by apply wf_dispatchable).
    destruct (scheduler_yield_frame sb s' Hdb Hs) as (En & _ & Er & _).
    split; [by eapply scheduler_yield_wf|].
    split; [eapply scheduler_yield_stacks_ok; [done..|];
            by apply update_slot_stacks_ok|].
    split; [change (task_count sb) with (task_count s) in En; lia|].
    split; [|done]. intros Ho.
    eapply scheduler_yield_only_current_running; [done..|].
    by apply update_slot_only_current_running.
  - rewrite TIMER0_COMPA_vect_eq in Hs by done. injection Hs as <-.
    destruct (ticked_frame s) as (En & _ & Er & _).
    split; [by apply ticked_wf|]. split; [by apply ticked_stacks_ok|].
    split; [lia|]. split; [by apply ticked_only_current_running|done].
  - destruct Hd as (_ & Hlen & Hc).
    rewrite task_exit_mark_slot in Hs by lia. injection Hs as <-.
    split; [by apply update_slot_wf|].
    split; [by apply update_slot_stacks_ok|]. split; [done|].
    split; [by apply update_slot_only_current_running|done].
Qed.

Lemma scheduler_init_none_running s : none_running (scheduler_init s).
Proof. intros i t Hi. by apply lookup_replicate in Hi as [-> _]. Qed.

Lemma setup_step_invariant exit_addr e s s' :
  setup_event e -> step exit_addr e s = Done s' ->
  wf s -> stacks_ok s -> none_running s -> scheduler_running s = 0 ->
  wf s' /\ stacks_ok s' /\ none_running s' /\ scheduler_running s' = 0.
Proof.
  intros He Hs Hw Hst Ho Hr.
  destruct e; try done; cbn [step] in Hs.
  - injection Hs as <-.
    split; [apply scheduler_init_wf|].
    split; [apply scheduler_init_stacks_ok|].
    split; [apply scheduler_init_none_running|done].
  - apply bind_Done in Hs as ([r s1] & Ha & [= <-]).
    destruct (scheduler_add_task_preserves exit_addr _ s r s1 Hw Hst Ha)
      as (? & ? & ? & ? & ? & _ & Ho' & _).
    split; [done|]. split; [done|]. split; [auto|congruence].
  - apply scheduler_suspend_task_inv in Hs as ->; [|done].
    destruct (_ <? _); [|done].
    split; [by apply update_slot_wf|].
    split; [by apply update_slot_stacks_ok|].
    split; [by apply update_slot_none_running|done].
  - apply scheduler_resume_task_inv in Hs as ->; [|done].
    destruct (_ <? _); [|done].
    split; [by apply update_slot_wf|].
    split; [apply update_slot_stacks_ok; [apply resume_tcb_stack|done]|].
    split; [|done].
    apply update_slot_none_running; [apply resume_tcb_running|done].
  - unfold TIMER0_COMPA_vect in Hs. rewrite Hr in Hs. simpl in Hs.
    by injection Hs as <-.
Qed.

Lemma scheduler_start_eq s :
  wf s -> task_count s <> 0 ->
  scheduler_start s =
    Done (with_io (sei (io s))
            (with_scheduler_running 1
               (update_slot 0 (set_state TASK_RUNNING)
                  (with_current_task 0 s)))).
Proof.
  intros (Hl & Hn & _) H0. unfold MAX_TASKS in *. unfold scheduler_start.
  destruct (Z.eqb_spec (task_count s) 0); [done|].
  cbn [tasks current_task with_current_task].
  rewrite tcb_update_slot, bind_ret by lia.
  cbn [tasks current_task with_current_task with_tasks with_io
       with_scheduler_running].
  destruct (tcb_in_bounds
    (imap (fun j t => if decide (j = Z.to_nat 0)
                      then set_state TASK_RUNNING t else t) (tasks s)) 0)
    as [t Ht]; [rewrite length_imap; lia|].
  by rewrite Ht, bind_ret.
Qed.

Lemma filter_nil_lookup {A} (P : A -> Prop) `{!forall x, Decision (P x)}
    (l : list A) :
  (forall i x, l !! i = Some x -> ~ P x) -> filter P l = [].
Proof.
  induction l as [|a l IH]; intros Hl; [done|].
  rewrite filter_cons. case_decide as Ha.
  - by destruct (Hl 0%nat a).
  - apply IH. intros i x Hi. by apply (Hl (S i)).
Qed.

Lemma filter_length_at_most_one {A} (P : A -> Prop)
    `{!forall x, Decision (P x)} (l : list A) :
  forall c : nat,
    (forall i x, l !! i = Some x -> P x -> i = c) ->
    (length (filter P l) <= 1)%nat.
Proof.
  induction l as [|a l IH]; intros c Hl; [simpl; lia|].
  rewrite filter_cons. case_decide as Ha.
  - rewrite (filter_nil_lookup P l); [simpl; lia|].
    intros i x Hi Hx.
    pose proof (Hl 0%nat a eq_refl Ha). pose proof (Hl (S i) x Hi Hx). lia.
  - apply (IH (pred c)). intros i x Hi Hx.
    pose proof (Hl (S i) x Hi Hx). lia.
Qed.

Lemma filter_length_exactly_one {A} (P : A -> Prop)
    `{!forall x, Decision (P x)} (l : list A) :
  forall (c : nat) (y : A),
    l !! c = Some y -> P y ->
    (forall i x, l !! i = Some x -> P x -> i = c) ->
    length (filter P l) = 1%nat.
Proof.
  induction l as [|a l IH]; intros c y Hc Hy Hl; [done|].
  rewrite filter_cons. destruct c as [|c].
  - injection Hc as ->. case_decide; [|done].
    rewrite (filter_nil_lookup P l); [done|].
    intros i x Hi Hx. pose proof (Hl (S i) x Hi Hx). lia.
  - case_decide as Ha.
    + pose proof (Hl 0%nat a eq_refl Ha). lia.
    + apply (IH c y); [done..|]. intros i x Hi Hx.
      pose proof (Hl (S i) x Hi Hx). lia.
Qed.

Lemma is_running_true st : is_running st = true <-> st = TASK_RUNNING.
Proof. by destruct st. Qed.

Lemma only_current_running_count s :
  only_current_running s -> (count_running s <= 1)%nat.
Proof.
  intros Ho. unfold count_running.
  apply (filter_length_at_most_one _ _ (Z.to_nat (current_task s))).
  intros i t Hi Hr. apply (Ho i t Hi). by apply is_running_true.
Qed.

Lemma none_running_count s : none_running s -> count_running s = 0%nat.
Proof.
  intros Ho. unfold count_running. rewrite filter_nil_lookup; [done|].
  intros i t Hi Hr. apply (Ho i t Hi). by apply is_running_true.
Qed.

Lemma configured_invariant exit_addr s :
  configured exit_addr s ->
  wf s /\ stacks_ok s /\ none_running s /\ scheduler_running s = 0.
Proof.
  induction 1 as [s|e s s' _ IH He Hs].
  - split; [apply scheduler_init_wf|].
    split; [apply scheduler_init_stacks_ok|].
    split; [apply scheduler_init_none_running|done].
  - destruct IH as (? & ? & ? & ?). by eapply setup_step_invariant.
Qed.

Lemma scheduler_start_invariant s s' :
  wf s -> stacks_ok s -> none_running s ->
  scheduler_start s = Done s' ->
  wf s' /\ stacks_ok s' /\ 1 <= task_count s' /\ only_current_running s' /\
  current_task s' = 0 /\ scheduler_running s' = 1 /\
  state_at s' 0 = Some TASK_RUNNING /\ count_running s' = 1%nat.
Proof.
  intros Hw Hst Ho Hs.
  assert (H0 : task_count s <> 0).
  { intros E. unfold scheduler_start in Hs. by rewrite E in Hs. }
  rewrite scheduler_start_eq in Hs by done. injection Hs as <-.
  pose proof Hw as (Hl & Hn & _). unfold MAX_TASKS in *.
  destruct (lookup_lt_is_Some_2 (tasks s) 0%nat) as [t0 Ht0]; [lia|].
  set (s1 := update_slot 0 (set_state TASK_RUNNING) (with_current_task 0 s)).
  assert (Hl0 : tasks s1 !! 0%nat = Some (set_state TASK_RUNNING t0)).
  { unfold s1. rewrite update_slot_lookup. simpl. by rewrite Ht0. }
  assert (Ho1 : forall i t, tasks s1 !! i = Some t ->
                            state t = TASK_RUNNING -> i = 0%nat).
  { intros i t. unfold s1. rewrite update_slot_lookup. simpl.
    destruct (tasks s !! i) as [ti|] eqn:Ei; [|done]. simpl.
    intros [= <-]. case_decide; [done|]. intros Hr. by apply Ho in Ei. }
  split.
  { unfold wf, MAX_TASKS, s1.
    cbn [tasks task_count current_task with_io with_scheduler_running
         update_slot with_tasks with_current_task].
    rewrite length_imap. repeat split; lia. }
  split.
  { apply (update_slot_stacks_ok 0 (set_state TASK_RUNNING)
             (with_current_task 0 s)); done. }
  split; [change (1 <= task_count s); lia|]. split; [exact Ho1|].
  split; [done|]. split; [done|].
  split.
  { unfold state_at. cbn [tasks with_io with_scheduler_running].
    change (Z.to_nat 0) with 0%nat. by rewrite Hl0. }
  unfold count_running.
  apply (filter_length_exactly_one _ _ 0%nat (set_state TASK_RUNNING t0));
    [exact Hl0|done|].
  intros i t Hi Hr. apply (Ho1 i t Hi). by apply is_running_true.
Qed.

Lemma started_invariant exit_addr s :
  started exit_addr s ->
  wf s /\ stacks_ok s /\ 1 <= task_count s /\ only_current_running s /\
  scheduler_running s = 1.
Proof.
  induction 1 as [s s' Hc Hs|e s s' _ IH He Hs].
  - destruct (configured_invariant _ _ Hc) as (Hw & Hst & Ho & _).
    destruct (scheduler_start_invariant s s' Hw Hst Ho Hs)
      as (? & ? & ? & ? & _ & ? & _). done.
  - destruct IH as (Hw & Hst & H1 & Ho & Hr).
    destruct (task_step_invariant exit_addr e s s' He Hs Hw Hst H1)
      as (? & ? & ? & ? & ?).
    split; [done|]. split; [done|]. split; [lia|]. split; [auto|congruence].
Qed.

Lemma run_configured exit_addr (evs : list event) :
  forall s s',
    configured exit_addr s -> Forall setup_event evs ->
    run exit_addr evs s = Done s' -> configured exit_addr s'.
Proof.
  induction evs as [|e evs IH]; intros s s' Hc Hev Hr.
  - by injection Hr as <-.
  - apply Forall_cons in Hev as [He Hev]. cbn [run] in Hr.
    apply bind_Done in Hr as (s1 & Hs & Hr).
    eapply IH; [|done|exact Hr]. by eapply configured_step.
Qed.

Lemma run_started exit_addr (evs : list event) :
  forall s s',
    started exit_addr s -> Forall task_event evs ->
    run exit_addr evs s = Done s' -> started exit_addr s'.
Proof.
  induction evs as [|e evs IH]; intros s s' Hc Hev Hr.
  - by injection Hr as <-.
  - apply Forall_cons in Hev as [He Hev]. cbn [run] in Hr.
    apply bind_Done in Hr as (s1 & Hs & Hr).
    eapply IH; [|done|exact Hr]. by eapply started_step.
Qed.

(** C1, as the code has it: in every state reached by initialising,
    registering tasks, starting the scheduler once and then letting task
    code and the timer add, suspend, resume, yield, delay, exit and tick,
    only [current_task] can be Running, so at most one task is Running;
    immediately after [scheduler_start] succeeds exactly one task is
    Running, the current one; and each of these operations on a started
    scheduler leads again to a state with at most one Running task. *)
Theorem running_task_invariant (exit_addr : Z) :
  (forall s, reachable exit_addr s ->
     only_current_running s /\ (count_running s <= 1)%nat) /\
  (forall s s', configured exit_addr s -> scheduler_start s = Done s' ->
     count_running s' = 1%nat /\
     state_at s' (current_task s') = Some TASK_RUNNING) /\
  (forall e s s', started exit_addr s -> task_event e ->
     step exit_addr e s = Done s' ->
     only_current_running s' /\ (count_running s' <= 1)%nat).
Proof.
  split; [|split].
  - intros s [Hc|Hs].
    + destruct (configured_invariant _ _ Hc) as (_ & _ & Ho & _).
      split; [|rewrite none_running_count by done; lia].
      intros i t Hi Hr. by apply Ho in Hi.
    + destruct (started_invariant _ _ Hs) as (_ & _ & _ & Ho & _).
      split; [done|by apply only_current_running_count].
  - intros s s' Hc Hs.
    destruct (configured_invariant _ _ Hc) as (Hw & Hst & Ho & _).
    destruct (scheduler_start_invariant s s' Hw Hst Ho Hs)
      as (_ & _ & _ & _ & -> & _ & ? & ?). done.
  - intros e s s' Hs He Hstep.
    assert (Hs' : started exit_addr s') by (by eapply started_step).
    destruct (started_invariant _ _ Hs') as (_ & _ & _ & Ho & _).
    split; [done|by apply only_current_running_count].
Qed.

Lemma two_tasks_started : started 256 two_tasks.
Proof.
  apply (started_start 256 (after [EInit; EAdd 512; EAdd 768])).
  - apply (run_configured 256 [EAdd 512; EAdd 768] (scheduler_init power_on)).
    + apply configured_init.
    + repeat constructor.
    + vm_compute. reflexivity.
  - vm_compute. reflexivity.
Qed.

Lemma running_task_invariant_witness :
  reachable 256 two_tasks /\
  only_current_running two_tasks /\ (count_running two_tasks <= 1)%nat.
Proof.
  assert (Hr : reachable 256 two_tasks) by (right; exact two_tasks_started).
  split; [exact Hr|].
  destruct (running_task_invariant 256) as (Hall & _).
  exact (Hall two_tasks Hr).
Defined.

(** C1 as stated fails: "exactly one Running" does not survive a
    [scheduler_suspend_task] of the running task.  After init, one
    registration, start and suspend(0) the scheduler runs and no task is
    Running. *)
Lemma running_task_counterexample :
  started 256 self_suspended /\
  scheduler_running self_suspended = 1 /\
  count_running self_suspended = 0%nat /\
  ~ (forall s, started 256 s -> count_running s = 1%nat).
Proof.
  assert (Hs : started 256 self_suspended).
  { apply (run_started 256 [ESuspend 0] (after [EInit; EAdd 512; EStart])).
    - apply (started_start 256 (after [EInit; EAdd 512])).
      + apply (run_configured 256 [EAdd 512] (scheduler_init power_on)).
        * apply configured_init.
        * repeat constructor.
        * vm_compute. reflexivity.
      + vm_compute. reflexivity.
    - repeat constructor.
    - vm_compute. reflexivity. }
  assert (Hc : count_running self_suspended = 0%nat) by (vm_compute; reflexivity).
  split; [exact Hs|]. split; [vm_compute; reflexivity|]. split; [exact Hc|].
  intros H. specialize (H _ Hs). rewrite Hc in H. discriminate.
Qed.

(** ** Suspended tasks *)

Lemma scheduler_resume_task_Done_nonneg id s s' :
  wf s -> scheduler_resume_task id s = Done s' ->
  id < task_count s -> 0 <= id.
Proof.
  intros (_ & Hn & _) H Hlt. destruct (Z_lt_ge_dec id 0) as [Hneg|]; [|lia].
  unfold scheduler_resume_task in H.
  destruct (Z.ltb_spec id (task_count s)); [|lia].
  by rewrite tcb_negative in H.
Qed.

Lemma scheduler_suspend_task_Done_nonneg id s s' :
  wf s -> scheduler_suspend_task id s = Done s' ->
  id < task_count s -> 0 <= id.
Proof.
  intros (_ & Hn & _) H Hlt. destruct (Z_lt_ge_dec id 0) as [Hneg|]; [|lia].
  unfold scheduler_suspend_task in H.
  destruct (Z.ltb_spec id (task_count s)); [|lia].
  by rewrite tcb_update_negative in H.
Qed.

Lemma task_step_total exit_addr e s :
  task_event e -> well_typed e ->
  wf s -> stacks_ok s -> 1 <= task_count s ->
  exists s', step exit_addr e s = Done s'.
Proof.
  intros He Ht Hw Hst H1.
  pose proof (wf_dispatchable s Hw H1) as Hd.
  pose proof Hd as (_ & Hlen & Hc).
  destruct e; try done; cbn [step well_typed] in *.
  - destruct (Z_lt_ge_dec (task_count s) MAX_TASKS) as [Hlt|Hge].
    + destruct (Z.eq_dec task_function 0) as [->|Hf].
      * rewrite scheduler_add_task_null, bind_ret. eauto.
      * destruct (scheduler_add_task_ok exit_addr task_function s Hw Hst Hlt Hf)
          as (s' & tn & Ha & _).
        rewrite Ha, bind_ret. eauto.
    + rewrite scheduler_add_task_full, bind_ret by lia. eauto.
  - rewrite scheduler_suspend_task_eq by lia. eauto.
  - rewrite scheduler_resume_task_eq by lia. eauto.
  - rewrite scheduler_yield_eq by done. eauto.
  - destruct (Z.eq_dec ticks 0) as [->|Hn]; [by exists s|].
    rewrite task_delay_slot by (done || lia).
    rewrite scheduler_yield_eq; [eauto|].
    apply wf_dispatchable; [by apply update_slot_wf|done].
  - rewrite TIMER0_COMPA_vect_eq by done. eauto.
  - rewrite task_exit_mark_slot by lia. eauto.
Qed.

(** No operation other than [scheduler_resume_task(i)] changes the state of
    a Suspended task [i] that is not the current one, or makes it current. *)
Lemma task_step_bystander exit_addr e s s' i t :
  task_event e -> e <> EResume i ->
  step exit_addr e s = Done s' ->
  wf s -> stacks_ok s -> 1 <= task_count s ->
  0 <= i < task_count s -> tasks s !! Z.to_nat i = Some t ->
  state t = TASK_SUSPENDED -> current_task s <> i ->
  exists t', tasks s' !! Z.to_nat i = Some t' /\
             state t' = TASK_SUSPENDED /\ current_task s' <> i.
Proof.
  intros He Hne Hs Hw Hst H1 Hi Ht Hsu Hcur.
  pose proof (wf_dispatchable s Hw H1) as Hd.
  pose proof Hd as (_ & Hlen & Hc).
  destruct e; try done; cbn [step] in Hs.
  - apply bind_Done in Hs as ([r s1] & Ha & [= <-]).
    destruct (scheduler_add_task_preserves exit_addr _ s r s1 Hw Hst Ha)
      as (_ & _ & _ & Ec & _ & _ & _ & Hl).
    exists t. rewrite Hl, Ec by done. done.
  - pose proof (scheduler_suspend_task_Done_nonneg _ _ _ Hw Hs) as Hid.
    apply scheduler_suspend_task_inv in Hs as ->; [|done].
    destruct (Z.ltb_spec id (task_count s)); [|by exists t].
    rewrite update_slot_lookup, Ht. simpl.
    eexists. split; [reflexivity|]. split; [|done]. by case_decide.
  - pose proof (scheduler_resume_task_Done_nonneg _ _ _ Hw Hs) as Hid.
    apply scheduler_resume_task_inv in Hs as ->; [|done].
    destruct (Z.ltb_spec id (task_count s)); [|by exists t].
    rewrite update_slot_lookup, Ht. simpl.
    eexists. split; [reflexivity|]. split; [|done].
    case_decide as E; [|done].
    assert (id = i) as -> by lia. done.
  - destruct (kernel_step_suspended exit_addr EYield s s' i t I Hw H1 Hs)
      as ((t' & Ht' & Hs') & Hc'); [lia|done|done|].
    exists t'. split; [done|]. split; [done|]. auto.
  - destruct (Z.eq_dec ticks 0) as [->|Hn].
    { injection Hs as <-. by exists t. }
    rewrite task_delay_slot in Hs by (done || lia).
    set (sb := update_slot (current_task s) (block_tcb ticks) s) in *.
    assert (Hwb : wf sb) by (by apply update_slot_wf).
    assert (Htb : tasks sb !! Z.to_nat i = Some t).
    { unfold sb. rewrite update_slot_lookup, Ht. simpl.
      case_decide; [lia|done]. }
    destruct (kernel_step_suspended exit_addr EYield sb s' i t I Hwb H1 Hs)
      as ((t' & Ht' & Hs') & Hc'); [lia|done|done|].
    exists t'. split; [done|]. split; [done|]. auto.
  - destruct (kernel_step_suspended exit_addr ETick s s' i t I Hw H1 Hs)
      as ((t' & Ht' & Hs') & Hc'); [lia|done|done|].
    exists t'. split; [done|]. split; [done|]. auto.
  - rewrite task_exit_mark_slot in Hs by lia. injection Hs as <-.
    rewrite update_slot_lookup, Ht. simpl.
    eexists. split; [reflexivity|]. split; [|done]. case_decide; [lia|done].
Qed.

(** No single operation of task code or of the timer, other than a resume
    of that task, makes a Suspended task pass the eligibility test. *)
Lemma task_step_keeps_ineligible exit_addr e s s' i t :
  task_event e -> e <> EResume i ->
  step exit_addr e s = Done s' ->
  wf s -> stacks_ok s -> 1 <= task_count s ->
  0 <= i < task_count s -> tasks s !! Z.to_nat i = Some t ->
  state t = TASK_SUSPENDED ->
  eligible_at s' i = false.
Proof.
  intros He Hne Hs Hw Hst H1 Hi Ht Hsu.
  pose proof (wf_dispatchable s Hw H1) as Hd.
  pose proof Hd as (_ & Hlen & Hc).
  assert (Hel : forall s0 t0, tasks s0 !! Z.to_nat i = Some t0 ->
                  is_eligible (state t0) = false -> eligible_at s0 i = false).
  { intros s0 t0 H0 E. by rewrite (eligible_at_lookup s0 i t0 (proj1 Hi) H0). }
  destruct e; try done; cbn [step] in Hs.
  - apply bind_Done in Hs as ([r s1] & Ha & [= <-]).
    destruct (scheduler_add_task_preserves exit_addr _ s r s1 Hw Hst Ha)
      as (_ & _ & _ & _ & _ & _ & _ & Hl).
    apply (Hel _ t); [by rewrite Hl|by rewrite Hsu].
  - apply scheduler_suspend_task_inv in Hs as ->; [|done].
    destruct (Z.ltb_spec id (task_count s)); [|apply (Hel _ t); by rewrite ?Hsu].
    eapply Hel; [rewrite update_slot_lookup, Ht; reflexivity|].
    case_decide; simpl; by rewrite ?Hsu.
  - pose proof (scheduler_resume_task_Done_nonneg _ _ _ Hw Hs) as Hid.
    apply scheduler_resume_task_inv in Hs as ->; [|done].
    destruct (Z.ltb_spec id (task_count s)); [|apply (Hel _ t); by rewrite ?Hsu].
    eapply Hel; [rewrite update_slot_lookup, Ht; reflexivity|].
    case_decide as E; [|by rewrite Hsu].
    assert (id = i) as -> by lia. done.
  - destruct (scheduler_yield_ineligible s s' i t Hd Hs) as [Hl _];
      [lia|done|by rewrite Hsu|].
    apply (Hel _ t); [done|by rewrite Hsu].
  - destruct (Z.eq_dec ticks 0) as [->|Hn].
    { injection Hs as <-. apply (Hel _ t); [done|by rewrite Hsu]. }
    rewrite task_delay_slot in Hs by (done || lia).
    set (sb := update_slot (current_task s) (block_tcb ticks) s) in *.
    assert (Hdb : dispatchable sb)
      by (apply wf_dispatchable; [by apply update_slot_wf|done]).
    set (tb := if decide (Z.to_nat i = Z.to_nat (current_task s))
               then block_tcb ticks t else t).
    assert (Htb : tasks sb !! Z.to_nat i = Some tb).
    { unfold sb. by rewrite update_slot_lookup, Ht. }
    assert (Heb : is_eligible (state tb) = false).
    { unfold tb. case_decide; [done|by rewrite Hsu]. }
    destruct (scheduler_yield_ineligible sb s' i tb Hdb Hs) as [Hl _];
      [lia|done|done|].
    by apply (Hel _ tb).
  - rewrite TIMER0_COMPA_vect_eq in Hs by done.
    destruct (kernel_step_suspended exit_addr ETick s s' i t I Hw H1)
      as ((t' & Ht' & Hs') & _); [by rewrite TIMER0_COMPA_vect_eq|lia|done..|].
    apply (Hel _ t'); [done|by rewrite Hs'].
  - rewrite task_exit_mark_slot in Hs by lia. injection Hs as <-.
    eapply Hel; [rewrite update_slot_lookup, Ht; reflexivity|].
    case_decide; simpl; by rewrite ?Hsu.
Qed.

Lemma bystander_run exit_addr i (evs : list event) :
  forall s t,
    Forall (fun e => task_event e /\ well_typed e /\ e <> EResume i) evs ->
    wf s -> stacks_ok s -> 1 <= task_count s ->
    0 <= i < task_count s -> tasks s !! Z.to_nat i = Some t ->
    state t = TASK_SUSPENDED -> current_task s <> i ->
    exists s' t',
      run exit_addr evs s = Done s' /\
      tasks s' !! Z.to_nat i = Some t' /\
      state t' = TASK_SUSPENDED /\ current_task s' <> i.
Proof.
  induction evs as [|e evs IH]; intros s t Hev Hw Hst H1 Hi Ht Hsu Hcur.
  - by exists s, t.
  - apply Forall_cons in Hev as [(He & Hty & Hne) Hev].
    destruct (task_step_total exit_addr e s He Hty Hw Hst H1) as [s1 Hs].
    destruct (task_step_invariant exit_addr e s s1 He Hs Hw Hst H1)
      as (Hw1 & Hst1 & Hn1 & _).
    destruct (task_step_bystander exit_addr e s s1 i t He Hne Hs Hw Hst H1 Hi
                Ht Hsu Hcur) as (t1 & Ht1 & Hsu1 & Hcur1).
    destruct (IH s1 t1 Hev Hw1 Hst1) as (s' & t' & Hr & Ht' & Hsu' & Hcur');
      try done; try lia.
    exists s', t'. cbn [run]. by rewrite Hs, bind_ret.
Qed.

Lemma three_tasks_wf : wf three_tasks.
Proof. unfold wf. vm_compute. intuition congruence. Qed.

(** What one operation of task code or of the timer does to the state of a
    Suspended task. *)
Lemma task_step_suspended_cases exit_addr e s s' i t :
  task_event e -> step exit_addr e s = Done s' ->
  wf s -> stacks_ok s -> 1 <= task_count s ->
  0 <= i < task_count s -> tasks s !! Z.to_nat i = Some t ->
  state t = TASK_SUSPENDED ->
  state_at s' i = Some TASK_SUSPENDED \/
  (e = EResume i /\ state_at s' i = Some TASK_READY) \/
  (current_task s = i /\ state_at s' i = Some TASK_BLOCKED /\
   ((exists ticks, e = EDelay ticks /\ ticks <> 0) \/ e = EExit)).
Proof.
  intros He Hs Hw Hst H1 Hi Ht Hsu.
  pose proof (wf_dispatchable s Hw H1) as Hd.
  pose proof Hd as (_ & Hlen & Hc).
  destruct e; try done; cbn [step] in Hs.
  - left. apply bind_Done in Hs as ([r s1] & Ha & [= <-]).
    destruct (scheduler_add_task_preserves exit_addr _ s r s1 Hw Hst Ha)
      as (_ & _ & _ & _ & _ & _ & _ & Hl).
    by rewrite (state_at_lookup _ _ t), Hsu by (by rewrite Hl).
  - left. apply scheduler_suspend_task_inv in Hs as ->; [|done].
    destruct (Z.ltb_spec id (task_count s));
      [|by rewrite (state_at_lookup _ _ t), Hsu].
    unfold state_at. rewrite update_slot_lookup, Ht. cbn.
    case_decide; cbn; by rewrite ?Hsu.
  - pose proof (scheduler_resume_task_Done_nonneg _ _ _ Hw Hs) as Hid.
    apply scheduler_resume_task_inv in Hs as ->; [|done].
    destruct (Z.ltb_spec id (task_count s));
      [|left; by rewrite (state_at_lookup _ _ t), Hsu].
    unfold state_at. rewrite update_slot_lookup, Ht. cbn.
    case_decide as E; [|left; by rewrite Hsu].
    right. left. assert (id = i) as -> by lia. split; [done|].
    unfold resume_tcb. by rewrite Hsu.
  - left. destruct (scheduler_yield_ineligible s s' i t Hd Hs) as [Hl _];
      [lia|done|by rewrite Hsu|].
    by rewrite (state_at_lookup _ _ t), Hsu.
  - destruct (Z.eq_dec ticks 0) as [->|Hn].
    { left. injection Hs as <-. by rewrite (state_at_lookup _ _ t), Hsu. }
    rewrite task_delay_slot in Hs by (done || lia).
    set (sb := update_slot (current_task s) (block_tcb ticks) s) in *.
    assert (Hdb : dispatchable sb)
      by (apply wf_dispatchable; [by apply update_slot_wf|done]).
    set (tb := if decide (Z.to_nat i = Z.to_nat (current_task s))
               then block_tcb ticks t else t).
    assert (Htb : tasks sb !! Z.to_nat i = Some tb).
    { unfold sb. by rewrite update_slot_lookup, Ht. }
    assert (Heb : is_eligible (state tb) = false).
    { unfold tb. case_decide; [done|by rewrite Hsu]. }
    destruct (scheduler_yield_ineligible sb s' i tb Hdb Hs) as [Hl _];
      [lia|done|done|].
    rewrite (state_at_lookup _ _ tb) by done. unfold tb.
    case_decide as E; [|left; by rewrite Hsu].
    right. right. split; [lia|]. split; [done|]. left. by exists ticks.
  - left. rewrite TIMER0_COMPA_vect_eq in Hs by done.
    destruct (kernel_step_suspended exit_addr ETick s s' i t I Hw H1)
      as ((t' & Ht' & Hs') & _); [by rewrite TIMER0_COMPA_vect_eq|lia|done..|].
    by rewrite (state_at_lookup _ _ t'), Hs'.
  - rewrite task_exit_mark_slot in Hs by lia. injection Hs as <-.
    unfold state_at. rewrite update_slot_lookup, Ht. cbn.
    case_decide as E; [|left; by rewrite Hsu].
    right. right. split; [lia|]. split; [done|]. by right.
Qed.

(** C5, amended: a tick leaves a Suspended task Suspended, also when it
    takes its counter from one to zero, and decrements a positive counter of
    a running scheduler; under any sequence of ticks and yields the task is
    still Suspended, fails the dispatcher's eligibility test, is not
    selected by a yield and is current only if it was so from the start;
    [scheduler_resume_task] on it stores Ready, after which it passes the
    eligibility test.  Resume is not the only way out of Suspended: one
    operation of task code or of the timer leaves the task Suspended, or is
    the resume of this task and leaves it Ready, or is a [task_delay] with a
    non-zero argument or the store of the exit handler made while the task
    is the current one, which overwrite Suspended with Blocked; and
    [scheduler_start] stores Running in task 0 whatever its state.  None of
    these operations but the resume makes the task pass the eligibility
    test at once, and as long as the task is not the current one no
    sequence of them changes its state or makes it current. *)
Theorem suspended_until_resumed (exit_addr : Z) (s : sched) (i : Z) :
  wf s -> 1 <= task_count s -> 0 <= i < task_count s ->
  state_at s i = Some TASK_SUSPENDED ->
  (exists s1,
     TIMER0_COMPA_vect s = Done s1 /\
     state_at s1 i = Some TASK_SUSPENDED /\
     (forall d, scheduler_running s <> 0 -> delay_at s i = Some d ->
                0 < d < 65536 -> delay_at s1 i = Some (d - 1))) /\
  (forall evs : list event,
     Forall kernel_event evs ->
     exists s2,
       run exit_addr evs s = Done s2 /\
       state_at s2 i = Some TASK_SUSPENDED /\
       eligible_at s2 i = false /\
       ~ selected s2 i /\
       (current_task s2 = i -> current_task s = i)) /\
  (exists s3,
     scheduler_resume_task i s = Done s3 /\
     state_at s3 i = Some TASK_READY /\
     eligible_at s3 i = true) /\
  (forall evs : list event,
     stacks_ok s -> current_task s <> i ->
     Forall (fun e => task_event e /\ well_typed e /\ e <> EResume i) evs ->
     exists s4,
       run exit_addr evs s = Done s4 /\
       state_at s4 i = Some TASK_SUSPENDED /\
       current_task s4 <> i) /\
  (forall (e : event) (s5 : sched),
     stacks_ok s -> task_event e -> e <> EResume i ->
     step exit_addr e s = Done s5 ->
     eligible_at s5 i = false) /\
  (forall (e : event) (s6 : sched),
     stacks_ok s -> task_event e -> step exit_addr e s = Done s6 ->
     state_at s6 i = Some TASK_SUSPENDED \/
     (e = EResume i /\ state_at s6 i = Some TASK_READY) \/
     (current_task s = i /\ state_at s6 i = Some TASK_BLOCKED /\
      ((exists ticks, e = EDelay ticks /\ ticks <> 0) \/ e = EExit))) /\
  (i = 0 ->
   exists s7,
     scheduler_start s = Done s7 /\ state_at s7 0 = Some TASK_RUNNING /\
     eligible_at s7 0 = true).
Proof.
  intros Hw H1 Hi Hsu.
  pose proof (wf_dispatchable s Hw H1) as (_ & Hlen & Hc).
  unfold state_at in Hsu.
  destruct (tasks s !! Z.to_nat i) as [t|] eqn:Ht; [|done].
  injection Hsu as Hsu.
  split; [|split; [|split; [|split; [|split; [|split]]]]].
  - exists (ticked s). split; [by apply TIMER0_COMPA_vect_eq|].
    rewrite (state_at_lookup _ _ _
      (ticked_ineligible s i t (proj1 Hi) Ht ltac:(by rewrite Hsu))).
    split.
    { f_equal. destruct (_ || _); [done|]. case_decide; [|done].
      unfold delay_step_tcb. destruct (0 <? _); [|done]. cbv zeta.
      replace (is_blocked _) with false by (simpl; by rewrite Hsu).
      by rewrite andb_false_r. }
    intros d Hr Hd Hrange.
    rewrite (delay_at_lookup _ _ t) in Hd by done. injection Hd as Hd.
    rewrite (delay_at_lookup _ _ _
      (ticked_ineligible s i t (proj1 Hi) Ht ltac:(by rewrite Hsu))).
    f_equal.
    destruct (Z.eqb_spec (scheduler_running s) 0); [done|].
    destruct (Z.eqb_spec (task_count s) 0); [lia|]. cbn [orb].
    case_decide; [|lia]. unfold delay_step_tcb.
    destruct (Z.ltb_spec 0 (delay_ticks t)); [|lia]. cbv zeta.
    replace (is_blocked _) with false by (simpl; by rewrite Hsu).
    rewrite andb_false_r. simpl. rewrite uint16_small; lia.
  - intros evs Hev.
    destruct (kernel_run_suspended exit_addr evs s Hev Hw H1 i t)
      as (s2 & t2 & Hr & Hw2 & En & Ht2 & Hsu2 & Hc2); [lia|done|done|].
    exists s2. split; [done|].
    split; [by rewrite (state_at_lookup _ _ t2), Hsu2|].
    split; [by rewrite (eligible_at_lookup s2 i t2 (proj1 Hi) Ht2), Hsu2|].
    split; [|done].
    eapply not_selected_ineligible; [apply wf_dispatchable| | |];
      try done; try lia. by rewrite Hsu2.
  - rewrite scheduler_resume_task_eq by lia.
    destruct (Z.ltb_spec i (task_count s)); [|lia].
    eexists. split; [reflexivity|].
    assert (Hl : tasks (update_slot i resume_tcb s) !! Z.to_nat i =
                 Some (set_state TASK_READY t)).
    { rewrite update_slot_lookup, Ht. simpl. case_decide; [|done].
      unfold resume_tcb. by rewrite Hsu. }
    split; [by rewrite (state_at_lookup _ _ _ Hl)|].
    by rewrite (eligible_at_lookup _ i _ (proj1 Hi) Hl).
  - intros evs Hst Hcur Hev.
    destruct (bystander_run exit_addr i evs s t Hev Hw Hst H1 Hi Ht Hsu Hcur)
      as (s4 & t4 & Hr & Ht4 & Hsu4 & Hc4).
    exists s4. split; [done|].
    split; [by rewrite (state_at_lookup _ _ t4), Hsu4|done].
  - intros e s5 Hst He Hne Hs.
    by eapply task_step_keeps_ineligible.
  - intros e s6 Hst He Hs.
    by eapply task_step_suspended_cases.
  - intros ->. rewrite scheduler_start_eq by (done || lia).
    eexists. split; [reflexivity|].
    assert (Hl : tasks (with_io (sei (io s))
                   (with_scheduler_running 1
                      (update_slot 0 (set_state TASK_RUNNING)
                         (with_current_task 0 s)))) !! Z.to_nat 0 =
                 Some (set_state TASK_RUNNING t)).
    { cbn [tasks with_io with_scheduler_running].
      rewrite update_slot_lookup. cbn [tasks with_current_task].
      rewrite Ht. cbn. by rewrite decide_True. }
    split; [by rewrite (state_at_lookup _ _ _ Hl)|].
    by rewrite (eligible_at_lookup _ 0 _ (Z.le_refl 0) Hl).
Qed.

Lemma suspended_until_resumed_witness :
  wf three_tasks /\ 1 <= task_count three_tasks /\
  0 <= 1 < task_count three_tasks /\
  state_at three_tasks 1 = Some TASK_SUSPENDED /\
  (exists s2,
     run 256 [ETick; EYield; ETick; EYield; EYield] three_tasks = Done s2 /\
     state_at s2 1 = Some TASK_SUSPENDED) /\
  (exists s3,
     scheduler_resume_task 1 three_tasks = Done s3 /\
     state_at s3 1 = Some TASK_READY).
Proof.
  assert (H1 : 1 <= task_count three_tasks) by (vm_compute; congruence).
  assert (Hi : 0 <= 1 < task_count three_tasks)
    by (vm_compute; intuition congruence).
  assert (Hs : state_at three_tasks 1 = Some TASK_SUSPENDED)
    by (vm_compute; reflexivity).
  split; [exact three_tasks_wf|]. split; [exact H1|]. split; [exact Hi|].
  split; [exact Hs|].
  destruct (suspended_until_resumed 256 three_tasks 1 three_tasks_wf H1 Hi Hs)
    as (_ & Hker & (s3 & Hres & Hrdy & _) & _).
  split.
  - destruct (Hker [ETick; EYield; ETick; EYield; EYield])
      as (s2 & Hr & Hst & _); [repeat constructor|].
    exists s2. split; [exact Hr | exact Hst].
  - exists s3. split; [exact Hres | exact Hrdy].
Defined.

(** C5 as stated fails: resume is not the only operation after which a
    Suspended task is eligible again.  In [suspended_current] task 0 is
    current and has suspended itself.  Its call [task_delay(1)] overwrites
    Suspended with Blocked and gives the processor to task 1; the next tick
    takes the counter to zero and makes task 0 Ready, and the next yield of
    task 1 selects it.  No resume was called.  In the same way
    [scheduler_start] stores Running in a task 0 that was suspended before
    the start. *)
Lemma suspended_task_counterexample :
  started 256 suspended_current /\
  current_task suspended_current = 0 /\
  state_at suspended_current 0 = Some TASK_SUSPENDED /\
  Forall (fun e => task_event e /\ well_typed e /\ e <> EResume 0)
         [EDelay 1; ETick; EYield] /\
  (exists s1 s2 s3,
     task_delay 1 suspended_current = Done s1 /\
     state_at s1 0 = Some TASK_BLOCKED /\ current_task s1 = 1 /\
     TIMER0_COMPA_vect s1 = Done s2 /\
     state_at s2 0 = Some TASK_READY /\ eligible_at s2 0 = true /\
     selected s2 0 /\
     scheduler_yield s2 = Done s3 /\
     state_at s3 0 = Some TASK_RUNNING /\ current_task s3 = 0 /\
     run 256 [EDelay 1; ETick; EYield] suspended_current = Done s3) /\
  (configured 256 suspended_before_start /\
   state_at suspended_before_start 0 = Some TASK_SUSPENDED /\
   exists s4,
     scheduler_start suspended_before_start = Done s4 /\
     state_at s4 0 = Some TASK_RUNNING) /\
  ~ (forall (s s' : sched) (i : Z) (evs : list event),
       started 256 s -> state_at s i = Some TASK_SUSPENDED ->
       Forall (fun e => task_event e /\ well_typed e /\ e <> EResume i) evs ->
       run 256 evs s = Done s' ->
       eligible_at s' i = false).
Proof.
  assert (Hs : started 256 suspended_current).
  { apply (run_started 256 [ESuspend 0] two_tasks).
    - apply two_tasks_started.
    - repeat constructor.
    - vm_compute. reflexivity. }
  assert (Hsu : state_at suspended_current 0 = Some TASK_SUSPENDED)
    by (vm_compute; reflexivity).
  assert (Hev : Forall (fun e => task_event e /\ well_typed e /\ e <> EResume 0)
                       [EDelay 1; ETick; EYield]).
  { repeat constructor; (done || lia). }
  assert (E : exists s3,
            run 256 [EDelay 1; ETick; EYield] suspended_current = Done s3 /\
            eligible_at s3 0 = true).
  { eexists. split; vm_compute; reflexivity. }
  split; [exact Hs|]. split; [vm_compute; reflexivity|].
  split; [exact Hsu|]. split; [exact Hev|]. split; [|split].
  - eexists _, _, _. split; [vm_compute; reflexivity|].
    split; [vm_compute; reflexivity|]. split; [vm_compute; reflexivity|].
    split; [vm_compute; reflexivity|]. split; [vm_compute; reflexivity|].
    split; [vm_compute; reflexivity|]. split.
    { eexists. split; [vm_compute; reflexivity|].
      split; vm_compute; [reflexivity | discriminate]. }
    split; [vm_compute; reflexivity|]. split; [vm_compute; reflexivity|].
    split; vm_compute; reflexivity.
  - split.
    { apply (run_configured 256 [EAdd 512; ESuspend 0] (scheduler_init power_on)).
      - apply configured_init.
      - repeat constructor.
      - vm_compute. reflexivity. }
    split; [vm_compute; reflexivity|].
    eexists. split; vm_compute; reflexivity.
  - intros H. destruct E as (s3 & E3 & He3).
    pose proof (H _ _ 0 _ Hs Hsu Hev E3) as Hf.
    rewrite He3 in Hf. discriminate.
Qed.

(** ** Pending delays *)


Lemma scheduler_add_task_slots exit_addr f s r s' :
  wf s -> stacks_ok s ->
  scheduler_add_task exit_addr f s = Done (r, s') ->
  forall (j : nat) (t' : task_t),
    tasks s' !! j = Some t' ->
    tasks s !! j = Some t' \/ delay_ticks t' = 0.
Proof.
  intros Hw Hst H j t' Hj.
  destruct (Z_lt_ge_dec (task_count s) MAX_TASKS) as [Hlt|Hge].
  - destruct (Z.eq_dec f 0) as [->|Hf].
    + rewrite scheduler_add_task_null in H. injection H as <- <-. by left.
    + destruct (scheduler_add_task_ok exit_addr f s Hw Hst Hlt Hf)
        as (s1 & tn & Ha & _ & _ & _ & _ & _ & _ & Hnew & _ & Hd & _ & _ & _
            & Hoth).
      rewrite Ha in H. injection H as <- <-.
      destruct (decide (j = Z.to_nat (task_count s))) as [->|Hne].
      * right. congruence.
      * left. by rewrite <- Hoth.
  - rewrite scheduler_add_task_full in H by lia. injection H as <- <-.
    by left.
Qed.




Lemma configured_no_delay exit_addr s :
  configured exit_addr s ->
  forall (i : nat) (t : task_t), tasks s !! i = Some t -> delay_ticks t = 0.
Proof.
  induction 1 as [s|e s s' Hc IH He Hs]; intros i t Hi.
  - by apply lookup_replicate in Hi as [-> _].
  - destruct (configured_invariant _ _ Hc) as (Hw & Hst & _ & Hr).
    destruct e; try done; cbn [step] in Hs.
    + injection Hs as <-. by apply lookup_replicate in Hi as [-> _].
    + apply bind_Done in Hs as ([r s1] & Ha & [= <-]).
      destruct (scheduler_add_task_slots exit_addr _ s r s1 Hw Hst Ha i t Hi)
        as [Hi'|]; [by eapply IH|done].
    + apply scheduler_suspend_task_inv in Hs as ->; [|done].
      destruct (_ <? _); [|by eapply IH].
      rewrite update_slot_lookup in Hi.
      destruct (tasks s !! i) as [t0|] eqn:E0; [|done].
      injection Hi as <-. case_decide; by apply (IH i t0).
    + apply scheduler_resume_task_inv in Hs as ->; [|done].
      destruct (_ <? _); [|by eapply IH].
      rewrite update_slot_lookup in Hi.
      destruct (tasks s !! i) as [t0|] eqn:E0; [|done].
      injection Hi as <-. case_decide; [|by apply (IH i t0)].
      unfold resume_tcb. destruct (is_suspended _); by apply (IH i t0).
    + unfold TIMER0_COMPA_vect in Hs. rewrite Hr in Hs.
      injection Hs as <-. by eapply IH.
Qed.




(** ** The initial context *)

Lemma push_list_app vs ws m :
  push_list (vs ++ ws) m = let! m' := push_list vs m in push_list ws m'.
Proof.
  revert m. induction vs as [|v vs IH]; intros m; simpl; [done|].
  destruct (push v m) as [m'|e]; simpl; [apply IH | done].
Qed.

Lemma push_zeros_list (n : nat) m : push_zeros n m = push_list (replicate n 0) m.
Proof.
  revert m. induction n as [|n IH]; intros m; simpl; [done|].
  destruct (push 0 m) as [m'|e]; simpl; [apply IH | done].
Qed.

Lemma bind_ext {A B} (m : res A) (k k' : A -> res B) :
  (forall a, k a = k' a) -> bind m k = bind m k'.
Proof. intros H. destruct m; simpl; [apply H | reflexivity]. Qed.

Lemma init_stack_push_list exit_addr stk top f :
  init_stack exit_addr stk top f =
    push_list (reverse (context_image exit_addr f)) (stk, top).
Proof.
  unfold init_stack.
  change (reverse (context_image exit_addr f)) with
    (Z.land (uint16 exit_addr) 255 ::
     Z.land (Z.shiftr (uint16 exit_addr) 8) 255 ::
     Z.land (uint16 f) 255 ::
     Z.land (Z.shiftr (uint16 f) 8) 255 :: 0 :: 128 :: replicate 31 0).
  cbn [push_list].
  do 6 (apply bind_ext; intros ?).
  apply push_zeros_list.
Qed.

Lemma push_list_image (vs : list Z) :
  forall stk top,
    Z.of_nat (length vs) <= top + 1 <= Z.of_nat (length stk) ->
    push_list vs (stk, top) =
      Done (take (Z.to_nat (top + 1) - length vs) stk ++ reverse vs ++
            drop (Z.to_nat (top + 1)) stk,
            top - Z.of_nat (length vs)).
Proof.
  induction vs as [|v vs IH]; intros stk top H; simpl in *.
  - rewrite Nat.sub_0_r, take_drop. do 2 f_equal. lia.
  - unfold push.
    replace ((0 <=? top) && (top <? Z.of_nat (length stk))) with true
      by (symmetry; apply andb_true_iff; split; [apply Z.leb_le|apply Z.ltb_lt]; lia).
    rewrite bind_ret, IH by (rewrite length_insert; lia).
    f_equal. f_equal; [|lia].
    rewrite take_insert_ge by lia.
    replace (Z.to_nat (top - 1 + 1)) with (Z.to_nat top) by lia.
    replace (Z.to_nat top - length vs)%nat
      with (Z.to_nat (top + 1) - S (length vs))%nat by lia.
    f_equal. rewrite reverse_cons, <- app_assoc. f_equal. simpl.
    rewrite drop_insert_ge by lia. rewrite Nat.sub_diag.
    destruct (lookup_lt_is_Some_2 stk (Z.to_nat top)) as [x Hx]; [lia|].
    rewrite (drop_S _ _ _ Hx). simpl.
    replace (Z.to_nat (top + 1)) with (S (Z.to_nat top)) by lia. done.
Qed.

Lemma push_list_overflow (vs : list Z) :
  forall stk top,
    ~ (Z.of_nat (length vs) <= top + 1 <= Z.of_nat (length stk)) ->
    vs <> [] ->
    push_list vs (stk, top) = Stop OutOfBounds.
Proof.
  induction vs as [|v vs IH]; intros stk top H Hne; [done|].
  cbn [push_list]. unfold push.
  destruct ((0 <=? top) && (top <? Z.of_nat (length stk))) eqn:E; [|done].
  apply andb_true_iff in E as [E1%Z.leb_le E2%Z.ltb_lt].
  rewrite bind_ret. rewrite length_cons in H.
  destruct vs as [|w vs]; [exfalso; apply H; cbn [length]; lia|].
  apply IH; [|done]. rewrite length_insert. lia.
Qed.

Lemma init_stack_eq (exit_addr : Z) (stk : list Z) (top f : Z) :
  36 <= top < Z.of_nat (length stk) ->
  init_stack exit_addr stk top f =
    Done (take (Z.to_nat (top - 36)) stk ++ context_image exit_addr f ++
          drop (Z.to_nat (top + 1)) stk,
          top - 37).
Proof.
  intros H. rewrite init_stack_push_list, push_list_image, reverse_involutive.
  - rewrite length_reverse.
    change (length (context_image exit_addr f)) with 37%nat.
    replace (Z.to_nat (top + 1) - 37)%nat with (Z.to_nat (top - 36)) by lia.
    replace (top - Z.of_nat 37) with (top - 37) by lia. done.
  - rewrite length_reverse.
    change (length (context_image exit_addr f)) with 37%nat. lia.
Qed.

Lemma init_stack_fails (exit_addr : Z) (stk : list Z) (top f : Z) :
  ~ (36 <= top < Z.of_nat (length stk)) ->
  init_stack exit_addr stk top f = Stop OutOfBounds.
Proof.
  intros H. rewrite init_stack_push_list. apply push_list_overflow; [|done].
  rewrite length_reverse.
  change (length (context_image exit_addr f)) with 37%nat. lia.
Qed.

(** ** Registration as a state function *)

Lemma scheduler_add_task_eq exit_addr f s :
  wf s -> stacks_ok s -> task_count s < MAX_TASKS -> f <> 0 ->
  scheduler_add_task exit_addr f s = Done (task_count s, added exit_addr f s).
Proof.
  intros (Hl & Hn & Hc & Hcur) Hst Hlt Hf.
  unfold scheduler_add_task. unfold MAX_TASKS in *.
  destruct (Z.leb_spec 8 (task_count s)); [lia|].
  destruct (Z.eqb_spec f 0); [lia|]. cbv beta iota delta [orb].
  set (id := task_count s) in *.
  destruct (lookup_lt_is_Some_2 (tasks s) (Z.to_nat id)) as [t0 Ht0]; [lia|].
  assert (Hin : (Z.to_nat id < length (tasks s))%nat) by lia.
  rewrite (tcb_update_Done _ _ _ t0), bind_ret by (done || lia).
  rewrite (tcb_update_Done _ _ _ (set_task_id id t0)), bind_ret
    by (lia || by rewrite list_lookup_insert_eq).
  rewrite list_insert_insert_eq.
  rewrite (tcb_update_Done _ _ _ (set_state TASK_READY (set_task_id id t0))),
    bind_ret by (lia || by rewrite list_lookup_insert_eq).
  rewrite list_insert_insert_eq.
  rewrite (tcb_Done _ _
    (set_delay_ticks 0 (set_state TASK_READY (set_task_id id t0)))), bind_ret
    by (lia || by rewrite list_lookup_insert_eq).
  change (stack (set_delay_ticks 0 (set_state TASK_READY (set_task_id id t0))))
    with (stack t0).
  rewrite init_stack_eq, bind_ret
    by (rewrite (Hst _ _ Ht0); unfold TASK_STACK_SIZE; lia).
  rewrite (tcb_update_Done _ _ _
    (set_delay_ticks 0 (set_state TASK_READY (set_task_id id t0)))), bind_ret
    by (lia || by rewrite list_lookup_insert_eq).
  rewrite list_insert_insert_eq.
  do 2 f_equal. unfold added, update_slot, with_task_count, with_tasks.
  cbn [tasks task_count current_task scheduler_running debug_stats io].
  fold id. f_equal; [|apply uint8_small; lia].
  apply list_eq. intros j. rewrite list_lookup_imap.
  destruct (decide (j = Z.to_nat id)) as [->|Hj].
  - rewrite list_lookup_insert_eq, Ht0 by done.
    cbn [fmap option_fmap option_map]. rewrite ?decide_True by done.
    unfold add_tcb. do 2 f_equal.
    change (Z.to_nat (TASK_STACK_SIZE - 1 - 36)) with 91%nat.
    f_equal. rewrite <- (app_nil_r (context_image exit_addr f)) at 2.
    f_equal. apply drop_ge. rewrite (Hst _ _ Ht0). done.
  - rewrite list_lookup_insert_ne by done.
    by destruct (tasks s !! j).
Qed.

Lemma scheduler_add_task_inv_eq exit_addr f s r s' :
  wf s -> stacks_ok s ->
  scheduler_add_task exit_addr f s = Done (r, s') ->
  s' = step_fun exit_addr (EAdd f) s /\
  r = (if (MAX_TASKS <=? task_count s) || (f =? 0) then -1 else task_count s).
Proof.
  intros Hwf Hst. cbn [step_fun].
  destruct (Z.leb_spec MAX_TASKS (task_count s)) as [Hfull|Hroom].
  - rewrite scheduler_add_task_full by done. cbn [orb]. by intros [= <- <-].
  - destruct (Z.eqb_spec f 0) as [->|Hf].
    + rewrite scheduler_add_task_null. cbn [orb]. by intros [= <- <-].
    + rewrite scheduler_add_task_eq by done. cbn [orb]. by intros [= <- <-].
Qed.

Lemma task_delay_zero_eq s : task_delay 0 s = Done s.
Proof. reflexivity. Qed.

Lemma update_slot_frame k f s :
  task_count (update_slot k f s) = task_count s /\
  current_task (update_slot k f s) = current_task s /\
  scheduler_running (update_slot k f s) = scheduler_running s /\
  debug_stats (update_slot k f s) = debug_stats s /\
  io (update_slot k f s) = io s /\
  length (tasks (update_slot k f s)) = length (tasks s).
Proof. unfold update_slot. simpl. by rewrite length_imap. Qed.

Lemma update_slot_dispatchable k f s :
  dispatchable s -> dispatchable (update_slot k f s).
Proof. unfold dispatchable, update_slot. simpl. by rewrite length_imap. Qed.

(** Every defined step is the corresponding state function. *)
Lemma step_inv exit_addr e s s' :
  step exit_addr e s = Done s' ->
  wf s -> stacks_ok s ->
  (match e with EYield | EDelay _ | EExit => 1 <= task_count s | _ => True end) ->
  s' = step_fun exit_addr e s.
Proof.
  intros Hs Hwf Hst Hn.
  destruct e as [|f| |id|id| |ticks| |]; cbn [step step_fun] in *.
  - by injection Hs.
  - apply bind_Done in Hs as ([r s1] & Ha & [= <-]).
    by destruct (scheduler_add_task_inv_eq _ _ _ _ _ Hwf Hst Ha).
  - unfold start_fun. destruct (Z.eq_dec (task_count s) 0) as [E|E].
    + unfold scheduler_start in Hs. rewrite E in Hs. done.
    + rewrite scheduler_start_eq in Hs by done. by injection Hs.
  - by apply scheduler_suspend_task_inv.
  - by apply scheduler_resume_task_inv.
  - unfold yield_fun.
    rewrite scheduler_yield_eq in Hs by (by apply wf_dispatchable).
    by injection Hs.
  - destruct (Z.eqb_spec ticks 0) as [->|Ht].
    + rewrite task_delay_zero_eq in Hs. by injection Hs.
    + pose proof Hwf as (Hl & Hc & H0 & Hcur). unfold MAX_TASKS in *.
      rewrite task_delay_slot in Hs by (done || lia).
      rewrite scheduler_yield_eq in Hs
        by (apply update_slot_dispatchable; by apply wf_dispatchable).
      unfold yield_fun. by injection Hs.
  - rewrite TIMER0_COMPA_vect_eq in Hs by done. by injection Hs.
  - pose proof Hwf as (Hl & Hc & H0 & Hcur). unfold MAX_TASKS in *.
    rewrite task_exit_mark_slot in Hs by lia. by injection Hs.
Qed.

(** ** The registry invariant *)

Lemma switch_tcb_static c n j t :
  stack_pointer (switch_tcb c n j t) = stack_pointer t /\
  task_id (switch_tcb c n j t) = task_id t /\
  delay_ticks (switch_tcb c n j t) = delay_ticks t /\
  runtime_ticks (switch_tcb c n j t) = runtime_ticks t.
Proof.
  unfold switch_tcb. repeat case_decide; try done.
  by destruct (is_running (state t)).
Qed.

Lemma delay_step_tcb_static t :
  stack_pointer (delay_step_tcb t) = stack_pointer t /\
  task_id (delay_step_tcb t) = task_id t /\
  runtime_ticks (delay_step_tcb t) = runtime_ticks t /\
  times_scheduled (delay_step_tcb t) = times_scheduled t.
Proof.
  unfold delay_step_tcb. destruct (0 <? delay_ticks t); [|done].
  cbv zeta.
  by destruct ((delay_ticks (set_delay_ticks (uint16 (delay_ticks t - 1)) t) =? 0)
           && is_blocked (state (set_delay_ticks (uint16 (delay_ticks t - 1)) t))).
Qed.

Lemma tick_tcb_static s j t :
  stack_pointer (tick_tcb s j t) = stack_pointer t /\
  task_id (tick_tcb s j t) = task_id t /\
  times_scheduled (tick_tcb s j t) = times_scheduled t.
Proof.
  unfold tick_tcb. cbv zeta.
  set (t1 := if decide (j = Z.to_nat (current_task s)) then _ else _).
  assert (H1 : stack_pointer t1 = stack_pointer t /\ task_id t1 = task_id t /\
               times_scheduled t1 = times_scheduled t).
  { unfold t1. case_decide; [|done]. by destruct (is_running (state t)). }
  destruct H1 as (H1 & H2 & H3).
  case_decide; [|done].
  destruct (delay_step_tcb_static t1) as (-> & -> & _ & ->). done.
Qed.

Lemma resume_tcb_static t :
  stack_pointer (resume_tcb t) = stack_pointer t /\
  task_id (resume_tcb t) = task_id t /\
  delay_ticks (resume_tcb t) = delay_ticks t /\
  runtime_ticks (resume_tcb t) = runtime_ticks t /\
  times_scheduled (resume_tcb t) = times_scheduled t.
Proof. unfold resume_tcb. by destruct (is_suspended (state t)). Qed.

Lemma registry_ok_imap exit_addr s s' (F : nat -> task_t -> task_t) :
  tasks s' = imap F (tasks s) -> task_count s' = task_count s ->
  (forall j t, stack (F j t) = stack t) ->
  (forall j t, stack_pointer (F j t) = stack_pointer t) ->
  (forall j t, task_id (F j t) = task_id t) ->
  (forall (j : nat) t, task_count s <= Z.of_nat j -> F j t = t) ->
  registry_ok exit_addr s -> registry_ok exit_addr s'.
Proof.
  intros Ht Hc Hstk Hsp Hid Hout Hreg j t'.
  rewrite Ht, list_lookup_imap, Hc.
  destruct (tasks s !! j) as [t|] eqn:E; [|done].
  cbn [fmap option_fmap option_map]. intros [= <-].
  pose proof (Hreg j t E) as Hj. case_decide.
  - destruct Hj as (Hi & f & Hf & Hp & Hs). split; [by rewrite Hid|].
    exists f. split; [done|]. split; [by rewrite Hsp | by rewrite Hstk].
  - rewrite Hout by lia. done.
Qed.

Lemma registry_ok_update_slot exit_addr k f s :
  0 <= k < task_count s ->
  (forall t, stack (f t) = stack t) ->
  (forall t, stack_pointer (f t) = stack_pointer t) ->
  (forall t, task_id (f t) = task_id t) ->
  registry_ok exit_addr s -> registry_ok exit_addr (update_slot k f s).
Proof.
  intros Hk H1 H2 H3.
  apply (registry_ok_imap _ _ _
           (fun j t => if decide (j = Z.to_nat k) then f t else t));
    try done; intros j t; try (by case_decide).
  intros Hj. rewrite decide_False by lia. done.
Qed.

Lemma registry_ok_tasks exit_addr s s' :
  tasks s' = tasks s -> task_count s' = task_count s ->
  registry_ok exit_addr s -> registry_ok exit_addr s'.
Proof. unfold registry_ok. by intros -> ->. Qed.

Lemma registry_ok_init exit_addr s : registry_ok exit_addr (scheduler_init s).
Proof.
  intros j t. cbn [scheduler_init tasks task_count].
  intros [-> _]%lookup_replicate. rewrite decide_False by lia. done.
Qed.

Lemma registry_ok_added exit_addr f s :
  wf s -> task_count s < MAX_TASKS -> f <> 0 ->
  registry_ok exit_addr s -> registry_ok exit_addr (added exit_addr f s).
Proof.
  intros (Hl & Hn & _) Hlt Hf Hreg j t'.
  unfold added. cbn [tasks task_count with_task_count].
  rewrite update_slot_lookup.
  destruct (tasks s !! j) as [t|] eqn:E; [|done].
  cbn [fmap option_fmap option_map]. intros [= <-].
  pose proof (Hreg j t E) as Hj.
  destruct (decide (j = Z.to_nat (task_count s))) as [->|Hne].
  - rewrite decide_False in Hj by lia. subst t.
    rewrite decide_True by lia. split; [cbn; lia|].
    exists f. split; [done|]. split; [done|]. done.
  - case_decide.
    + rewrite decide_True by lia. done.
    + rewrite decide_False by lia. done.
Qed.

Lemma yield_fun_registry_ok exit_addr s :
  dispatchable s -> registry_ok exit_addr s ->
  registry_ok exit_addr (yield_fun s).
Proof.
  intros Hd Hreg. unfold yield_fun.
  destruct (Z.eqb_spec (next_task_of s) (current_task s)) as [E|E].
  - by apply (registry_ok_tasks _ s).
  - destruct (next_task_of_cases s Hd) as [?|(Hn & _)]; [done|].
    destruct Hd as (? & ? & Hc).
    apply (registry_ok_imap _ s _ (switch_tcb (current_task s) (next_task_of s)));
      try done.
    + apply switch_tcb_stack.
    + intros. apply switch_tcb_static.
    + intros. apply switch_tcb_static.
    + intros j t Hj. unfold switch_tcb.
      rewrite !decide_False by lia. done.
Qed.

Lemma ticked_registry_ok exit_addr s :
  wf s -> registry_ok exit_addr s -> registry_ok exit_addr (ticked s).
Proof.
  intros (Hl & Hn & H0 & Hcur) Hreg. unfold ticked.
  destruct ((scheduler_running s =? 0) || (task_count s =? 0)) eqn:E; [done|].
  apply orb_false_iff in E as [_ E%Z.eqb_neq].
  apply (registry_ok_imap _ s _ (tick_tcb s)); try done.
  - apply tick_tcb_stack.
  - intros. apply tick_tcb_static.
  - intros. apply tick_tcb_static.
  - intros j t Hj. unfold tick_tcb. rewrite !decide_False by lia. done.
Qed.

Lemma registry_ok_step exit_addr e s s' :
  step exit_addr e s = Done s' ->
  wf s -> stacks_ok s ->
  (match e with EYield | EDelay _ | EExit => 1 <= task_count s | _ => True end) ->
  registry_ok exit_addr s -> registry_ok exit_addr s'.
Proof.
  intros Hs Hwf Hst Hn Hreg.
  pose proof (step_inv _ _ _ _ Hs Hwf Hst Hn) as ->.
  pose proof Hwf as (Hl & Hc & H0 & Hcur).
  destruct e as [|f| |id|id| |ticks| |]; cbn [step step_fun] in *.
  - apply registry_ok_init.
  - destruct (Z.leb_spec MAX_TASKS (task_count s)); [done|].
    destruct (Z.eqb_spec f 0); [done|]. by apply registry_ok_added.
  - unfold scheduler_start in Hs.
    destruct (Z.eqb_spec (task_count s) 0); [done|].
    apply (registry_ok_imap _ s _
             (fun j t => if decide (j = Z.to_nat 0)
                         then set_state TASK_RUNNING t else t));
      try done; intros j t; try (by case_decide).
    intros Hj. rewrite decide_False by lia. done.
  - destruct (Z.ltb_spec id (task_count s)); [|done].
    apply registry_ok_update_slot; try done.
    split; [|done]. by eapply scheduler_suspend_task_Done_nonneg.
  - destruct (Z.ltb_spec id (task_count s)); [|done].
    apply registry_ok_update_slot; try done.
    + split; [|done]. by eapply scheduler_resume_task_Done_nonneg.
    + apply resume_tcb_stack.
    + intros. apply resume_tcb_static.
    + intros. apply resume_tcb_static.
  - apply yield_fun_registry_ok; [by apply wf_dispatchable | done].
  - destruct (Z.eqb_spec ticks 0); [done|].
    apply yield_fun_registry_ok.
    + apply update_slot_dispatchable. by apply wf_dispatchable.
    + apply registry_ok_update_slot; try done. lia.
  - by apply ticked_registry_ok.
  - apply registry_ok_update_slot; try done. lia.
Qed.

Lemma configured_registry_ok exit_addr s :
  configured exit_addr s -> registry_ok exit_addr s.
Proof.
  induction 1 as [s|e s s' Hc IH He Hs]; [apply registry_ok_init|].
  destruct (configured_invariant _ _ Hc) as (Hwf & Hst & _).
  apply (registry_ok_step _ _ _ _ Hs Hwf Hst); [|done].
  by destruct e.
Qed.

Lemma started_registry_ok exit_addr s :
  started exit_addr s -> registry_ok exit_addr s.
Proof.
  induction 1 as [s s' Hc Hs|e s s' Hc IH He Hs].
  - destruct (configured_invariant _ _ Hc) as (Hwf & Hst & _).
    apply (registry_ok_step exit_addr EStart _ _ Hs Hwf Hst I).
    by apply configured_registry_ok.
  - destruct (started_invariant _ _ Hc) as (Hwf & Hst & Hn & _).
    apply (registry_ok_step _ _ _ _ Hs Hwf Hst); [|done].
    by destruct e.
Qed.

(** ** The switch counters *)

Lemma total_scheduled_imap_same (l : list task_t) :
  forall F : nat -> task_t -> task_t,
    (forall j t, times_scheduled (F j t) = times_scheduled t) ->
    total_scheduled (imap F l) = total_scheduled l.
Proof.
  induction l as [|x l IH]; intros F HF; [done|].
  cbn [imap total_scheduled foldr]. rewrite HF. f_equal.
  apply (IH (F ∘ S)). intros j t. apply HF.
Qed.

Lemma total_scheduled_imap_one (l : list task_t) :
  forall (F : nat -> task_t -> task_t) (n : nat) (tn : task_t),
    l !! n = Some tn ->
    (forall j t, j <> n -> times_scheduled (F j t) = times_scheduled t) ->
    total_scheduled (imap F l) =
      total_scheduled l - times_scheduled tn + times_scheduled (F n tn).
Proof.
  induction l as [|x l IH]; intros F n tn Hn HF; [done|].
  cbn [imap total_scheduled foldr]. destruct n as [|n].
  - injection Hn as ->.
    fold (total_scheduled (imap (F ∘ S) l)). fold (total_scheduled l).
    rewrite total_scheduled_imap_same; [lia|].
    intros j t. apply HF. lia.
  - fold (total_scheduled (imap (F ∘ S) l)). fold (total_scheduled l).
    rewrite (IH (F ∘ S) n tn Hn); [|intros j t Hj; apply HF; lia].
    rewrite HF by lia. cbn [compose]. lia.
Qed.

Lemma stats_consistent_same s s' (F : nat -> task_t -> task_t) :
  tasks s' = imap F (tasks s) ->
  context_switches (debug_stats s') = context_switches (debug_stats s) ->
  (forall j t, times_scheduled (F j t) = times_scheduled t) ->
  stats_consistent s -> stats_consistent s'.
Proof.
  unfold stats_consistent. intros -> -> HF ->.
  by rewrite total_scheduled_imap_same.
Qed.

Lemma update_slot_stats_consistent k f s :
  (forall t, times_scheduled (f t) = times_scheduled t) ->
  stats_consistent s -> stats_consistent (update_slot k f s).
Proof.
  intros Hf. apply (stats_consistent_same _ _
    (fun j t => if decide (j = Z.to_nat k) then f t else t)); [done..|].
  intros j t. by case_decide.
Qed.

Lemma uint32_succ_sum total x :
  uint32 (total - x + uint32 (x + 1)) = uint32 (uint32 total + 1).
Proof.
  unfold uint32.
  rewrite Zplus_mod_idemp_l, Zplus_mod_idemp_r. f_equal. lia.
Qed.

Lemma yield_fun_stats_consistent s :
  dispatchable s -> stats_consistent s -> stats_consistent (yield_fun s).
Proof.
  intros Hd Hs. unfold yield_fun.
  destruct (Z.eqb_spec (next_task_of s) (current_task s)) as [E|E]; [done|].
  destruct (next_task_of_cases s Hd) as [?|(Hn & _)]; [done|].
  destruct Hd as (? & Hlen & Hc).
  destruct (lookup_lt_is_Some_2 (tasks s) (Z.to_nat (next_task_of s)))
    as [tn Htn]; [lia|].
  unfold stats_consistent, switched in *.
  cbn [tasks debug_stats context_switches bump_context_switches
       bump_voluntary_yields].
  rewrite (total_scheduled_imap_one _ _ _ _ Htn).
  - unfold switch_tcb at 1. rewrite decide_True by done.
    cbn [times_scheduled set_state set_times_scheduled].
    rewrite Hs. symmetry. apply uint32_succ_sum.
  - intros j t Hj. unfold switch_tcb. rewrite decide_False by done.
    case_decide; [|done]. by destruct (is_running (state t)).
Qed.

Lemma ticked_stats_consistent s :
  stats_consistent s -> stats_consistent (ticked s).
Proof.
  intros Hs. unfold ticked.
  destruct ((scheduler_running s =? 0) || (task_count s =? 0)); [done|].
  apply (stats_consistent_same s _ (tick_tcb s)); try done.
  intros. apply tick_tcb_static.
Qed.

Lemma stats_consistent_step exit_addr e s s' :
  step exit_addr e s = Done s' ->
  wf s -> stacks_ok s ->
  (match e with EYield | EDelay _ | EExit => 1 <= task_count s | _ => True end) ->
  stats_consistent s -> stats_consistent s'.
Proof.
  intros Hs Hwf Hst Hn Hc.
  pose proof (step_inv _ _ _ _ Hs Hwf Hst Hn) as ->.
  destruct e as [|f| |id|id| |ticks| |]; cbn [step_fun] in *.
  - done.
  - destruct ((MAX_TASKS <=? task_count s) || (f =? 0)); [done|].
    unfold added.
    by apply (update_slot_stats_consistent (task_count s)
                (add_tcb exit_addr f (task_count s)) s).
  - by apply (update_slot_stats_consistent 0 (set_state TASK_RUNNING)
                (with_current_task 0 s)).
  - destruct (id <? task_count s); [|done].
    by apply update_slot_stats_consistent.
  - destruct (id <? task_count s); [|done].
    apply update_slot_stats_consistent; [|done].
    intros. apply resume_tcb_static.
  - apply yield_fun_stats_consistent; [by apply wf_dispatchable | done].
  - destruct (ticks =? 0); [done|].
    apply yield_fun_stats_consistent.
    + apply update_slot_dispatchable. by apply wf_dispatchable.
    + by apply update_slot_stats_consistent.
  - by apply ticked_stats_consistent.
  - by apply update_slot_stats_consistent.
Qed.

Lemma configured_stats_consistent exit_addr s :
  configured exit_addr s -> stats_consistent s.
Proof.
  induction 1 as [s|e s s' Hc IH He Hs]; [done|].
  destruct (configured_invariant _ _ Hc) as (Hwf & Hst & _).
  apply (stats_consistent_step _ _ _ _ Hs Hwf Hst); [|done].
  by destruct e.
Qed.

Lemma started_stats_consistent exit_addr s :
  started exit_addr s -> stats_consistent s.
Proof.
  induction 1 as [s s' Hc Hs|e s s' Hc IH He Hs].
  - destruct (configured_invariant _ _ Hc) as (Hwf & Hst & _).
    apply (stats_consistent_step exit_addr EStart _ _ Hs Hwf Hst I).
    by eapply configured_stats_consistent.
  - destruct (started_invariant _ _ Hc) as (Hwf & Hst & Hn & _).
    apply (stats_consistent_step _ _ _ _ Hs Hwf Hst); [|done].
    by destruct e.
Qed.

(** ** Entering the first task *)

Lemma byte_split (a : Z) :
  0 <= a < 65536 ->
  Z.land (Z.shiftr a 8) 255 * 256 + Z.land a 255 = a /\
  0 <= Z.land (Z.shiftr a 8) 255 < 256 /\
  0 <= Z.land a 255 < 256.
Proof.
  intros Ha. change 255 with (Z.ones 8).
  rewrite !Z.land_ones, Z.shiftr_div_pow2 by lia.
  change (2 ^ 8) with 256.
  pose proof (Z.div_mod a 256). pose proof (Z.mod_pos_bound a 256).
  pose proof (Z.mod_pos_bound (a / 256) 256).
  assert (0 <= a / 256 < 256)
    by (split; [apply Z.div_pos; lia | apply Z.div_lt_upper_bound; lia]).
  rewrite (Z.mod_small (a / 256) 256) by lia. lia.
Qed.

Lemma uint16_bound z : 0 <= uint16 z < 65536.
Proof. unfold uint16. apply Z.mod_pos_bound. lia. Qed.

Lemma load_drop (n : nat) mem a :
  Z.of_nat n <= a -> load mem a = load (drop n mem) (a - Z.of_nat n).
Proof.
  intros H. unfold load.
  destruct (Z.leb_spec 0 a); [|lia].
  destruct (Z.leb_spec 0 (a - Z.of_nat n)); [|lia].
  rewrite lookup_drop. by replace (n + Z.to_nat (a - Z.of_nat n))%nat
    with (Z.to_nat a) by lia.
Qed.

(** Running a program on a stack whose lower [n] cells are never reached. *)
Lemma exec_all_drop (n : nat) mem (prog : list avr_instr) :
  forall c,
    Z.of_nat n <= cpu_SP c + 1 ->
    exec_all mem prog c =
      let! c' := exec_all (drop n mem) prog
                   (mk_cpu (cpu_r c) (cpu_SP c - Z.of_nat n) (cpu_SREG c)
                           (cpu_PC c)) in
      Done (mk_cpu (cpu_r c') (cpu_SP c' + Z.of_nat n) (cpu_SREG c')
                   (cpu_PC c')).
Proof.
  induction prog as [|i prog IH]; intros c Hc.
  - destruct c as [r sp sr pc]. cbn. do 2 f_equal. lia.
  - cbn [exec_all]. destruct i as [r|r|]; cbn [exec cpu_r cpu_SP cpu_SREG cpu_PC].
    + rewrite (load_drop n mem) by lia.
      replace (cpu_SP c - Z.of_nat n + 1) with (cpu_SP c + 1 - Z.of_nat n) by lia.
      destruct (load (drop n mem) _) as [v|]; [|done]. rewrite !bind_ret.
      rewrite IH by (cbn; lia). cbn [cpu_r cpu_SP cpu_SREG cpu_PC].
      by replace (cpu_SP c + 1 - Z.of_nat n) with (cpu_SP c - Z.of_nat n + 1) by lia.
    + destruct (cpu_r c !! r) as [v|]; [|done]. rewrite !bind_ret.
      by rewrite IH by (cbn; lia).
    + rewrite (load_drop n mem (cpu_SP c + 1)) by lia.
      rewrite (load_drop n mem (cpu_SP c + 2)) by lia.
      replace (cpu_SP c - Z.of_nat n + 1) with (cpu_SP c + 1 - Z.of_nat n) by lia.
      replace (cpu_SP c - Z.of_nat n + 2) with (cpu_SP c + 2 - Z.of_nat n) by lia.
      destruct (load (drop n mem) _) as [h|]; [|done]. rewrite !bind_ret.
      destruct (load (drop n mem) _) as [l|]; [|done]. rewrite !bind_ret.
      rewrite IH by (cbn; lia). cbn [cpu_r cpu_SP cpu_SREG cpu_PC].
      by replace (cpu_SP c + 2 - Z.of_nat n) with (cpu_SP c - Z.of_nat n + 2) by lia.
Qed.

(** The restore sequence on the image [init_stack] builds. *)
Lemma restore_context_image (regs : list Z) (sreg pc fh fl eh el : Z) :
  length regs = 32%nat ->
  exec_all (replicate 31 0 ++ [128; 0; fh; fl; eh; el]) restore_context
           (mk_cpu regs (-1) sreg pc) =
    Done (mk_cpu (0 :: 128 :: replicate 30 0) 34 0 (fh * 256 + fl)).
Proof.
  intros H.
  do 32 (destruct regs as [|? regs]; [discriminate H|]).
  destruct regs; [|discriminate H]. reflexivity.
Qed.

Lemma restore_built_context exit_addr f (stk regs : list Z) (sreg pc : Z) :
  drop 91 stk = context_image exit_addr f -> length regs = 32%nat ->
  exec_all stk restore_context (mk_cpu regs 90 sreg pc) =
    Done (mk_cpu (0 :: 128 :: replicate 30 0) (TASK_STACK_SIZE - 3) 0
                 (uint16 f)).
Proof.
  intros Hs Hr.
  rewrite (exec_all_drop 91) by (cbn; lia).
  cbn [cpu_r cpu_SP cpu_SREG cpu_PC]. rewrite Hs. unfold context_image.
  change (90 - Z.of_nat 91) with (-1).
  rewrite restore_context_image, bind_ret by done.
  cbn [cpu_r cpu_SP cpu_SREG cpu_PC].
  destruct (byte_split (uint16 f) (uint16_bound f)) as (-> & _). done.
Qed.

Lemma add_all_keeps exit_addr (fs : list Z) :
  forall s, wf s -> stacks_ok s ->
    exists ids s',
      add_all exit_addr fs s = Done (ids, s') /\
      wf s' /\ stacks_ok s' /\ task_count s <= task_count s' /\
      scheduler_running s' = scheduler_running s /\
      (forall i, 0 <= i < task_count s ->
                 tasks s' !! Z.to_nat i = tasks s !! Z.to_nat i).
Proof.
  induction fs as [|f fs IH]; intros s Hwf Hst.
  - exists [], s. cbn [add_all]. split; [done|]. split; [done|]. split; [done|].
    split; [lia|]. done.
  - cbn [add_all].
    assert (exists r s1, scheduler_add_task exit_addr f s = Done (r, s1))
      as (r & s1 & Ha).
    { destruct (Z.leb_spec MAX_TASKS (task_count s)).
      - rewrite scheduler_add_task_full by done. eauto.
      - destruct (Z.eq_dec f 0) as [->|].
        + rewrite scheduler_add_task_null. eauto.
        + rewrite scheduler_add_task_eq by done. eauto. }
    destruct (scheduler_add_task_preserves _ _ _ _ _ Hwf Hst Ha)
      as (Hwf1 & Hst1 & Hle & _ & Hr & _ & _ & Hk).
    destruct (IH s1 Hwf1 Hst1) as (ids & s2 & E & Hwf2 & Hst2 & Hle2 & Hr2 & Hk2).
    exists (r :: ids), s2. rewrite Ha, bind_ret, E, bind_ret.
    split; [done|]. split; [done|]. split; [done|]. split; [lia|].
    split; [congruence|].
    intros i Hi. rewrite Hk2 by lia. by apply Hk.
Qed.

(** ** Defined steps *)

Lemma scheduler_add_task_total exit_addr f s :
  wf s -> stacks_ok s ->
  exists r s', scheduler_add_task exit_addr f s = Done (r, s').
Proof.
  intros Hwf Hst. destruct (Z.leb_spec MAX_TASKS (task_count s)).
  - rewrite scheduler_add_task_full by done. eauto.
  - destruct (Z.eq_dec f 0) as [->|].
    + rewrite scheduler_add_task_null. eauto.
    + rewrite scheduler_add_task_eq by done. eauto.
Qed.

Lemma setup_step_total exit_addr e s :
  setup_event e -> well_typed e -> wf s -> stacks_ok s ->
  exists s', step exit_addr e s = Done s'.
Proof.
  intros He Ht Hwf Hst. pose proof Hwf as (Hl & Hn & _).
  unfold MAX_TASKS in *.
  destruct e as [|f| |id|id| |ticks| |]; cbn [step setup_event well_typed] in *;
    try done.
  - eauto.
  - destruct (scheduler_add_task_total exit_addr f s Hwf Hst) as (r & s' & ->).
    rewrite bind_ret. eauto.
  - rewrite scheduler_suspend_task_eq by lia. eauto.
  - rewrite scheduler_resume_task_eq by lia. eauto.
  - rewrite TIMER0_COMPA_vect_eq by done. eauto.
Qed.

(** ** The state before the start *)

Lemma configured_quiet exit_addr s :
  configured exit_addr s ->
  current_task s = 0 /\ debug_stats s = mk_debug 0 0 0 /\
  forall (j : nat) (t : task_t),
    tasks s !! j = Some t ->
    (state t = TASK_READY \/ state t = TASK_SUSPENDED) /\
    runtime_ticks t = 0 /\ times_scheduled t = 0.
Proof.
  induction 1 as [s|e s s' Hc IH He Hs].
  - split; [done|]. split; [done|]. intros j t.
    cbn [scheduler_init tasks]. intros [-> _]%lookup_replicate. auto.
  - destruct (configured_invariant _ _ Hc) as (Hwf & Hst & _ & Hr).
    destruct IH as (Hcur & Hd & Hall).
    assert (Hn : match e with
                 | EYield | EDelay _ | EExit => 1 <= task_count s
                 | _ => True end) by (by destruct e).
    pose proof (step_inv _ _ _ _ Hs Hwf Hst Hn) as ->. clear Hs Hn.
    destruct e as [|f| |id|id| |ticks| |]; cbn [step_fun setup_event] in *;
      try done.
    + split; [done|]. split; [done|]. intros j t.
      cbn [scheduler_init tasks]. intros [-> _]%lookup_replicate. auto.
    + destruct ((MAX_TASKS <=? task_count s) || (f =? 0)); [done|].
      unfold added. cbn [current_task debug_stats tasks with_task_count].
      destruct (update_slot_frame (task_count s)
                  (add_tcb exit_addr f (task_count s)) s)
        as (_ & -> & _ & -> & _).
      split; [done|]. split; [done|]. intros j t'.
      rewrite update_slot_lookup.
      destruct (tasks s !! j) as [t|] eqn:E; [|done].
      cbn [fmap option_fmap option_map]. intros [= <-].
      destruct (Hall j t E) as (? & ? & ?). case_decide; auto.
    + destruct (id <? task_count s); [|done].
      destruct (update_slot_frame id (set_state TASK_SUSPENDED) s)
        as (_ & -> & _ & -> & _).
      split; [done|]. split; [done|]. intros j t'.
      rewrite update_slot_lookup.
      destruct (tasks s !! j) as [t|] eqn:E; [|done].
      cbn [fmap option_fmap option_map]. intros [= <-].
      destruct (Hall j t E) as (? & ? & ?). case_decide; auto.
    + destruct (id <? task_count s); [|done].
      destruct (update_slot_frame id resume_tcb s) as (_ & -> & _ & -> & _).
      split; [done|]. split; [done|]. intros j t'.
      rewrite update_slot_lookup.
      destruct (tasks s !! j) as [t|] eqn:E; [|done].
      cbn [fmap option_fmap option_map]. intros [= <-].
      destruct (Hall j t E) as (? & ? & ?). case_decide; [|auto].
      destruct (resume_tcb_static t) as (_ & _ & _ & -> & ->).
      split; [|done]. unfold resume_tcb.
      destruct (is_suspended (state t)); auto.
    + unfold ticked. rewrite Hr. done.
Qed.

(** ** Slot updates compose *)

Lemma update_slot_compose k f g s :
  update_slot k f (update_slot k g s) = update_slot k (fun t => f (g t)) s.
Proof.
  unfold update_slot, with_tasks. cbn [tasks task_count current_task
    scheduler_running debug_stats io]. f_equal.
  apply list_eq. intros j. rewrite !list_lookup_imap.
  destruct (tasks s !! j); [|done]. cbn. by case_decide.
Qed.

Lemma update_slot_ext k f g s :
  (forall t, tasks s !! Z.to_nat k = Some t -> f t = g t) ->
  update_slot k f s = update_slot k g s.
Proof.
  intros H. unfold update_slot, with_tasks. f_equal.
  apply list_eq. intros j. rewrite !list_lookup_imap.
  destruct (tasks s !! j) as [t|] eqn:E; [|done]. cbn.
  case_decide; [|done]. subst j. by rewrite (H t E).
Qed.

Lemma update_slot_same k f s :
  (forall t, tasks s !! Z.to_nat k = Some t -> f t = t) ->
  update_slot k f s = s.
Proof.
  intros H. rewrite (update_slot_ext k f (fun t => t)) by done.
  destruct s as [ts n c r d h]. unfold update_slot, with_tasks.
  cbn [tasks task_count current_task scheduler_running debug_stats io].
  f_equal. apply list_eq. intros j. rewrite list_lookup_imap.
  destruct (ts !! j); [|done]. cbn. by case_decide.
Qed.

(** ** Resetting the statistics *)

Lemma reset_tasks_lookup (n : nat) :
  forall (a : Z) (ts : list task_t),
    0 <= a -> a + Z.of_nat n <= Z.of_nat (length ts) ->
    exists ts',
      reset_tasks (seqZ a (Z.of_nat n)) ts = Done ts' /\
      length ts' = length ts /\
      forall j : nat,
        ts' !! j =
          (fun t => if decide (a <= Z.of_nat j < a + Z.of_nat n)
                    then reset_task_stats t else t) <$> ts !! j.
Proof.
  induction n as [|n IH]; intros a ts Ha Hlen.
  - exists ts. split; [done|]. split; [done|]. intros j.
    destruct (ts !! j); simpl; [|done]. by case_decide; [lia|].
  - rewrite seqZ_cons by lia. cbn [reset_tasks].
    destruct (lookup_lt_is_Some_2 ts (Z.to_nat a)) as [t Ht]; [lia|].
    rewrite (tcb_update_Done _ _ _ t), bind_ret by (done || lia).
    rewrite (tcb_update_Done _ _ _ (set_runtime_ticks 0 t)), bind_ret
      by (lia || (rewrite list_lookup_insert_eq; [done|by eapply lookup_lt_Some])).
    rewrite list_insert_insert_eq.
    destruct (IH (Z.succ a) (<[Z.to_nat a := reset_task_stats t]> ts))
      as (ts' & Hf & Hl & Hj); [lia|rewrite length_insert; lia|].
    exists ts'. replace (Z.pred (Z.of_nat (S n))) with (Z.of_nat n) by lia.
    split; [done|]. split; [by rewrite Hl, length_insert|].
    intros j. rewrite Hj.
    destruct (decide (j = Z.to_nat a)) as [->|Hne].
    + rewrite list_lookup_insert_eq, Ht by (by eapply lookup_lt_Some).
      simpl. f_equal. repeat case_decide; (done || lia).
    + rewrite list_lookup_insert_ne by done.
      destruct (ts !! j); simpl; [|done]. f_equal.
      repeat case_decide; (done || lia).
Qed.

Lemma with_SREG_cli h : with_SREG (SREG h) (cli h) = h.
Proof. by destruct h. Qed.

Lemma scheduler_reset_debug_stats_eq s :
  wf s -> scheduler_reset_debug_stats s = Done (reset_fun s).
Proof.
  intros (Hl & Hn & Hc & Hcur). unfold MAX_TASKS in *.
  unfold scheduler_reset_debug_stats, reset_fun.
  cbn [tasks task_count with_debug_stats with_io].
  destruct (reset_tasks_lookup (Z.to_nat (task_count s)) 0 (tasks s))
    as (ts & H & L & P); [lia|lia|].
  rewrite Z2Nat.id in H, P by lia. rewrite H, bind_ret.
  cbn [io with_tasks with_io with_debug_stats tasks task_count current_task
       scheduler_running debug_stats].
  rewrite with_SREG_cli. f_equal. unfold with_io, with_tasks, with_debug_stats.
  cbn [io tasks task_count current_task scheduler_running debug_stats].
  f_equal. apply list_eq. intros j. rewrite P, list_lookup_imap.
  destruct (tasks s !! j); [|done]. cbn. f_equal.
  destruct (decide (0 <= Z.of_nat j < 0 + task_count s));
    destruct (decide (Z.of_nat j < task_count s)); (done || lia).
Qed.

Lemma total_scheduled_zero (l : list task_t) :
  (forall (j : nat) t, l !! j = Some t -> times_scheduled t = 0) ->
  total_scheduled l = 0.
Proof.
  induction l as [|x l IH]; intros H; [done|].
  cbn [total_scheduled foldr]. fold (total_scheduled l).
  rewrite (H 0%nat x eq_refl), IH; [done|].
  intros j t Ht. by apply (H (S j)).
Qed.

(** ** The dispatcher: when it switches and what is Running afterwards *)

Lemma ring_other_eligible s j :
  dispatchable s -> 0 <= j < task_count s -> j <> current_task s ->
  eligible_at s j = true -> next_task_of s <> current_task s.
Proof.
  intros (Hn & Hlen & Hc) Hj Hne He. unfold next_task_of, ready_ring.
  rewrite ring_snoc by done. rewrite filter_app.
  set (L := seqZ (current_task s + 1) (task_count s - current_task s - 1) ++
            seqZ 0 (current_task s)).
  assert (HL : forall x, x ∈ L -> x <> current_task s).
  { intros x. unfold L. rewrite elem_of_app, !elem_of_seqZ. lia. }
  assert (Hin : j ∈ filter (Eligible s) L).
  { apply list_elem_of_filter. split; [done|].
    unfold L. rewrite elem_of_app, !elem_of_seqZ. lia. }
  destruct (filter (Eligible s) L) as [|x l] eqn:E.
  - by apply elem_of_nil in Hin.
  - cbn [app head default]. apply HL.
    assert (Hx : x ∈ filter (Eligible s) L) by (rewrite E; left).
    by apply list_elem_of_filter in Hx as [_ Hx].
Qed.

Lemma scheduler_yield_running (s : sched) :
  dispatchable s -> only_current_running s ->
  exists s',
    scheduler_yield s = Done s' /\
    only_current_running s' /\
    (current_task s' <> current_task s \/
     state_at s (current_task s) = Some TASK_RUNNING ->
     count_running s' = 1%nat /\
     state_at s' (current_task s') = Some TASK_RUNNING) /\
    (current_task s' = current_task s ->
     state_at s (current_task s) <> Some TASK_RUNNING ->
     count_running s' = 0%nat).
Proof.
  intros Hd Ho.
  assert (Hy := scheduler_yield_eq s Hd).
  set (s' := if next_task_of s =? current_task s then yielded s
             else switched s (next_task_of s)) in Hy.
  exists s'. split; [done|].
  assert (Ho' : only_current_running s')
    by (by apply (scheduler_yield_only_current_running s)).
  split; [done|].
  pose proof Hd as (Hn & Hlen & Hc).
  destruct (lookup_lt_is_Some_2 (tasks s) (Z.to_nat (current_task s)))
    as [tc Htc]; [lia|].
  assert (Hone : forall t', tasks s' !! Z.to_nat (current_task s') = Some t' ->
                            state t' = TASK_RUNNING ->
                            count_running s' = 1%nat /\
                            state_at s' (current_task s') = Some TASK_RUNNING).
  { intros t' Ht' Hr. split.
    - unfold count_running.
      apply (filter_length_exactly_one _ _ (Z.to_nat (current_task s')) t');
        [done | by rewrite Hr |].
      intros i t Hi Hri. apply (Ho' i t Hi). by apply is_running_true.
    - unfold state_at. by rewrite Ht', <- Hr. }
  unfold s' in *. clear s' Hy.
  destruct (Z.eqb_spec (next_task_of s) (current_task s)) as [E|Hne].
  - split.
    + intros [H|H]; [done|]. unfold state_at in H. rewrite Htc in H.
      injection H as H. by apply (Hone tc).
    + intros _ Hnr. unfold count_running. cbn [tasks yielded with_debug_stats].
      apply length_zero_iff_nil, filter_nil_lookup. intros i t Hi Hr.
      apply is_running_true in Hr. pose proof (Ho i t Hi Hr) as ->.
      apply Hnr. unfold state_at. rewrite Hi. cbn. by rewrite Hr.
  - split; [|done]. intros _.
    destruct (next_task_of_cases s Hd) as [|(Hx & He & _)]; [done|].
    destruct (lookup_lt_is_Some_2 (tasks s) (Z.to_nat (next_task_of s)))
      as [tn Htn]; [lia|].
    apply (Hone (switch_tcb (current_task s) (next_task_of s)
                   (Z.to_nat (next_task_of s)) tn)).
    + cbn [current_task switched]. by rewrite switched_lookup, Htn.
    + unfold switch_tcb. by rewrite decide_True.
Qed.


Lemma yield_fun_cases s :
  dispatchable s ->
  (next_task_of s = current_task s /\ yield_fun s = yielded s /\
   forall j, 0 <= j < task_count s -> j <> current_task s ->
             eligible_at s j = false) \/
  (next_task_of s <> current_task s /\
   0 <= next_task_of s < task_count s /\
   eligible_at s (next_task_of s) = true /\
   yield_fun s = switched s (next_task_of s)).
Proof.
  intros Hd. unfold yield_fun.
  destruct (Z.eqb_spec (next_task_of s) (current_task s)) as [E|Hne].
  - left. split; [done|]. split; [done|]. intros j Hj Hjc.
    destruct (eligible_at s j) eqn:He; [|done].
    by destruct (ring_other_eligible s j Hd Hj Hjc He).
  - right. destruct (next_task_of_cases s Hd) as [|(Hx & He & _)]; done.
Qed.

Lemma filter_length_one {A} (P : A -> Prop) `{!forall x, Decision (P x)}
    (l : list A) :
  forall (i : nat) (x : A),
    l !! i = Some x -> P x -> (1 <= length (filter P l))%nat.
Proof.
  induction l as [|a l IH]; intros i x Hi Hx; [done|].
  rewrite filter_cons. destruct i as [|i].
  - injection Hi as ->. rewrite decide_True by done. cbn. lia.
  - pose proof (IH i x Hi Hx). case_decide; cbn; lia.
Qed.

Lemma filter_length_two {A} (P : A -> Prop) `{!forall x, Decision (P x)}
    (l : list A) :
  forall (i j : nat) (x y : A),
    (i < j)%nat -> l !! i = Some x -> l !! j = Some y -> P x -> P y ->
    (2 <= length (filter P l))%nat.
Proof.
  induction l as [|a l IH]; intros i j x y Hij Hi Hj Hx Hy; [done|].
  rewrite filter_cons. destruct j as [|j]; [lia|]. destruct i as [|i].
  - injection Hi as ->. rewrite decide_True by done. cbn.
    pose proof (filter_length_one P l j y Hj Hy). lia.
  - pose proof (IH i j x y ltac:(lia) Hi Hj Hx Hy). case_decide; cbn; lia.
Qed.

(** ** Properties of the initial context *)

Lemma Done_inj {A} (a b : A) : Done a = Done b -> a = b.
Proof. by intros [= ->]. Qed.

(** X1: on a region with at least 37 cells up to [top], [init_stack] succeeds,
    returns the pointer [top - 37] and writes the context image into the 37
    cells [top - 36 .. top]: by ascending address 31 zero bytes for the
    registers, the status byte [0x80], a zero byte, the entry address and
    the address of the exit handler, each with its high byte first.  The
    cells below and above keep their contents and the region keeps its
    size. *)
Theorem init_stack_image (exit_addr : Z) (stk : list Z) (top f : Z) :
  36 <= top < Z.of_nat (length stk) ->
  exists stk',
    init_stack exit_addr stk top f = Done (stk', top - 37) /\
    stk' = take (Z.to_nat (top - 36)) stk ++ context_image exit_addr f ++
           drop (Z.to_nat (top + 1)) stk /\
    length stk' = length stk /\
    (forall i : nat, (i < 37)%nat ->
       stk' !! (Z.to_nat (top - 36) + i)%nat = context_image exit_addr f !! i).
Proof.
  intros H. eexists. split; [by apply init_stack_eq|]. split; [done|].
  assert (L : length (take (Z.to_nat (top - 36)) stk) = Z.to_nat (top - 36))
    by (rewrite length_take; lia).
  split.
  - rewrite !length_app, L, length_drop.
    change (length (context_image exit_addr f)) with 37%nat. lia.
  - intros i Hi. rewrite lookup_app_r by lia. rewrite L.
    replace (Z.to_nat (top - 36) + i - Z.to_nat (top - 36))%nat with i by lia.
    apply lookup_app_l.
    change (length (context_image exit_addr f)) with 37%nat. lia.
Qed.

Lemma init_stack_image_witness :
  36 <= 39 < Z.of_nat (length (replicate 40 7)) /\
  exists stk',
    init_stack 256 (replicate 40 7) 39 513 = Done (stk', 2) /\
    stk' = [7; 7; 7] ++ replicate 31 0 ++ [128; 0; 2; 1; 1; 0].
Proof.
  assert (H : 36 <= 39 < Z.of_nat (length (replicate 40 7)))
    by (vm_compute; split; [discriminate | reflexivity]).
  split; [exact H|].
  destruct (init_stack_image 256 (replicate 40 7) 39 513 H)
    as (stk' & E & -> & _).
  eexists. split; [exact E | reflexivity].
Defined.

(** X2: [init_stack] stays inside the region it is given.  It returns exactly
    when the 37 cells [top - 36 .. top] lie inside the region; it then leaves
    every other cell as it was.  With fewer cells below [top], or with [top]
    outside the region, a store falls outside it. *)
Theorem init_stack_bounds (exit_addr : Z) (stk : list Z) (top f : Z) :
  ((exists r, init_stack exit_addr stk top f = Done r) <->
   36 <= top < Z.of_nat (length stk)) /\
  (~ (36 <= top < Z.of_nat (length stk)) ->
   init_stack exit_addr stk top f = Stop OutOfBounds) /\
  (forall stk' sp,
     init_stack exit_addr stk top f = Done (stk', sp) ->
     forall k : nat, (Z.of_nat k < top - 36 \/ top < Z.of_nat k) ->
                     stk' !! k = stk !! k).
Proof.
  split; [split|split].
  - intros [r Hr].
    destruct (decide (36 <= top < Z.of_nat (length stk))) as [|Hn]; [done|].
    rewrite init_stack_fails in Hr by done. discriminate.
  - intros H. rewrite init_stack_eq by done. eauto.
  - apply init_stack_fails.
  - intros stk' sp Hr k Hk.
    destruct (decide (36 <= top < Z.of_nat (length stk))) as [H|Hn];
      [|rewrite init_stack_fails in Hr by done; discriminate].
    rewrite init_stack_eq in Hr by done. apply Done_inj, pair_equal_spec in Hr as [<- <-].
    assert (L : length (take (Z.to_nat (top - 36)) stk) = Z.to_nat (top - 36))
      by (rewrite length_take; lia).
    destruct Hk as [Hk|Hk].
    + rewrite lookup_app_l by lia. apply lookup_take_lt. lia.
    + rewrite lookup_app_r by lia. rewrite lookup_app_r
        by (change (length (context_image exit_addr f)) with 37%nat; lia).
      rewrite lookup_drop. f_equal.
      change (length (context_image exit_addr f)) with 37%nat. lia.
Qed.

Lemma init_stack_bounds_witness :
  ~ (36 <= 35 < Z.of_nat (length (replicate 36 0))) /\
  init_stack 256 (replicate 36 0) 35 513 = Stop OutOfBounds.
Proof.
  assert (H : ~ (36 <= 35 < Z.of_nat (length (replicate 36 0)))) by lia.
  split; [exact H|].
  exact (proj1 (proj2 (init_stack_bounds 256 (replicate 36 0) 35 513)) H).
Defined.

(** X3: the two address pairs of a context decode to the 16-bit addresses
    they were built from.  In the region [init_stack] returns, the cells
    [top - 3] and [top - 2] hold the high and the low byte of the entry
    address, the cells [top - 1] and [top] those of the exit handler, and
    the cell [top - 5] the status byte [0x80]; every one of them is a byte,
    and high byte times 256 plus low byte is the address modulo 65536. *)
Theorem init_stack_addresses (exit_addr : Z) (stk stk' : list Z)
    (top f sp : Z) :
  init_stack exit_addr stk top f = Done (stk', sp) ->
  sp = top - 37 /\
  stk' !! Z.to_nat (top - 5) = Some 128 /\
  exists fh fl eh el,
    stk' !! Z.to_nat (top - 3) = Some fh /\
    stk' !! Z.to_nat (top - 2) = Some fl /\
    stk' !! Z.to_nat (top - 1) = Some eh /\
    stk' !! Z.to_nat top = Some el /\
    0 <= fh < 256 /\ 0 <= fl < 256 /\ 0 <= eh < 256 /\ 0 <= el < 256 /\
    fh * 256 + fl = uint16 f /\
    eh * 256 + el = uint16 exit_addr /\
    (0 <= f < 65536 -> fh * 256 + fl = f).
Proof.
  intros Hr.
  destruct (decide (36 <= top < Z.of_nat (length stk))) as [H|Hn];
    [|rewrite init_stack_fails in Hr by done; discriminate].
  rewrite init_stack_eq in Hr by done. apply Done_inj, pair_equal_spec in Hr as [<- <-].
  assert (L : length (take (Z.to_nat (top - 36)) stk) = Z.to_nat (top - 36))
    by (rewrite length_take; lia).
  assert (Hk : forall i : nat, (i < 37)%nat ->
    (take (Z.to_nat (top - 36)) stk ++ context_image exit_addr f ++
     drop (Z.to_nat (top + 1)) stk) !! Z.to_nat (top - 36 + Z.of_nat i)
    = context_image exit_addr f !! i).
  { intros i Hi. rewrite lookup_app_r by lia. rewrite L.
    replace (Z.to_nat (top - 36 + Z.of_nat i) - Z.to_nat (top - 36))%nat
      with i by lia.
    apply lookup_app_l.
    change (length (context_image exit_addr f)) with 37%nat. lia. }
  destruct (byte_split (uint16 f) (uint16_bound f)) as (Ef & ? & ?).
  destruct (byte_split (uint16 exit_addr) (uint16_bound exit_addr))
    as (Ee & ? & ?).
  split; [done|]. split.
  { replace (top - 5) with (top - 36 + Z.of_nat 31) by lia. by rewrite Hk by lia. }
  exists (Z.land (Z.shiftr (uint16 f) 8) 255), (Z.land (uint16 f) 255),
         (Z.land (Z.shiftr (uint16 exit_addr) 8) 255),
         (Z.land (uint16 exit_addr) 255).
  split. { replace (top - 3) with (top - 36 + Z.of_nat 33) by lia.
           by rewrite Hk by lia. }
  split. { replace (top - 2) with (top - 36 + Z.of_nat 34) by lia.
           by rewrite Hk by lia. }
  split. { replace (top - 1) with (top - 36 + Z.of_nat 35) by lia.
           by rewrite Hk by lia. }
  split. { replace top with (top - 36 + Z.of_nat 36) at 1 by lia.
           by rewrite Hk by lia. }
  repeat (split; [done|]).
  intros Hf. rewrite Ef. by apply uint16_small.
Qed.

Lemma init_stack_addresses_witness :
  init_stack 256 (replicate 40 7) 39 513 =
    Done ([7; 7; 7] ++ replicate 31 0 ++ [128; 0; 2; 1; 1; 0], 2) /\
  exists fh fl eh el,
    fh * 256 + fl = uint16 513 /\ eh * 256 + el = uint16 256.
Proof.
  assert (H : init_stack 256 (replicate 40 7) 39 513 =
    Done ([7; 7; 7] ++ replicate 31 0 ++ [128; 0; 2; 1; 1; 0], 2))
    by reflexivity.
  split; [exact H|].
  destruct (init_stack_addresses _ _ _ _ _ _ H)
    as (_ & _ & fh & fl & eh & el & _ & _ & _ & _ & _ & _ & _ & _ & Hf & He & _).
  exists fh, fl, eh, el. split; [exact Hf | exact He].
Defined.

(** ** Entry into the first task *)

(** X4: what the processor holds when the first task begins.  On an empty
    registry, after the registration of [f] and of any further entries,
    [scheduler_start] sets the interrupt flag, loads the stack pointer saved
    for task 0 and runs the restore sequence on the context [init_stack]
    built.  The sequence ends with the program counter at [f] and the stack
    pointer two cells below the top of the stack, where the address of the
    exit handler waits as return address.  But [init_stack] stored 31
    register bytes above the saved pointer and the sequence pops 30
    registers before the byte it writes to the status register: that byte
    is a register byte, [0], so the task starts with the interrupt flag
    cleared again, the status byte [0x80] lands in [r1] and [r0] is [0]. *)
Theorem first_task_entry (exit_addr : Z) (s : sched) (f : Z) (fs : list Z)
    (c0 : avr_cpu) :
  wf s -> stacks_ok s -> task_count s = 0 -> f <> 0 ->
  length (cpu_r c0) = 32%nat ->
  exists ids s1 s2 c t,
    add_all exit_addr (f :: fs) s = Done (0 :: ids, s1) /\
    scheduler_start_context c0 s1 = Done (s2, c) /\
    scheduler_start s1 = Done s2 /\
    Z.testbit (SREG (io s2)) 7 = true /\
    cpu_PC c = uint16 f /\
    cpu_SREG c = 0 /\
    cpu_r c = 0 :: 128 :: replicate 30 0 /\
    cpu_SP c = TASK_STACK_SIZE - 3 /\
    tasks s2 !! 0%nat = Some t /\
    exists eh el,
      stack t !! Z.to_nat (cpu_SP c + 1) = Some eh /\
      stack t !! Z.to_nat (cpu_SP c + 2) = Some el /\
      eh * 256 + el = uint16 exit_addr.
Proof.
  intros Hwf Hst H0 Hf Hr.
  assert (Hlt : task_count s < MAX_TASKS) by (rewrite H0; done).
  pose proof (scheduler_add_task_eq exit_addr f s Hwf Hst Hlt Hf) as Ha.
  destruct (scheduler_add_task_preserves _ _ _ _ _ Hwf Hst Ha)
    as (Hwf1 & Hst1 & _).
  destruct (add_all_keeps exit_addr fs _ Hwf1 Hst1)
    as (ids & s1 & E & Hwf2 & Hst2 & Hle & _ & Hk).
  assert (Hc1 : task_count (added exit_addr f s) = 1)
    by (unfold added; cbn; lia).
  destruct (lookup_lt_is_Some_2 (tasks s) 0) as [t0 Ht0].
  { destruct Hwf as (-> & _). unfold MAX_TASKS. lia. }
  set (t1 := add_tcb exit_addr f 0 t0).
  assert (Ht1 : tasks s1 !! 0%nat = Some t1).
  { change 0%nat with (Z.to_nat 0). rewrite Hk by lia.
    unfold added. cbn [tasks with_task_count]. rewrite update_slot_lookup.
    rewrite H0. change (Z.to_nat 0) with 0%nat. rewrite Ht0.
    cbn [fmap option_fmap option_map]. by rewrite decide_True. }
  assert (Hh : drop 91 (stack t1) = context_image exit_addr f).
  { unfold t1, add_tcb. cbn [stack set_stack].
    apply drop_app_length'. rewrite length_take, (Hst _ _ Ht0). done. }
  assert (Hn1 : task_count s1 <> 0) by lia.
  pose proof (scheduler_start_eq s1 Hwf2 Hn1) as Hs.
  set (s2 := with_io _ _) in Hs.
  assert (Ht2 : tasks s2 !! 0%nat = Some (set_state TASK_RUNNING t1)).
  { unfold s2. cbn [tasks with_io with_scheduler_running].
    rewrite update_slot_lookup. cbn [tasks with_current_task].
    rewrite Ht1. cbn [fmap option_fmap option_map]. by rewrite decide_True. }
  exists ids, s1, s2, (mk_cpu (0 :: 128 :: replicate 30 0)
                              (TASK_STACK_SIZE - 3) 0 (uint16 f)),
         (set_state TASK_RUNNING t1).
  split. { cbn [add_all]. by rewrite Ha, bind_ret, E, bind_ret, H0. }
  split.
  { unfold scheduler_start_context. rewrite Hs, bind_ret.
    rewrite (tcb_Done _ _ (set_state TASK_RUNNING t1)), bind_ret by done.
    change (stack_pointer (set_state TASK_RUNNING t1)) with (Some 90).
    cbv iota beta.
    by rewrite (restore_built_context exit_addr f), bind_ret. }
  split; [done|].
  split.
  { unfold s2. cbn [io with_io sei SREG with_SREG].
    rewrite Z.lor_spec. apply orb_true_r. }
  do 4 (split; [done|]). split; [done|].
  destruct (byte_split (uint16 exit_addr) (uint16_bound exit_addr))
    as (Ee & _).
  exists (Z.land (Z.shiftr (uint16 exit_addr) 8) 255),
         (Z.land (uint16 exit_addr) 255).
  cbn [cpu_SP stack set_state].
  change (Z.to_nat (TASK_STACK_SIZE - 3 + 1)) with (91 + 35)%nat.
  change (Z.to_nat (TASK_STACK_SIZE - 3 + 2)) with (91 + 36)%nat.
  rewrite <- !lookup_drop, Hh. done.
Qed.

Lemma first_task_entry_witness :
  wf power_on /\ stacks_ok power_on /\ task_count power_on = 0 /\ 513 <> 0 /\
  exists ids s1 s2 c,
    add_all 256 [513; 768] power_on = Done (0 :: ids, s1) /\
    scheduler_start_context (mk_cpu (replicate 32 255) 2303 0 0) s1
      = Done (s2, c) /\
    cpu_PC c = 513 /\ cpu_SREG c = 0 /\ SREG (io s2) = 128.
Proof.
  assert (H1 : wf power_on) by apply power_on_wf.
  assert (H2 : stacks_ok power_on) by apply power_on_stacks_ok.
  assert (H3 : 513 <> 0) by discriminate.
  split; [exact H1|]. split; [exact H2|]. split; [reflexivity|].
  split; [exact H3|].
  destruct (first_task_entry 256 power_on 513 [768]
              (mk_cpu (replicate 32 255) 2303 0 0) H1 H2 eq_refl H3 eq_refl)
    as (ids & s1 & s2 & c & t & E1 & E2 & E3 & _ & E4 & E5 & _).
  exists ids, s1, s2, c. split; [exact E1|]. split; [exact E2|].
  split; [exact E4|]. split; [exact E5|].
  assert (Hs1 : s1 = match add_all 256 [513; 768] power_on with
                     | Done (_, x) => x | Stop _ => power_on end)
    by (by rewrite E1).
  assert (Hs2 : s2 = match scheduler_start s1 with
                     | Done x => x | Stop _ => power_on end)
    by (by rewrite E3).
  rewrite Hs2, Hs1. vm_compute. reflexivity.
Defined.

(** ** Invariants of the registry and of the counters *)

Lemma update_slot_static k f s (j : nat) t :
  (forall t, stack (f t) = stack t /\ stack_pointer (f t) = stack_pointer t /\
             task_id (f t) = task_id t) ->
  tasks s !! j = Some t ->
  exists t',
    tasks (update_slot k f s) !! j = Some t' /\
    stack t' = stack t /\ stack_pointer t' = stack_pointer t /\
    task_id t' = task_id t.
Proof.
  intros Hf Ht. rewrite update_slot_lookup, Ht. cbn.
  eexists. split; [reflexivity|]. case_decide; [apply Hf | done].
Qed.

Lemma yield_fun_static s (j : nat) t :
  tasks s !! j = Some t ->
  exists t',
    tasks (yield_fun s) !! j = Some t' /\
    stack t' = stack t /\ stack_pointer t' = stack_pointer t /\
    task_id t' = task_id t.
Proof.
  intros Ht. unfold yield_fun.
  destruct (next_task_of s =? current_task s); [by exists t|].
  rewrite switched_lookup, Ht. cbn. eexists. split; [reflexivity|].
  split; [apply switch_tcb_stack|]. split; apply switch_tcb_static.
Qed.

(** No operation but [scheduler_init] stores into the stack, the saved
    stack pointer or the id of a registered task. *)
Lemma step_fun_static exit_addr e s (j : nat) t :
  e <> EInit -> 0 <= task_count s ->
  tasks s !! j = Some t -> Z.of_nat j < task_count s ->
  exists t',
    tasks (step_fun exit_addr e s) !! j = Some t' /\
    stack t' = stack t /\ stack_pointer t' = stack_pointer t /\
    task_id t' = task_id t.
Proof.
  intros He H0 Ht Hj.
  destruct e as [|f| |id|id| |ticks| |]; cbn [step_fun]; try done.
  - destruct ((MAX_TASKS <=? task_count s) || (f =? 0)); [by exists t|].
    unfold added. cbn [tasks with_task_count].
    rewrite update_slot_lookup, Ht. cbn. rewrite decide_False by lia.
    by exists t.
  - unfold start_fun. cbn [tasks with_io with_scheduler_running].
    by apply update_slot_static.
  - destruct (id <? task_count s); [|by exists t].
    by apply update_slot_static.
  - destruct (id <? task_count s); [|by exists t].
    apply update_slot_static; [|done]. intros t0.
    split; [apply resume_tcb_stack|]. split; apply resume_tcb_static.
  - by apply yield_fun_static.
  - destruct (ticks =? 0); [by exists t|].
    destruct (update_slot_static (current_task s) (block_tcb ticks) s j t)
      as (t1 & Ht1 & E1 & E2 & E3); [done|done|].
    destruct (yield_fun_static _ j t1 Ht1) as (t2 & Ht2 & F1 & F2 & F3).
    exists t2. split; [done|]. split; [congruence|]. split; congruence.
  - unfold ticked.
    destruct ((scheduler_running s =? 0) || (task_count s =? 0));
      [by exists t|].
    cbn [tasks]. rewrite list_lookup_imap, Ht. cbn.
    eexists. split; [reflexivity|]. split; [apply tick_tcb_stack|].
    split; apply tick_tcb_static.
  - by apply update_slot_static.
Qed.

Lemma reachable_invariant exit_addr s :
  reachable exit_addr s -> wf s /\ stacks_ok s.
Proof.
  intros [H|H].
  - by destruct (configured_invariant _ _ H) as (? & ? & _).
  - by destruct (started_invariant _ _ H) as (? & ? & _).
Qed.

(** X5: the registry.  Before the start, when nothing has run on a task
    stack yet, the block of a registered task carries its own index as
    [task_id], the saved stack pointer [&stack[90]] and exactly the stack
    [scheduler_add_task] built on zeroed memory, the context of some
    non-null entry point, and every block beyond [task_count] is still all
    zero.  In every state reached by the protocol, no operation but
    [scheduler_init] stores into the stack, the saved stack pointer or the
    id of a registered task: neither [scheduler_yield] nor the tick handler
    saves a context.  So the id and the saved stack pointer of a registered
    task are the same in every state reached.  What the running code itself
    pushes on the stack it runs on is not a store of the scheduler and is
    not described here. *)
Theorem registry_invariant (exit_addr : Z) (s : sched) :
  (configured exit_addr s ->
   forall (j : nat) (t : task_t),
     tasks s !! j = Some t ->
     (Z.of_nat j < task_count s ->
      task_id t = Z.of_nat j /\
      stack_pointer t = Some 90 /\
      length (stack t) = Z.to_nat TASK_STACK_SIZE /\
      exists f, f <> 0 /\
                stack t = replicate 91 0 ++ context_image exit_addr f) /\
     (task_count s <= Z.of_nat j -> t = zero_task)) /\
  (reachable exit_addr s ->
   forall (e : event) (s' : sched),
     e <> EInit -> step exit_addr e s = Done s' ->
     forall (j : nat) (t : task_t),
       tasks s !! j = Some t -> Z.of_nat j < task_count s ->
       exists t',
         tasks s' !! j = Some t' /\
         stack t' = stack t /\
         stack_pointer t' = stack_pointer t /\
         task_id t' = task_id t) /\
  (reachable exit_addr s ->
   forall (j : nat) (t : task_t),
     tasks s !! j = Some t -> Z.of_nat j < task_count s ->
     task_id t = Z.of_nat j /\ stack_pointer t = Some 90).
Proof.
  split; [|split].
  - intros Hc j t Ht.
    pose proof (configured_registry_ok _ _ Hc j t Ht) as Hj.
    split; intros H.
    + rewrite decide_True in Hj by done.
      destruct Hj as (Hi & f & Hf & Hp & Hs). split; [done|]. split; [done|].
      split; [by rewrite Hs|]. by exists f.
    + by rewrite decide_False in Hj by lia.
  - intros Hr e s' He Hs j t Ht Hj.
    destruct (reachable_invariant _ _ Hr) as (Hwf & Hst).
    assert (Hn : match e with
                 | EYield | EDelay _ | EExit => 1 <= task_count s
                 | _ => True
                 end) by (destruct e; (done || lia)).
    pose proof (step_inv _ _ _ _ Hs Hwf Hst Hn) as ->.
    apply step_fun_static; try done. lia.
  - intros Hr j t Ht Hj.
    assert (Hreg : registry_ok exit_addr s)
      by (destruct Hr; [by apply configured_registry_ok
                       | by apply started_registry_ok]).
    pose proof (Hreg j t Ht) as Hreg'. rewrite decide_True in Hreg' by done.
    destruct Hreg' as (Hi & f & Hf & Hp & _). done.
Qed.

Lemma registry_invariant_witness :
  configured 256 (after [EInit; EAdd 512; EAdd 768]) /\
  reachable 256 two_tasks /\
  (exists t, tasks (after [EInit; EAdd 512; EAdd 768]) !! 1%nat = Some t /\
             task_id t = 1 /\ stack_pointer t = Some 90 /\
             stack t = replicate 91 0 ++ context_image 256 768) /\
  (exists s' t t',
     step 256 (EDelay 3) two_tasks = Done s' /\
     tasks two_tasks !! 0%nat = Some t /\
     tasks s' !! 0%nat = Some t' /\
     stack t' = stack t /\ stack_pointer t' = Some 90 /\ task_id t' = 0).
Proof.
  assert (Hc : configured 256 (after [EInit; EAdd 512; EAdd 768])).
  { apply (run_configured 256 [EAdd 512; EAdd 768] (scheduler_init power_on)).
    - apply configured_init.
    - repeat constructor.
    - vm_compute. reflexivity. }
  assert (Hr : reachable 256 two_tasks) by (right; apply two_tasks_started).
  split; [exact Hc|]. split; [exact Hr|].
  assert (E : exists t,
            tasks (after [EInit; EAdd 512; EAdd 768]) !! 1%nat = Some t /\
            stack t = replicate 91 0 ++ context_image 256 768)
    by (eexists; split; reflexivity).
  assert (F : exists s' t,
            step 256 (EDelay 3) two_tasks = Done s' /\
            tasks two_tasks !! 0%nat = Some t)
    by (eexists _, _; split; vm_compute; reflexivity).
  split.
  - destruct E as (t & Et & Es). exists t. split; [exact Et|].
    destruct (registry_invariant 256 (after [EInit; EAdd 512; EAdd 768]))
      as (Hconf & _).
    destruct (Hconf Hc 1%nat t Et) as (Hreg & _).
    destruct (Hreg ltac:(vm_compute; reflexivity)) as (Hi & Hp & _).
    split; [exact Hi|]. split; [exact Hp | exact Es].
  - destruct F as (s' & t & Es & Et).
    destruct (registry_invariant 256 two_tasks) as (_ & Hframe & Hreg).
    destruct (Hframe Hr (EDelay 3) s' ltac:(discriminate) Es 0%nat t Et
                ltac:(vm_compute; reflexivity)) as (t' & Et' & E1 & E2 & E3).
    destruct (Hreg Hr 0%nat t Et ltac:(vm_compute; reflexivity)) as (Hi & Hp).
    exists s', t, t'. split; [exact Es|]. split; [exact Et|].
    split; [exact Et'|]. split; [exact E1|].
    split; [by rewrite E2 | by rewrite E3].
Defined.

(** X6: the global and the per-task switch counters agree.  In every state
    reached by the protocol [context_switches] equals the sum of the
    [times_scheduled] counters of all blocks, modulo [2^32]: the dispatcher
    increments both or neither, and nothing else writes them. *)
Theorem switch_counter_invariant (exit_addr : Z) (s : sched) :
  reachable exit_addr s ->
  context_switches (debug_stats s) = uint32 (total_scheduled (tasks s)).
Proof.
  intros [H|H].
  - by apply (configured_stats_consistent exit_addr).
  - by apply (started_stats_consistent exit_addr).
Qed.

Lemma switch_counter_invariant_witness :
  reachable 256 (after [EInit; EAdd 512; EAdd 768; EStart; EYield; EYield;
                        EYield]) /\
  context_switches
    (debug_stats (after [EInit; EAdd 512; EAdd 768; EStart; EYield; EYield;
                         EYield])) =
  uint32 (total_scheduled
    (tasks (after [EInit; EAdd 512; EAdd 768; EStart; EYield; EYield;
                   EYield]))) /\
  total_scheduled
    (tasks (after [EInit; EAdd 512; EAdd 768; EStart; EYield; EYield;
                   EYield])) = 3.
Proof.
  assert (H : reachable 256 (after [EInit; EAdd 512; EAdd 768; EStart; EYield;
                                    EYield; EYield])).
  { right. apply (run_started 256 [EYield; EYield; EYield] two_tasks).
    - apply two_tasks_started.
    - repeat constructor.
    - vm_compute. reflexivity. }
  split; [exact H|].
  split; [exact (switch_counter_invariant 256 _ H)|].
  vm_compute. reflexivity.
Defined.

(** ** Safety of the protocol *)

(** X7: no operation of the protocol goes wrong.  Before the start, every
    setup operation (init, add, suspend, resume, a stray tick) with
    arguments in the range of their C types returns, and
    [scheduler_start] hands over to the first task exactly when a task is
    registered; with none it spins forever.  After the start, every
    operation of a task or of the timer (add, suspend, resume, yield,
    delay, the tick handler, the store of the exit handler) returns: no
    access leaves the task array or a stack, the dispatcher never divides
    by zero and its scan ends within the fuel.  The state reached is again
    a protocol state. *)
Theorem protocol_operations_defined (exit_addr : Z) (s : sched) (e : event) :
  well_typed e ->
  (configured exit_addr s -> setup_event e ->
   exists s', step exit_addr e s = Done s' /\ configured exit_addr s') /\
  (configured exit_addr s -> 1 <= task_count s ->
   exists s', scheduler_start s = Done s' /\ started exit_addr s') /\
  (configured exit_addr s -> task_count s = 0 ->
   scheduler_start s = Stop HaltForever) /\
  (started exit_addr s -> task_event e ->
   exists s', step exit_addr e s = Done s' /\ started exit_addr s').
Proof.
  intros Ht. split; [|split; [|split]].
  - intros Hc He.
    destruct (configured_invariant _ _ Hc) as (Hwf & Hst & _).
    destruct (setup_step_total exit_addr e s He Ht Hwf Hst) as [s' Hs].
    exists s'. split; [done|]. by eapply configured_step.
  - intros Hc Hn.
    destruct (configured_invariant _ _ Hc) as (Hwf & Hst & _).
    eexists. split; [apply scheduler_start_eq; [done | lia]|].
    eapply started_start; [done|]. apply scheduler_start_eq; [done | lia].
  - intros _ H0. unfold scheduler_start. by rewrite H0.
  - intros Hs He.
    destruct (started_invariant _ _ Hs) as (Hwf & Hst & Hn & _).
    destruct (task_step_total exit_addr e s He Ht Hwf Hst Hn) as [s' E].
    exists s'. split; [done|]. by eapply started_step.
Qed.

Lemma protocol_operations_defined_witness :
  well_typed (EDelay 3) /\ started 256 two_tasks /\ task_event (EDelay 3) /\
  exists s', step 256 (EDelay 3) two_tasks = Done s' /\ started 256 s'.
Proof.
  assert (H1 : well_typed (EDelay 3)) by (cbn; lia).
  split; [exact H1|]. split; [apply two_tasks_started|]. split; [exact I|].
  exact (proj2 (proj2 (proj2
           (protocol_operations_defined 256 two_tasks (EDelay 3) H1)))
           two_tasks_started I).
Defined.

(** X8: the shape of protocol states.  Before the start the scheduler is
    marked stopped, [current_task] is [0], all counters are zero, and every
    block is Ready or Suspended with nothing counted: ticks are ignored and
    nothing runs.  After the start the scheduler is marked running, between
    one and [MAX_TASKS] tasks are registered, [current_task] indexes a
    registered task, and the array and the stacks keep their sizes. *)
Theorem protocol_state_shape (exit_addr : Z) (s : sched) :
  (configured exit_addr s ->
   wf s /\ stacks_ok s /\ scheduler_running s = 0 /\ current_task s = 0 /\
   debug_stats s = mk_debug 0 0 0 /\
   forall (j : nat) (t : task_t),
     tasks s !! j = Some t ->
     (state t = TASK_READY \/ state t = TASK_SUSPENDED) /\
     delay_ticks t = 0 /\ runtime_ticks t = 0 /\ times_scheduled t = 0) /\
  (started exit_addr s ->
   length (tasks s) = Z.to_nat MAX_TASKS /\ stacks_ok s /\
   scheduler_running s = 1 /\
   1 <= task_count s <= MAX_TASKS /\
   0 <= current_task s < task_count s).
Proof.
  split; intros H.
  - destruct (configured_invariant _ _ H) as (Hwf & Hst & _ & Hr).
    destruct (configured_quiet _ _ H) as (Hc & Hd & Hall).
    do 5 (split; [done|]). intros j t Ht.
    destruct (Hall j t Ht) as (? & ? & ?).
    split; [done|]. split; [|done]. by eapply configured_no_delay.
  - destruct (started_invariant _ _ H) as (Hwf & Hst & Hn & _ & Hr).
    destruct Hwf as (Hl & Hc & H0 & Hcur).
    do 3 (split; [done|]). split; lia.
Qed.

Lemma protocol_state_shape_witness :
  started 256 two_tasks /\
  scheduler_running two_tasks = 1 /\
  1 <= task_count two_tasks <= MAX_TASKS /\
  0 <= current_task two_tasks < task_count two_tasks.
Proof.
  split; [apply two_tasks_started|].
  destruct (proj2 (protocol_state_shape 256 two_tasks) two_tasks_started)
    as (_ & _ & Hr & Hn & Hc).
  split; [exact Hr|]. split; [exact Hn | exact Hc].
Defined.

(** ** What the tick handler and the dispatcher account for *)

(** X9: the tick handler never dispatches.  A tick leaves [current_task],
    the task count, the running flag, the I/O registers and both switch
    counters alone; [total_ticks] grows by one (modulo [2^32]) exactly when
    the scheduler is running with a task registered.  In every block the
    stack, the saved stack pointer, the id and [times_scheduled] are kept,
    and so is being Running or not: the only change of state is from
    Blocked to Ready, with the delay counter at zero afterwards.
    [runtime_ticks] grows, by one, only in the block of the current task
    and only when it is Running. *)
Theorem tick_accounting (s : sched) :
  wf s ->
  exists s',
    TIMER0_COMPA_vect s = Done s' /\
    task_count s' = task_count s /\
    current_task s' = current_task s /\
    scheduler_running s' = scheduler_running s /\
    io s' = io s /\
    context_switches (debug_stats s') = context_switches (debug_stats s) /\
    voluntary_yields (debug_stats s') = voluntary_yields (debug_stats s) /\
    total_ticks (debug_stats s') =
      (if (scheduler_running s =? 0) || (task_count s =? 0)
       then total_ticks (debug_stats s)
       else uint32 (total_ticks (debug_stats s) + 1)) /\
    forall (j : nat) (t : task_t),
      tasks s !! j = Some t ->
      exists t',
        tasks s' !! j = Some t' /\
        stack t' = stack t /\ stack_pointer t' = stack_pointer t /\
        task_id t' = task_id t /\
        times_scheduled t' = times_scheduled t /\
        is_running (state t') = is_running (state t) /\
        (state t' <> state t ->
         state t = TASK_BLOCKED /\ state t' = TASK_READY /\
         delay_ticks t' = 0) /\
        runtime_ticks t' =
          (if (scheduler_running s =? 0) || (task_count s =? 0) then
             runtime_ticks t
           else if decide (j = Z.to_nat (current_task s)) then
             (if is_running (state t) then uint32 (runtime_ticks t + 1)
              else runtime_ticks t)
           else runtime_ticks t).
Proof.
  intros Hwf. exists (ticked s). split; [by apply TIMER0_COMPA_vect_eq|].
  destruct (ticked_frame s) as (-> & -> & -> & _ & ->).
  do 4 (split; [done|]).
  unfold ticked.
  destruct ((scheduler_running s =? 0) || (task_count s =? 0)) eqn:E.
  { do 3 (split; [done|]). intros j t Ht. exists t.
    do 6 (split; [done|]). split; [intros H; exfalso; by apply H | done]. }
  cbn [debug_stats context_switches voluntary_yields total_ticks
       bump_total_ticks tasks].
  do 3 (split; [done|]). intros j t Ht.
  exists (tick_tcb s j t). rewrite list_lookup_imap, Ht.
  split; [done|]. split; [apply tick_tcb_stack|].
  destruct (tick_tcb_static s j t) as (-> & -> & ->).
  do 3 (split; [done|]).
  unfold tick_tcb. cbv zeta.
  set (t1 := if decide (j = Z.to_nat (current_task s)) then _ else _).
  assert (H1 : state t1 = state t /\ delay_ticks t1 = delay_ticks t /\
               runtime_ticks t1 =
                 (if decide (j = Z.to_nat (current_task s)) then
                    (if is_running (state t) then uint32 (runtime_ticks t + 1)
                     else runtime_ticks t)
                  else runtime_ticks t)).
  { unfold t1. case_decide; [|done]. by destruct (is_running (state t)). }
  destruct H1 as (Hs1 & Hd1 & Hr1). rewrite <- Hr1, <- Hs1. clearbody t1.
  assert (Hsame : forall t2, state t2 = state t1 ->
            is_running (state t2) = is_running (state t1) /\
            (state t2 <> state t1 ->
             state t1 = TASK_BLOCKED /\ state t2 = TASK_READY /\
             delay_ticks t2 = 0)).
  { intros t2 ->. split; [done|]. intros H. exfalso. by apply H. }
  apply and_assoc.
  destruct (decide (Z.of_nat j < task_count s));
    [|split; [by apply Hsame | done]].
  destruct (delay_step_tcb_static t1) as (_ & _ & -> & _).
  split; [|done].
  unfold delay_step_tcb. destruct (0 <? delay_ticks t1); [|by apply Hsame].
  cbv zeta. cbn [delay_ticks state set_delay_ticks].
  destruct (Z.eqb_spec (uint16 (delay_ticks t1 - 1)) 0) as [E0|E0];
    cbn [andb]; [|by apply Hsame].
  destruct (is_blocked (state t1)) eqn:Eb; [|by apply Hsame].
  assert (Es : state t1 = TASK_BLOCKED) by (by destruct (state t1)).
  cbn [state set_state set_delay_ticks delay_ticks]. rewrite Es.
  split; [done|]. intros _. by rewrite E0.
Qed.

Lemma tick_accounting_witness :
  wf two_tasks /\
  exists s',
    TIMER0_COMPA_vect two_tasks = Done s' /\
    current_task s' = current_task two_tasks /\
    total_ticks (debug_stats s') = 1.
Proof.
  split; [apply two_tasks_wf|].
  destruct (tick_accounting two_tasks two_tasks_wf)
    as (s' & E & _ & Hc & _ & _ & _ & _ & Ht & _).
  exists s'. split; [exact E|]. split; [exact Hc | exact Ht].
Defined.

(** X10: what one yield accounts for.  In a state with a registered current
    task a yield returns, counts itself in [voluntary_yields] and leaves the
    tick counter, the task count, the running flag and the I/O registers
    alone.  Either no block changes, [current_task] and [context_switches]
    stay; or [current_task] moves to another registered task that was Ready
    or Running, [context_switches] and that task's [times_scheduled] grow by
    one (modulo [2^32]), that task becomes Running, the caller becomes Ready
    if it was Running and keeps its state otherwise, and every other block
    is unchanged.  The second case happens exactly when some other
    registered task is Ready or Running. *)
Theorem yield_accounting (s : sched) :
  dispatchable s ->
  exists s',
    scheduler_yield s = Done s' /\
    voluntary_yields (debug_stats s') =
      uint32 (voluntary_yields (debug_stats s) + 1) /\
    total_ticks (debug_stats s') = total_ticks (debug_stats s) /\
    task_count s' = task_count s /\
    scheduler_running s' = scheduler_running s /\
    io s' = io s /\
    ((current_task s' = current_task s /\ tasks s' = tasks s /\
      context_switches (debug_stats s') = context_switches (debug_stats s))
     \/
     (current_task s' <> current_task s /\
      0 <= current_task s' < task_count s /\
      eligible_at s (current_task s') = true /\
      context_switches (debug_stats s') =
        uint32 (context_switches (debug_stats s) + 1) /\
      (forall t, tasks s !! Z.to_nat (current_task s') = Some t ->
         tasks s' !! Z.to_nat (current_task s') =
           Some (set_state TASK_RUNNING
                   (set_times_scheduled (uint32 (times_scheduled t + 1)) t))) /\
      (forall t, tasks s !! Z.to_nat (current_task s) = Some t ->
         tasks s' !! Z.to_nat (current_task s) =
           Some (if is_running (state t) then set_state TASK_READY t else t)) /\
      (forall j : nat, j <> Z.to_nat (current_task s') ->
                       j <> Z.to_nat (current_task s) ->
                       tasks s' !! j = tasks s !! j))) /\
    (current_task s' <> current_task s <->
     exists j, 0 <= j < task_count s /\ j <> current_task s /\
               eligible_at s j = true).
Proof.
  intros Hd. rewrite scheduler_yield_eq by done.
  eexists. split; [done|].
  destruct (Z.eqb_spec (next_task_of s) (current_task s)) as [E|Hne].
  - do 5 (split; [done|]). split; [by left|]. split; [done|].
    intros (j & Hj & Hjc & He).
    by destruct (ring_other_eligible s j Hd Hj Hjc He).
  - destruct (next_task_of_cases s Hd) as [|(Hx & He & _)]; [done|].
    do 5 (split; [done|]). split.
    + right. cbn [current_task switched debug_stats context_switches
                  bump_context_switches bump_voluntary_yields].
      do 4 (split; [done|]).
      assert (Hz : Z.to_nat (next_task_of s) <> Z.to_nat (current_task s))
        by (destruct Hd as (_ & _ & ?); lia).
      split; [|split].
      * intros t Ht. rewrite switched_lookup, Ht.
        cbn [fmap option_fmap option_map]. unfold switch_tcb.
        by rewrite decide_True.
      * intros t Ht. rewrite switched_lookup, Ht.
        cbn [fmap option_fmap option_map]. unfold switch_tcb.
        rewrite decide_False by done. by rewrite decide_True.
      * intros j H1 H2. rewrite switched_lookup.
        destruct (tasks s !! j) as [t|]; [|done].
        cbn [fmap option_fmap option_map]. unfold switch_tcb.
        by rewrite !decide_False.
    + split; [|done]. intros _. exists (next_task_of s).
      split; [done|]. split; done.
Qed.

Lemma yield_accounting_witness :
  dispatchable three_tasks /\
  exists s',
    scheduler_yield three_tasks = Done s' /\
    current_task s' <> current_task three_tasks /\
    context_switches (debug_stats s') =
      uint32 (context_switches (debug_stats three_tasks) + 1).
Proof.
  assert (Hd : dispatchable three_tasks)
    by (apply wf_dispatchable; [apply three_tasks_wf | vm_compute; discriminate]).
  split; [exact Hd|].
  destruct (yield_accounting three_tasks Hd)
    as (s' & E & _ & _ & _ & _ & _ & Hc & Hiff).
  exists s'. split; [exact E|].
  assert (Hne : current_task s' <> current_task three_tasks).
  { apply Hiff. exists 2. vm_compute. repeat split; discriminate. }
  split; [exact Hne|].
  destruct Hc as [(Hsame & _)|(_ & _ & _ & Hcs & _)];
    [destruct (Hne Hsame) | exact Hcs].
Defined.

(** X11: an effective switch leaves exactly one task Running.  If only the
    current task can be Running, then after a yield that moved
    [current_task], and after a yield called by a Running task, exactly one
    block is Running and it is the one of the new current task; after a
    yield that found no other task while the caller was not Running, no
    block is Running. *)
Theorem yield_running_count (s : sched) :
  dispatchable s -> only_current_running s ->
  exists s',
    scheduler_yield s = Done s' /\
    only_current_running s' /\
    (current_task s' <> current_task s \/
     state_at s (current_task s) = Some TASK_RUNNING ->
     count_running s' = 1%nat /\
     state_at s' (current_task s') = Some TASK_RUNNING) /\
    (current_task s' = current_task s ->
     state_at s (current_task s) <> Some TASK_RUNNING ->
     count_running s' = 0%nat).
Proof. apply scheduler_yield_running. Qed.

Lemma yield_running_count_witness :
  dispatchable self_suspended /\ only_current_running self_suspended /\
  exists s',
    scheduler_yield self_suspended = Done s' /\
    current_task s' = current_task self_suspended /\
    count_running s' = 0%nat.
Proof.
  assert (Hd : dispatchable self_suspended).
  { vm_compute. repeat split; discriminate. }
  assert (Ho : only_current_running self_suspended).
  { intros i t Hi Hr.
    destruct i as [|i]; [reflexivity|].
    exfalso. do 7 (destruct i as [|i]; [vm_compute in Hi; injection Hi as <-;
                                         discriminate Hr|]).
    vm_compute in Hi. discriminate Hi. }
  split; [exact Hd|]. split; [exact Ho|].
  destruct (yield_running_count self_suspended Hd Ho) as (s' & E & _ & _ & H0).
  exists s'. split; [exact E|].
  assert (Hs : s' = match scheduler_yield self_suspended with
                    | Done x => x | Stop _ => power_on end) by (by rewrite E).
  assert (Hc : current_task s' = current_task self_suspended)
    by (rewrite Hs; vm_compute; reflexivity).
  split; [exact Hc|]. apply H0; [exact Hc|].
  vm_compute. discriminate.
Defined.

(** ** Suspend and resume *)

(** X12: suspending a registered task and resuming it leaves it Ready,
    whatever it was before.  The two calls together store Ready in the slot
    and change nothing else; the state is the one before exactly when the
    task was Ready.  A task that was Blocked in a delay is eligible at once,
    its delay counter still pending; a task that was Running is Ready
    afterwards. *)
Theorem suspend_then_resume (s : sched) (id : Z) :
  wf s -> 0 <= id < task_count s ->
  exists s1 s2 t,
    tasks s !! Z.to_nat id = Some t /\
    scheduler_suspend_task id s = Done s1 /\
    scheduler_resume_task id s1 = Done s2 /\
    s2 = update_slot id (set_state TASK_READY) s /\
    tasks s2 !! Z.to_nat id = Some (set_state TASK_READY t) /\
    (forall j : nat, j <> Z.to_nat id -> tasks s2 !! j = tasks s !! j) /\
    eligible_at s2 id = true /\
    delay_at s2 id = Some (delay_ticks t) /\
    (s2 = s <-> state t = TASK_READY).
Proof.
  intros Hwf Hid. pose proof Hwf as (Hl & Hn & _). unfold MAX_TASKS in *.
  destruct (lookup_lt_is_Some_2 (tasks s) (Z.to_nat id)) as [t Ht]; [lia|].
  assert (Hlt : (id <? task_count s) = true) by (apply Z.ltb_lt; lia).
  set (s1 := update_slot id (set_state TASK_SUSPENDED) s).
  set (s2 := update_slot id (set_state TASK_READY) s).
  assert (E1 : scheduler_suspend_task id s = Done s1)
    by (rewrite scheduler_suspend_task_eq by lia; by rewrite Hlt).
  assert (E2 : scheduler_resume_task id s1 = Done s2).
  { rewrite scheduler_resume_task_eq
      by (destruct (update_slot_frame id (set_state TASK_SUSPENDED) s)
            as (? & _ & _ & _ & _ & ?); unfold s1; lia).
    unfold s1 at 1. destruct (update_slot_frame id (set_state TASK_SUSPENDED) s)
      as (-> & _). rewrite Hlt. f_equal. unfold s1.
    rewrite update_slot_compose. by apply update_slot_ext. }
  assert (L2 : tasks s2 !! Z.to_nat id = Some (set_state TASK_READY t)).
  { unfold s2. rewrite update_slot_lookup, Ht. cbn. by rewrite decide_True. }
  exists s1, s2, t. do 4 (split; [done|]). split; [done|].
  split.
  { intros j Hj. unfold s2. rewrite update_slot_lookup.
    destruct (tasks s !! j); [|done]. cbn. by rewrite decide_False. }
  split. { by rewrite (eligible_at_lookup _ _ _ (proj1 Hid) L2). }
  split. { by rewrite (delay_at_lookup _ _ _ L2). }
  split.
  - intros E. rewrite <- E in Ht. rewrite Ht in L2. by injection L2 as ->.
  - intros Hr. unfold s2. apply update_slot_same. intros t' Ht'.
    rewrite Ht in Ht'. injection Ht' as <-. destruct t. cbn in *. by subst.
Qed.

Lemma suspend_then_resume_witness :
  wf three_tasks /\ 0 <= 0 < task_count three_tasks /\
  exists s1 s2,
    scheduler_suspend_task 0 three_tasks = Done s1 /\
    scheduler_resume_task 0 s1 = Done s2 /\
    state_at three_tasks 0 = Some TASK_RUNNING /\
    state_at s2 0 = Some TASK_READY.
Proof.
  assert (H : 0 <= 0 < task_count three_tasks)
    by (vm_compute; split; [discriminate | reflexivity]).
  split; [apply three_tasks_wf|]. split; [exact H|].
  destruct (suspend_then_resume three_tasks 0 three_tasks_wf H)
    as (s1 & s2 & t & Ht & E1 & E2 & _ & L2 & _).
  exists s1, s2. split; [exact E1|]. split; [exact E2|].
  split; [vm_compute; reflexivity|].
  unfold state_at. rewrite L2. reflexivity.
Defined.

(** X13: calls of suspend and resume that change nothing.  An id that names
    no registered task is ignored by both.  Suspending twice is suspending
    once, and resuming twice is resuming once.  Resuming a task that is not
    Suspended changes nothing: a Blocked task stays Blocked and a Running
    task stays Running. *)
Theorem suspend_resume_idle (s : sched) (id : Z) :
  wf s -> 0 <= id ->
  (task_count s <= id ->
   scheduler_suspend_task id s = Done s /\
   scheduler_resume_task id s = Done s) /\
  (exists s1, scheduler_suspend_task id s = Done s1 /\
              scheduler_suspend_task id s1 = Done s1) /\
  (exists s1, scheduler_resume_task id s = Done s1 /\
              scheduler_resume_task id s1 = Done s1) /\
  (state_at s id <> Some TASK_SUSPENDED ->
   scheduler_resume_task id s = Done s).
Proof.
  intros Hwf Hid. pose proof Hwf as (Hl & Hn & _). unfold MAX_TASKS in *.
  assert (Hlen : task_count s <= Z.of_nat (length (tasks s))) by lia.
  rewrite scheduler_suspend_task_eq, scheduler_resume_task_eq by done.
  destruct (Z.ltb_spec id (task_count s)) as [Hlt|Hge].
  - split; [lia|].
    assert (Hlt' : (id <? task_count s) = true) by (apply Z.ltb_lt; lia).
    split; [|split].
    + eexists. split; [done|].
      rewrite scheduler_suspend_task_eq
        by (destruct (update_slot_frame id (set_state TASK_SUSPENDED) s)
              as (? & _ & _ & _ & _ & ?); lia).
      destruct (update_slot_frame id (set_state TASK_SUSPENDED) s) as (-> & _).
      rewrite Hlt'. f_equal. rewrite update_slot_compose.
      by apply update_slot_ext.
    + eexists. split; [done|].
      rewrite scheduler_resume_task_eq
        by (destruct (update_slot_frame id resume_tcb s)
              as (? & _ & _ & _ & _ & ?); lia).
      destruct (update_slot_frame id resume_tcb s) as (-> & _).
      rewrite Hlt'. f_equal. rewrite update_slot_compose.
      apply update_slot_ext. intros t _. unfold resume_tcb.
      destruct (state t) eqn:Es; cbn; by rewrite ?Es.
    + intros Hns. f_equal. apply update_slot_same. intros t Ht.
      unfold resume_tcb. destruct (is_suspended (state t)) eqn:Es; [|done].
      exfalso. apply Hns. unfold state_at. rewrite Ht. cbn.
      by destruct (state t).
  - split; [done|]. split; [|split].
    + exists s. split; [done|].
      rewrite scheduler_suspend_task_eq by done.
      by destruct (Z.ltb_spec id (task_count s)); [lia|].
    + exists s. split; [done|].
      rewrite scheduler_resume_task_eq by done.
      by destruct (Z.ltb_spec id (task_count s)); [lia|].
    + done.
Qed.

Lemma suspend_resume_idle_witness :
  wf three_tasks /\ 0 <= 255 /\ task_count three_tasks <= 255 /\
  scheduler_suspend_task 255 three_tasks = Done three_tasks /\
  scheduler_resume_task 255 three_tasks = Done three_tasks.
Proof.
  assert (H1 : 0 <= 255) by lia.
  assert (H2 : task_count three_tasks <= 255) by (vm_compute; discriminate).
  split; [apply three_tasks_wf|]. split; [exact H1|]. split; [exact H2|].
  exact (proj1 (suspend_resume_idle three_tasks 255 three_tasks_wf H1) H2).
Defined.

(** ** Statistics and initialisation *)

(** X14: [scheduler_reset_debug_stats] zeroes the three global counters and
    the two counters of every registered task, and nothing else: states,
    delay counters, stacks, ids, the current task, the count, the running
    flag and the I/O registers, the status register included, are as
    before, and blocks beyond [task_count] are not touched.  Afterwards
    [scheduler_get_task_stats] reports [0] and [0] for every registered
    task, a second reset changes nothing, and in a protocol state the
    switch counters agree again. *)
Theorem reset_debug_stats_spec (exit_addr : Z) (s : sched) :
  wf s ->
  exists s',
    scheduler_reset_debug_stats s = Done s' /\
    scheduler_get_debug_stats s' = mk_debug 0 0 0 /\
    task_count s' = task_count s /\
    current_task s' = current_task s /\
    scheduler_running s' = scheduler_running s /\
    io s' = io s /\
    (forall (j : nat) (t : task_t),
       tasks s !! j = Some t ->
       tasks s' !! j =
         Some (if decide (Z.of_nat j < task_count s)
               then set_times_scheduled 0 (set_runtime_ticks 0 t) else t)) /\
    (forall id r sc,
       0 <= id < task_count s ->
       scheduler_get_task_stats id (Some r) (Some sc) s' =
         Done (0, Some 0, Some 0)) /\
    scheduler_reset_debug_stats s' = Done s' /\
    (reachable exit_addr s ->
     context_switches (debug_stats s') = uint32 (total_scheduled (tasks s'))).
Proof.
  intros Hwf. pose proof Hwf as (Hl & Hn & Hc & Hcur). unfold MAX_TASKS in *.
  exists (reset_fun s). split; [by apply scheduler_reset_debug_stats_eq|].
  do 5 (split; [done|]).
  assert (Hlk : forall (j : nat) (t : task_t),
    tasks s !! j = Some t ->
    tasks (reset_fun s) !! j =
      Some (if decide (Z.of_nat j < task_count s)
            then set_times_scheduled 0 (set_runtime_ticks 0 t) else t)).
  { intros j t Ht. cbn [reset_fun tasks]. by rewrite list_lookup_imap, Ht. }
  split; [done|]. split; [|split].
  - intros id r sc Hid. unfold scheduler_get_task_stats.
    cbn [reset_fun task_count].
    destruct (Z.leb_spec (task_count s) id); [lia|].
    destruct (lookup_lt_is_Some_2 (tasks s) (Z.to_nat id)) as [t Ht]; [lia|].
    pose proof (Hlk _ _ Ht) as Ht'. rewrite decide_True in Ht' by lia.
    by rewrite (tcb_Done _ _ _ (proj1 Hid) Ht'), !bind_ret.
  - rewrite scheduler_reset_debug_stats_eq
      by (unfold wf, reset_fun; cbn [tasks task_count current_task];
          rewrite length_imap; done).
    f_equal. unfold reset_fun at 1.
    cbn [reset_fun tasks task_count current_task scheduler_running io].
    unfold reset_fun. f_equal.
    apply list_eq. intros j. rewrite !list_lookup_imap.
    destruct (tasks s !! j); [|done]. cbn. by case_decide.
  - intros Hr.
    assert (Hreg : registry_ok exit_addr s)
      by (destruct Hr; [by apply configured_registry_ok
                       | by apply started_registry_ok]).
    cbn [reset_fun debug_stats context_switches tasks].
    rewrite total_scheduled_zero; [done|].
    intros j t'. rewrite list_lookup_imap.
    destruct (tasks s !! j) as [t|] eqn:E; [|done]. cbn. intros [= <-].
    pose proof (Hreg j t E) as Hj. case_decide; [done|]. by subst t.
Qed.

Lemma reset_debug_stats_spec_witness :
  wf (after [EInit; EAdd 512; EAdd 768; EStart; ETick; EYield; ETick]) /\
  scheduler_get_task_stats 1 (Some 9) (Some 9)
    (after [EInit; EAdd 512; EAdd 768; EStart; ETick; EYield; ETick])
    = Done (0, Some 1, Some 1) /\
  exists s',
    scheduler_reset_debug_stats
      (after [EInit; EAdd 512; EAdd 768; EStart; ETick; EYield; ETick])
      = Done s' /\
    scheduler_get_debug_stats s' = mk_debug 0 0 0 /\
    scheduler_get_task_stats 1 (Some 9) (Some 9) s' = Done (0, Some 0, Some 0).
Proof.
  assert (Hwf : wf (after [EInit; EAdd 512; EAdd 768; EStart; ETick; EYield;
                           ETick])).
  { vm_compute. repeat split; try discriminate. by left. }
  split; [exact Hwf|]. split; [vm_compute; reflexivity|].
  destruct (reset_debug_stats_spec 256 _ Hwf)
    as (s' & E & Hd & Hn & _ & _ & _ & _ & Hg & _).
  exists s'. split; [exact E|]. split; [exact Hd|].
  apply Hg. vm_compute. split; [discriminate | reflexivity].
Defined.

(** X15: [scheduler_init] starts from scratch.  Whatever the state before,
    the result has no task registered, [current_task = 0], the scheduler
    stopped, all counters zero and all blocks zeroed, with timer 0 set to
    clear on compare at [OCR0A = 249] with prescaler 64 and its compare
    interrupt enabled (one tick per 64 * 250 clock cycles); only the status
    register is kept.  A second call changes nothing.  Until a task is
    added a tick is ignored, suspend and resume ignore every id,
    [scheduler_get_task_stats] fails for every id leaving its output cells
    alone, [scheduler_start] spins forever, and the first registration
    gets id [0]. *)
Theorem scheduler_init_resets (exit_addr : Z) (s : sched) :
  let s0 := scheduler_init s in
  wf s0 /\ stacks_ok s0 /\
  scheduler_get_task_count s0 = 0 /\
  scheduler_get_current_task s0 = 0 /\
  scheduler_running s0 = 0 /\
  scheduler_get_debug_stats s0 = mk_debug 0 0 0 /\
  tasks s0 = replicate 8 zero_task /\
  io s0 = mk_io 2 3 249 2 (SREG (io s)) /\
  scheduler_init s0 = s0 /\
  TIMER0_COMPA_vect s0 = Done s0 /\
  scheduler_start s0 = Stop HaltForever /\
  (forall id, 0 <= id ->
     scheduler_suspend_task id s0 = Done s0 /\
     scheduler_resume_task id s0 = Done s0 /\
     forall r sc, scheduler_get_task_stats id r sc s0 = Done (-1, r, sc)) /\
  (forall f, f <> 0 ->
     exists s1, scheduler_add_task exit_addr f s0 = Done (0, s1) /\
                task_count s1 = 1).
Proof.
  cbv zeta. split; [apply scheduler_init_wf|].
  split; [apply scheduler_init_stacks_ok|].
  do 9 (split; [reflexivity|]). split.
  - intros id Hid. split; [|split].
    + unfold scheduler_suspend_task. cbn [scheduler_init task_count].
      by destruct (Z.ltb_spec id 0); [lia|].
    + unfold scheduler_resume_task. cbn [scheduler_init task_count].
      by destruct (Z.ltb_spec id 0); [lia|].
    + intros r sc. unfold scheduler_get_task_stats.
      cbn [scheduler_init task_count].
      by destruct (Z.leb_spec 0 id); [|lia].
  - intros f Hf. eexists. split.
    + apply (scheduler_add_task_eq exit_addr f (scheduler_init s));
        [apply scheduler_init_wf | apply scheduler_init_stacks_ok | done | done].
    + reflexivity.
Qed.

Lemma scheduler_init_resets_witness :
  0 <= 3 /\ 512 <> 0 /\
  scheduler_init (scheduler_init two_tasks) = scheduler_init two_tasks /\
  scheduler_suspend_task 3 (scheduler_init two_tasks)
    = Done (scheduler_init two_tasks) /\
  exists s1, scheduler_add_task 256 512 (scheduler_init two_tasks)
             = Done (0, s1).
Proof.
  assert (H1 : 0 <= 3) by lia. assert (H2 : 512 <> 0) by discriminate.
  split; [exact H1|]. split; [exact H2|].
  destruct (scheduler_init_resets 256 two_tasks)
    as (_ & _ & _ & _ & _ & _ & _ & _ & Hi & _ & _ & Hids & Hadd).
  split; [exact Hi|]. split; [exact (proj1 (Hids 3 H1))|].
  destruct (Hadd 512 H2) as (s1 & E & _). exists s1. exact E.
Defined.

(** ** Delay as a dispatch *)

Lemma update_slot_eligible_other k f s j :
  0 <= j -> 0 <= k -> j <> k ->
  eligible_at (update_slot k f s) j = eligible_at s j.
Proof.
  intros Hj Hk Hne. unfold eligible_at, tcb.
  destruct (Z.leb_spec 0 j); [|lia]. rewrite update_slot_lookup.
  destruct (tasks s !! Z.to_nat j); [|done]. cbn.
  rewrite decide_False by lia. done.
Qed.

(** X16: a delay with a non-zero count blocks the caller and dispatches.
    [task_delay n] returns; on return the block of the caller is Blocked
    with delay counter [n], whatever its state was (a Suspended caller is
    Blocked afterwards), with every other field kept; the status register
    is the one before the call and the yield is counted.  [current_task]
    moves on exactly when another registered task is Ready or Running; if
    none is, it stays on the Blocked caller and the other blocks are
    unchanged.  If only the current task could be Running before, exactly
    one task is Running after a switch and none otherwise. *)
Theorem task_delay_dispatch (s : sched) (n : Z) :
  wf s -> 1 <= task_count s -> n <> 0 ->
  exists s' t,
    task_delay n s = Done s' /\
    tasks s !! Z.to_nat (current_task s) = Some t /\
    tasks s' !! Z.to_nat (current_task s) =
      Some (set_state TASK_BLOCKED (set_delay_ticks n t)) /\
    io s' = io s /\
    task_count s' = task_count s /\
    scheduler_running s' = scheduler_running s /\
    voluntary_yields (debug_stats s') =
      uint32 (voluntary_yields (debug_stats s) + 1) /\
    (current_task s' <> current_task s <->
     exists j, 0 <= j < task_count s /\ j <> current_task s /\
               eligible_at s j = true) /\
    (current_task s' = current_task s ->
     forall j : nat, j <> Z.to_nat (current_task s) ->
                     tasks s' !! j = tasks s !! j) /\
    (only_current_running s ->
     (current_task s' <> current_task s -> count_running s' = 1%nat) /\
     (current_task s' = current_task s -> count_running s' = 0%nat)).
Proof.
  intros Hwf Hn Hz.
  pose proof (wf_dispatchable s Hwf Hn) as Hd.
  pose proof Hd as (Hn' & Hlen & Hc).
  destruct (lookup_lt_is_Some_2 (tasks s) (Z.to_nat (current_task s)))
    as [t Ht]; [lia|].
  set (sb := update_slot (current_task s) (block_tcb n) s).
  assert (Hdb : dispatchable sb) by (by apply update_slot_dispatchable).
  assert (Htb : tasks sb !! Z.to_nat (current_task s) = Some (block_tcb n t)).
  { unfold sb. rewrite update_slot_lookup, Ht. cbn. by rewrite decide_True. }
  assert (Hcb : current_task sb = current_task s) by done.
  assert (Hnb : task_count sb = task_count s) by done.
  pose proof (scheduler_yield_eq sb Hdb) as Hy. fold (yield_fun sb) in Hy.
  exists (yield_fun sb), t.
  split; [by rewrite task_delay_slot by (done || lia)|]. split; [done|].
  destruct (scheduler_yield_frame sb _ Hdb Hy) as (En & Ecur & Er & Eio & _).
  destruct (scheduler_yield_ineligible sb _ (current_task s) (block_tcb n t)
              Hdb Hy) as [Hkeep _]; [lia | done | done |].
  split; [done|]. split; [done|]. split; [done|]. split; [done|].
  split; [by rewrite (scheduler_yield_voluntary sb _ Hy)|].
  assert (Hel : forall j, 0 <= j -> j <> current_task s ->
                          eligible_at sb j = eligible_at s j).
  { intros j Hj Hne. apply update_slot_eligible_other; lia. }
  split; [|split].
  - rewrite Ecur, <- Hcb.
    destruct (yield_fun_cases sb Hdb) as [(E & _ & Hnone)|(Hne & Hr & He & _)].
    + split; [done|]. intros (j & Hj & Hjc & Hej).
      rewrite <- Hel, Hnone in Hej by (lia || done). done.
    + split; [|done]. intros _. exists (next_task_of sb).
      split; [lia|]. split; [done|]. rewrite <- Hel; [done | lia | done].
  - intros Hsame j Hj.
    destruct (yield_fun_cases sb Hdb) as [(_ & -> & _)|(Hne & _)].
    + cbn [tasks yielded with_debug_stats]. unfold sb.
      rewrite update_slot_lookup. destruct (tasks s !! j); [|done]. cbn.
      by rewrite decide_False.
    + rewrite Ecur in Hsame. done.
  - intros Ho.
    assert (Hob : only_current_running sb).
    { apply update_slot_only_current_running; [|done]. done. }
    destruct (scheduler_yield_running sb Hdb Hob) as (s2 & E2 & _ & H1 & H0).
    rewrite Hy in E2. injection E2 as <-. split.
    + intros Hne. by destruct (H1 (or_introl Hne)).
    + intros Hsame. apply H0; [done|].
      unfold state_at. rewrite Hcb, Htb. done.
Qed.

Lemma task_delay_dispatch_witness :
  wf two_tasks /\ 1 <= task_count two_tasks /\ 20 <> 0 /\
  exists s',
    task_delay 20 two_tasks = Done s' /\
    state_at s' 0 = Some TASK_BLOCKED /\
    delay_at s' 0 = Some 20 /\
    io s' = io two_tasks.
Proof.
  assert (H1 : 1 <= task_count two_tasks) by (vm_compute; discriminate).
  assert (H2 : 20 <> 0) by discriminate.
  split; [apply two_tasks_wf|]. split; [exact H1|]. split; [exact H2|].
  destruct (task_delay_dispatch two_tasks 20 two_tasks_wf H1 H2)
    as (s' & t & E & _ & Hb & Hio & _).
  exists s'. split; [exact E|].
  change (Z.to_nat (current_task two_tasks)) with 0%nat in Hb.
  unfold state_at, delay_at. change (Z.to_nat 0) with 0%nat. rewrite Hb.
  split; [reflexivity|]. split; [reflexivity | exact Hio].
Defined.

(** ** Yielding before the start, and a task on its own *)

(** X17: a yield before the start leaves two tasks Running.
    [scheduler_yield] does not look at the running flag.  If, before
    [scheduler_start], some registered task other than task 0 is Ready, a
    yield makes such a task current and Running; the start that follows
    makes task 0 current and Running as well and leaves the other one
    Running: at least two blocks are Running, one of them not the current
    task. *)
Theorem yield_before_start_two_running (exit_addr : Z) (s : sched) (j : Z) :
  configured exit_addr s -> 0 < j < task_count s ->
  state_at s j = Some TASK_READY ->
  exists s1 s2 k,
    scheduler_yield s = Done s1 /\
    scheduler_start s1 = Done s2 /\
    0 < k < task_count s /\
    current_task s1 = k /\
    current_task s2 = 0 /\
    state_at s2 0 = Some TASK_RUNNING /\
    state_at s2 k = Some TASK_RUNNING /\
    (2 <= count_running s2)%nat /\
    ~ only_current_running s2.
Proof.
  intros Hcfg Hj Hr.
  destruct (configured_invariant _ _ Hcfg) as (Hwf & Hst & _ & _).
  destruct (configured_quiet _ _ Hcfg) as (Hc0 & _).
  assert (Hn : 1 <= task_count s) by lia.
  pose proof (wf_dispatchable s Hwf Hn) as Hd.
  pose proof Hd as (_ & Hlen & _).
  pose proof (scheduler_yield_eq s Hd) as Hy. fold (yield_fun s) in Hy.
  assert (Hej : eligible_at s j = true).
  { unfold state_at in Hr. unfold eligible_at, tcb.
    destruct (Z.leb_spec 0 j); [|lia].
    destruct (tasks s !! Z.to_nat j) as [t|]; [|done].
    injection Hr as Hr. by rewrite Hr. }
  destruct (yield_fun_cases s Hd) as [(_ & _ & Hnone)|(Hne & Hk & Hek & Hsw)].
  { rewrite Hnone in Hej by lia. done. }
  set (k := next_task_of s) in *.
  set (s1 := yield_fun s) in *.
  assert (Hwf1 : wf s1) by (by eapply scheduler_yield_wf).
  destruct (scheduler_yield_frame s s1 Hd Hy) as (En & Ecur & _).
  assert (Hn1 : task_count s1 <> 0) by lia.
  pose proof (scheduler_start_eq s1 Hwf1 Hn1) as Hs.
  set (s2 := with_io _ _) in Hs.
  destruct (lookup_lt_is_Some_2 (tasks s) (Z.to_nat k)) as [tk Htk]; [lia|].
  destruct (lookup_lt_is_Some_2 (tasks s) 0%nat) as [t0 Ht0]; [lia|].
  assert (Hk1 : exists tk', tasks s1 !! Z.to_nat k = Some tk' /\
                            state tk' = TASK_RUNNING).
  { eexists. rewrite Hsw, switched_lookup, Htk. cbn.
    split; [done|]. unfold switch_tcb. by rewrite decide_True. }
  destruct Hk1 as (tk' & Htk' & Hrk).
  assert (Hz : Z.to_nat k <> 0%nat) by lia.
  assert (H01 : exists t0', tasks s1 !! 0%nat = Some t0')
    by (apply lookup_lt_is_Some_2; destruct Hwf1 as (-> & _);
        unfold MAX_TASKS; lia).
  destruct H01 as (t0' & Ht0').
  assert (L0 : tasks s2 !! 0%nat = Some (set_state TASK_RUNNING t0')).
  { unfold s2. cbn [tasks with_io with_scheduler_running].
    rewrite update_slot_lookup. cbn [tasks with_current_task].
    rewrite Ht0'. cbn. by rewrite decide_True. }
  assert (Lk : tasks s2 !! Z.to_nat k = Some tk').
  { unfold s2. cbn [tasks with_io with_scheduler_running].
    rewrite update_slot_lookup. cbn [tasks with_current_task].
    rewrite Htk'. cbn. by rewrite decide_False. }
  exists s1, s2, k. split; [done|]. split; [done|].
  split; [rewrite Hc0 in Hne; lia|]. split; [done|]. split; [done|].
  split. { unfold state_at. change (Z.to_nat 0) with 0%nat. by rewrite L0. }
  split. { unfold state_at. rewrite Lk. cbn. by rewrite Hrk. }
  split.
  - unfold count_running.
    apply (filter_length_two _ _ 0%nat (Z.to_nat k)
             (set_state TASK_RUNNING t0') tk'); try done.
    + lia.
    + by rewrite Hrk.
  - intros Ho. apply Hz. by apply (Ho _ _ Lk Hrk).
Qed.

Lemma yield_before_start_two_running_witness :
  configured 256 (after [EInit; EAdd 512; EAdd 768]) /\
  0 < 1 < task_count (after [EInit; EAdd 512; EAdd 768]) /\
  state_at (after [EInit; EAdd 512; EAdd 768]) 1 = Some TASK_READY /\
  exists s1 s2,
    scheduler_yield (after [EInit; EAdd 512; EAdd 768]) = Done s1 /\
    scheduler_start s1 = Done s2 /\
    (2 <= count_running s2)%nat.
Proof.
  assert (H1 : configured 256 (after [EInit; EAdd 512; EAdd 768])).
  { apply (run_configured 256 [EAdd 512; EAdd 768] (scheduler_init power_on)).
    - constructor.
    - repeat constructor.
    - vm_compute. reflexivity. }
  assert (H2 : 0 < 1 < task_count (after [EInit; EAdd 512; EAdd 768]))
    by (vm_compute; split; reflexivity).
  assert (H3 : state_at (after [EInit; EAdd 512; EAdd 768]) 1 = Some TASK_READY)
    by (vm_compute; reflexivity).
  split; [exact H1|]. split; [exact H2|]. split; [exact H3|].
  destruct (yield_before_start_two_running 256 _ 1 H1 H2 H3)
    as (s1 & s2 & k & E1 & E2 & _ & _ & _ & _ & _ & Hc & _).
  exists s1, s2. split; [exact E1|]. split; [exact E2 | exact Hc].
Defined.

Lemma lone_kernel_step exit_addr e s t :
  kernel_event e -> wf s -> task_count s = 1 ->
  tasks s !! 0%nat = Some t -> state t <> TASK_RUNNING ->
  exists s' t',
    step exit_addr e s = Done s' /\ wf s' /\ task_count s' = 1 /\
    tasks s' !! 0%nat = Some t' /\ state t' <> TASK_RUNNING /\
    runtime_ticks t' = runtime_ticks t /\
    times_scheduled t' = times_scheduled t /\
    context_switches (debug_stats s') = context_switches (debug_stats s) /\
    (forall j : nat, j <> 0%nat -> tasks s' !! j = tasks s !! j).
Proof.
  intros He Hwf H1 Ht Hnr.
  assert (Hc : current_task s = 0) by (destruct Hwf as (_ & _ & ? & ?); lia).
  assert (Hd : dispatchable s) by (apply wf_dispatchable; [done | lia]).
  destruct e; try done; cbn [step].
  - rewrite scheduler_yield_eq by done.
    assert (E : next_task_of s = current_task s)
      by (destruct (next_task_of_cases s Hd) as [E|(Hx & _)]; [done | lia]).
    rewrite E, Z.eqb_refl. exists (yielded s), t.
    split; [done|]. split; [exact Hwf|]. repeat (split; [done|]). done.
  - rewrite TIMER0_COMPA_vect_eq by done.
    exists (ticked s). pose proof (ticked_wf s Hwf) as Hwft.
    unfold ticked in *.
    destruct ((scheduler_running s =? 0) || (task_count s =? 0)).
    { exists t. split; [done|]. split; [exact Hwf|].
      repeat (split; [done|]). done. }
    exists (tick_tcb s 0 t). split; [done|]. split; [exact Hwft|].
    split; [done|]. cbn [tasks debug_stats context_switches bump_total_ticks].
    split; [by rewrite list_lookup_imap, Ht|].
    split; [intros Hr; by apply tick_tcb_running in Hr|].
    assert (Ht1 : tick_tcb s 0 t = delay_step_tcb t).
    { assert (Er : is_running (state t) = false)
        by (destruct (state t) eqn:Es; try done; exfalso; by apply Hnr).
      unfold tick_tcb. cbv zeta. rewrite Hc. change (Z.to_nat 0) with 0%nat.
      rewrite Er. destruct (decide (0%nat = 0%nat)); [|done].
      destruct (decide (Z.of_nat 0 < task_count s)); [done | lia]. }
    rewrite Ht1. destruct (delay_step_tcb_static t) as (_ & _ & -> & ->).
    do 3 (split; [done|]).
    intros j Hj. rewrite list_lookup_imap.
    destruct (tasks s !! j) as [tj|]; [|done]. cbn. f_equal.
    unfold tick_tcb. cbv zeta. rewrite Hc. change (Z.to_nat 0) with 0%nat.
    destruct (decide (j = 0%nat)); [done|].
    destruct (decide (Z.of_nat j < task_count s)); [lia | done].
Qed.

Lemma lone_kernel_run exit_addr (evs : list event) :
  forall s t,
    Forall kernel_event evs -> wf s -> task_count s = 1 ->
    tasks s !! 0%nat = Some t -> state t <> TASK_RUNNING ->
    exists s' t',
      run exit_addr evs s = Done s' /\ wf s' /\ task_count s' = 1 /\
      tasks s' !! 0%nat = Some t' /\ state t' <> TASK_RUNNING /\
      runtime_ticks t' = runtime_ticks t /\
      times_scheduled t' = times_scheduled t /\
      context_switches (debug_stats s') = context_switches (debug_stats s) /\
      (forall j : nat, j <> 0%nat -> tasks s' !! j = tasks s !! j).
Proof.
  induction evs as [|e evs IH]; intros s t Hall Hwf H1 Ht Hnr.
  - exists s, t. split; [done|]. split; [exact Hwf|].
    repeat (split; [done|]). done.
  - apply Forall_cons in Hall as [He Hall]. cbn [run].
    destruct (lone_kernel_step exit_addr e s t He Hwf H1 Ht Hnr)
      as (s1 & t1 & E & Hwf1 & Hn1 & Ht1 & Hnr1 & Hr1 & Hs1 & Hc1 & Ho1).
    destruct (IH s1 t1 Hall Hwf1 Hn1 Ht1 Hnr1)
      as (s2 & t2 & E2 & Hwf2 & Hn2 & Ht2 & Hnr2 & Hr2 & Hs2 & Hc2 & Ho2).
    exists s2, t2. rewrite E, bind_ret. split; [done|].
    do 4 (split; [done|]). split; [congruence|]. split; [congruence|].
    split; [congruence|]. intros j Hj. rewrite Ho2, Ho1 by done. done.
Qed.

(** X18: a task on its own is never Running again after a delay.  With one
    task registered, [task_delay n] with [n <> 0] leaves the task Blocked
    and current.  Under any sequence of ticks and yields that follows, that
    task is never marked Running again, also after the delay has run out:
    the dispatcher only marks a task Running when it switches to another
    one.  Its [runtime_ticks] and [times_scheduled] and the global
    [context_switches] therefore stay as they were at the call, and, if
    only the current task could be Running before, no block is Running. *)
Theorem lone_task_after_delay (exit_addr : Z) (s : sched) (n : Z) :
  wf s -> task_count s = 1 -> n <> 0 ->
  exists s1 t,
    tasks s !! 0%nat = Some t /\
    task_delay n s = Done s1 /\
    current_task s1 = 0 /\
    forall evs : list event,
      Forall kernel_event evs ->
      exists s2 t2,
        run exit_addr evs s1 = Done s2 /\
        tasks s2 !! 0%nat = Some t2 /\
        state t2 <> TASK_RUNNING /\
        runtime_ticks t2 = runtime_ticks t /\
        times_scheduled t2 = times_scheduled t /\
        context_switches (debug_stats s2) = context_switches (debug_stats s) /\
        task_count s2 = 1 /\
        (only_current_running s -> count_running s2 = 0%nat).
Proof.
  intros Hwf H1 Hz.
  assert (Hc : current_task s = 0) by (destruct Hwf as (_ & _ & ? & ?); lia).
  assert (Hn : 1 <= task_count s) by lia.
  pose proof (wf_dispatchable s Hwf Hn) as Hd.
  pose proof Hd as (_ & Hlen & _).
  destruct (lookup_lt_is_Some_2 (tasks s) 0%nat) as [t Ht]; [lia|].
  set (sb := update_slot (current_task s) (block_tcb n) s).
  assert (Hdb : dispatchable sb) by (by apply update_slot_dispatchable).
  assert (Hwfb : wf sb) by (by apply update_slot_wf).
  assert (Htb : tasks sb !! 0%nat = Some (block_tcb n t)).
  { unfold sb. rewrite update_slot_lookup, Ht, Hc. cbn.
    by rewrite decide_True. }
  assert (Hnext : next_task_of sb = current_task sb).
  { destruct (next_task_of_cases sb Hdb) as [|(Hx & _)]; [done|].
    change (task_count sb) with (task_count s) in Hx.
    change (current_task sb) with (current_task s). lia. }
  assert (E1 : task_delay n s = Done (yielded sb)).
  { rewrite task_delay_slot by (done || lia).
    rewrite scheduler_yield_eq by done. fold sb.
    by rewrite Hnext, Z.eqb_refl. }
  exists (yielded sb), t. split; [done|]. split; [done|]. split; [done|].
  intros evs Hall.
  destruct (lone_kernel_run exit_addr evs (yielded sb) (block_tcb n t) Hall)
    as (s2 & t2 & E & Hwf2 & Hn2 & Ht2 & Hnr2 & Hr2 & Hs2 & Hc2 & Ho2);
    try done.
  exists s2, t2. do 6 (split; [done|]). split; [done|].
  intros Ho. unfold count_running.
  apply length_zero_iff_nil, filter_nil_lookup. intros i ti Hi Hr.
  apply is_running_true in Hr.
  destruct i as [|i]; [rewrite Ht2 in Hi; injection Hi as <-; done|].
  rewrite Ho2 in Hi by done.
  cbn [tasks yielded with_debug_stats] in Hi. unfold sb in Hi.
  rewrite update_slot_lookup in Hi.
  destruct (tasks s !! S i) as [ts|] eqn:Es; [|done]. cbn in Hi.
  rewrite decide_False in Hi by lia. injection Hi as <-.
  pose proof (Ho _ _ Es Hr). lia.
Qed.

Lemma lone_task_after_delay_witness :
  wf (after [EInit; EAdd 512; EStart]) /\
  task_count (after [EInit; EAdd 512; EStart]) = 1 /\ 2 <> 0 /\
  exists s1 s2 t2,
    task_delay 2 (after [EInit; EAdd 512; EStart]) = Done s1 /\
    run 256 [ETick; ETick; EYield; ETick; EYield] s1 = Done s2 /\
    tasks s2 !! 0%nat = Some t2 /\
    state t2 <> TASK_RUNNING /\ runtime_ticks t2 = 0.
Proof.
  assert (H1 : wf (after [EInit; EAdd 512; EStart])).
  { vm_compute. repeat split; try discriminate. by right. }
  assert (H2 : task_count (after [EInit; EAdd 512; EStart]) = 1)
    by (vm_compute; reflexivity).
  assert (H3 : 2 <> 0) by discriminate.
  split; [exact H1|]. split; [exact H2|]. split; [exact H3|].
  destruct (lone_task_after_delay 256 _ 2 H1 H2 H3)
    as (s1 & t & Ht & E1 & _ & Hrun).
  destruct (Hrun [ETick; ETick; EYield; ETick; EYield])
    as (s2 & t2 & E2 & Ht2 & Hnr & Hr & _).
  { repeat constructor. }
  exists s1, s2, t2. split; [exact E1|]. split; [exact E2|].
  split; [exact Ht2|]. split; [exact Hnr|]. rewrite Hr.
  assert (Et : Some t = tasks (after [EInit; EAdd 512; EStart]) !! 0%nat)
    by (symmetry; exact Ht).
  vm_compute in Et. injection Et as ->. reflexivity.
Defined.

(** ** The stepper driver *)

Lemma nibble_update_check :
  forallb (fun p =>
    forallb (fun x =>
      uint8 (Z.lor (uint8 (Z.land p (Z.lnot (coils 1 1 1 1)))) x)
        =? 16 * (p / 16) + x) (seqZ 0 16)) (seqZ 0 256) = true.
Proof. vm_compute. reflexivity. Qed.

Lemma nibble_update p x :
  0 <= p < 256 -> 0 <= x < 16 ->
  uint8 (Z.lor (uint8 (Z.land p (Z.lnot (coils 1 1 1 1)))) x)
    = 16 * (p / 16) + x.
Proof.
  intros Hp Hx. pose proof nibble_update_check as H.
  rewrite forallb_forall in H.
  assert (Hp' : In p (seqZ 0 256)) by (apply list_elem_of_In, elem_of_seqZ; lia).
  specialize (H p Hp'). rewrite forallb_forall in H.
  assert (Hx' : In x (seqZ 0 16)) by (apply list_elem_of_In, elem_of_seqZ; lia).
  by apply Z.eqb_eq, H.
Qed.

Lemma stepper_set_coils_port pattern st :
  0 <= PORTB st < 256 -> 0 <= pattern < 16 ->
  PORTB (stepper_set_coils pattern st) = 16 * (PORTB st / 16) + pattern.
Proof. intros. unfold stepper_set_coils. cbn [PORTB]. by apply nibble_update. Qed.

Lemma step_sequence_lookup mode (i : Z) :
  0 <= i < steps_per_cycle mode ->
  exists x, load (step_sequence mode) i = Done x /\ 0 <= x < 16 /\
            (Z.testbit x 0 && Z.testbit x 1 = false) /\
            (Z.testbit x 2 && Z.testbit x 3 = false) /\ x <> 0.
Proof.
  intros Hi. destruct mode; cbn [steps_per_cycle] in Hi.
  - assert (i = 0 \/ i = 1 \/ i = 2 \/ i = 3) as [-> | [-> | [-> | ->]]] by lia;
      eexists; (split; [reflexivity|]); vm_compute; repeat split; discriminate.
  - assert (i = 0 \/ i = 1 \/ i = 2 \/ i = 3 \/ i = 4 \/ i = 5 \/ i = 6 \/ i = 7)
      as [-> | [-> | [-> | [-> | [-> | [-> | [-> | ->]]]]]]] by lia;
      eexists; (split; [reflexivity|]); vm_compute; repeat split; discriminate.
Qed.

Lemma step_sequence_range mode i x :
  load (step_sequence mode) i = Done x -> 0 <= i < steps_per_cycle mode.
Proof.
  unfold load. destruct (Z.leb_spec 0 i); [|done].
  destruct (step_sequence mode !! Z.to_nat i) eqn:E; [|done].
  intros _. apply lookup_lt_Some in E.
  destruct mode; cbn in E; cbn [steps_per_cycle]; lia.
Qed.

Lemma step_sequence_overrun mode i :
  ~ (0 <= i < steps_per_cycle mode) ->
  load (step_sequence mode) i = Stop OutOfBounds.
Proof.
  intros H. destruct (load (step_sequence mode) i) as [x|f] eqn:E.
  - by apply step_sequence_range in E.
  - unfold load in E. destruct (0 <=? i); [|by injection E as <-].
    destruct (step_sequence mode !! Z.to_nat i); [done | by injection E as <-].
Qed.

(** The two step functions, by the position they move to. *)
Lemma stepper_step_forward_eq st :
  stepper_step_forward st =
    let q := uint8 ((step_position st + 1) mod steps_per_cycle (current_mode st)) in
    let! pattern := load (step_sequence (current_mode st)) q in
    Done (stepper_set_coils pattern (with_step_position q st)).
Proof. unfold stepper_step_forward. by destruct (current_mode st). Qed.

Lemma stepper_step_backward_eq st :
  stepper_step_backward st =
    let q := if step_position st =? 0
             then steps_per_cycle (current_mode st) - 1
             else uint8 (step_position st - 1) in
    let! pattern := load (step_sequence (current_mode st)) q in
    Done (stepper_set_coils pattern (with_step_position q st)).
Proof. unfold stepper_step_backward. by destruct (current_mode st). Qed.

Lemma steps_per_cycle_cases mode :
  steps_per_cycle mode = 4 \/ steps_per_cycle mode = 8.
Proof. destruct mode; auto. Qed.

(** A step to position [q] from a state whose port is a byte. *)
Lemma stepper_goto st q :
  0 <= PORTB st < 256 -> 0 <= q < steps_per_cycle (current_mode st) ->
  exists x,
    load (step_sequence (current_mode st)) q = Done x /\
    0 <= x < 16 /\
    (Z.testbit x 0 && Z.testbit x 1 = false) /\
    (Z.testbit x 2 && Z.testbit x 3 = false) /\ x <> 0 /\
    stepper_set_coils x (with_step_position q st) =
      mk_stepper q (current_mode st) (16 * (PORTB st / 16) + x) /\
    stepper_ok (mk_stepper q (current_mode st) (16 * (PORTB st / 16) + x)).
Proof.
  intros Hp Hq.
  destruct (step_sequence_lookup _ q Hq) as (x & Hx & Hr & Ha & Hb & Hz).
  exists x. do 5 (split; [done|]).
  assert (Hdiv : 0 <= PORTB st / 16 < 16)
    by (split; [apply Z.div_pos; lia | apply Z.div_lt_upper_bound; lia]).
  split.
  - unfold stepper_set_coils, with_step_position.
    cbn [PORTB step_position current_mode]. f_equal. by apply nibble_update.
  - split; cbn [PORTB step_position current_mode]; [lia|].
    rewrite Hx. f_equal.
    rewrite Z.add_comm, Z.mul_comm, Z_mod_plus_full. symmetry.
    apply Z.mod_small. lia.
Qed.

Lemma stepper_ok_range st :
  stepper_ok st ->
  0 <= PORTB st < 256 /\
  0 <= step_position st < steps_per_cycle (current_mode st).
Proof. intros (Hp & Hl). split; [done|]. by eapply step_sequence_range. Qed.

Lemma stepper_ok_eq st q x :
  stepper_ok st -> q = step_position st ->
  load (step_sequence (current_mode st)) q = Done x ->
  mk_stepper q (current_mode st) (16 * (PORTB st / 16) + x) = st.
Proof.
  intros (Hp & Hl) -> Hx. rewrite Hl in Hx. injection Hx as <-.
  destruct st as [p m b]. cbn in *. f_equal.
  pose proof (Z.div_mod b 16). lia.
Qed.

Lemma stepper_step_forward_ok st :
  0 <= PORTB st < 256 -> 0 <= step_position st < 256 ->
  exists x,
    stepper_step_forward st =
      Done (mk_stepper ((step_position st + 1) mod steps_per_cycle (current_mode st))
                       (current_mode st) (16 * (PORTB st / 16) + x)) /\
    load (step_sequence (current_mode st))
         ((step_position st + 1) mod steps_per_cycle (current_mode st)) = Done x /\
    0 <= x < 16 /\
    (Z.testbit x 0 && Z.testbit x 1 = false) /\
    (Z.testbit x 2 && Z.testbit x 3 = false) /\ x <> 0 /\
    stepper_ok (mk_stepper ((step_position st + 1) mod steps_per_cycle (current_mode st))
                           (current_mode st) (16 * (PORTB st / 16) + x)).
Proof.
  intros Hp Hpos. rewrite stepper_step_forward_eq. cbv zeta.
  set (n := steps_per_cycle (current_mode st)).
  assert (Hn : n = 4 \/ n = 8) by apply steps_per_cycle_cases.
  assert (Hq : 0 <= (step_position st + 1) mod n < n)
    by (apply Z.mod_pos_bound; lia).
  rewrite uint8_small by lia.
  destruct (stepper_goto st _ Hp Hq) as (x & Hx & Hr & Ha & Hb & Hz & He & Hok).
  exists x. rewrite Hx, bind_ret, He. done.
Qed.

Lemma stepper_step_backward_ok st :
  0 <= PORTB st < 256 ->
  0 <= step_position st <= steps_per_cycle (current_mode st) ->
  exists x,
    stepper_step_backward st =
      Done (mk_stepper ((step_position st - 1) mod steps_per_cycle (current_mode st))
                       (current_mode st) (16 * (PORTB st / 16) + x)) /\
    load (step_sequence (current_mode st))
         ((step_position st - 1) mod steps_per_cycle (current_mode st)) = Done x /\
    0 <= x < 16 /\
    (Z.testbit x 0 && Z.testbit x 1 = false) /\
    (Z.testbit x 2 && Z.testbit x 3 = false) /\ x <> 0 /\
    stepper_ok (mk_stepper ((step_position st - 1) mod steps_per_cycle (current_mode st))
                           (current_mode st) (16 * (PORTB st / 16) + x)).
Proof.
  intros Hp Hpos. rewrite stepper_step_backward_eq. cbv zeta.
  set (n := steps_per_cycle (current_mode st)) in *.
  assert (Hn : n = 4 \/ n = 8) by apply steps_per_cycle_cases.
  assert (Eq : (if step_position st =? 0 then n - 1
                else uint8 (step_position st - 1)) = (step_position st - 1) mod n).
  { destruct (Z.eqb_spec (step_position st) 0) as [->|Hne].
    - change (0 - 1) with (-1). destruct Hn as [-> | ->]; reflexivity.
    - rewrite uint8_small by lia. symmetry. apply Z.mod_small. lia. }
  rewrite Eq.
  assert (Hq : 0 <= (step_position st - 1) mod n < n)
    by (apply Z.mod_pos_bound; lia).
  destruct (stepper_goto st _ Hp Hq) as (x & Hx & Hr & Ha & Hb & Hz & He & Hok).
  exists x. rewrite Hx, bind_ret, He. done.
Qed.

Lemma stepper_port_div h x : 0 <= x < 16 -> (16 * h + x) / 16 = h.
Proof.
  intros Hx. rewrite Z.add_comm, Z.mul_comm, Z.div_add by lia.
  rewrite Z.div_small by lia. lia.
Qed.

Lemma stepper_port_bit h x (i : Z) :
  0 <= x < 16 -> 0 <= i < 4 ->
  Z.testbit (16 * h + x) i = Z.testbit x i.
Proof.
  intros Hx Hi.
  rewrite <- (Z.mod_pow2_bits_low (16 * h + x) 4 i) by lia.
  change (2 ^ 4) with 16.
  rewrite Z.add_comm, Z.mul_comm, Z_mod_plus_full, Z.mod_small by lia. done.
Qed.

Lemma stepper_ok_unique a b :
  stepper_ok a -> stepper_ok b ->
  step_position a = step_position b -> current_mode a = current_mode b ->
  PORTB a / 16 = PORTB b / 16 -> a = b.
Proof.
  intros (Ha & La) (Hb & Lb) Hp Hm Hd.
  rewrite Hp, Hm, Lb in La. injection La as Hx.
  destruct a as [pa ma ba], b as [pb mb bb]. cbn in *. subst. f_equal.
  pose proof (Z.div_mod ba 16). pose proof (Z.div_mod bb 16). lia.
Qed.

Lemma stepper_there_and_back st :
  stepper_ok st ->
  exists st1 st2,
    stepper_step_forward st = Done st1 /\ stepper_ok st1 /\
    stepper_step_backward st1 = Done st /\
    stepper_step_backward st = Done st2 /\ stepper_ok st2 /\
    stepper_step_forward st2 = Done st /\
    current_mode st1 = current_mode st /\
    current_mode st2 = current_mode st /\
    PORTB st1 / 16 = PORTB st / 16 /\
    PORTB st2 / 16 = PORTB st / 16 /\
    step_position st1 =
      (step_position st + 1) mod steps_per_cycle (current_mode st) /\
    step_position st2 =
      (step_position st - 1) mod steps_per_cycle (current_mode st).
Proof.
  intros Hok. destruct (stepper_ok_range st Hok) as (Hp & Hpos).
  set (n := steps_per_cycle (current_mode st)) in *.
  assert (Hn : n = 4 \/ n = 8) by apply steps_per_cycle_cases.
  assert (Hdiv : 0 <= PORTB st / 16 < 16)
    by (split; [apply Z.div_pos; lia | apply Z.div_lt_upper_bound; lia]).
  destruct (stepper_step_forward_ok st Hp ltac:(lia))
    as (x1 & E1 & L1 & R1 & _ & _ & _ & Ok1).
  destruct (stepper_step_backward_ok st Hp ltac:(lia))
    as (x2 & E2 & L2 & R2 & _ & _ & _ & Ok2).
  fold n in E1, L1, Ok1, E2, L2, Ok2.
  set (st1 := mk_stepper ((step_position st + 1) mod n) (current_mode st)
                         (16 * (PORTB st / 16) + x1)) in *.
  set (st2 := mk_stepper ((step_position st - 1) mod n) (current_mode st)
                         (16 * (PORTB st / 16) + x2)) in *.
  assert (Hq1 : 0 <= (step_position st + 1) mod n < n)
    by (apply Z.mod_pos_bound; lia).
  assert (Hq2 : 0 <= (step_position st - 1) mod n < n)
    by (apply Z.mod_pos_bound; lia).
  exists st1, st2. split; [done|]. split; [done|]. split.
  { destruct (stepper_step_backward_ok st1) as (y & E & L & R & _ & _ & _ & Ok);
      [cbn; lia | cbn; fold n; lia |].
    rewrite E. f_equal. apply stepper_ok_unique; try done.
    - cbn [step_position st1 current_mode]. fold n.
      rewrite Zminus_mod_idemp_l.
      replace (step_position st + 1 - 1) with (step_position st) by lia.
      apply Z.mod_small. lia.
    - cbn [PORTB st1]. by rewrite !stepper_port_div. }
  split; [done|]. split; [done|]. split.
  { destruct (stepper_step_forward_ok st2) as (y & E & L & R & _ & _ & _ & Ok);
      [cbn; lia | cbn; fold n; lia |].
    rewrite E. f_equal. apply stepper_ok_unique; try done.
    - cbn [step_position st2 current_mode]. fold n.
      rewrite Zplus_mod_idemp_l.
      replace (step_position st - 1 + 1) with (step_position st) by lia.
      apply Z.mod_small. lia.
    - cbn [PORTB st2]. by rewrite !stepper_port_div. }
  do 2 (split; [done|]).
  split; [cbn [PORTB st1]; by rewrite stepper_port_div|].
  split; [cbn [PORTB st2]; by rewrite stepper_port_div|]. done.
Qed.

(** A delay inside a driver loop. *)
Lemma task_delay_runs s n :
  wf s -> 1 <= task_count s ->
  exists s',
    task_delay n s = Done s' /\ wf s' /\ task_count s' = task_count s /\
    voluntary_yields (debug_stats s') =
      (if n =? 0 then voluntary_yields (debug_stats s)
       else uint32 (voluntary_yields (debug_stats s) + 1)).
Proof.
  intros Hwf Hn. destruct (Z.eqb_spec n 0) as [->|Hz].
  - exists s. by rewrite task_delay_zero_eq.
  - pose proof (wf_dispatchable s Hwf Hn) as Hd.
    pose proof Hd as (_ & Hlen & Hc).
    set (sb := update_slot (current_task s) (block_tcb n) s).
    assert (Hdb : dispatchable sb) by (by apply update_slot_dispatchable).
    assert (Hwfb : wf sb) by (by apply update_slot_wf).
    pose proof (scheduler_yield_eq sb Hdb) as Hy.
    eexists. rewrite task_delay_slot by (done || lia). split; [exact Hy|].
    destruct (scheduler_yield_frame sb _ Hdb Hy) as (En & _).
    split; [by eapply (scheduler_yield_wf sb)|]. split; [done|].
    by rewrite (scheduler_yield_voluntary sb _ Hy).
Qed.

Lemma uint32_idem a b : uint32 (uint32 a + b) = uint32 (a + b).
Proof. unfold uint32. by rewrite Zplus_mod_idemp_l. Qed.

Lemma stepper_steps_forward (k : nat) :
  forall st s speed,
    stepper_ok st -> wf s -> 1 <= task_count s ->
    exists st' s',
      stepper_steps k stepper_step_forward speed (st, s) = Done (st', s') /\
      stepper_ok st' /\ current_mode st' = current_mode st /\
      PORTB st' / 16 = PORTB st / 16 /\
      step_position st' =
        (step_position st + Z.of_nat k) mod steps_per_cycle (current_mode st) /\
      wf s' /\ task_count s' = task_count s /\
      uint32 (voluntary_yields (debug_stats s')) =
        uint32 (voluntary_yields (debug_stats s) +
                (if speed =? 0 then 0 else Z.of_nat k)).
Proof.
  induction k as [|k IH]; intros st s speed Hok Hwf Hn.
  - exists st, s. split; [done|]. split; [done|]. split; [done|].
    split; [done|]. split.
    { destruct (stepper_ok_range st Hok) as (_ & Hpos).
      rewrite Z.add_0_r. symmetry. by apply Z.mod_small. }
    split; [done|]. split; [done|]. destruct (speed =? 0); by rewrite Z.add_0_r.
  - cbn [stepper_steps fst snd].
    destruct (stepper_there_and_back st Hok)
      as (st1 & _ & E1 & Ok1 & _ & _ & _ & _ & Hm1 & _ & Hd1 & _ & Hp1 & _).
    destruct (task_delay_runs s speed Hwf Hn) as (s1 & D1 & Hwf1 & Hn1 & Hv1).
    rewrite E1, bind_ret, D1, bind_ret.
    destruct (IH st1 s1 speed Ok1 Hwf1 ltac:(lia))
      as (st' & s' & E & Ok & Hm & Hd & Hp & Hwf' & Hn' & Hv).
    exists st', s'. split; [done|]. split; [done|]. split; [congruence|].
    split; [congruence|]. split.
    { rewrite Hp, Hm1, Hp1, Zplus_mod_idemp_l. f_equal. lia. }
    split; [done|]. split; [congruence|].
    rewrite Hv, Hv1. destruct (Z.eqb_spec speed 0); [by rewrite !Z.add_0_r|].
    rewrite uint32_idem. f_equal. lia.
Qed.

Lemma stepper_steps_backward (k : nat) :
  forall st s speed,
    stepper_ok st -> wf s -> 1 <= task_count s ->
    exists st' s',
      stepper_steps k stepper_step_backward speed (st, s) = Done (st', s') /\
      stepper_ok st' /\ current_mode st' = current_mode st /\
      PORTB st' / 16 = PORTB st / 16 /\
      step_position st' =
        (step_position st - Z.of_nat k) mod steps_per_cycle (current_mode st) /\
      wf s' /\ task_count s' = task_count s /\
      uint32 (voluntary_yields (debug_stats s')) =
        uint32 (voluntary_yields (debug_stats s) +
                (if speed =? 0 then 0 else Z.of_nat k)).
Proof.
  induction k as [|k IH]; intros st s speed Hok Hwf Hn.
  - exists st, s. split; [done|]. split; [done|]. split; [done|].
    split; [done|]. split.
    { destruct (stepper_ok_range st Hok) as (_ & Hpos).
      rewrite Z.sub_0_r. symmetry. by apply Z.mod_small. }
    split; [done|]. split; [done|]. destruct (speed =? 0); by rewrite Z.add_0_r.
  - cbn [stepper_steps fst snd].
    destruct (stepper_there_and_back st Hok)
      as (_ & st2 & _ & _ & _ & E2 & Ok2 & _ & _ & Hm2 & _ & Hd2 & _ & Hp2).
    destruct (task_delay_runs s speed Hwf Hn) as (s1 & D1 & Hwf1 & Hn1 & Hv1).
    rewrite E2, bind_ret, D1, bind_ret.
    destruct (IH st2 s1 speed Ok2 Hwf1 ltac:(lia))
      as (st' & s' & E & Ok & Hm & Hd & Hp & Hwf' & Hn' & Hv).
    exists st', s'. split; [done|]. split; [done|]. split; [congruence|].
    split; [congruence|]. split.
    { rewrite Hp, Hm2, Hp2, Zminus_mod_idemp_l. f_equal. lia. }
    split; [done|]. split; [congruence|].
    rewrite Hv, Hv1. destruct (Z.eqb_spec speed 0); [by rewrite !Z.add_0_r|].
    rewrite uint32_idem. f_equal. lia.
Qed.

Lemma stepper_move_ok steps speed st s :
  stepper_ok st -> wf s -> 1 <= task_count s ->
  exists st' s',
    stepper_move steps speed (st, s) = Done (st', s') /\
    stepper_ok st' /\ current_mode st' = current_mode st /\
    PORTB st' / 16 = PORTB st / 16 /\
    step_position st' =
      (step_position st + steps) mod steps_per_cycle (current_mode st) /\
    wf s' /\ task_count s' = task_count s /\
    uint32 (voluntary_yields (debug_stats s')) =
      uint32 (voluntary_yields (debug_stats s) +
              (if speed =? 0 then 0 else Z.abs steps)).
Proof.
  intros Hok Hwf Hn. unfold stepper_move.
  destruct (Z.ltb_spec 0 steps) as [Hpos|Hle].
  - destruct (stepper_steps_forward (Z.to_nat steps) st s speed Hok Hwf Hn)
      as (st' & s' & E & Ok & Hm & Hd & Hp & Hwf' & Hn' & Hv).
    rewrite Z2Nat.id in Hp, Hv by lia.
    exists st', s'. do 6 (split; [done|]). split; [done|].
    by rewrite Z.abs_eq by lia.
  - destruct (Z.ltb_spec steps 0) as [Hneg|Hz].
    + destruct (stepper_steps_backward (Z.to_nat (- steps)) st s speed Hok Hwf Hn)
        as (st' & s' & E & Ok & Hm & Hd & Hp & Hwf' & Hn' & Hv).
      rewrite Z2Nat.id in Hp, Hv by lia.
      exists st', s'. do 4 (split; [done|]). split.
      { rewrite Hp. f_equal. lia. }
      do 2 (split; [done|]). by rewrite Z.abs_neq by lia.
    + assert (steps = 0) as -> by lia. exists st, s.
      do 4 (split; [done|]). split.
      { destruct (stepper_ok_range st Hok) as (_ & Hr).
        rewrite Z.add_0_r. symmetry. by apply Z.mod_small. }
      do 2 (split; [done|]). destruct (speed =? 0); by rewrite Z.add_0_r.
Qed.

(** ** Properties of the stepper driver *)

(** X19: a step forward and a step backward undo each other.  Between two
    steps (the port a byte whose coil bits show the pattern of
    [step_position], which lies inside the table of the mode), each of the
    two step functions returns and leads to such a state again, moves the
    position by one modulo the cycle length (4 in full-step, 8 in half-step
    mode), keeps the mode and the upper four port bits, and is undone
    exactly by the other one: position, mode and the whole port are
    restored. *)
Theorem stepper_step_round_trip (st : stepper) :
  stepper_ok st ->
  exists st1 st2,
    stepper_step_forward st = Done st1 /\ stepper_ok st1 /\
    stepper_step_backward st1 = Done st /\
    stepper_step_backward st = Done st2 /\ stepper_ok st2 /\
    stepper_step_forward st2 = Done st /\
    current_mode st1 = current_mode st /\
    current_mode st2 = current_mode st /\
    PORTB st1 / 16 = PORTB st / 16 /\
    PORTB st2 / 16 = PORTB st / 16 /\
    step_position st1 =
      (step_position st + 1) mod steps_per_cycle (current_mode st) /\
    step_position st2 =
      (step_position st - 1) mod steps_per_cycle (current_mode st).
Proof. apply stepper_there_and_back. Qed.

Lemma stepper_step_round_trip_witness :
  stepper_ok (mk_stepper 3 STEP_MODE_FULL 40) /\
  stepper_step_forward (mk_stepper 3 STEP_MODE_FULL 40)
    = Done (mk_stepper 0 STEP_MODE_FULL 33) /\
  stepper_step_backward (mk_stepper 0 STEP_MODE_FULL 33)
    = Done (mk_stepper 3 STEP_MODE_FULL 40).
Proof.
  assert (H : stepper_ok (mk_stepper 3 STEP_MODE_FULL 40))
    by (split; [cbn; lia | reflexivity]).
  split; [exact H|].
  destruct (stepper_step_round_trip _ H) as (st1 & st2 & E1 & _ & E2 & _).
  assert (Hs : st1 = mk_stepper 0 STEP_MODE_FULL 33).
  { assert (E : Done st1 = Done (mk_stepper 0 STEP_MODE_FULL 33))
      by (rewrite <- E1; reflexivity).
    by injection E. }
  rewrite Hs in E1, E2. split; [exact E1 | exact E2].
Defined.

(** X20: a step never energises both ends of a coil and never touches the
    other pins.  From any state whose port and position are bytes,
    [stepper_step_forward] returns: the position is inside the table of
    the mode, the upper four bits of [PORTB] (the LED pin among them) are
    as before, and of the four coil bits at least one is set but never
    [A+] together with [A-] nor [B+] together with [B-].
    [stepper_step_backward] does the same from every position up to the
    cycle length; from a larger position (possible after a change from
    half-step to full-step mode) it reads its table out of bounds. *)
Theorem stepper_step_safe (st : stepper) :
  0 <= PORTB st < 256 -> 0 <= step_position st < 256 ->
  (exists st',
     stepper_step_forward st = Done st' /\
     0 <= step_position st' < steps_per_cycle (current_mode st) /\
     current_mode st' = current_mode st /\
     0 <= PORTB st' < 256 /\
     PORTB st' / 16 = PORTB st / 16 /\
     PORTB st' mod 16 <> 0 /\
     Z.testbit (PORTB st') STEP_A_PLUS && Z.testbit (PORTB st') STEP_A_MINUS
       = false /\
     Z.testbit (PORTB st') STEP_B_PLUS && Z.testbit (PORTB st') STEP_B_MINUS
       = false) /\
  (step_position st <= steps_per_cycle (current_mode st) ->
   exists st',
     stepper_step_backward st = Done st' /\
     0 <= step_position st' < steps_per_cycle (current_mode st) /\
     current_mode st' = current_mode st /\
     0 <= PORTB st' < 256 /\
     PORTB st' / 16 = PORTB st / 16 /\
     PORTB st' mod 16 <> 0 /\
     Z.testbit (PORTB st') STEP_A_PLUS && Z.testbit (PORTB st') STEP_A_MINUS
       = false /\
     Z.testbit (PORTB st') STEP_B_PLUS && Z.testbit (PORTB st') STEP_B_MINUS
       = false) /\
  (steps_per_cycle (current_mode st) < step_position st ->
   stepper_step_backward st = Stop OutOfBounds).
Proof.
  intros Hp Hpos.
  set (n := steps_per_cycle (current_mode st)).
  assert (Hn : n = 4 \/ n = 8) by apply steps_per_cycle_cases.
  assert (Hdiv : 0 <= PORTB st / 16 < 16)
    by (split; [apply Z.div_pos; lia | apply Z.div_lt_upper_bound; lia]).
  assert (Hport : forall q x,
    0 <= q < n -> 0 <= x < 16 ->
    (Z.testbit x 0 && Z.testbit x 1 = false) ->
    (Z.testbit x 2 && Z.testbit x 3 = false) -> x <> 0 ->
    let st' := mk_stepper q (current_mode st) (16 * (PORTB st / 16) + x) in
    0 <= step_position st' < n /\
    current_mode st' = current_mode st /\
    0 <= PORTB st' < 256 /\
    PORTB st' / 16 = PORTB st / 16 /\
    PORTB st' mod 16 <> 0 /\
    Z.testbit (PORTB st') STEP_A_PLUS && Z.testbit (PORTB st') STEP_A_MINUS
      = false /\
    Z.testbit (PORTB st') STEP_B_PLUS && Z.testbit (PORTB st') STEP_B_MINUS
      = false).
  { intros q x Hq Hx Ha Hb Hz. cbv zeta. cbn [step_position current_mode PORTB].
    split; [done|]. split; [done|]. split; [lia|].
    split; [by apply stepper_port_div|]. split.
    { rewrite Z.add_comm, Z.mul_comm, Z_mod_plus_full, Z.mod_small by lia.
      done. }
    unfold STEP_A_PLUS, STEP_A_MINUS, STEP_B_PLUS, STEP_B_MINUS.
    rewrite !stepper_port_bit by lia. done. }
  split; [|split].
  - destruct (stepper_step_forward_ok st Hp Hpos)
      as (x & E & L & R & Ha & Hb & Hz & _).
    eexists. split; [exact E|]. apply Hport; try done.
    apply Z.mod_pos_bound. lia.
  - intros Hle.
    destruct (stepper_step_backward_ok st Hp ltac:(lia))
      as (x & E & L & R & Ha & Hb & Hz & _).
    eexists. split; [exact E|]. apply Hport; try done.
    apply Z.mod_pos_bound. lia.
  - intros Hgt. rewrite stepper_step_backward_eq. cbv zeta.
    destruct (Z.eqb_spec (step_position st) 0); [lia|].
    rewrite uint8_small by lia.
    rewrite step_sequence_overrun; [done|]. fold n. lia.
Qed.

Lemma stepper_step_safe_witness :
  0 <= 255 < 256 /\ 0 <= 7 < 256 /\
  stepper_step_forward (mk_stepper 7 STEP_MODE_FULL 255)
    = Done (mk_stepper 0 STEP_MODE_FULL 241) /\
  stepper_step_backward (mk_stepper 7 STEP_MODE_FULL 255) = Stop OutOfBounds.
Proof.
  assert (H1 : 0 <= 255 < 256) by lia. assert (H2 : 0 <= 7 < 256) by lia.
  split; [exact H1|]. split; [exact H2|]. split; [reflexivity|].
  apply (proj2 (proj2 (stepper_step_safe (mk_stepper 7 STEP_MODE_FULL 255)
                         H1 H2))).
  cbn. lia.
Defined.

(** X21: [stepper_move] moves by the number of steps asked for and gives
    the processor away once per step.  From a state between two steps, with
    a task registered in a well-formed scheduler, [stepper_move steps
    speed_ms] returns; the position has moved by [steps] modulo the cycle
    length, forward for positive and backward for negative counts, the mode
    and the upper port bits are kept and the coil bits show the pattern of
    the new position.  Each step called [task_delay speed_ms] once: with a
    non-zero delay the scheduler counted [|steps|] voluntary yields (modulo
    [2^32]), with a zero delay none, and its task count is unchanged.  A
    second move by [- steps] brings the driver back to the state it
    started from. *)
Theorem stepper_move_net (steps speed_ms : Z) (st : stepper) (s : sched) :
  stepper_ok st -> wf s -> 1 <= task_count s ->
  exists st' s' s'',
    stepper_move steps speed_ms (st, s) = Done (st', s') /\
    stepper_ok st' /\ current_mode st' = current_mode st /\
    PORTB st' / 16 = PORTB st / 16 /\
    step_position st' =
      (step_position st + steps) mod steps_per_cycle (current_mode st) /\
    wf s' /\ task_count s' = task_count s /\
    uint32 (voluntary_yields (debug_stats s')) =
      uint32 (voluntary_yields (debug_stats s) +
              (if speed_ms =? 0 then 0 else Z.abs steps)) /\
    stepper_move (- steps) speed_ms (st', s') = Done (st, s'').
Proof.
  intros Hok Hwf Hn.
  destruct (stepper_move_ok steps speed_ms st s Hok Hwf Hn)
    as (st' & s' & E & Ok & Hm & Hd & Hp & Hwf' & Hn' & Hv).
  destruct (stepper_move_ok (- steps) speed_ms st' s' Ok Hwf' ltac:(lia))
    as (st2 & s2 & E2 & Ok2 & Hm2 & Hd2 & Hp2 & _).
  exists st', s', s2. do 7 (split; [done|]). split; [done|].
  rewrite E2. do 2 f_equal.
  apply stepper_ok_unique; try done; try congruence.
  rewrite Hp2, Hm, Hp, Zplus_mod_idemp_l.
  replace (step_position st + steps + - steps) with (step_position st) by lia.
  destruct (stepper_ok_range st Hok) as (_ & Hr). by apply Z.mod_small.
Qed.

Lemma stepper_move_net_witness :
  stepper_ok (mk_stepper 0 STEP_MODE_HALF 33) /\ wf two_tasks /\
  1 <= task_count two_tasks /\
  exists st' s',
    stepper_move (-75) 8 (mk_stepper 0 STEP_MODE_HALF 33, two_tasks)
      = Done (st', s') /\
    step_position st' = 5 /\
    uint32 (voluntary_yields (debug_stats s')) = 75.
Proof.
  assert (H1 : stepper_ok (mk_stepper 0 STEP_MODE_HALF 33))
    by (split; [cbn; lia | reflexivity]).
  assert (H2 : 1 <= task_count two_tasks) by (vm_compute; discriminate).
  split; [exact H1|]. split; [apply two_tasks_wf|]. split; [exact H2|].
  destruct (stepper_move_net (-75) 8 _ two_tasks H1 two_tasks_wf H2)
    as (st' & s' & s'' & E & _ & _ & _ & Hp & _ & _ & Hv & _).
  exists st', s'. split; [exact E|]. split; [rewrite Hp; reflexivity|].
  rewrite Hv. reflexivity.
Defined.

(** ** Properties of the servo driver *)

Lemma servo_pulse_eq angle :
  0 <= angle < 256 ->
  servo_pulse angle = 2000 + Z.min angle 180 * 2000 / 180.
Proof.
  intros Ha. unfold servo_pulse, SERVO_MIN, SERVO_MAX.
  change (4000 - 2000) with 2000. cbv zeta.
  assert (E : (if 180 <? angle then 180 else angle) = Z.min angle 180)
    by (destruct (Z.ltb_spec 180 angle); lia).
  rewrite E.
  assert (Hm : 0 <= Z.min angle 180 <= 180) by lia.
  assert (Hd : 0 <= Z.min angle 180 * 2000 / 180 <= 2000).
  { split; [apply Z.div_pos; lia|].
    apply Z.div_le_upper_bound; lia. }
  rewrite (uint32_small (Z.min angle 180)) by lia.
  rewrite (uint32_small (Z.min angle 180 * 2000)) by lia.
  rewrite uint32_small by lia. apply uint16_small. lia.
Qed.

(** X22: the pulse width of a servo is always inside the servo's range.
    For every angle that fits the [uint8_t] parameter, [set_servo1] and
    [set_servo2] store a pulse width between [SERVO_MIN] and [SERVO_MAX],
    below the timer period, equal to [2000 + min(angle, 180) * 2000 / 180]
    with no intermediate overflow; angles above 180 are clamped to the
    width for 180; the width grows with the angle, by 11 or 12 timer ticks
    per degree; 0, 90 and 180 degrees give exactly [SERVO_MIN],
    [SERVO_MID] and [SERVO_MAX]; and each function writes only its own
    position variable and compare register. *)
Theorem servo_pulse_range (angle : Z) (h : servo_io) :
  0 <= angle < 256 ->
  servo_pulse angle = 2000 + Z.min angle 180 * 2000 / 180 /\
  SERVO_MIN <= servo_pulse angle <= SERVO_MAX /\
  servo_pulse angle < SERVO_PERIOD /\
  (180 <= angle -> servo_pulse angle = SERVO_MAX) /\
  (forall b, angle <= b < 256 -> servo_pulse angle <= servo_pulse b) /\
  (angle < 180 -> 11 <= servo_pulse (angle + 1) - servo_pulse angle <= 12) /\
  servo_pulse 0 = SERVO_MIN /\ servo_pulse 90 = SERVO_MID /\
  servo_pulse 180 = SERVO_MAX /\
  set_servo1 angle h =
    mk_servo (servo_pulse angle) (servo2_position h) (servo_pulse angle)
             (OCR1B h) /\
  set_servo2 angle h =
    mk_servo (servo1_position h) (servo_pulse angle) (OCR1A h)
             (servo_pulse angle).
Proof.
  intros Ha. rewrite servo_pulse_eq by done.
  unfold SERVO_MIN, SERVO_MAX, SERVO_PERIOD, SERVO_MID.
  assert (Hm : 0 <= Z.min angle 180 <= 180) by lia.
  assert (Hd : 0 <= Z.min angle 180 * 2000 / 180 <= 2000).
  { split; [apply Z.div_pos; lia|]. apply Z.div_le_upper_bound; lia. }
  split; [done|]. split; [lia|]. split; [lia|]. split.
  { intros H. rewrite Z.min_r by lia. reflexivity. }
  split.
  { intros b Hb. rewrite servo_pulse_eq by lia.
    apply Z.add_le_mono_l, Z.div_le_mono; lia. }
  split.
  { intros H. rewrite servo_pulse_eq by lia.
    rewrite !Z.min_l by lia.
    pose proof (Z.div_mod (angle * 2000) 180 ltac:(lia)).
    pose proof (Z.div_mod ((angle + 1) * 2000) 180 ltac:(lia)).
    pose proof (Z.mod_pos_bound (angle * 2000) 180 ltac:(lia)).
    pose proof (Z.mod_pos_bound ((angle + 1) * 2000) 180 ltac:(lia)).
    lia. }
  do 3 (split; [reflexivity|]).
  unfold set_servo1, set_servo2. cbv zeta.
  rewrite servo_pulse_eq by done. done.
Qed.

Lemma servo_pulse_range_witness :
  0 <= 200 < 256 /\ servo_pulse 200 = SERVO_MAX /\
  OCR1A (set_servo1 200 (mk_servo 3000 3000 3000 3000)) = 4000.
Proof.
  assert (H : 0 <= 200 < 256) by lia. split; [exact H|].
  destruct (servo_pulse_range 200 (mk_servo 3000 3000 3000 3000) H)
    as (_ & _ & _ & Hc & _ & _ & _ & _ & _ & E1 & _).
  split; [apply Hc; lia|]. rewrite E1. cbn [OCR1A]. apply Hc. lia.
Defined.

(** X23: the sweep loops never leave the range of the servo and never wrap.
    If the step divides 180, the angle is a multiple of the step between 0
    and 180 and the direction is 1 or -1, pointing inwards at the end
    points, then the update moves the angle by exactly one step in the
    current direction without wrapping the [uint8_t], keeps all of this
    true, and reverses the direction exactly on reaching an end point.
    This holds at the start of both sweep loops (angle 0, direction 1, steps
    2 and 5), so [set_servo1] is only ever called with an angle of at most
    180; and one round of the sweep task returns with the compare register
    at the width of the angle it started with. *)
Theorem servo_sweep_invariant (step a d : Z) :
  0 < step -> (step | 180) -> (step | a) -> 0 <= a <= 180 ->
  (d = 1 \/ d = -1) -> (a = 0 -> d = 1) -> (a = 180 -> d = -1) ->
  exists a' d',
    sweep_update step (a, d) = (a', d') /\
    a' = a + d * step /\
    0 <= a' <= 180 /\ (step | a') /\
    (d' = 1 \/ d' = -1) /\ (a' = 0 -> d' = 1) /\ (a' = 180 -> d' = -1) /\
    (0 < a' < 180 -> d' = d) /\
    (step = 2 ->
     forall h s, wf s -> 1 <= task_count s ->
       exists h' s',
         servo1_sweep_round (h, (a, d), s) = Done (h', (a', d'), s') /\
         OCR1A h' = 2000 + a * 2000 / 180 /\
         SERVO_MIN <= OCR1A h' <= SERVO_MAX /\
         servo2_position h' = servo2_position h /\ OCR1B h' = OCR1B h /\
         task_count s' = task_count s).
Proof.
  intros Hs [m Hm] [k Hk] Ha Hd H0 H180.
  assert (Hrange : 0 <= a + d * step <= 180).
  { destruct Hd as [-> | ->].
    - assert (a <> 180) by (intros E; specialize (H180 E); lia).
      assert (k < m) by nia. nia.
    - assert (a <> 0) by (intros E; specialize (H0 E); lia).
      assert (1 <= k) by nia. nia. }
  assert (Hdiv : (step | a + d * step)).
  { exists (k + d). lia. }
  assert (Hu : sweep_update step (a, d) =
               (a + d * step,
                if a + d * step =? 180 then -1
                else if a + d * step =? 0 then 1 else d)).
  { unfold sweep_update. rewrite uint8_small by lia.
    destruct (Z.leb_spec 180 (a + d * step)).
    - assert (E : a + d * step = 180) by lia. rewrite E. reflexivity.
    - destruct (Z.eqb_spec (a + d * step) 180); [lia|].
      destruct (Z.leb_spec (a + d * step) 0).
      + assert (E : a + d * step = 0) by lia. rewrite E. reflexivity.
      + destruct (Z.eqb_spec (a + d * step) 0); [lia | done]. }
  eexists _, _. split; [exact Hu|]. split; [done|]. split; [done|].
  split; [done|].
  destruct (Z.eqb_spec (a + d * step) 180) as [E180|N180].
  { split; [by right|]. split; [lia|]. split; [done|]. split; [lia|].
    intros ->. intros h s Hwf Hn. unfold servo1_sweep_round.
    destruct (task_delay_runs s 20 Hwf Hn) as (s' & E & _ & Hc & _).
    cbn [fst]. rewrite Hu, E, bind_ret.
    destruct (Z.eqb_spec (a + d * 2) 180); [|done].
    eexists _, _. split; [done|]. cbn [OCR1A OCR1B servo2_position set_servo1].
    rewrite servo_pulse_eq by lia. rewrite Z.min_l by lia.
    unfold SERVO_MIN, SERVO_MAX.
    assert (0 <= a * 2000 / 180 <= 2000)
      by (split; [apply Z.div_pos; lia | apply Z.div_le_upper_bound; lia]).
    split; [done|]. split; [lia|]. done. }
  destruct (Z.eqb_spec (a + d * step) 0) as [E0|N0].
  { split; [by left|]. split; [done|]. split; [lia|]. split; [lia|].
    intros ->. intros h s Hwf Hn. unfold servo1_sweep_round.
    destruct (task_delay_runs s 20 Hwf Hn) as (s' & E & _ & Hc & _).
    cbn [fst]. rewrite Hu, E, bind_ret.
    destruct (Z.eqb_spec (a + d * 2) 180); [done|].
    destruct (Z.eqb_spec (a + d * 2) 0); [|done].
    eexists _, _. split; [done|]. cbn [OCR1A OCR1B servo2_position set_servo1].
    rewrite servo_pulse_eq by lia. rewrite Z.min_l by lia.
    unfold SERVO_MIN, SERVO_MAX.
    assert (0 <= a * 2000 / 180 <= 2000)
      by (split; [apply Z.div_pos; lia | apply Z.div_le_upper_bound; lia]).
    split; [done|]. split; [lia|]. done. }
  split; [done|]. split; [lia|]. split; [lia|]. split; [done|].
  intros ->. intros h s Hwf Hn. unfold servo1_sweep_round.
  destruct (task_delay_runs s 20 Hwf Hn) as (s' & E & _ & Hc & _).
  cbn [fst]. rewrite Hu, E, bind_ret.
  destruct (Z.eqb_spec (a + d * 2) 180); [done|].
  destruct (Z.eqb_spec (a + d * 2) 0); [done|].
  eexists _, _. split; [done|]. cbn [OCR1A OCR1B servo2_position set_servo1].
  rewrite servo_pulse_eq by lia. rewrite Z.min_l by lia.
  unfold SERVO_MIN, SERVO_MAX.
  assert (0 <= a * 2000 / 180 <= 2000)
    by (split; [apply Z.div_pos; lia | apply Z.div_le_upper_bound; lia]).
  split; [done|]. split; [lia|]. done.
Qed.

Lemma servo_sweep_invariant_witness :
  0 < 2 /\ (2 | 180) /\ (2 | 178) /\ 0 <= 178 <= 180 /\
  sweep_update 2 (178, 1) = (180, -1) /\
  sweep_update 2 (0, 1) = (2, 1) /\
  sweep_update 5 (5, -1) = (0, 1).
Proof.
  assert (H1 : 0 < 2) by lia.
  assert (H2 : (2 | 180)) by (exists 90; reflexivity).
  assert (H3 : (2 | 178)) by (exists 89; reflexivity).
  assert (H4 : 0 <= 178 <= 180) by lia.
  split; [exact H1|]. split; [exact H2|]. split; [exact H3|].
  split; [exact H4|].
  destruct (servo_sweep_invariant 2 178 1 H1 H2 H3 H4 (or_introl eq_refl)
              ltac:(discriminate) ltac:(discriminate))
    as (a' & d' & E & Ea & _ & _ & _ & _ & Hd & _).
  split; [|split; reflexivity].
  rewrite E. rewrite Ea in *. f_equal. apply Hd. reflexivity.
Defined.

(** ** Run-time accounting *)

Lemma total_runtime_imap_same (l : list task_t) :
  forall F : nat -> task_t -> task_t,
    (forall j t, runtime_ticks (F j t) = runtime_ticks t) ->
    total_runtime (imap F l) = total_runtime l.
Proof.
  induction l as [|x l IH]; intros F HF; [done|].
  cbn [imap total_runtime foldr]. rewrite HF. f_equal.
  apply (IH (F ∘ S)). intros j t. apply HF.
Qed.

Lemma total_runtime_imap_one (l : list task_t) :
  forall (F : nat -> task_t -> task_t) (n : nat) (tn : task_t),
    l !! n = Some tn ->
    (forall j t, j <> n -> runtime_ticks (F j t) = runtime_ticks t) ->
    total_runtime (imap F l) =
      total_runtime l - runtime_ticks tn + runtime_ticks (F n tn).
Proof.
  induction l as [|x l IH]; intros F n tn Hn HF; [done|].
  cbn [imap total_runtime foldr]. destruct n as [|n].
  - injection Hn as ->.
    fold (total_runtime (imap (F ∘ S) l)). fold (total_runtime l).
    rewrite total_runtime_imap_same; [lia|].
    intros j t. apply HF. lia.
  - fold (total_runtime (imap (F ∘ S) l)). fold (total_runtime l).
    rewrite (IH (F ∘ S) n tn Hn); [|intros j t Hj; apply HF; lia].
    rewrite HF by lia. cbn [compose]. lia.
Qed.

Lemma total_runtime_bound (l : list task_t) :
  (forall (j : nat) t, l !! j = Some t -> 0 <= runtime_ticks t) ->
  0 <= total_runtime l /\
  forall (j : nat) t, l !! j = Some t -> runtime_ticks t <= total_runtime l.
Proof.
  induction l as [|x l IH]; intros H; [split; [done | by intros j t]|].
  destruct IH as (I0 & Ile); [intros j t Ht; by apply (H (S j))|].
  pose proof (H 0%nat x eq_refl) as Hx.
  cbn [total_runtime foldr]. fold (total_runtime l). split; [lia|].
  intros [|j] t Ht.
  - injection Ht as ->. lia.
  - pose proof (Ile j t Ht). lia.
Qed.

Lemma runtime_within_same n s s' (F : nat -> task_t -> task_t) :
  tasks s' = imap F (tasks s) ->
  total_ticks (debug_stats s') = total_ticks (debug_stats s) ->
  (forall j t, runtime_ticks (F j t) = runtime_ticks t) ->
  runtime_within n s -> runtime_within n s'.
Proof.
  intros Ht Hd HF (Hn & Hsum & Hpos). split; [congruence|]. split.
  - by rewrite Ht, total_runtime_imap_same.
  - intros j t'. rewrite Ht, list_lookup_imap.
    destruct (tasks s !! j) as [t|] eqn:E; [|done]. cbn. intros [= <-].
    rewrite HF. by eapply Hpos.
Qed.

Lemma update_slot_runtime_within n k f s :
  (forall t, runtime_ticks (f t) = runtime_ticks t) ->
  runtime_within n s -> runtime_within n (update_slot k f s).
Proof.
  intros Hf. apply (runtime_within_same n _ _
    (fun j t => if decide (j = Z.to_nat k) then f t else t)); [done..|].
  intros j t. by case_decide.
Qed.

Lemma yield_fun_runtime_within n s :
  runtime_within n s -> runtime_within n (yield_fun s).
Proof.
  intros H. unfold yield_fun.
  destruct (next_task_of s =? current_task s); [done|].
  apply (runtime_within_same n s _
           (switch_tcb (current_task s) (next_task_of s))); try done.
  intros. apply switch_tcb_static.
Qed.

Lemma ticked_runtime_within n s :
  wf s -> 1 <= task_count s -> scheduler_running s <> 0 ->
  n + 1 < 4294967296 ->
  runtime_within n s -> runtime_within (n + 1) (ticked s).
Proof.
  intros Hwf Hc Hr Hn (Ht & Hsum & Hpos).
  destruct (total_runtime_bound _ Hpos) as (H0 & Hle).
  pose proof (wf_dispatchable s Hwf Hc) as (_ & Hlen & Hcur).
  destruct (lookup_lt_is_Some_2 (tasks s) (Z.to_nat (current_task s)))
    as [tc Htc]; [lia|].
  unfold ticked.
  destruct (Z.eqb_spec (scheduler_running s) 0); [done|].
  destruct (Z.eqb_spec (task_count s) 0); [lia|]. cbn [orb].
  assert (Hrt : forall j t,
    runtime_ticks (tick_tcb s j t) =
      if decide (j = Z.to_nat (current_task s)) then
        (if is_running (state t) then uint32 (runtime_ticks t + 1)
         else runtime_ticks t)
      else runtime_ticks t).
  { intros j t. unfold tick_tcb. cbv zeta.
    set (t1 := if decide (j = Z.to_nat (current_task s)) then _ else _).
    assert (E : runtime_ticks (if decide (Z.of_nat j < task_count s)
                               then delay_step_tcb t1 else t1)
                = runtime_ticks t1).
    { case_decide; [|done]. apply delay_step_tcb_static. }
    rewrite E. unfold t1. clear E t1.
    destruct (decide (j = Z.to_nat (current_task s))); [|done].
    by destruct (is_running (state t)). }
  split; [|split].
  - cbn [debug_stats total_ticks bump_total_ticks]. rewrite Ht.
    apply uint32_small. pose proof (Hpos _ _ Htc). lia.
  - cbn [tasks].
    rewrite (total_runtime_imap_one _ _ _ _ Htc)
      by (intros j t Hj; rewrite Hrt; by rewrite decide_False).
    rewrite Hrt, decide_True by done.
    pose proof (Hpos _ _ Htc). pose proof (Hle _ _ Htc).
    destruct (is_running (state tc)); [|lia].
    rewrite uint32_small by lia. lia.
  - intros j t'. cbn [tasks]. rewrite list_lookup_imap.
    destruct (tasks s !! j) as [t|] eqn:E; [|done]. cbn. intros [= <-].
    rewrite Hrt. pose proof (Hpos _ _ E). pose proof (Hle _ _ E).
    case_decide; [|done]. destruct (is_running (state t)); [|done].
    rewrite uint32_small by lia. lia.
Qed.

Lemma runtime_within_step exit_addr e s s' n :
  task_event e -> step exit_addr e s = Done s' ->
  wf s -> stacks_ok s -> 1 <= task_count s -> scheduler_running s <> 0 ->
  n + (if is_tick e then 1 else 0) < 4294967296 ->
  runtime_within n s ->
  runtime_within (n + (if is_tick e then 1 else 0)) s'.
Proof.
  intros He Hs Hwf Hst Hc Hr Hn HJ.
  assert (Hp : match e with
               | EYield | EDelay _ | EExit => 1 <= task_count s
               | _ => True end) by (by destruct e).
  pose proof (step_inv _ _ _ _ Hs Hwf Hst Hp) as ->.
  destruct e as [|f| |id|id| |ticks| |]; cbn [step_fun is_tick task_event] in *;
    try done; rewrite ?Z.add_0_r.
  - destruct ((MAX_TASKS <=? task_count s) || (f =? 0)); [done|].
    unfold added.
    by apply (update_slot_runtime_within n (task_count s)
                (add_tcb exit_addr f (task_count s)) s).
  - destruct (id <? task_count s); [|done].
    by apply update_slot_runtime_within.
  - destruct (id <? task_count s); [|done].
    apply update_slot_runtime_within; [|done].
    intros. apply resume_tcb_static.
  - by apply yield_fun_runtime_within.
  - destruct (ticks =? 0); [done|].
    apply yield_fun_runtime_within. by apply update_slot_runtime_within.
  - by apply ticked_runtime_within.
  - by apply update_slot_runtime_within.
Qed.

Lemma runtime_within_run exit_addr (evs : list event) :
  forall s s' n,
    started exit_addr s -> Forall task_event evs ->
    run exit_addr evs s = Done s' ->
    n + Z.of_nat (ticks_in evs) < 4294967296 ->
    runtime_within n s ->
    runtime_within (n + Z.of_nat (ticks_in evs)) s'.
Proof.
  induction evs as [|e evs IH]; intros s s' n Hs Hall Hrun Hn HJ.
  - injection Hrun as <-. cbn. by rewrite Z.add_0_r.
  - apply Forall_cons in Hall as [He Hall]. cbn [run] in Hrun.
    apply bind_Done in Hrun as (s1 & E1 & Hrun).
    rewrite ticks_in_cons in Hn |- *.
    destruct (started_invariant _ _ Hs) as (Hwf & Hst & Hc & _ & Hr).
    assert (Hn1 : n + (if is_tick e then 1 else 0) < 4294967296)
      by (destruct (is_tick e); lia).
    pose proof (runtime_within_step _ _ _ _ n He E1 Hwf Hst Hc
                  ltac:(lia) Hn1 HJ) as HJ1.
    assert (Hs1 : started exit_addr s1) by (by eapply started_step).
    replace (n + Z.of_nat ((if is_tick e then 1 else 0) + ticks_in evs))
      with (n + (if is_tick e then 1 else 0) + Z.of_nat (ticks_in evs))
      by (destruct (is_tick e); lia).
    apply (IH s1 s' _ Hs1 Hall Hrun); [destruct (is_tick e); lia | done].
Qed.

Lemma run_app exit_addr (a b : list event) s :
  run exit_addr (a ++ b) s =
    let! s' := run exit_addr a s in run exit_addr b s'.
Proof.
  revert s. induction a as [|e a IH]; intros s; [done|].
  cbn [run app]. destruct (step exit_addr e s); [|done].
  rewrite !bind_ret. apply IH.
Qed.

(** *** Accounting across resets of the statistics *)

Lemma total_runtime_zero (l : list task_t) :
  (forall (j : nat) t, l !! j = Some t -> runtime_ticks t = 0) ->
  total_runtime l = 0.
Proof.
  induction l as [|x l IH]; intros H; [done|].
  cbn [total_runtime foldr]. fold (total_runtime l).
  rewrite (H 0%nat x eq_refl), IH; [done|].
  intros j t Ht. by apply (H (S j)).
Qed.

Lemma unregistered_idle_imap s s' (F : nat -> task_t -> task_t) :
  tasks s' = imap F (tasks s) -> task_count s <= task_count s' ->
  (forall (j : nat) t, task_count s' <= Z.of_nat j ->
                       runtime_ticks (F j t) = runtime_ticks t) ->
  unregistered_idle s -> unregistered_idle s'.
Proof.
  intros Ht Hc HF H j t'. rewrite Ht, list_lookup_imap.
  destruct (tasks s !! j) as [t|] eqn:E; [|done]. cbn. intros [= <-] Hj.
  rewrite HF by done. apply (H j t E). lia.
Qed.

Lemma update_slot_unregistered_idle k f s :
  (forall t, runtime_ticks (f t) = runtime_ticks t) ->
  unregistered_idle s -> unregistered_idle (update_slot k f s).
Proof.
  intros Hf. apply (unregistered_idle_imap s _
    (fun j t => if decide (j = Z.to_nat k) then f t else t)); [done|done|].
  intros j t _. by case_decide.
Qed.

Lemma yield_fun_unregistered_idle s :
  unregistered_idle s -> unregistered_idle (yield_fun s).
Proof.
  intros H. unfold yield_fun.
  destruct (next_task_of s =? current_task s); [done|].
  apply (unregistered_idle_imap s _
           (switch_tcb (current_task s) (next_task_of s))); try done.
  intros. apply switch_tcb_static.
Qed.

Lemma unregistered_idle_step exit_addr e s s' :
  task_event e -> step exit_addr e s = Done s' ->
  wf s -> stacks_ok s -> 1 <= task_count s ->
  unregistered_idle s -> unregistered_idle s'.
Proof.
  intros He Hs Hwf Hst Hc HJ.
  assert (Hp : match e with
               | EYield | EDelay _ | EExit => 1 <= task_count s
               | _ => True end) by (by destruct e).
  pose proof (step_inv _ _ _ _ Hs Hwf Hst Hp) as ->.
  pose proof (wf_dispatchable s Hwf Hc) as (_ & _ & Hcur).
  destruct e as [|f| |id|id| |ticks| |]; cbn [step_fun task_event] in *;
    try done.
  - destruct ((MAX_TASKS <=? task_count s) || (f =? 0)); [done|].
    apply (unregistered_idle_imap s _
      (fun j t => if decide (j = Z.to_nat (task_count s))
                  then add_tcb exit_addr f (task_count s) t else t));
      [done | cbn; lia | | done].
    intros j t Hj. cbn in Hj. by case_decide.
  - destruct (id <? task_count s); [|done].
    by apply update_slot_unregistered_idle.
  - destruct (id <? task_count s); [|done].
    apply update_slot_unregistered_idle; [|done].
    intros. apply resume_tcb_static.
  - by apply yield_fun_unregistered_idle.
  - destruct (ticks =? 0); [done|].
    apply yield_fun_unregistered_idle.
    by apply update_slot_unregistered_idle.
  - unfold ticked.
    destruct ((scheduler_running s =? 0) || (task_count s =? 0)); [done|].
    apply (unregistered_idle_imap s _ (tick_tcb s)); [done|done| |done].
    intros j t Hj. cbn in Hj. unfold tick_tcb.
    rewrite !decide_False by lia. done.
  - by apply update_slot_unregistered_idle.
Qed.

(** A reset keeps the shape of the state and starts the accounting again. *)
Lemma reset_fun_accounting s :
  wf s -> stacks_ok s -> unregistered_idle s ->
  wf (reset_fun s) /\ stacks_ok (reset_fun s) /\
  task_count (reset_fun s) = task_count s /\
  scheduler_running (reset_fun s) = scheduler_running s /\
  unregistered_idle (reset_fun s) /\
  runtime_within 0 (reset_fun s).
Proof.
  intros Hwf Hst HJ.
  assert (Hl : forall (j : nat),
    tasks (reset_fun s) !! j =
      (fun t => if decide (Z.of_nat j < task_count s)
                then reset_task_stats t else t) <$> tasks s !! j).
  { intros j. cbn [reset_fun tasks]. by rewrite list_lookup_imap. }
  assert (Hz : forall (j : nat) t,
    tasks (reset_fun s) !! j = Some t -> runtime_ticks t = 0).
  { intros j t'. rewrite Hl.
    destruct (tasks s !! j) as [t|] eqn:E; [|done]. cbn. intros [= <-].
    case_decide; [done|]. apply (HJ j t E). lia. }
  split. { unfold wf, reset_fun in *. cbn. by rewrite length_imap. }
  split.
  { intros j t'. rewrite Hl.
    destruct (tasks s !! j) as [t|] eqn:E; [|done]. cbn. intros [= <-].
    pose proof (Hst j t E). by case_decide. }
  split; [done|]. split; [done|].
  split. { intros j t Ht _. by eapply Hz. }
  split; [done|]. split.
  - by rewrite total_runtime_zero.
  - intros j t Ht. by rewrite (Hz j t Ht).
Qed.

Lemma ticks_counted_event n e cs :
  ticks_counted n (SEvent e :: cs) =
    ticks_counted (n + (if is_tick e then 1 else 0)) cs.
Proof.
  destruct e; cbn [ticks_counted is_tick]; f_equal; lia.
Qed.

Lemma ticks_counted_ge (cs : list stats_event) :
  forall n, Forall (fun c => c <> SReset) cs -> (n <= ticks_counted n cs)%nat.
Proof.
  induction cs as [|c cs IH]; intros n H; [done|].
  apply Forall_cons in H as [Hc H]. destruct c as [e|]; [|done].
  rewrite ticks_counted_event.
  pose proof (IH (n + (if is_tick e then 1 else 0))%nat H). lia.
Qed.

Lemma stats_run_accounting exit_addr (cs : list stats_event) :
  forall s s' (n : nat),
    Forall stats_task_event cs ->
    stats_run exit_addr cs s = Done s' ->
    wf s -> stacks_ok s -> 1 <= task_count s -> scheduler_running s <> 0 ->
    unregistered_idle s ->
    Z.of_nat (ticks_counted n cs) < 4294967296 ->
    (Forall (fun c => c <> SReset) cs -> runtime_within (Z.of_nat n) s) ->
    runtime_within (Z.of_nat (ticks_counted n cs)) s'.
Proof.
  induction cs as [|c cs IH]; intros s s' n Hall Hrun Hwf Hst Hc Hr HJ Hn Hin.
  - injection Hrun as <-. apply Hin. constructor.
  - apply Forall_cons in Hall as [He Hall]. cbn [stats_run] in Hrun.
    apply bind_Done in Hrun as (s1 & E1 & Hrun).
    destruct c as [e|]; cbn [stats_step stats_task_event] in *.
    + destruct (task_step_invariant _ _ _ _ He E1 Hwf Hst Hc)
        as (Hwf1 & Hst1 & Hc1 & _ & Hr1).
      pose proof (unregistered_idle_step _ _ _ _ He E1 Hwf Hst Hc HJ) as HJ1.
      rewrite ticks_counted_event in Hn |- *.
      apply (IH s1 s' (n + (if is_tick e then 1 else 0))%nat Hall Hrun Hwf1
               Hst1); try done; try lia.
      intros Hnr.
      pose proof (ticks_counted_ge cs (n + (if is_tick e then 1 else 0))%nat
                    Hnr) as Hge.
      assert (Hin' : runtime_within (Z.of_nat n) s).
      { apply Hin. constructor; [done | exact Hnr]. }
      replace (Z.of_nat (n + (if is_tick e then 1 else 0)))
        with (Z.of_nat n + (if is_tick e then 1 else 0))
        by (destruct (is_tick e); lia).
      apply (runtime_within_step exit_addr e s s1); try done.
      destruct (is_tick e); lia.
    + rewrite scheduler_reset_debug_stats_eq in E1 by done.
      injection E1 as <-.
      destruct (reset_fun_accounting s Hwf Hst HJ)
        as (Hwf1 & Hst1 & Hc1 & Hr1 & HJ1 & H0).
      cbn [ticks_counted] in Hn |- *.
      apply (IH (reset_fun s) s' 0%nat Hall Hrun Hwf1 Hst1); try done;
        try lia.
Qed.

(** X24: run time is accounted within the ticks.  After [scheduler_init],
    setup calls (add, suspend, resume), [scheduler_start] and then any
    sequence of add, suspend, resume, yield, delay, exit-handler store,
    tick and [scheduler_reset_debug_stats], as long as fewer than [2^32]
    ticks have occurred since the start or the last reset: [total_ticks] is
    the number of ticks since the start or the last reset, the
    [runtime_ticks] counters of all tasks together do not exceed it, each
    is between 0 and [total_ticks], and the percentage the statistics
    reporter computes for a task, [runtime * 100 / total_ticks] in 32-bit
    arithmetic, is at most 100 while [runtime * 100] does not overflow
    (fewer than 42949673 ticks, about 11.9 hours at 1 ms). *)
Theorem runtime_accounting (exit_addr : Z) (s0 s1 s : sched)
    (pre : list event) (post : list stats_event) :
  Forall setup_event pre -> Forall stats_task_event post ->
  run exit_addr (pre ++ [EStart]) (scheduler_init s0) = Done s1 ->
  stats_run exit_addr post s1 = Done s ->
  Z.of_nat (ticks_since_reset post) < 4294967296 ->
  total_ticks (debug_stats s) = Z.of_nat (ticks_since_reset post) /\
  total_runtime (tasks s) <= total_ticks (debug_stats s) /\
  forall (j : nat) (t : task_t),
    tasks s !! j = Some t ->
    0 <= runtime_ticks t <= total_ticks (debug_stats s) /\
    (0 < total_ticks (debug_stats s) < 42949673 ->
     exists p,
       cpu_percent (runtime_ticks t) (total_ticks (debug_stats s)) = Done p /\
       p = runtime_ticks t * 100 / total_ticks (debug_stats s) /\
       0 <= p <= 100).
Proof.
  intros Hpre Hpost Hstart Hrun Hn.
  rewrite run_app in Hstart. apply bind_Done in Hstart as (sc & E1 & Hstart).
  cbn [run step] in Hstart. apply bind_Done in Hstart as (s2 & E2 & [= ->]).
  assert (Hc1 : configured exit_addr sc).
  { apply (run_configured exit_addr pre (scheduler_init s0)); try done.
    constructor. }
  assert (Hs2 : started exit_addr s1) by (by eapply started_start).
  destruct (configured_invariant _ _ Hc1) as (Hwf1 & Hst1 & _).
  destruct (configured_quiet _ _ Hc1) as (_ & Hd1 & Hall1).
  destruct (started_invariant _ _ Hs2) as (Hwf2 & Hst2 & Hn2 & _ & Hr2).
  assert (Hz : forall (j : nat) t,
            tasks s1 !! j = Some t -> runtime_ticks t = 0).
  { assert (Hn1 : task_count sc <> 0).
    { intros E. unfold scheduler_start in E2. by rewrite E in E2. }
    rewrite scheduler_start_eq in E2 by done. injection E2 as <-.
    intros j t'. cbn [tasks with_io with_scheduler_running].
    rewrite update_slot_lookup. cbn [tasks with_current_task].
    destruct (tasks sc !! j) as [t|] eqn:E; [|done]. cbn. intros [= <-].
    destruct (Hall1 j t E) as (_ & Ht & _). by case_decide. }
  assert (HJ2 : runtime_within 0 s1).
  { split.
    - assert (Hn1 : task_count sc <> 0).
      { intros E. unfold scheduler_start in E2. by rewrite E in E2. }
      rewrite scheduler_start_eq in E2 by done. injection E2 as <-.
      cbn. by rewrite Hd1.
    - split; [by rewrite total_runtime_zero|].
      intros j t Ht. by rewrite (Hz j t Ht). }
  assert (Hidle : unregistered_idle s1) by (intros j t Ht _; by eapply Hz).
  pose proof (stats_run_accounting exit_addr post s1 s 0 Hpost Hrun Hwf2 Hst2
                Hn2 ltac:(lia) Hidle Hn (fun _ => HJ2)) as (Ht & Hsum & Hpos).
  fold (ticks_since_reset post) in Ht, Hsum.
  destruct (total_runtime_bound _ Hpos) as (H0 & Hle).
  split; [done|]. split; [lia|]. intros j t Hj.
  pose proof (Hpos _ _ Hj). pose proof (Hle _ _ Hj).
  split; [lia|]. intros HT. unfold cpu_percent.
  destruct (Z.eqb_spec (total_ticks (debug_stats s)) 0); [lia|].
  assert (Hq : 0 <= runtime_ticks t * 100 / total_ticks (debug_stats s) <= 100).
  { split; [apply Z.div_pos; lia|]. apply Z.div_le_upper_bound; lia. }
  eexists. split; [done|].
  rewrite uint32_small by lia. rewrite uint16_small by lia. done.
Qed.

Lemma runtime_accounting_witness :
  Forall setup_event [EAdd 512] /\
  Forall stats_task_event
    [SEvent ETick; SEvent ETick; SReset; SEvent ETick; SEvent (EDelay 5);
     SEvent ETick; SEvent ETick] /\
  exists s1 s,
    run 256 ([EAdd 512] ++ [EStart]) (scheduler_init power_on) = Done s1 /\
    stats_run 256
      [SEvent ETick; SEvent ETick; SReset; SEvent ETick; SEvent (EDelay 5);
       SEvent ETick; SEvent ETick] s1 = Done s /\
    total_ticks (debug_stats s) = 3 /\
    total_runtime (tasks s) = 1 /\
    total_runtime (tasks s) <= total_ticks (debug_stats s).
Proof.
  assert (H1 : Forall setup_event [EAdd 512]) by repeat constructor.
  assert (H2 : Forall stats_task_event
                 [SEvent ETick; SEvent ETick; SReset; SEvent ETick;
                  SEvent (EDelay 5); SEvent ETick; SEvent ETick])
    by repeat constructor.
  split; [exact H1|]. split; [exact H2|].
  assert (E : exists s1 s,
    run 256 ([EAdd 512] ++ [EStart]) (scheduler_init power_on) = Done s1 /\
    stats_run 256
      [SEvent ETick; SEvent ETick; SReset; SEvent ETick; SEvent (EDelay 5);
       SEvent ETick; SEvent ETick] s1 = Done s /\
    total_runtime (tasks s) = 1).
  { eexists _, _. split; [vm_compute; reflexivity|].
    split; vm_compute; reflexivity. }
  destruct E as (s1 & s & E1 & E & Er). exists s1, s.
  split; [exact E1|]. split; [exact E|].
  destruct (runtime_accounting 256 power_on s1 s _ _ H1 H2 E1 E)
    as (Ht & Hsum & _); [vm_compute; reflexivity|].
  split; [exact Ht|]. split; [exact Er | exact Hsum].
Defined.

(** ** The start-up of the example programs *)

Lemma add_all_configured exit_addr (fs : list Z) :
  forall s ids s',
    configured exit_addr s -> add_all exit_addr fs s = Done (ids, s') ->
    configured exit_addr s'.
Proof.
  induction fs as [|f fs IH]; intros s ids s' Hc Ha.
  - cbn [add_all] in Ha. by injection Ha as <- <-.
  - cbn [add_all] in Ha. apply bind_Done in Ha as ([r s1] & E1 & Ha).
    apply bind_Done in Ha as ([ids' s2] & E2 & Ha). injection Ha as <- <-.
    apply (IH s1 ids' s2); [|done].
    apply (configured_step exit_addr (EAdd f) s s1); [done | done |].
    cbn [step]. by rewrite E1.
Qed.

(** X25: the start-up sequence of the example programs.  [main] of every
    example calls [scheduler_init], registers between one and [MAX_TASKS]
    task functions and calls [scheduler_start].  For every such list of
    non-null entries the registrations return the ids 0, 1, 2, ... in
    order, and the C statements of [scheduler_start] leave a protocol
    state: all tasks are registered, task 0 is current and the only Running
    one, every other task is Ready, no delay is pending, all counters are
    zero and the scheduler is marked running.  The restore sequence that
    follows ends at the entry point of the first task function, but it
    writes a register byte of the initial context, [0], to the status
    register after [sei()] has set the interrupt flag: the first task
    begins with [SREG = 0], the interrupt flag cleared. *)
Theorem example_main_boots (exit_addr : Z) (s0 : sched) (fs : list Z)
    (c0 : avr_cpu) :
  Forall (fun f => f <> 0) fs ->
  1 <= Z.of_nat (length fs) <= MAX_TASKS ->
  length (cpu_r c0) = 32%nat ->
  exists s1 s2 c,
    add_all exit_addr fs (scheduler_init s0) =
      Done (seqZ 0 (Z.of_nat (length fs)), s1) /\
    scheduler_start s1 = Done s2 /\
    scheduler_start_context c0 s1 = Done (s2, c) /\
    started exit_addr s2 /\
    scheduler_get_task_count s2 = Z.of_nat (length fs) /\
    scheduler_get_current_task s2 = 0 /\
    scheduler_running s2 = 1 /\
    state_at s2 0 = Some TASK_RUNNING /\
    (forall i, 0 < i < Z.of_nat (length fs) ->
               state_at s2 i = Some TASK_READY) /\
    (forall i, 0 <= i < Z.of_nat (length fs) -> delay_at s2 i = Some 0) /\
    count_running s2 = 1%nat /\
    scheduler_get_debug_stats s2 = mk_debug 0 0 0 /\
    (exists f0, head fs = Some f0 /\ cpu_PC c = uint16 f0) /\
    cpu_SP c = TASK_STACK_SIZE - 3 /\
    cpu_SREG c = 0 /\
    Z.testbit (cpu_SREG c) 7 = false.
Proof.
  intros Hfs Hlen Hregs. unfold MAX_TASKS in Hlen.
  destruct (add_all_from exit_addr fs (scheduler_init s0))
    as (s1 & Ha & Hn & Hfr); try done.
  { apply scheduler_init_wf. } { apply scheduler_init_stacks_ok. }
  { intros i Hi. cbn in Hi. lia. }
  cbn [scheduler_init task_count] in Ha, Hn. unfold MAX_TASKS in Ha, Hn.
  rewrite Z.sub_0_r in Ha. rewrite Z.min_l in Ha by lia.
  replace (Z.to_nat (Z.of_nat (length fs) - 8)) with 0%nat in Ha by lia.
  cbn [replicate] in Ha. rewrite app_nil_r in Ha.
  rewrite Z.add_0_l, Z.min_l in Hn by lia.
  assert (Hc1 : configured exit_addr s1).
  { eapply add_all_configured; [|exact Ha]. constructor. }
  destruct (configured_invariant _ _ Hc1) as (Hwf & Hst & Hnr & Hr).
  destruct (configured_quiet _ _ Hc1) as (_ & Hd & _).
  assert (Hne : task_count s1 <> 0) by lia.
  pose proof (scheduler_start_eq s1 Hwf Hne) as Hs.
  set (s2 := with_io _ _) in Hs.
  destruct (scheduler_start_invariant s1 s2 Hwf Hst Hnr Hs)
    as (_ & _ & _ & _ & Hcur & Hrun & Hst0 & Hcnt).
  assert (Hlk : forall i : Z, 0 <= i ->
    tasks s2 !! Z.to_nat i =
      (fun t => if decide (Z.to_nat i = Z.to_nat 0)
                then set_state TASK_RUNNING t else t)
        <$> tasks s1 !! Z.to_nat i).
  { intros i Hi. unfold s2. cbn [tasks with_io with_scheduler_running].
    by rewrite update_slot_lookup. }
  (* the block of task 0 holds the context of the first entry *)
  assert (Hctx : exists f0 t1,
            head fs = Some f0 /\ tasks s1 !! 0%nat = Some t1 /\
            stack_pointer t1 = Some 90 /\
            drop 91 (stack t1) = context_image exit_addr f0).
  { destruct fs as [|f0 rest]; [cbn in Hlen; lia|].
    apply Forall_cons in Hfs as [Hf0 _].
    pose proof (scheduler_init_wf s0) as Hwi.
    pose proof (scheduler_init_stacks_ok s0) as Hsi.
    pose proof (scheduler_add_task_eq exit_addr f0 (scheduler_init s0) Hwi Hsi
                  ltac:(done) Hf0) as Ha0.
    destruct (scheduler_add_task_preserves _ _ _ _ _ Hwi Hsi Ha0)
      as (Hwf1 & Hst1 & _).
    destruct (add_all_keeps exit_addr rest _ Hwf1 Hst1)
      as (ids & s1' & E & _ & _ & _ & _ & Hk).
    assert (Ha' : add_all exit_addr (f0 :: rest) (scheduler_init s0) =
                  Done (task_count (scheduler_init s0) :: ids, s1')).
    { cbn [add_all]. by rewrite Ha0, bind_ret, E, bind_ret. }
    rewrite Ha in Ha'. apply Done_inj, pair_equal_spec in Ha' as [_ <-].
    destruct (lookup_lt_is_Some_2 (tasks (scheduler_init s0)) 0)
      as [t0 Ht0]; [destruct Hwi as (-> & _); unfold MAX_TASKS; lia|].
    exists f0, (add_tcb exit_addr f0 0 t0). split; [done|].
    assert (Ht1 : tasks s1 !! 0%nat = Some (add_tcb exit_addr f0 0 t0)).
    { change 0%nat with (Z.to_nat 0). rewrite Hk by (cbn; lia).
      unfold added. cbn [tasks with_task_count]. rewrite update_slot_lookup.
      change (task_count (scheduler_init s0)) with 0.
      change (Z.to_nat 0) with 0%nat. rewrite Ht0.
      cbn [fmap option_fmap option_map]. by rewrite decide_True. }
    split; [done|]. split; [done|].
    unfold add_tcb. cbn [stack set_stack].
    apply drop_app_length'. rewrite length_take, (Hsi _ _ Ht0). done. }
  destruct Hctx as (f0 & t1 & Hhd & Ht1 & Hsp & Hdrop).
  assert (Ht2 : tasks s2 !! 0%nat = Some (set_state TASK_RUNNING t1)).
  { change 0%nat with (Z.to_nat 0). rewrite Hlk by done.
    change (Z.to_nat 0) with 0%nat. rewrite Ht1.
    cbn [fmap option_fmap option_map]. by rewrite decide_True. }
  exists s1, s2, (mk_cpu (0 :: 128 :: replicate 30 0)
                         (TASK_STACK_SIZE - 3) 0 (uint16 f0)).
  split; [done|]. split; [done|].
  split.
  { unfold scheduler_start_context. rewrite Hs, bind_ret.
    change (current_task s2) with 0.
    rewrite (tcb_Done _ _ (set_state TASK_RUNNING t1)), bind_ret by done.
    cbn [stack_pointer set_state]. rewrite Hsp. cbv iota beta.
    cbn [stack set_state].
    by rewrite (restore_built_context exit_addr f0), bind_ret. }
  split; [by eapply started_start|]. split; [done|]. split; [done|].
  split; [done|]. split; [done|]. split; [|split].
  - intros i Hi. destruct (Hfr i ltac:(lia)) as (t & Ht & Hs1 & _).
    unfold state_at. rewrite Hlk, Ht by lia. cbn.
    rewrite decide_False by lia. by rewrite Hs1.
  - intros i Hi. destruct (Hfr i ltac:(lia)) as (t & Ht & _ & Hd1 & _).
    unfold delay_at. rewrite Hlk, Ht by lia. cbn.
    case_decide; cbn; by rewrite Hd1.
  - split; [done|]. split; [done|]. split; [by exists f0|]. done.
Qed.

Lemma example_main_boots_witness :
  Forall (fun f => f <> 0) [512; 768; 1024; 1280] /\
  1 <= Z.of_nat (length [512; 768; 1024; 1280]) <= MAX_TASKS /\
  length (cpu_r (mk_cpu (replicate 32 255) 2303 0 0)) = 32%nat /\
  exists s1 s2 c,
    add_all 256 [512; 768; 1024; 1280] (scheduler_init power_on)
      = Done ([0; 1; 2; 3], s1) /\
    scheduler_start_context (mk_cpu (replicate 32 255) 2303 0 0) s1
      = Done (s2, c) /\
    scheduler_get_task_count s2 = 4 /\
    count_running s2 = 1%nat /\
    cpu_PC c = 512 /\
    cpu_SREG c = 0 /\
    SREG (io s2) = 128.
Proof.
  assert (H1 : Forall (fun f => f <> 0) [512; 768; 1024; 1280])
    by (repeat constructor; discriminate).
  assert (H2 : 1 <= Z.of_nat (length [512; 768; 1024; 1280]) <= MAX_TASKS)
    by (vm_compute; split; discriminate).
  split; [exact H1|]. split; [exact H2|]. split; [reflexivity|].
  destruct (example_main_boots 256 power_on _
              (mk_cpu (replicate 32 255) 2303 0 0) H1 H2 eq_refl)
    as (s1 & s2 & c & E1 & E2 & E3 & _ & Hn & _ & _ & _ & _ & _ & Hc & _
        & (f0 & Hf0 & Hpc) & _ & Hsreg & _).
  exists s1, s2, c. split; [exact E1|]. split; [exact E3|].
  split; [exact Hn|]. split; [exact Hc|].
  split; [injection Hf0 as <-; exact Hpc|]. split; [exact Hsreg|].
  assert (Hs1 : s1 = match add_all 256 [512; 768; 1024; 1280]
                             (scheduler_init power_on) with
                     | Done (_, x) => x | Stop _ => power_on end)
    by (by rewrite E1).
  assert (Hs2 : s2 = match scheduler_start s1 with
                     | Done x => x | Stop _ => power_on end)
    by (by rewrite E2).
  rewrite Hs2, Hs1. vm_compute. reflexivity.
Defined.

(** ** The ramp loops of the PWM example *)

Lemma task_delay_counts s n :
  wf s -> 1 <= task_count s -> n <> 0 ->
  exists s',
    task_delay n s = Done s' /\ wf s' /\ task_count s' = task_count s /\
    uint32 (voluntary_yields (debug_stats s')) =
      uint32 (voluntary_yields (debug_stats s) + 1).
Proof.
  intros Hwf Hn Hz.
  destruct (task_delay_runs s n Hwf Hn) as (s' & E & Hwf' & Hn' & Hv).
  exists s'. do 3 (split; [done|]). rewrite Hv.
  destruct (Z.eqb_spec n 0); [done|]. unfold uint32.
  by rewrite Z.mod_mod by lia.
Qed.

Lemma ramp_up_from (j : nat) :
  forall (fuel : nat) direction h s,
    (j <= 51)%nat -> (j < fuel)%nat -> wf s -> 1 <= task_count s ->
    exists h' s',
      Pwm.ramp_up fuel (255 - 5 * Z.of_nat j) direction (h, s)
        = Done (255, (h', s')) /\
      Pwm.OCR1A h' = (if decide (j = 0%nat) then Pwm.OCR1A h else 250) /\
      Pwm.PORTD h' = Pwm.PORTD h /\ Pwm.OCR1B h' = Pwm.OCR1B h /\
      wf s' /\ task_count s' = task_count s /\
      uint32 (voluntary_yields (debug_stats s')) =
        uint32 (voluntary_yields (debug_stats s) + Z.of_nat j).
Proof.
  induction j as [|j IH]; intros fuel direction h s Hj Hf Hwf Hn.
  - destruct fuel as [|fuel]; [lia|]. cbn [Pwm.ramp_up]. exists h, s.
    change (255 - 5 * Z.of_nat 0 <? Pwm.PWM_MAX) with false. cbv iota.
    split; [done|]. do 5 (split; [done|]). by rewrite Z.add_0_r.
  - destruct fuel as [|fuel]; [lia|]. cbn [Pwm.ramp_up]. unfold Pwm.PWM_MAX.
    destruct (Z.ltb_spec (255 - 5 * Z.of_nat (S j)) 255); [|lia].
    cbn [fst snd].
    destruct (task_delay_counts s 50 Hwf Hn ltac:(lia))
      as (s1 & E1 & Hwf1 & Hn1 & Hv1).
    rewrite E1, bind_ret.
    replace (uint8 (255 - 5 * Z.of_nat (S j) + 5)) with (255 - 5 * Z.of_nat j)
      by (rewrite uint8_small by lia; lia).
    destruct (IH fuel direction
                (Pwm.set_motor_a (255 - 5 * Z.of_nat (S j)) direction h) s1)
      as (h' & s' & E & Ho & Hd & Hb & Hwf' & Hn' & Hv); try lia; try done.
    exists h', s'. split; [done|]. split.
    { rewrite Ho. destruct (decide (S j = 0%nat)); [lia|].
      destruct (decide (j = 0%nat)) as [->|]; [|done]. reflexivity. }
    split; [by rewrite Hd|]. split; [by rewrite Hb|]. split; [done|].
    split; [lia|]. rewrite Hv. rewrite <- uint32_idem, Hv1, uint32_idem.
    f_equal. lia.
Qed.

Lemma ramp_down_from (j : nat) :
  forall (fuel : nat) direction h s,
    (j <= 51)%nat -> (j < fuel)%nat -> wf s -> 1 <= task_count s ->
    exists h' s',
      Pwm.ramp_down fuel (5 * Z.of_nat j) direction (h, s)
        = Done (0, (h', s')) /\
      Pwm.OCR1A h' = (if decide (j = 0%nat) then Pwm.OCR1A h else 5) /\
      Pwm.PORTD h' = Pwm.PORTD h /\ Pwm.OCR1B h' = Pwm.OCR1B h /\
      wf s' /\ task_count s' = task_count s /\
      uint32 (voluntary_yields (debug_stats s')) =
        uint32 (voluntary_yields (debug_stats s) + Z.of_nat j).
Proof.
  induction j as [|j IH]; intros fuel direction h s Hj Hf Hwf Hn.
  - destruct fuel as [|fuel]; [lia|]. cbn [Pwm.ramp_down]. exists h, s.
    change (0 <? 5 * Z.of_nat 0) with false. cbv iota.
    split; [done|]. do 5 (split; [done|]). by rewrite Z.add_0_r.
  - destruct fuel as [|fuel]; [lia|]. cbn [Pwm.ramp_down].
    destruct (Z.ltb_spec 0 (5 * Z.of_nat (S j))); [|lia].
    cbn [fst snd].
    destruct (task_delay_counts s 50 Hwf Hn ltac:(lia))
      as (s1 & E1 & Hwf1 & Hn1 & Hv1).
    rewrite E1, bind_ret.
    replace (uint8 (5 * Z.of_nat (S j) - 5)) with (5 * Z.of_nat j)
      by (rewrite uint8_small by lia; lia).
    destruct (IH fuel direction
                (Pwm.set_motor_a (5 * Z.of_nat (S j)) direction h) s1)
      as (h' & s' & E & Ho & Hd & Hb & Hwf' & Hn' & Hv); try lia; try done.
    exists h', s'. split; [done|]. split.
    { rewrite Ho. destruct (decide (S j = 0%nat)); [lia|].
      destruct (decide (j = 0%nat)) as [->|]; [|done]. reflexivity. }
    split; [by rewrite Hd|]. split; [by rewrite Hb|]. split; [done|].
    split; [lia|]. rewrite Hv. rewrite <- uint32_idem, Hv1, uint32_idem.
    f_equal. lia.
Qed.

(** X26: the ramp loops of the motor task end.  Their counter is a
    [uint8_t] stepped by 5 and compared with [PWM_MAX = 255] or with 0;
    since 255 is a multiple of 5 it reaches the bound without wrapping.  In
    a well-formed scheduler with a task registered, the ramp-up loop ends
    after 51 rounds with [speed = 255], the last duty cycle written being
    250 (the motor is never driven at [PWM_MAX] during the hold that
    follows); the ramp-down loop ends after 51 rounds with [speed = 0], the
    last duty cycle written being 5; and a whole round of the task returns
    with the duty cycle at 0, the direction inverted, motor B untouched and
    104 delays handed to the scheduler. *)
Theorem pwm_ramp_round (direction : Z) (h : Pwm.motor_io) (s : sched) :
  wf s -> 1 <= task_count s ->
  (exists h1 s1,
     Pwm.ramp_up Pwm.RAMP_FUEL 0 direction (h, s) = Done (255, (h1, s1)) /\
     Pwm.OCR1A h1 = 250 /\
     uint32 (voluntary_yields (debug_stats s1)) =
       uint32 (voluntary_yields (debug_stats s) + 51)) /\
  (exists h2 s2,
     Pwm.ramp_down Pwm.RAMP_FUEL Pwm.PWM_MAX direction (h, s)
       = Done (0, (h2, s2)) /\
     Pwm.OCR1A h2 = 5 /\
     uint32 (voluntary_yields (debug_stats s2)) =
       uint32 (voluntary_yields (debug_stats s) + 51)) /\
  (exists h3 s3,
     Pwm.motor_a_ramp_round direction (h, s)
       = Done (if direction =? 0 then 1 else 0, (h3, s3)) /\
     Pwm.OCR1A h3 = 0 /\
     Pwm.PORTD h3 = Pwm.PORTD h /\ Pwm.OCR1B h3 = Pwm.OCR1B h /\
     wf s3 /\ task_count s3 = task_count s /\
     uint32 (voluntary_yields (debug_stats s3)) =
       uint32 (voluntary_yields (debug_stats s) + 104)).
Proof.
  intros Hwf Hn.
  assert (Hup : forall h s, wf s -> 1 <= task_count s ->
    exists h' s',
      Pwm.ramp_up Pwm.RAMP_FUEL 0 direction (h, s) = Done (255, (h', s')) /\
      Pwm.OCR1A h' = 250 /\
      Pwm.PORTD h' = Pwm.PORTD h /\ Pwm.OCR1B h' = Pwm.OCR1B h /\
      wf s' /\ task_count s' = task_count s /\
      uint32 (voluntary_yields (debug_stats s')) =
        uint32 (voluntary_yields (debug_stats s) + 51)).
  { intros h0 t0 Hw0 Hn0.
    destruct (ramp_up_from 51 Pwm.RAMP_FUEL direction h0 t0)
      as (h' & s' & E & Ho & R); try done; unfold Pwm.RAMP_FUEL; try lia.
    exists h', s'. split; [exact E|]. split; [exact Ho | exact R]. }
  assert (Hdown : forall h s, wf s -> 1 <= task_count s ->
    exists h' s',
      Pwm.ramp_down Pwm.RAMP_FUEL Pwm.PWM_MAX direction (h, s)
        = Done (0, (h', s')) /\
      Pwm.OCR1A h' = 5 /\
      Pwm.PORTD h' = Pwm.PORTD h /\ Pwm.OCR1B h' = Pwm.OCR1B h /\
      wf s' /\ task_count s' = task_count s /\
      uint32 (voluntary_yields (debug_stats s')) =
        uint32 (voluntary_yields (debug_stats s) + 51)).
  { intros h0 t0 Hw0 Hn0.
    destruct (ramp_down_from 51 Pwm.RAMP_FUEL direction h0 t0)
      as (h' & s' & E & Ho & R); try done; unfold Pwm.RAMP_FUEL; try lia.
    exists h', s'. split; [exact E|]. split; [exact Ho | exact R]. }
  split; [|split].
  - destruct (Hup h s Hwf Hn) as (h' & s' & E & Ho & _ & _ & _ & _ & Hv).
    by exists h', s'.
  - destruct (Hdown h s Hwf Hn) as (h' & s' & E & Ho & _ & _ & _ & _ & Hv).
    by exists h', s'.
  - destruct (Hup h s Hwf Hn)
      as (h1 & s1 & E1 & _ & Hd1 & Hb1 & Hwf1 & Hn1 & Hv1).
    destruct (task_delay_counts s1 1000 Hwf1 ltac:(lia) ltac:(lia))
      as (s2 & E2 & Hwf2 & Hn2 & Hv2).
    destruct (Hdown h1 s2 Hwf2 ltac:(lia))
      as (h3 & s3 & E3 & _ & Hd3 & Hb3 & Hwf3 & Hn3 & Hv3).
    destruct (task_delay_counts s3 500 Hwf3 ltac:(lia) ltac:(lia))
      as (s4 & E4 & Hwf4 & Hn4 & Hv4).
    exists (Pwm.set_motor_a 0 direction h3), s4.
    unfold Pwm.motor_a_ramp_round.
    rewrite E1, bind_ret. cbn [fst snd]. rewrite E2, bind_ret, E3, bind_ret.
    cbn [fst snd]. rewrite E4, bind_ret.
    split; [done|]. split; [done|].
    split; [cbn [Pwm.PORTD Pwm.set_motor_a]; congruence|].
    split; [cbn [Pwm.OCR1B Pwm.set_motor_a]; congruence|].
    split; [done|]. split; [lia|].
    rewrite Hv4, <- uint32_idem, Hv3, uint32_idem.
    rewrite <- Z.add_assoc, <- uint32_idem, Hv2, uint32_idem.
    rewrite <- Z.add_assoc, <- uint32_idem, Hv1, uint32_idem.
    f_equal. lia.
Qed.

Lemma pwm_ramp_round_witness :
  wf two_tasks /\ 1 <= task_count two_tasks /\
  exists h3 s3,
    Pwm.motor_a_ramp_round 1 (Pwm.mk_motor 0 0 0 0, two_tasks)
      = Done (0, (h3, s3)) /\
    Pwm.OCR1A h3 = 0 /\
    uint32 (voluntary_yields (debug_stats s3)) = 104.
Proof.
  assert (H : 1 <= task_count two_tasks) by (vm_compute; discriminate).
  split; [apply two_tasks_wf|]. split; [exact H|].
  destruct (pwm_ramp_round 1 (Pwm.mk_motor 0 0 0 0) two_tasks two_tasks_wf H)
    as (_ & _ & h3 & s3 & E & Ho & _ & _ & _ & _ & Hv).
  exists h3, s3. split; [exact E|]. split; [exact Ho|].
  rewrite Hv. reflexivity.
Defined.

(** ** The loop of the exit handler *)








(** ** Scenarios *)

(** Two tasks A (id 0) and B (id 1): a yield from A makes B current, a
    second yield goes back to A; each counts as a switch and as a yield. *)
Example two_task_ping_pong :
  exists s1 s2,
    scheduler_yield two_tasks = Done s1 /\
    current_task s1 = 1 /\
    context_switches (debug_stats s1) = 1 /\
    voluntary_yields (debug_stats s1) = 1 /\
    scheduler_yield s1 = Done s2 /\
    current_task s2 = 0 /\
    context_switches (debug_stats s2) = 2.
Proof.
  pose proof (wf_dispatchable two_tasks two_tasks_wf) as Hd.
  pose proof (scheduler_yield_eq two_tasks (Hd ltac:(vm_compute; congruence)))
    as H1.
  eexists _, _. split; [exact H1|].
  split; [vm_compute; reflexivity|]. split; [vm_compute; reflexivity|].
  split; [vm_compute; reflexivity|].
  split; [vm_compute; reflexivity|].
  split; vm_compute; reflexivity.
Qed.

(** The order of the protocol matters: a yield issued before
    [scheduler_start] makes task 1 Running, and the start then makes task 0
    Running as well. *)
Example yield_before_start :
  count_running (after [EInit; EAdd 512; EAdd 768; EYield; EStart]) = 2%nat.
Proof. vm_compute. reflexivity. Qed.

(** The premise of the exit-handler result matters: a task that was resumed
    in the middle of a delay exits with a pending counter, and the tick
    handler later makes it Ready again. *)
Example exit_with_pending_delay :
  let s := after [EInit; EAdd 512; EAdd 768; EStart; EDelay 2;
                  ESuspend 0; EResume 0; EYield] in
  current_task s = 0 /\ state_at s 0 = Some TASK_RUNNING /\
  delay_at s 0 = Some 2 /\
  exists s',
    run 256 [EExit; ETick; ETick] s = Done s' /\
    state_at s' 0 = Some TASK_READY.
Proof.
  cbv zeta. split; [vm_compute; reflexivity|].
  split; [vm_compute; reflexivity|]. split; [vm_compute; reflexivity|].
  eexists. split; vm_compute; reflexivity.
Qed.

(** The initial context built by a registration: 37 bytes below the top of
    the stack, the stack pointer left at offset 90. *)
Example initial_context :
  exists t,
    tasks (after [EInit; EAdd 513]) !! 0%nat = Some t /\
    stack_pointer t = Some 90 /\
    drop 91 (stack t) =
      replicate 31 0 ++ [128; 0; 2; 1; 1; 0].
Proof. eexists. split; [vm_compute; reflexivity|]. split; reflexivity. Qed.
